(** * CLKernel: actor scheduler, module registry and sandbox engine

    A shallow embedding of the three core subsystems of CLKernel
    ([kernel/core/sandboxing.c], [kernel/core/modules.c] and
    [kernel/core/scheduler.c]) together with the properties stated about
    them in the kernel specification.

    Conventions.
    - A C object of unsigned type of width [w] is a [Z] kept in
      [0 .. 2^w - 1]; every arithmetic result is wrapped explicitly
      ([u8], [u16], [u32], [u64]).  The target is 32-bit x86, so [size_t]
      and pointers are 32 bits wide.
    - A fixed-size C array is a [list]; [a[i]] is [l !! i] and
      [a[i] = x] is [<[i:=x]> l].
    - A pointer into one of the static pools ([actor_pool], [message_pool],
      [module_pool], [sandboxes]) is the index of the slot it points to;
      [NULL] is [None].  A pointer to memory handed out by the external
      allocator is an address in [Z], [NULL] being [0].
    - The global variables of a translation unit are gathered in one
      record that every function takes and returns.
    - [kprintf] output is not part of the model. *)

From Stdlib Require Import ZArith String Ascii Lia.
From stdpp Require Import base option list.

Local Open Scope Z_scope.

(** ** Machine integers *)

Definition wrap (w : Z) (x : Z) : Z := x mod 2 ^ w.
Definition u8 (x : Z) : Z := wrap 8 x.
Definition u16 (x : Z) : Z := wrap 16 x.
Definition u32 (x : Z) : Z := wrap 32 x.
Definition u64 (x : Z) : Z := wrap 64 x.

(** Conversion of a 32-bit unsigned value to [int]. *)
Definition to_int32 (x : Z) : Z :=
  let y := u32 x in if y <? 2 ^ 31 then y else y - 2 ^ 32.

Definition UINT32_MAX : Z := 2 ^ 32 - 1.

(** ** Arrays *)

(** Index of the first element satisfying [p]: the loop
    [for (i = 0; i < N; i++) if (p(a[i])) { ...; break; }]. *)
Fixpoint find_index {A : Type} (p : A -> bool) (l : list A) : option nat :=
  match l with
  | [] => None
  | x :: l' => if p x then Some 0%nat else S <$> find_index p l'
  end.

(** In-place update of the slot a pointer refers to. *)
Definition update_at {A : Type} (i : nat) (f : A -> A) (l : list A) : list A :=
  match l !! i with
  | Some x => <[i:=f x]> l
  | None => l
  end.

(** ** C strings *)

Definition NUL : ascii := Ascii.zero.

(** [strncpy]-like loop of [sandboxing_log_violation]:
    [for (i = 0; i < n && src[i] != '\0'; i++) dst[i] = src[i];]
    on a destination buffer [dst]. *)
Fixpoint copy_chars (n : nat) (src : string) (dst : list ascii) : list ascii :=
  match n, src, dst with
  | S n', String c src', d :: dst' =>
      if Ascii.eqb c NUL then dst else c :: copy_chars n' src' dst'
  | _, _, _ => dst
  end.

(** The comparison loop of [sandboxing_check_function_call]:
    [match] stays true unless two characters differ before either string
    ends. *)
Fixpoint chars_agree (a b : string) : bool :=
  match a, b with
  | String x a', String y b' =>
      if Ascii.eqb x NUL || Ascii.eqb y NUL then true
      else if Ascii.eqb x y then chars_agree a' b' else false
  | _, _ => true
  end.

(** The name-copy loop of [module_load]:
    [while (len < n && src[len] != '\0') { dst[len] = src[len]; len++; }
     dst[len] = '\0';]
    A read past the end of [src] yields NUL. *)
Fixpoint copy_name (n : nat) (src dst : list ascii) : list ascii :=
  match dst with
  | [] => []
  | d :: dst' =>
      match n, src with
      | S n', c :: src' =>
          if Ascii.eqb c NUL then NUL :: dst' else c :: copy_name n' src' dst'
      | _, _ => NUL :: dst'
      end
  end.

(** The comparison loop of [module_find_by_name] over at most [n]
    characters:
    [if (a[i] != b[i]) { match = false; break; }
     if (a[i] == '\0' && b[i] == '\0') break;] *)
Fixpoint names_match (n : nat) (a b : list ascii) : bool :=
  match n with
  | O => true
  | S n' =>
      let x := hd NUL a in
      let y := hd NUL b in
      if negb (Ascii.eqb x y) then false
      else if Ascii.eqb x NUL then true
      else names_match n' (tl a) (tl b)
  end.

(** A C string literal laid out in a [char[n]] array, NUL padded. *)
Definition char_array (n : nat) (s : string) : list ascii :=
  take n (list_ascii_of_string s ++ replicate n NUL).

(** ** Calls into external code

    The byte allocator ([kmalloc], [kfree]) and the code of a loaded module
    are outside the three subsystems.  What they return is an argument of the
    function that calls them; the calls themselves are recorded, most recent
    first, in the [effects] of the state. *)
Inductive effect :=
  | Kmalloc (size addr : Z)
  | Kfree (addr : Z)
  | Store (addr : Z) (bytes : list Z)
  | Call (addr : Z).

(** * Sandbox engine ([sandboxing.c]) *)

Module Sandbox.

(** ** Constants of [sandboxing.h] *)

Definition MAX_SANDBOXES : Z := 32.
Definition MAX_CAPABILITIES : Z := 64.
Definition MAX_RESOURCE_LIMITS : Z := 16.
Definition MAX_VIOLATION_LOG : Z := 100.

Definition SANDBOX_LEVEL_UNRESTRICTED : Z := 0.
Definition SANDBOX_LEVEL_TRUSTED : Z := 1.
Definition SANDBOX_LEVEL_USER : Z := 2.
Definition SANDBOX_LEVEL_UNTRUSTED : Z := 3.
Definition SANDBOX_LEVEL_QUARANTINE : Z := 4.

Definition CAP_MEMORY_ALLOC : Z := 0x00000001.
Definition CAP_MEMORY_FREE : Z := 0x00000002.
Definition CAP_MEMORY_MAP : Z := 0x00000004.
Definition CAP_MEMORY_UNMAP : Z := 0x00000008.
Definition CAP_MEMORY_PROTECT : Z := 0x00000010.
Definition CAP_SCHEDULER_CREATE : Z := 0x00000020.
Definition CAP_SCHEDULER_DESTROY : Z := 0x00000040.
Definition CAP_SCHEDULER_MODIFY : Z := 0x00000080.
Definition CAP_SCHEDULER_SIGNAL : Z := 0x00000100.
Definition CAP_MODULE_LOAD : Z := 0x00000200.
Definition CAP_MODULE_UNLOAD : Z := 0x00000400.
Definition CAP_MODULE_QUERY : Z := 0x00000800.
Definition CAP_VGA_WRITE : Z := 0x00001000.
Definition CAP_VGA_CLEAR : Z := 0x00002000.
Definition CAP_VGA_CURSOR : Z := 0x00004000.
Definition CAP_HARDWARE_IO : Z := 0x00008000.
Definition CAP_INTERRUPT_HANDLE : Z := 0x00010000.
Definition CAP_TIMER_ACCESS : Z := 0x00020000.
Definition CAP_FILESYSTEM_READ : Z := 0x00040000.
Definition CAP_FILESYSTEM_WRITE : Z := 0x00080000.
Definition CAP_FILESYSTEM_CREATE : Z := 0x00100000.
Definition CAP_FILESYSTEM_DELETE : Z := 0x00200000.
Definition CAP_NETWORK_SEND : Z := 0x00400000.
Definition CAP_NETWORK_RECV : Z := 0x00800000.
Definition CAP_NETWORK_SOCKET : Z := 0x01000000.
Definition CAP_AI_QUERY : Z := 0x02000000.
Definition CAP_AI_CONFIGURE : Z := 0x04000000.
Definition CAP_DEBUG_ACCESS : Z := 0x08000000.
Definition CAP_SYSTEM_SHUTDOWN : Z := 0x10000000.
Definition CAP_SECURITY_OVERRIDE : Z := 0x20000000.

Definition RESOURCE_MEMORY : Z := 0.
Definition RESOURCE_CPU_TIME : Z := 1.
Definition RESOURCE_FILE_HANDLES : Z := 2.
Definition RESOURCE_NETWORK_CONN : Z := 3.
Definition RESOURCE_CHILD_ACTORS : Z := 4.
Definition RESOURCE_HEAP_ALLOCS : Z := 5.
Definition RESOURCE_MODULE_CALLS : Z := 6.
Definition RESOURCE_AI_QUERIES : Z := 7.

Definition VIOLATION_CAPABILITY : Z := 0.
Definition VIOLATION_RESOURCE : Z := 1.
Definition VIOLATION_MEMORY : Z := 2.
Definition VIOLATION_EXECUTION : Z := 3.
Definition VIOLATION_POLICY : Z := 4.

(** ** Data structures *)

Record resource_limit_t := {
  resource_type : Z;        (* uint8_t *)
  limit : Z;                (* uint32_t *)
  current_usage : Z;        (* uint32_t *)
  peak_usage : Z;           (* uint32_t *)
  enforce : bool
}.

Record security_violation_t := {
  violation_id : Z;             (* uint32_t *)
  timestamp : Z;                (* uint64_t *)
  v_module_id : Z;              (* uint32_t module_id *)
  violation_type : Z;           (* uint8_t *)
  attempted_capability : Z;     (* uint32_t *)
  attempted_resource : Z;       (* uint32_t *)
  description : list ascii;     (* char[128] *)
  action_taken : bool
}.

(** [limits] is the live prefix [limits[0 .. limit_count)] of the C array and
    [limit_count] its length: the slots past [limit_count] are never read, and
    a slot is written in full when [limit_count] grows over it. *)
Record sandbox_context_t := {
  sandbox_id : Z;               (* uint32_t *)
  module_id : Z;                (* uint32_t *)
  security_level : Z;           (* uint8_t *)
  active : bool;
  capabilities : Z;             (* uint32_t *)
  denied_capabilities : Z;      (* uint32_t *)
  limits : list resource_limit_t;
  memory_base : Z;              (* void* *)
  memory_size : Z;
  stack_base : Z;               (* void* *)
  stack_size : Z;
  function_calls : Z;           (* uint64_t *)
  memory_allocations : Z;       (* uint64_t *)
  capability_checks : Z;        (* uint64_t *)
  violations : Z;               (* uint64_t *)
  last_violation_id : Z;
  vm_enabled : bool;
  vm_context : Z;               (* void* *)
  vm_instruction_count : Z;
  vm_instruction_limit : Z
}.

Definition limit_count (sb : sandbox_context_t) : Z := Z.of_nat (length (limits sb)).

(** The file-scope globals [sandbox_system] and [sandboxing_initialized]. *)
Record sandboxing_system_state_t := {
  sandboxes : list sandbox_context_t;       (* [MAX_SANDBOXES] *)
  sandbox_count : Z;
  next_sandbox_id : Z;
  default_capabilities : list Z;            (* [5] *)
  strict_enforcement : bool;
  logging_enabled : bool;
  violation_log : list security_violation_t; (* violations[MAX_VIOLATION_LOG] *)
  violation_count : Z;
  violation_index : Z;
  next_violation_id : Z;
  total_capability_checks : Z;              (* uint64_t *)
  total_violations : Z;                     (* uint64_t *)
  total_enforcements : Z;                   (* uint64_t *)
  quarantined_modules : Z;                  (* uint32_t *)
  sandboxing_initialized : bool
}.

(** *** Field updates *)

Definition set_resource_limit_value (v : Z) (r : resource_limit_t) : resource_limit_t :=
  {| resource_type := resource_type r; limit := v; current_usage := current_usage r;
     peak_usage := peak_usage r; enforce := true |}.

Definition set_usage (u p : Z) (r : resource_limit_t) : resource_limit_t :=
  {| resource_type := resource_type r; limit := limit r; current_usage := u;
     peak_usage := p; enforce := enforce r |}.

Definition set_active (b : bool) (sb : sandbox_context_t) : sandbox_context_t :=
  {| sandbox_id := sandbox_id sb; module_id := module_id sb;
     security_level := security_level sb; active := b;
     capabilities := capabilities sb; denied_capabilities := denied_capabilities sb;
     limits := limits sb; memory_base := memory_base sb; memory_size := memory_size sb;
     stack_base := stack_base sb; stack_size := stack_size sb;
     function_calls := function_calls sb; memory_allocations := memory_allocations sb;
     capability_checks := capability_checks sb; violations := violations sb;
     last_violation_id := last_violation_id sb; vm_enabled := vm_enabled sb;
     vm_context := vm_context sb; vm_instruction_count := vm_instruction_count sb;
     vm_instruction_limit := vm_instruction_limit sb |}.

Definition set_caps (granted denied : Z) (sb : sandbox_context_t) : sandbox_context_t :=
  {| sandbox_id := sandbox_id sb; module_id := module_id sb;
     security_level := security_level sb; active := active sb;
     capabilities := granted; denied_capabilities := denied;
     limits := limits sb; memory_base := memory_base sb; memory_size := memory_size sb;
     stack_base := stack_base sb; stack_size := stack_size sb;
     function_calls := function_calls sb; memory_allocations := memory_allocations sb;
     capability_checks := capability_checks sb; violations := violations sb;
     last_violation_id := last_violation_id sb; vm_enabled := vm_enabled sb;
     vm_context := vm_context sb; vm_instruction_count := vm_instruction_count sb;
     vm_instruction_limit := vm_instruction_limit sb |}.

Definition set_security_level (lv : Z) (sb : sandbox_context_t) : sandbox_context_t :=
  {| sandbox_id := sandbox_id sb; module_id := module_id sb;
     security_level := lv; active := active sb;
     capabilities := capabilities sb; denied_capabilities := denied_capabilities sb;
     limits := limits sb; memory_base := memory_base sb; memory_size := memory_size sb;
     stack_base := stack_base sb; stack_size := stack_size sb;
     function_calls := function_calls sb; memory_allocations := memory_allocations sb;
     capability_checks := capability_checks sb; violations := violations sb;
     last_violation_id := last_violation_id sb; vm_enabled := vm_enabled sb;
     vm_context := vm_context sb; vm_instruction_count := vm_instruction_count sb;
     vm_instruction_limit := vm_instruction_limit sb |}.

Definition set_limits (ls : list resource_limit_t) (sb : sandbox_context_t) : sandbox_context_t :=
  {| sandbox_id := sandbox_id sb; module_id := module_id sb;
     security_level := security_level sb; active := active sb;
     capabilities := capabilities sb; denied_capabilities := denied_capabilities sb;
     limits := ls; memory_base := memory_base sb; memory_size := memory_size sb;
     stack_base := stack_base sb; stack_size := stack_size sb;
     function_calls := function_calls sb; memory_allocations := memory_allocations sb;
     capability_checks := capability_checks sb; violations := violations sb;
     last_violation_id := last_violation_id sb; vm_enabled := vm_enabled sb;
     vm_context := vm_context sb; vm_instruction_count := vm_instruction_count sb;
     vm_instruction_limit := vm_instruction_limit sb |}.

(** Counters of a sandbox: [function_calls], [capability_checks], [violations]. *)
Definition set_counters (fc cc vi : Z) (sb : sandbox_context_t) : sandbox_context_t :=
  {| sandbox_id := sandbox_id sb; module_id := module_id sb;
     security_level := security_level sb; active := active sb;
     capabilities := capabilities sb; denied_capabilities := denied_capabilities sb;
     limits := limits sb; memory_base := memory_base sb; memory_size := memory_size sb;
     stack_base := stack_base sb; stack_size := stack_size sb;
     function_calls := fc; memory_allocations := memory_allocations sb;
     capability_checks := cc; violations := vi;
     last_violation_id := last_violation_id sb; vm_enabled := vm_enabled sb;
     vm_context := vm_context sb; vm_instruction_count := vm_instruction_count sb;
     vm_instruction_limit := vm_instruction_limit sb |}.

Definition set_sandboxes (l : list sandbox_context_t) (s : sandboxing_system_state_t)
  : sandboxing_system_state_t :=
  {| sandboxes := l; sandbox_count := sandbox_count s;
     next_sandbox_id := next_sandbox_id s;
     default_capabilities := default_capabilities s;
     strict_enforcement := strict_enforcement s; logging_enabled := logging_enabled s;
     violation_log := violation_log s; violation_count := violation_count s;
     violation_index := violation_index s; next_violation_id := next_violation_id s;
     total_capability_checks := total_capability_checks s;
     total_violations := total_violations s;
     total_enforcements := total_enforcements s;
     quarantined_modules := quarantined_modules s;
     sandboxing_initialized := sandboxing_initialized s |}.

(** [sandbox_count] and [next_sandbox_id]. *)
Definition set_sandbox_ids (cnt next : Z) (s : sandboxing_system_state_t)
  : sandboxing_system_state_t :=
  {| sandboxes := sandboxes s; sandbox_count := cnt; next_sandbox_id := next;
     default_capabilities := default_capabilities s;
     strict_enforcement := strict_enforcement s; logging_enabled := logging_enabled s;
     violation_log := violation_log s; violation_count := violation_count s;
     violation_index := violation_index s; next_violation_id := next_violation_id s;
     total_capability_checks := total_capability_checks s;
     total_violations := total_violations s;
     total_enforcements := total_enforcements s;
     quarantined_modules := quarantined_modules s;
     sandboxing_initialized := sandboxing_initialized s |}.

Definition set_default_capabilities (d : list Z) (s : sandboxing_system_state_t)
  : sandboxing_system_state_t :=
  {| sandboxes := sandboxes s; sandbox_count := sandbox_count s;
     next_sandbox_id := next_sandbox_id s;
     default_capabilities := d;
     strict_enforcement := strict_enforcement s; logging_enabled := logging_enabled s;
     violation_log := violation_log s; violation_count := violation_count s;
     violation_index := violation_index s; next_violation_id := next_violation_id s;
     total_capability_checks := total_capability_checks s;
     total_violations := total_violations s;
     total_enforcements := total_enforcements s;
     quarantined_modules := quarantined_modules s;
     sandboxing_initialized := sandboxing_initialized s |}.

Definition set_strict_enforcement (b : bool) (s : sandboxing_system_state_t)
  : sandboxing_system_state_t :=
  {| sandboxes := sandboxes s; sandbox_count := sandbox_count s;
     next_sandbox_id := next_sandbox_id s;
     default_capabilities := default_capabilities s;
     strict_enforcement := b; logging_enabled := logging_enabled s;
     violation_log := violation_log s; violation_count := violation_count s;
     violation_index := violation_index s; next_violation_id := next_violation_id s;
     total_capability_checks := total_capability_checks s;
     total_violations := total_violations s;
     total_enforcements := total_enforcements s;
     quarantined_modules := quarantined_modules s;
     sandboxing_initialized := sandboxing_initialized s |}.

(** The violation ring and its cursors. *)
Definition set_violation_log (l : list security_violation_t) (cnt idx next total : Z)
  (s : sandboxing_system_state_t) : sandboxing_system_state_t :=
  {| sandboxes := sandboxes s; sandbox_count := sandbox_count s;
     next_sandbox_id := next_sandbox_id s;
     default_capabilities := default_capabilities s;
     strict_enforcement := strict_enforcement s; logging_enabled := logging_enabled s;
     violation_log := l; violation_count := cnt;
     violation_index := idx; next_violation_id := next;
     total_capability_checks := total_capability_checks s;
     total_violations := total;
     total_enforcements := total_enforcements s;
     quarantined_modules := quarantined_modules s;
     sandboxing_initialized := sandboxing_initialized s |}.

Definition set_total_capability_checks (n : Z) (s : sandboxing_system_state_t)
  : sandboxing_system_state_t :=
  {| sandboxes := sandboxes s; sandbox_count := sandbox_count s;
     next_sandbox_id := next_sandbox_id s;
     default_capabilities := default_capabilities s;
     strict_enforcement := strict_enforcement s; logging_enabled := logging_enabled s;
     violation_log := violation_log s; violation_count := violation_count s;
     violation_index := violation_index s; next_violation_id := next_violation_id s;
     total_capability_checks := n;
     total_violations := total_violations s;
     total_enforcements := total_enforcements s;
     quarantined_modules := quarantined_modules s;
     sandboxing_initialized := sandboxing_initialized s |}.

Definition set_quarantined_modules (n : Z) (s : sandboxing_system_state_t)
  : sandboxing_system_state_t :=
  {| sandboxes := sandboxes s; sandbox_count := sandbox_count s;
     next_sandbox_id := next_sandbox_id s;
     default_capabilities := default_capabilities s;
     strict_enforcement := strict_enforcement s; logging_enabled := logging_enabled s;
     violation_log := violation_log s; violation_count := violation_count s;
     violation_index := violation_index s; next_violation_id := next_violation_id s;
     total_capability_checks := total_capability_checks s;
     total_violations := total_violations s;
     total_enforcements := total_enforcements s;
     quarantined_modules := n;
     sandboxing_initialized := sandboxing_initialized s |}.

Definition set_initialized (b : bool) (s : sandboxing_system_state_t)
  : sandboxing_system_state_t :=
  {| sandboxes := sandboxes s; sandbox_count := sandbox_count s;
     next_sandbox_id := next_sandbox_id s;
     default_capabilities := default_capabilities s;
     strict_enforcement := strict_enforcement s; logging_enabled := logging_enabled s;
     violation_log := violation_log s; violation_count := violation_count s;
     violation_index := violation_index s; next_violation_id := next_violation_id s;
     total_capability_checks := total_capability_checks s;
     total_violations := total_violations s;
     total_enforcements := total_enforcements s;
     quarantined_modules := quarantined_modules s;
     sandboxing_initialized := b |}.

(** Update of the sandbox a pointer refers to. *)
Definition on_sandbox (i : nat) (f : sandbox_context_t -> sandbox_context_t)
  (s : sandboxing_system_state_t) : sandboxing_system_state_t :=
  set_sandboxes (update_at i f (sandboxes s)) s.

(** ** Initial memory image

    The globals have static storage duration, so every byte is zero before
    [sandboxing_init] runs. *)

Definition zero_limit : resource_limit_t :=
  {| resource_type := 0; limit := 0; current_usage := 0; peak_usage := 0;
     enforce := false |}.

Definition zero_violation : security_violation_t :=
  {| violation_id := 0; timestamp := 0; v_module_id := 0; violation_type := 0;
     attempted_capability := 0; attempted_resource := 0;
     description := replicate 128 NUL; action_taken := false |}.

Definition zero_sandbox : sandbox_context_t :=
  {| sandbox_id := 0; module_id := 0; security_level := 0; active := false;
     capabilities := 0; denied_capabilities := 0; limits := [];
     memory_base := 0; memory_size := 0; stack_base := 0; stack_size := 0;
     function_calls := 0; memory_allocations := 0; capability_checks := 0;
     violations := 0; last_violation_id := 0; vm_enabled := false;
     vm_context := 0; vm_instruction_count := 0; vm_instruction_limit := 0 |}.

Definition boot_state : sandboxing_system_state_t :=
  {| sandboxes := replicate (Z.to_nat MAX_SANDBOXES) zero_sandbox;
     sandbox_count := 0; next_sandbox_id := 0;
     default_capabilities := replicate 5 0;
     strict_enforcement := false; logging_enabled := false;
     violation_log := replicate (Z.to_nat MAX_VIOLATION_LOG) zero_violation;
     violation_count := 0; violation_index := 0; next_violation_id := 0;
     total_capability_checks := 0; total_violations := 0;
     total_enforcements := 0; quarantined_modules := 0;
     sandboxing_initialized := false |}.

(** [*p] for a pointer [p] into [sandbox_system.sandboxes]. *)
Definition sandbox_at (i : nat) (s : sandboxing_system_state_t) : sandbox_context_t :=
  default zero_sandbox (sandboxes s !! i).

(** ** Functions *)

(** [sandboxing_init_default_policies] *)
Definition sandboxing_init_default_policies (s : sandboxing_system_state_t)
  : Z * sandboxing_system_state_t :=
  let d0 := default_capabilities s in
  let d1 := <[Z.to_nat SANDBOX_LEVEL_UNRESTRICTED := 0xFFFFFFFF]> d0 in
  let d2 := <[Z.to_nat SANDBOX_LEVEL_TRUSTED :=
      Z.lor CAP_MEMORY_ALLOC (Z.lor CAP_MEMORY_FREE (Z.lor CAP_SCHEDULER_CREATE
      (Z.lor CAP_SCHEDULER_SIGNAL (Z.lor CAP_MODULE_QUERY (Z.lor CAP_VGA_WRITE
      (Z.lor CAP_VGA_CLEAR (Z.lor CAP_TIMER_ACCESS
      (Z.lor CAP_AI_QUERY CAP_DEBUG_ACCESS))))))))]> d1 in
  let d3 := <[Z.to_nat SANDBOX_LEVEL_USER :=
      Z.lor CAP_MEMORY_ALLOC (Z.lor CAP_MEMORY_FREE (Z.lor CAP_SCHEDULER_SIGNAL
      (Z.lor CAP_MODULE_QUERY (Z.lor CAP_VGA_WRITE
      (Z.lor CAP_TIMER_ACCESS CAP_AI_QUERY)))))]> d2 in
  let d4 := <[Z.to_nat SANDBOX_LEVEL_UNTRUSTED :=
      Z.lor CAP_MEMORY_ALLOC (Z.lor CAP_MEMORY_FREE CAP_MODULE_QUERY)]> d3 in
  let d5 := <[Z.to_nat SANDBOX_LEVEL_QUARANTINE := CAP_MODULE_QUERY]> d4 in
  (0, set_default_capabilities d5 s).

(** [sandboxing_init] *)
Definition sandboxing_init (s : sandboxing_system_state_t)
  : Z * sandboxing_system_state_t :=
  let s1 :=
    {| sandboxes := set_active false <$> sandboxes s;
       sandbox_count := 0; next_sandbox_id := 1;
       default_capabilities := default_capabilities s;
       strict_enforcement := true; logging_enabled := true;
       violation_log := violation_log s;
       violation_count := 0; violation_index := 0; next_violation_id := 1;
       total_capability_checks := 0; total_violations := 0;
       total_enforcements := 0; quarantined_modules := 0;
       sandboxing_initialized := sandboxing_initialized s |} in
  let s2 := snd (sandboxing_init_default_policies s1) in
  (0, set_initialized true s2).

(** [sandboxing_find_sandbox_by_module] *)
Definition sandboxing_find_sandbox_by_module (mid : Z) (s : sandboxing_system_state_t)
  : option nat :=
  if negb (sandboxing_initialized s) then None
  else find_index (fun sb => active sb && (module_id sb =? mid)) (sandboxes s).

(** [sandboxing_get_sandbox] *)
Definition sandboxing_get_sandbox (mid : Z) (s : sandboxing_system_state_t) : option nat :=
  sandboxing_find_sandbox_by_module mid s.

(** [sandboxing_log_violation].  The entry is stored at
    [violations[violation_index]]; the description is copied over the bytes
    already in the slot and only byte 127 is set to NUL. *)
Definition sandboxing_log_violation (mid vtype capability : Z) (desc : option string)
  (s : sandboxing_system_state_t) : sandboxing_system_state_t :=
  if negb (logging_enabled s) then s
  else
    let idx := Z.to_nat (violation_index s) in
    let old := default zero_violation (violation_log s !! idx) in
    let text :=
      match desc with
      | Some d => <[127%nat := NUL]> (copy_chars 127 d (description old))
      | None => <[0%nat := NUL]> (description old)
      end in
    let entry :=
      {| violation_id := next_violation_id s; timestamp := 0; v_module_id := mid;
         violation_type := vtype; attempted_capability := capability;
         attempted_resource := 0; description := text; action_taken := false |} in
    set_violation_log
      (<[idx := entry]> (violation_log s))
      (if violation_count s <? MAX_VIOLATION_LOG
       then u32 (violation_count s + 1) else violation_count s)
      (u32 (violation_index s + 1) mod MAX_VIOLATION_LOG)
      (u32 (next_violation_id s + 1))
      (u64 (total_violations s + 1))
      s.

(** [sandboxing_set_resource_limit] *)
Definition sandboxing_set_resource_limit (mid rtype lim : Z)
  (s : sandboxing_system_state_t) : Z * sandboxing_system_state_t :=
  if negb (sandboxing_initialized s) then (-1, s)
  else match sandboxing_find_sandbox_by_module mid s with
  | None => (-2, s)
  | Some i =>
      if MAX_RESOURCE_LIMITS <=? rtype then (-3, s)
      else
        let sb := sandbox_at i s in
        match find_index (fun r => resource_type r =? rtype) (limits sb) with
        | Some k =>
            (0, on_sandbox i (fun sb =>
                  set_limits (update_at k (set_resource_limit_value lim) (limits sb)) sb) s)
        | None =>
            if limit_count sb <? MAX_RESOURCE_LIMITS then
              let fresh :=
                {| resource_type := rtype; limit := lim; current_usage := 0;
                   peak_usage := 0; enforce := true |} in
              (0, on_sandbox i (fun sb => set_limits (limits sb ++ [fresh]) sb) s)
            else (-4, s)
        end
  end.

(** [sandboxing_get_resource_usage] *)
Definition sandboxing_get_resource_usage (mid rtype : Z) (s : sandboxing_system_state_t)
  : Z :=
  if negb (sandboxing_initialized s) then 0
  else match sandboxing_find_sandbox_by_module mid s with
  | None => 0
  | Some i =>
      match List.find (fun r => resource_type r =? rtype) (limits (sandbox_at i s)) with
      | Some r => current_usage r
      | None => 0
      end
  end.

(** [sandboxing_check_resource_limit] *)
Definition sandboxing_check_resource_limit (mid rtype requested : Z)
  (s : sandboxing_system_state_t) : bool * sandboxing_system_state_t :=
  if negb (sandboxing_initialized s) then (true, s)
  else match sandboxing_find_sandbox_by_module mid s with
  | None => (true, s)
  | Some i =>
      match List.find (fun r => resource_type r =? rtype) (limits (sandbox_at i s)) with
      | Some r =>
          if negb (enforce r) then (true, s)
          else if limit r <? u32 (current_usage r + requested) then
            (false, sandboxing_log_violation mid VIOLATION_RESOURCE rtype
                      (Some "Resource limit exceeded"%string) s)
          else (true, s)
      | None => (true, s)
      end
  end.

(** The body of the loop of [sandboxing_update_resource_usage] on the limit
    record it finds; [delta] is an [int32_t]. *)
Definition charge (delta : Z) (r : resource_limit_t) : resource_limit_t :=
  let usage :=
    if (delta <? 0) && (current_usage r <? u32 (- delta)) then 0
    else u32 (current_usage r + delta) in
  set_usage usage (if peak_usage r <? usage then usage else peak_usage r) r.

(** [sandboxing_update_resource_usage] *)
Definition sandboxing_update_resource_usage (mid rtype delta : Z)
  (s : sandboxing_system_state_t) : Z * sandboxing_system_state_t :=
  if negb (sandboxing_initialized s) then (0, s)
  else match sandboxing_find_sandbox_by_module mid s with
  | None => (0, s)
  | Some i =>
      match find_index (fun r => resource_type r =? rtype) (limits (sandbox_at i s)) with
      | Some k =>
          (0, on_sandbox i (fun sb =>
                set_limits (update_at k (charge delta) (limits sb)) sb) s)
      | None => (-1, s)
      end
  end.

(** [sandboxing_has_capability] *)
Definition sandboxing_has_capability (mid capability : Z)
  (s : sandboxing_system_state_t) : bool * sandboxing_system_state_t :=
  if negb (sandboxing_initialized s) then (true, s)
  else match sandboxing_find_sandbox_by_module mid s with
  | None => (true, s)
  | Some i =>
      let s1 := on_sandbox i (fun sb =>
                  set_counters (function_calls sb) (u64 (capability_checks sb + 1))
                               (violations sb) sb) s in
      let s2 := set_total_capability_checks (u64 (total_capability_checks s1 + 1)) s1 in
      let sb := sandbox_at i s2 in
      if negb (Z.land (denied_capabilities sb) capability =? 0) then
        (false, sandboxing_log_violation mid VIOLATION_CAPABILITY capability
                  (Some "Capability explicitly denied"%string) s2)
      else
        let has_cap := negb (Z.land (capabilities sb) capability =? 0) in
        (has_cap,
         if has_cap then s2
         else sandboxing_log_violation mid VIOLATION_CAPABILITY capability
                (Some "Capability not granted"%string) s2)
  end.

(** [sandboxing_grant_capability] *)
Definition sandboxing_grant_capability (mid capability : Z)
  (s : sandboxing_system_state_t) : Z * sandboxing_system_state_t :=
  if negb (sandboxing_initialized s) then (-1, s)
  else match sandboxing_find_sandbox_by_module mid s with
  | None => (-2, s)
  | Some i =>
      (0, on_sandbox i (fun sb =>
            set_caps (Z.lor (capabilities sb) capability)
                     (Z.land (denied_capabilities sb) (u32 (Z.lnot capability))) sb) s)
  end.

(** [sandboxing_revoke_capability] *)
Definition sandboxing_revoke_capability (mid capability : Z)
  (s : sandboxing_system_state_t) : Z * sandboxing_system_state_t :=
  if negb (sandboxing_initialized s) then (-1, s)
  else match sandboxing_find_sandbox_by_module mid s with
  | None => (-2, s)
  | Some i =>
      (0, on_sandbox i (fun sb =>
            set_caps (Z.land (capabilities sb) (u32 (Z.lnot capability)))
                     (Z.lor (denied_capabilities sb) capability) sb) s)
  end.

(** [sandboxing_set_capabilities] *)
Definition sandboxing_set_capabilities (mid caps : Z)
  (s : sandboxing_system_state_t) : Z * sandboxing_system_state_t :=
  if negb (sandboxing_initialized s) then (-1, s)
  else match sandboxing_find_sandbox_by_module mid s with
  | None => (-2, s)
  | Some i => (0, on_sandbox i (set_caps caps 0) s)
  end.

(** [sandboxing_check_memory_access]; [address] is the pointer value. *)
Definition sandboxing_check_memory_access (mid address size : Z) (write : bool)
  (s : sandboxing_system_state_t) : bool * sandboxing_system_state_t :=
  if negb (sandboxing_initialized s) then (true, s)
  else match sandboxing_find_sandbox_by_module mid s with
  | None => (true, s)
  | Some _ =>
      let required_cap := if write then CAP_MEMORY_ALLOC else CAP_MEMORY_ALLOC in
      let '(ok, s1) := sandboxing_has_capability mid required_cap s in
      if negb ok then (false, s1)
      else if (address =? 0) || (size =? 0) then
        (false, sandboxing_log_violation mid VIOLATION_MEMORY 0
                  (Some "Invalid memory access parameters"%string) s1)
      else (true, s1)
  end.

(** The deny-list of [sandboxing_check_function_call]. *)
Definition restricted_funcs : list string :=
  ["system"; "exec"; "fork"; "kill"; "reboot"; "shutdown"]%string.

(** [sandboxing_check_function_call]; [function_name] may be [NULL]. *)
Definition sandboxing_check_function_call (mid : Z) (function_name : option string)
  (s : sandboxing_system_state_t) : bool * sandboxing_system_state_t :=
  if negb (sandboxing_initialized s) then (true, s)
  else match sandboxing_find_sandbox_by_module mid s with
  | None => (true, s)
  | Some i =>
      let s1 := on_sandbox i (fun sb =>
                  set_counters (u64 (function_calls sb + 1)) (capability_checks sb)
                               (violations sb) sb) s in
      let s2 := snd (sandboxing_update_resource_usage mid RESOURCE_MODULE_CALLS 1 s1) in
      let '(ok, s3) := sandboxing_check_resource_limit mid RESOURCE_MODULE_CALLS 0 s2 in
      if negb ok then (false, s3)
      else match function_name with
      | Some name =>
          if existsb (fun restricted => chars_agree name restricted) restricted_funcs
          then (false, sandboxing_log_violation mid VIOLATION_EXECUTION 0
                         (Some "Restricted function call"%string) s3)
          else (true, s3)
      | None => (true, s3)
      end
  end.

(** [sandboxing_quarantine_module] *)
Definition sandboxing_quarantine_module (mid : Z) (s : sandboxing_system_state_t)
  : Z * sandboxing_system_state_t :=
  if negb (sandboxing_initialized s) then (-1, s)
  else match sandboxing_find_sandbox_by_module mid s with
  | None => (-2, s)
  | Some i =>
      let quarantine_caps :=
        default 0 (default_capabilities s !! Z.to_nat SANDBOX_LEVEL_QUARANTINE) in
      let s1 := on_sandbox i (fun sb =>
                  set_caps quarantine_caps (denied_capabilities sb)
                    (set_security_level SANDBOX_LEVEL_QUARANTINE sb)) s in
      let s2 := snd (sandboxing_set_resource_limit mid RESOURCE_MEMORY (256 * 1024) s1) in
      let s3 := snd (sandboxing_set_resource_limit mid RESOURCE_CHILD_ACTORS 0 s2) in
      let s4 := snd (sandboxing_set_resource_limit mid RESOURCE_HEAP_ALLOCS 1 s3) in
      let s5 := snd (sandboxing_set_resource_limit mid RESOURCE_MODULE_CALLS 10 s4) in
      (0, set_quarantined_modules (u32 (quarantined_modules s5 + 1)) s5)
  end.

(** [sandboxing_handle_violation] *)
Definition sandboxing_handle_violation (mid vtype : Z) (desc : option string)
  (s : sandboxing_system_state_t) : Z * sandboxing_system_state_t :=
  if negb (sandboxing_initialized s) then (-1, s)
  else
    let sandbox := sandboxing_find_sandbox_by_module mid s in
    let s1 :=
      match sandbox with
      | Some i => on_sandbox i (fun sb =>
                    set_counters (function_calls sb) (capability_checks sb)
                                 (u64 (violations sb + 1)) sb) s
      | None => s
      end in
    let s2 := sandboxing_log_violation mid vtype 0 desc s1 in
    if strict_enforcement s2 then
      if (vtype =? VIOLATION_CAPABILITY) || (vtype =? VIOLATION_EXECUTION) then
        match sandbox with
        | Some i =>
            if 5 <? violations (sandbox_at i s2)
            then (0, snd (sandboxing_quarantine_module mid s2))
            else (0, s2)
        | None => (0, s2)
        end
      else (0, s2)
    else (0, s2).

(** [sandboxing_enable_strict_mode] *)
Definition sandboxing_enable_strict_mode (enabled : bool) (s : sandboxing_system_state_t)
  : Z * sandboxing_system_state_t :=
  if negb (sandboxing_initialized s) then (-1, s)
  else (0, set_strict_enforcement enabled s).

(** The default limits [sandboxing_create_sandbox] installs for a level. *)
Definition default_limits (level : Z) : list (Z * Z) :=
  if level =? SANDBOX_LEVEL_TRUSTED then
    [(RESOURCE_MEMORY, 4 * 1024 * 1024); (RESOURCE_CHILD_ACTORS, 10);
     (RESOURCE_HEAP_ALLOCS, 1000)]
  else if level =? SANDBOX_LEVEL_USER then
    [(RESOURCE_MEMORY, 2 * 1024 * 1024); (RESOURCE_CHILD_ACTORS, 5);
     (RESOURCE_HEAP_ALLOCS, 500); (RESOURCE_MODULE_CALLS, 1000)]
  else if level =? SANDBOX_LEVEL_UNTRUSTED then
    [(RESOURCE_MEMORY, 1 * 1024 * 1024); (RESOURCE_CHILD_ACTORS, 2);
     (RESOURCE_HEAP_ALLOCS, 100); (RESOURCE_MODULE_CALLS, 500);
     (RESOURCE_AI_QUERIES, 10)]
  else if level =? SANDBOX_LEVEL_QUARANTINE then
    [(RESOURCE_MEMORY, 512 * 1024); (RESOURCE_CHILD_ACTORS, 0);
     (RESOURCE_HEAP_ALLOCS, 10); (RESOURCE_MODULE_CALLS, 100)]
  else [].

(** The calls to [sandboxing_set_resource_limit] of one [case] of the switch,
    in order. *)
Definition apply_limits (mid : Z) (ls : list (Z * Z)) (s : sandboxing_system_state_t)
  : sandboxing_system_state_t :=
  fold_left (fun s rl => snd (sandboxing_set_resource_limit mid (fst rl) (snd rl) s)) ls s.

(** [sandboxing_create_sandbox] *)
Definition sandboxing_create_sandbox (mid level : Z) (s : sandboxing_system_state_t)
  : Z * sandboxing_system_state_t :=
  if negb (sandboxing_initialized s) then (-1, s)
  else if MAX_SANDBOXES <=? sandbox_count s then (-2, s)
  else if SANDBOX_LEVEL_QUARANTINE <? level then (-3, s)
  else match sandboxing_find_sandbox_by_module mid s with
  | Some _ => (-4, s)
  | None =>
      match find_index (fun sb => negb (active sb)) (sandboxes s) with
      | None => (-5, s)
      | Some i =>
          let sid := next_sandbox_id s in
          let s1 := set_sandbox_ids (sandbox_count s) (u32 (next_sandbox_id s + 1)) s in
          let init := fun sb : sandbox_context_t =>
            {| sandbox_id := sid; module_id := mid; security_level := level;
               active := true;
               capabilities := default 0 (default_capabilities s !! Z.to_nat level);
               denied_capabilities := 0; limits := [];
               memory_base := memory_base sb; memory_size := memory_size sb;
               stack_base := stack_base sb; stack_size := stack_size sb;
               function_calls := function_calls sb;
               memory_allocations := memory_allocations sb;
               capability_checks := capability_checks sb;
               violations := violations sb;
               last_violation_id := last_violation_id sb;
               vm_enabled := vm_enabled sb; vm_context := vm_context sb;
               vm_instruction_count := vm_instruction_count sb;
               vm_instruction_limit := vm_instruction_limit sb |} in
          let s2 := on_sandbox i init s1 in
          let s3 := apply_limits mid (default_limits level) s2 in
          let finish := fun sb : sandbox_context_t =>
            {| sandbox_id := sandbox_id sb; module_id := module_id sb;
               security_level := security_level sb; active := active sb;
               capabilities := capabilities sb;
               denied_capabilities := denied_capabilities sb; limits := limits sb;
               memory_base := 0; memory_size := 0; stack_base := 0; stack_size := 0;
               function_calls := 0; memory_allocations := 0; capability_checks := 0;
               violations := 0; last_violation_id := 0;
               vm_enabled := false; vm_context := 0;
               vm_instruction_count := 0; vm_instruction_limit := 1000000 |} in
          let s4 := on_sandbox i finish s3 in
          let s5 := set_sandbox_ids (u32 (sandbox_count s4 + 1)) (next_sandbox_id s4) s4 in
          (to_int32 sid, s5)
      end
  end.

(** [sandboxing_disable_vm] is declared in [sandboxing.h] and called by
    [sandboxing_destroy_sandbox], but the repository does not define it: it is
    a parameter of the two functions that can reach it. *)
Section WithVM.

Variable sandboxing_disable_vm :
  Z -> sandboxing_system_state_t -> Z * sandboxing_system_state_t.

(** [sandboxing_destroy_sandbox] *)
Definition sandboxing_destroy_sandbox (sid : Z) (s : sandboxing_system_state_t)
  : Z * sandboxing_system_state_t :=
  if negb (sandboxing_initialized s) then (-1, s)
  else match find_index (fun sb => active sb && (sandbox_id sb =? sid)) (sandboxes s) with
  | None => (-2, s)
  | Some i =>
      let sb := sandbox_at i s in
      let s1 := if vm_enabled sb then snd (sandboxing_disable_vm (module_id sb) s) else s in
      let s2 := on_sandbox i (set_active false) s1 in
      (0, set_sandbox_ids (u32 (sandbox_count s2 - 1)) (next_sandbox_id s2) s2)
  end.

(** [sandboxing_shutdown] *)
Definition sandboxing_shutdown (s : sandboxing_system_state_t)
  : sandboxing_system_state_t :=
  if negb (sandboxing_initialized s) then s
  else
    let s1 :=
      fold_left (fun s i =>
                   let sb := sandbox_at i s in
                   if active sb then snd (sandboxing_destroy_sandbox (sandbox_id sb) s)
                   else s)
                (seq 0 (Z.to_nat MAX_SANDBOXES)) s in
    set_initialized false s1.

End WithVM.

(** ** The interface as a transition system *)

Inductive call :=
  | CInit
  | CShutdown
  | CInitDefaultPolicies
  | CCreateSandbox (mid level : Z)
  | CDestroySandbox (sid : Z)
  | CHasCapability (mid capability : Z)
  | CGrantCapability (mid capability : Z)
  | CRevokeCapability (mid capability : Z)
  | CSetCapabilities (mid caps : Z)
  | CSetResourceLimit (mid rtype lim : Z)
  | CCheckResourceLimit (mid rtype requested : Z)
  | CUpdateResourceUsage (mid rtype delta : Z)
  | CCheckMemoryAccess (mid address size : Z) (write : bool)
  | CCheckFunctionCall (mid : Z) (function_name : option string)
  | CHandleViolation (mid vtype : Z) (desc : option string)
  | CLogViolation (mid vtype capability : Z) (desc : option string)
  | CQuarantineModule (mid : Z)
  | CEnableStrictMode (enabled : bool).

Definition is_u8 (x : Z) : Prop := 0 <= x < 2 ^ 8.
Definition is_u32 (x : Z) : Prop := 0 <= x < 2 ^ 32.
Definition is_i32 (x : Z) : Prop := - 2 ^ 31 <= x < 2 ^ 31.

(** The arguments of a call are values of their C types. *)
Definition well_typed (c : call) : Prop :=
  match c with
  | CInit | CShutdown | CInitDefaultPolicies | CEnableStrictMode _ => True
  | CCreateSandbox mid level => is_u32 mid /\ is_u8 level
  | CDestroySandbox sid => is_u32 sid
  | CHasCapability mid cap | CGrantCapability mid cap | CRevokeCapability mid cap
  | CSetCapabilities mid cap => is_u32 mid /\ is_u32 cap
  | CSetResourceLimit mid rtype lim => is_u32 mid /\ is_u8 rtype /\ is_u32 lim
  | CCheckResourceLimit mid rtype req => is_u32 mid /\ is_u8 rtype /\ is_u32 req
  | CUpdateResourceUsage mid rtype delta => is_u32 mid /\ is_u8 rtype /\ is_i32 delta
  | CCheckMemoryAccess mid address size _ => is_u32 mid /\ is_u32 address /\ is_u32 size
  | CCheckFunctionCall mid _ => is_u32 mid
  | CHandleViolation mid vtype _ => is_u32 mid /\ is_u8 vtype
  | CLogViolation mid vtype cap _ => is_u32 mid /\ is_u8 vtype /\ is_u32 cap
  | CQuarantineModule mid => is_u32 mid
  end.

Section Transitions.

Variable sandboxing_disable_vm :
  Z -> sandboxing_system_state_t -> Z * sandboxing_system_state_t.

Definition run (c : call) (s : sandboxing_system_state_t) : sandboxing_system_state_t :=
  match c with
  | CInit => snd (sandboxing_init s)
  | CShutdown => sandboxing_shutdown sandboxing_disable_vm s
  | CInitDefaultPolicies => snd (sandboxing_init_default_policies s)
  | CCreateSandbox mid level => snd (sandboxing_create_sandbox mid level s)
  | CDestroySandbox sid => snd (sandboxing_destroy_sandbox sandboxing_disable_vm sid s)
  | CHasCapability mid cap => snd (sandboxing_has_capability mid cap s)
  | CGrantCapability mid cap => snd (sandboxing_grant_capability mid cap s)
  | CRevokeCapability mid cap => snd (sandboxing_revoke_capability mid cap s)
  | CSetCapabilities mid caps => snd (sandboxing_set_capabilities mid caps s)
  | CSetResourceLimit mid rtype lim => snd (sandboxing_set_resource_limit mid rtype lim s)
  | CCheckResourceLimit mid rtype req =>
      snd (sandboxing_check_resource_limit mid rtype req s)
  | CUpdateResourceUsage mid rtype delta =>
      snd (sandboxing_update_resource_usage mid rtype delta s)
  | CCheckMemoryAccess mid address size write =>
      snd (sandboxing_check_memory_access mid address size write s)
  | CCheckFunctionCall mid nm => snd (sandboxing_check_function_call mid nm s)
  | CHandleViolation mid vtype desc => snd (sandboxing_handle_violation mid vtype desc s)
  | CLogViolation mid vtype cap desc => sandboxing_log_violation mid vtype cap desc s
  | CQuarantineModule mid => snd (sandboxing_quarantine_module mid s)
  | CEnableStrictMode b => snd (sandboxing_enable_strict_mode b s)
  end.

(** The states the sandbox engine can be in: the zeroed image, and whatever
    a well-typed call makes of a state it can be in. *)
Inductive reachable : sandboxing_system_state_t -> Prop :=
  | reachable_boot : reachable boot_state
  | reachable_step s c : reachable s -> well_typed c -> reachable (run c s).

End Transitions.


(** ** Specification vocabulary *)

(** What [sandboxing_set_resource_limit] does to the limit records of the
    sandbox it finds: overwrite the record of that resource type, or append
    one while there is room. *)
Definition put_limit (rtype lim : Z) (ls : list resource_limit_t) : list resource_limit_t :=
  match find_index (fun r => resource_type r =? rtype) ls with
  | Some k => update_at k (set_resource_limit_value lim) ls
  | None =>
      if Z.of_nat (length ls) <? MAX_RESOURCE_LIMITS
      then ls ++ [{| resource_type := rtype; limit := lim; current_usage := 0;
                     peak_usage := 0; enforce := true |}]
      else ls
  end.

(** The limit in force for a resource type, if the sandbox has one. *)
Definition limit_of (rtype : Z) (sb : sandbox_context_t) : option Z :=
  limit <$> List.find (fun r => resource_type r =? rtype) (limits sb).

(** The limit records of a sandbox name each resource type at most once, and
    only types below [MAX_RESOURCE_LIMITS]. *)
Definition limits_wf (ls : list resource_limit_t) : Prop :=
  NoDup (resource_type <$> ls) /\
  Forall (fun r => 0 <= resource_type r < MAX_RESOURCE_LIMITS) ls.

(** No two active sandboxes are bound to the same module. *)
Definition unique_modules (l : list sandbox_context_t) : Prop :=
  forall i j x y,
    l !! i = Some x -> l !! j = Some y ->
    active x = true -> active y = true -> module_id x = module_id y -> i = j.

Record consistent (s : sandboxing_system_state_t) : Prop := {
  cons_defaults_length : length (default_capabilities s) = 5%nat;
  cons_quarantine_caps :
    sandboxing_initialized s = true ->
    default_capabilities s !! Z.to_nat SANDBOX_LEVEL_QUARANTINE = Some CAP_MODULE_QUERY;
  cons_limits : Forall (fun sb => limits_wf (limits sb)) (sandboxes s);
  cons_vm : Forall (fun sb => vm_enabled sb = false) (sandboxes s);
  cons_unique : unique_modules (sandboxes s)
}.


(** The entry [sandboxing_log_violation] wrote last. *)
Definition last_violation (s : sandboxing_system_state_t) : security_violation_t :=
  default zero_violation
    (violation_log s !!
       Z.to_nat ((violation_index s + MAX_VIOLATION_LOG - 1) mod MAX_VIOLATION_LOG)).

(** What [sandboxing_update_resource_usage] does to the limit records of the
    sandbox it finds. *)
Definition charge_limit (rtype delta : Z) (ls : list resource_limit_t)
  : list resource_limit_t :=
  match find_index (fun r => resource_type r =? rtype) ls with
  | Some k => update_at k (charge delta) ls
  | None => ls
  end.

(** What [sandboxing_quarantine_module] makes of the sandbox it finds;
    [caps] is the default capability mask of the Quarantine level. *)
Definition quarantined (caps : Z) (sb : sandbox_context_t) : sandbox_context_t :=
  set_limits
    (put_limit RESOURCE_MODULE_CALLS 10
       (put_limit RESOURCE_HEAP_ALLOCS 1
          (put_limit RESOURCE_CHILD_ACTORS 0
             (put_limit RESOURCE_MEMORY (256 * 1024) (limits sb)))))
    (set_caps caps (denied_capabilities sb)
       (set_security_level SANDBOX_LEVEL_QUARANTINE sb)).


(** The test [sandboxing_find_sandbox_by_module] applies to a slot. *)
Definition bound_to (mid : Z) (sb : sandbox_context_t) : bool :=
  active sb && (module_id sb =? mid).

(** An update that keeps [active] and [module_id]. *)
Definition keeps_binding (f : sandbox_context_t -> sandbox_context_t) : Prop :=
  forall sb, active (f sb) = active sb /\ module_id (f sb) = module_id sb.

(** An update of one sandbox that cannot break [consistent]. *)
Definition benign (f : sandbox_context_t -> sandbox_context_t) : Prop :=
  forall sb,
    (active (f sb) = true -> active sb = true) /\
    module_id (f sb) = module_id sb /\
    (vm_enabled sb = false -> vm_enabled (f sb) = false) /\
    (limits_wf (limits sb) -> limits_wf (limits (f sb))).

(** The sandbox of the module with one more violation on its counter. *)
Definition one_more_violation (sb : sandbox_context_t) : sandbox_context_t :=
  set_counters (function_calls sb) (capability_checks sb) (u64 (violations sb + 1)) sb.

End Sandbox.
(** * Module registry ([modules.c]) *)

Module Modules.

(** ** Constants of [modules.h] *)

Definition MAX_MODULES : Z := 64.
Definition MAX_MODULE_NAME : Z := 64.
Definition MAX_MODULE_SIZE : Z := 1024 * 1024.
Definition MAX_DEPENDENCIES : Z := 16.
Definition MAX_EXPORTED_SYMBOLS : Z := 256.
Definition MODULE_MAGIC : Z := 0x4D4F44.
Definition MODULE_VERSION : Z := 1.

Definition MODULE_STATE_UNLOADED : Z := 0.
Definition MODULE_STATE_LOADING : Z := 1.
Definition MODULE_STATE_LOADED : Z := 2.
Definition MODULE_STATE_RUNNING : Z := 3.
Definition MODULE_STATE_UNLOADING : Z := 4.
Definition MODULE_STATE_ERROR : Z := 5.
Definition MODULE_STATE_SUSPENDED : Z := 6.

Definition MODULE_FLAG_CORE : Z := 0x01.
Definition MODULE_FLAG_AUTO_START : Z := 0x02.
Definition MODULE_FLAG_HOT_SWAP : Z := 0x04.
Definition MODULE_FLAG_AI_MONITOR : Z := 0x08.
Definition MODULE_FLAG_PRIVILEGED : Z := 0x10.
Definition MODULE_FLAG_PERSISTENT : Z := 0x20.

(** [sizeof(module_header_t)]: three words, four character arrays of
    64 + 256 + 128 + 64 bytes, two bytes and a half-word, eleven words. *)
Definition SIZEOF_MODULE_HEADER : Z := 572.

(** ** Data structures *)

Record module_header_t := {
  magic : Z;
  version : Z;
  module_version : Z;
  h_name : list ascii;            (* char name[MAX_MODULE_NAME] *)
  h_description : list ascii;     (* char[256] *)
  author : list ascii;            (* char[128] *)
  license : list ascii;           (* char[64] *)
  h_type : Z;                     (* uint8_t type *)
  priority : Z;                   (* uint8_t *)
  h_flags : Z;                    (* uint16_t flags *)
  code_size : Z;
  data_size : Z;
  bss_size : Z;
  entry_point : Z;
  exit_point : Z;
  h_symbol_count : Z;
  symbol_table_offset : Z;
  h_dependency_count : Z;
  dependency_table_offset : Z;
  checksum : Z;
  signature : Z
}.

(** What [module_data] points to: a header followed by the section bytes. *)
Record module_image := {
  header : module_header_t;
  sections : list Z
}.

(** The list links [next] and [prev] are represented by the position of the
    module in [loaded_modules] below. *)
Record module_t := {
  module_id : Z;                  (* uint32_t *)
  name : list ascii;              (* char[MAX_MODULE_NAME] *)
  state : Z;                      (* uint8_t *)
  type : Z;                       (* uint8_t *)
  flags : Z;                      (* uint16_t *)
  base_address : Z;               (* void* *)
  code_address : Z;
  data_address : Z;
  total_size : Z;                 (* size_t *)
  init_func : Z;                  (* function pointers, 0 = NULL *)
  exit_func : Z;
  ioctl_func : Z;
  exported_symbols : Z;           (* module_symbol_t* *)
  symbol_count : Z;
  dependencies : Z;               (* module_dependency_t* *)
  dependency_count : Z;
  dependents : list (option nat); (* struct module* [MAX_MODULES] *)
  dependent_count : Z;            (* uint32_t *)
  load_time : Z;
  cpu_time : Z;
  memory_allocated : Z;           (* uint64_t *)
  function_calls : Z;
  error_count : Z;                (* uint32_t *)
  behavior_score : Z;
  anomaly_count : Z;
  ai_monitored : bool;
  ref_count : Z
}.

Record module_stats_t := {
  modules_loaded : Z;
  modules_unloaded : Z;
  hot_swaps : Z;
  load_errors : Z;
  dependency_failures : Z;
  symbol_lookups : Z;
  total_memory_used : Z;          (* uint64_t *)
  ai_interventions : Z
}.

(** The globals [kernel_module_system] and [module_system_initialized], and
    the record of the calls made into external code.

    [loaded_modules] is the chain of module records that starts at the C
    field of that name and follows [next], as the list of the pool slots on
    it, head first. *)
Record module_system_t := {
  loaded_modules : list nat;
  module_count : Z;
  next_module_id : Z;
  module_pool : list module_t;        (* [MAX_MODULES] *)
  module_pool_used : list bool;       (* [MAX_MODULES] *)
  global_symbols : Z;
  global_symbol_count : Z;
  system_enabled : bool;
  hot_swap_enabled : bool;
  ai_supervision : bool;
  statistics : module_stats_t;
  signature_checking : bool;
  sandboxing_enabled : bool;
  module_system_initialized : bool;
  effects : list effect
}.

(** *** Field updates *)

Definition set_state_errors (st errs : Z) (m : module_t) : module_t :=
  {| module_id := module_id m; name := name m; state := st; type := type m;
     flags := flags m; base_address := base_address m;
     code_address := code_address m; data_address := data_address m;
     total_size := total_size m; init_func := init_func m; exit_func := exit_func m;
     ioctl_func := ioctl_func m; exported_symbols := exported_symbols m;
     symbol_count := symbol_count m; dependencies := dependencies m;
     dependency_count := dependency_count m; dependents := dependents m;
     dependent_count := dependent_count m; load_time := load_time m;
     cpu_time := cpu_time m; memory_allocated := memory_allocated m;
     function_calls := function_calls m; error_count := errs;
     behavior_score := behavior_score m; anomaly_count := anomaly_count m;
     ai_monitored := ai_monitored m; ref_count := ref_count m |}.

Definition set_state (st : Z) (m : module_t) : module_t :=
  set_state_errors st (error_count m) m.

Definition set_load_errors (n : Z) (st : module_stats_t) : module_stats_t :=
  {| modules_loaded := modules_loaded st; modules_unloaded := modules_unloaded st;
     hot_swaps := hot_swaps st; load_errors := n;
     dependency_failures := dependency_failures st;
     symbol_lookups := symbol_lookups st;
     total_memory_used := total_memory_used st;
     ai_interventions := ai_interventions st |}.

Definition set_symbol_lookups (n : Z) (st : module_stats_t) : module_stats_t :=
  {| modules_loaded := modules_loaded st; modules_unloaded := modules_unloaded st;
     hot_swaps := hot_swaps st; load_errors := load_errors st;
     dependency_failures := dependency_failures st;
     symbol_lookups := n;
     total_memory_used := total_memory_used st;
     ai_interventions := ai_interventions st |}.

(** [modules_loaded], [modules_unloaded] and [total_memory_used]. *)
Definition set_load_stats (loaded unloaded mem : Z) (st : module_stats_t) : module_stats_t :=
  {| modules_loaded := loaded; modules_unloaded := unloaded;
     hot_swaps := hot_swaps st; load_errors := load_errors st;
     dependency_failures := dependency_failures st;
     symbol_lookups := symbol_lookups st;
     total_memory_used := mem;
     ai_interventions := ai_interventions st |}.

Definition set_statistics (st : module_stats_t) (s : module_system_t) : module_system_t :=
  {| loaded_modules := loaded_modules s; module_count := module_count s;
     next_module_id := next_module_id s; module_pool := module_pool s;
     module_pool_used := module_pool_used s; global_symbols := global_symbols s;
     global_symbol_count := global_symbol_count s; system_enabled := system_enabled s;
     hot_swap_enabled := hot_swap_enabled s; ai_supervision := ai_supervision s;
     statistics := st; signature_checking := signature_checking s;
     sandboxing_enabled := sandboxing_enabled s;
     module_system_initialized := module_system_initialized s;
     effects := effects s |}.

Definition set_module_pool (p : list module_t) (s : module_system_t) : module_system_t :=
  {| loaded_modules := loaded_modules s; module_count := module_count s;
     next_module_id := next_module_id s; module_pool := p;
     module_pool_used := module_pool_used s; global_symbols := global_symbols s;
     global_symbol_count := global_symbol_count s; system_enabled := system_enabled s;
     hot_swap_enabled := hot_swap_enabled s; ai_supervision := ai_supervision s;
     statistics := statistics s; signature_checking := signature_checking s;
     sandboxing_enabled := sandboxing_enabled s;
     module_system_initialized := module_system_initialized s;
     effects := effects s |}.

Definition set_module_pool_used (u : list bool) (s : module_system_t) : module_system_t :=
  {| loaded_modules := loaded_modules s; module_count := module_count s;
     next_module_id := next_module_id s; module_pool := module_pool s;
     module_pool_used := u; global_symbols := global_symbols s;
     global_symbol_count := global_symbol_count s; system_enabled := system_enabled s;
     hot_swap_enabled := hot_swap_enabled s; ai_supervision := ai_supervision s;
     statistics := statistics s; signature_checking := signature_checking s;
     sandboxing_enabled := sandboxing_enabled s;
     module_system_initialized := module_system_initialized s;
     effects := effects s |}.

(** [loaded_modules] and [module_count]. *)
Definition set_loaded_modules (l : list nat) (n : Z) (s : module_system_t) : module_system_t :=
  {| loaded_modules := l; module_count := n;
     next_module_id := next_module_id s; module_pool := module_pool s;
     module_pool_used := module_pool_used s; global_symbols := global_symbols s;
     global_symbol_count := global_symbol_count s; system_enabled := system_enabled s;
     hot_swap_enabled := hot_swap_enabled s; ai_supervision := ai_supervision s;
     statistics := statistics s; signature_checking := signature_checking s;
     sandboxing_enabled := sandboxing_enabled s;
     module_system_initialized := module_system_initialized s;
     effects := effects s |}.

Definition set_next_module_id (n : Z) (s : module_system_t) : module_system_t :=
  {| loaded_modules := loaded_modules s; module_count := module_count s;
     next_module_id := n; module_pool := module_pool s;
     module_pool_used := module_pool_used s; global_symbols := global_symbols s;
     global_symbol_count := global_symbol_count s; system_enabled := system_enabled s;
     hot_swap_enabled := hot_swap_enabled s; ai_supervision := ai_supervision s;
     statistics := statistics s; signature_checking := signature_checking s;
     sandboxing_enabled := sandboxing_enabled s;
     module_system_initialized := module_system_initialized s;
     effects := effects s |}.

Definition emit (e : effect) (s : module_system_t) : module_system_t :=
  {| loaded_modules := loaded_modules s; module_count := module_count s;
     next_module_id := next_module_id s; module_pool := module_pool s;
     module_pool_used := module_pool_used s; global_symbols := global_symbols s;
     global_symbol_count := global_symbol_count s; system_enabled := system_enabled s;
     hot_swap_enabled := hot_swap_enabled s; ai_supervision := ai_supervision s;
     statistics := statistics s; signature_checking := signature_checking s;
     sandboxing_enabled := sandboxing_enabled s;
     module_system_initialized := module_system_initialized s;
     effects := e :: effects s |}.

Definition on_module (i : nat) (f : module_t -> module_t) (s : module_system_t)
  : module_system_t :=
  set_module_pool (update_at i f (module_pool s)) s.

(** ** Initial memory image *)

Definition zero_module : module_t :=
  {| module_id := 0; name := replicate (Z.to_nat MAX_MODULE_NAME) NUL; state := 0;
     type := 0; flags := 0; base_address := 0; code_address := 0; data_address := 0;
     total_size := 0; init_func := 0; exit_func := 0; ioctl_func := 0;
     exported_symbols := 0; symbol_count := 0; dependencies := 0;
     dependency_count := 0; dependents := replicate (Z.to_nat MAX_MODULES) None;
     dependent_count := 0; load_time := 0; cpu_time := 0; memory_allocated := 0;
     function_calls := 0; error_count := 0; behavior_score := 0; anomaly_count := 0;
     ai_monitored := false; ref_count := 0 |}.

Definition zero_stats : module_stats_t :=
  {| modules_loaded := 0; modules_unloaded := 0; hot_swaps := 0; load_errors := 0;
     dependency_failures := 0; symbol_lookups := 0; total_memory_used := 0;
     ai_interventions := 0 |}.

Definition boot_state : module_system_t :=
  {| loaded_modules := []; module_count := 0; next_module_id := 0;
     module_pool := replicate (Z.to_nat MAX_MODULES) zero_module;
     module_pool_used := replicate (Z.to_nat MAX_MODULES) false;
     global_symbols := 0; global_symbol_count := 0; system_enabled := false;
     hot_swap_enabled := false; ai_supervision := false; statistics := zero_stats;
     signature_checking := false; sandboxing_enabled := false;
     module_system_initialized := false; effects := [] |}.

(** [*p] for a pointer [p] into [module_pool]. *)
Definition module_at (i : nat) (s : module_system_t) : module_t :=
  default zero_module (module_pool s !! i).

(** ** Functions *)

(** [modules_init] ([module_register_kernel_symbols] only prints). *)
Definition modules_init (s : module_system_t) : module_system_t :=
  {| loaded_modules := []; module_count := 0; next_module_id := 1;
     module_pool := module_pool s;
     module_pool_used := (fun _ => false) <$> module_pool_used s;
     global_symbols := 0; global_symbol_count := 0;
     system_enabled := true; hot_swap_enabled := true; ai_supervision := true;
     statistics := zero_stats;
     signature_checking := false; sandboxing_enabled := false;
     module_system_initialized := true; effects := effects s |}.

(** [module_get] *)
Definition module_get (mid : Z) (s : module_system_t) : option nat :=
  if negb (module_system_initialized s) then None
  else List.find (fun i => module_id (module_at i s) =? mid) (loaded_modules s).

(** [module_find_by_name]; [nm] is [None] for a [NULL] argument. *)
Definition module_find_by_name (nm : option (list ascii)) (s : module_system_t)
  : option nat :=
  if negb (module_system_initialized s) then None
  else match nm with
  | None => None
  | Some n =>
      List.find (fun i => names_match (Z.to_nat MAX_MODULE_NAME) (name (module_at i s)) n)
                (loaded_modules s)
  end.

(** [module_validate] *)
Definition module_validate (module_data : option module_image) (size : Z) : bool :=
  match module_data with
  | None => false
  | Some img =>
      if size <? SIZEOF_MODULE_HEADER then false
      else
        let h := header img in
        if negb (magic h =? MODULE_MAGIC) then false
        else if negb (version h =? MODULE_VERSION) then false
        else
          let expected_size := u32 (SIZEOF_MODULE_HEADER + code_size h + data_size h) in
          if size <? expected_size then false
          else if (MAX_MODULE_SIZE <? code_size h) || (MAX_MODULE_SIZE <? data_size h)
                  || (MAX_MODULE_SIZE <? bss_size h) then false
          else true
  end.

(** [module_allocate] *)
Definition module_allocate (s : module_system_t) : option nat * module_system_t :=
  match find_index negb (module_pool_used s) with
  | Some i => (Some i, set_module_pool_used (<[i:=true]> (module_pool_used s)) s)
  | None => (None, s)
  end.

(** [module_free] *)
Definition module_free (m : option nat) (s : module_system_t) : module_system_t :=
  match m with
  | None => s
  | Some i =>
      if (i <? length (module_pool s))%nat
      then set_module_pool_used (<[i:=false]> (module_pool_used s)) s
      else s
  end.

(** [module_add_to_list] *)
Definition module_add_to_list (m : option nat) (s : module_system_t) : module_system_t :=
  match m with
  | None => s
  | Some i => set_loaded_modules (i :: loaded_modules s) (u32 (module_count s + 1)) s
  end.

(** [module_remove_from_list] *)
Definition module_remove_from_list (m : option nat) (s : module_system_t)
  : module_system_t :=
  match m with
  | None => s
  | Some i =>
      set_loaded_modules (List.filter (fun j => negb (j =? i)%nat) (loaded_modules s))
                         (u32 (module_count s - 1)) s
  end.

(** [module_start]; [init_result] is what the module's [init] returns if it
    is called. *)
Definition module_start (mid : Z) (init_result : Z) (s : module_system_t)
  : bool * module_system_t :=
  match module_get mid s with
  | None => (false, s)
  | Some i =>
      let m := module_at i s in
      if negb (state m =? MODULE_STATE_LOADED) then (false, s)
      else
        let s1 := if init_func m =? 0 then s else emit (Call (init_func m)) s in
        if negb (init_func m =? 0) && negb (init_result =? 0) then
          (false, on_module i (fun m =>
                    set_state_errors MODULE_STATE_ERROR (u32 (error_count m + 1)) m) s1)
        else (true, on_module i (set_state MODULE_STATE_RUNNING) s1)
  end.

(** [module_stop] *)
Definition module_stop (mid : Z) (s : module_system_t) : bool * module_system_t :=
  match module_get mid s with
  | None => (false, s)
  | Some i =>
      let m := module_at i s in
      if negb (state m =? MODULE_STATE_RUNNING) then (false, s)
      else
        let s1 := if exit_func m =? 0 then s else emit (Call (exit_func m)) s in
        (true, on_module i (set_state MODULE_STATE_LOADED) s1)
  end.

(** [kfree(p)] guarded by [if (p)]. *)
Definition free_if_set (p : Z) (s : module_system_t) : module_system_t :=
  if p =? 0 then s else emit (Kfree p) s.

(** [module_unload] *)
Definition module_unload (mid : Z) (s : module_system_t) : bool * module_system_t :=
  match module_get mid s with
  | None => (false, s)
  | Some i =>
      let m := module_at i s in
      if negb (Z.land (flags m) MODULE_FLAG_CORE =? 0) then (false, s)
      else if 0 <? dependent_count m then (false, s)
      else
        let s1 := on_module i (set_state MODULE_STATE_UNLOADING) s in
        let s2 := if exit_func m =? 0 then s1 else emit (Call (exit_func m)) s1 in
        let s3 := module_remove_from_list (Some i) s2 in
        let s4 := free_if_set (base_address m) s3 in
        let s5 := free_if_set (exported_symbols m) s4 in
        let s6 := free_if_set (dependencies m) s5 in
        let st := statistics s6 in
        let s7 := set_statistics
                    (set_load_stats (modules_loaded st) (u32 (modules_unloaded st + 1))
                       (u64 (total_memory_used st - memory_allocated m)) st) s6 in
        (true, module_free (Some i) s7)
  end.

(** [module_resolve_symbol] *)
Definition module_resolve_symbol (symbol_name : option string) (s : module_system_t)
  : Z * module_system_t :=
  if negb (module_system_initialized s) then (0, s)
  else match symbol_name with
  | None => (0, s)
  | Some _ =>
      (0, set_statistics
            (set_symbol_lookups (u32 (symbol_lookups (statistics s) + 1)) (statistics s)) s)
  end.

(** [module_export_symbol] *)
Definition module_export_symbol (mid : Z) (nm : option string) (address size : Z)
  (s : module_system_t) : bool :=
  match module_get mid s, nm with
  | Some _, Some _ => negb (address =? 0)
  | _, _ => false
  end.

(** The bytes [module_load] stores in the region it allocated: the code and
    data sections read from behind the header (a read past the bytes provided
    yields 0), then the zeroed BSS. *)
Definition image_bytes (img : module_image) : list Z :=
  let h := header img in
  let n := Z.to_nat (code_size h + data_size h) in
  take n (sections img ++ replicate n 0) ++ replicate (Z.to_nat (bss_size h)) 0.

Definition count_load_error (s : module_system_t) : module_system_t :=
  set_statistics (set_load_errors (u32 (load_errors (statistics s) + 1)) (statistics s)) s.

(** [module_load].  [alloc] is the address [kmalloc] returns (0 when it
    fails) and [init_result] what the module's [init] returns if the module is
    auto-started. *)
Definition module_load (module_data : option module_image) (size : Z)
  (alloc init_result : Z) (s : module_system_t) : Z * module_system_t :=
  if negb (module_system_initialized s) || (size =? 0) then (0, s)
  else match module_data with
  | None => (0, s)
  | Some img =>
      if negb (module_validate module_data size) then (0, count_load_error s)
      else
        let h := header img in
        match module_find_by_name (Some (h_name h)) s with
        | Some _ => (0, s)
        | None =>
            match module_allocate s with
            | (None, s1) => (0, count_load_error s1)
            | (Some i, s1) =>
                let mid := next_module_id s1 in
                let s2 := set_next_module_id (u32 (next_module_id s1 + 1)) s1 in
                let total := u32 (code_size h + data_size h + bss_size h) in
                let s3 := on_module i (fun m =>
                  {| module_id := mid;
                     name := copy_name (Z.to_nat (MAX_MODULE_NAME - 1)) (h_name h) (name m);
                     state := MODULE_STATE_LOADING; type := h_type h; flags := h_flags h;
                     base_address := alloc;
                     code_address := code_address m; data_address := data_address m;
                     total_size := total_size m; init_func := init_func m;
                     exit_func := exit_func m; ioctl_func := ioctl_func m;
                     exported_symbols := exported_symbols m;
                     symbol_count := symbol_count m; dependencies := dependencies m;
                     dependency_count := dependency_count m; dependents := dependents m;
                     dependent_count := dependent_count m; load_time := load_time m;
                     cpu_time := cpu_time m; memory_allocated := memory_allocated m;
                     function_calls := function_calls m; error_count := error_count m;
                     behavior_score := behavior_score m;
                     anomaly_count := anomaly_count m;
                     ai_monitored := ai_monitored m; ref_count := ref_count m |}) s2 in
                let s4 := emit (Kmalloc total alloc) s3 in
                if alloc =? 0 then (0, count_load_error (module_free (Some i) s4))
                else
                  let s5 := emit (Store alloc (image_bytes img)) s4 in
                  let s6 := on_module i (fun m =>
                    {| module_id := module_id m; name := name m;
                       state := state m; type := type m; flags := flags m;
                       base_address := base_address m;
                       code_address := alloc;
                       data_address := u32 (alloc + code_size h);
                       total_size := total;
                       init_func := if entry_point h =? 0 then 0
                                    else u32 (alloc + entry_point h);
                       exit_func := if exit_point h =? 0 then 0
                                    else u32 (alloc + exit_point h);
                       ioctl_func := 0;
                       exported_symbols := 0; symbol_count := 0;
                       dependencies := 0; dependency_count := 0;
                       dependents := dependents m; dependent_count := 0;
                       load_time := 0; cpu_time := 0; memory_allocated := total;
                       function_calls := 0; error_count := 0;
                       behavior_score := 100; anomaly_count := 0;
                       ai_monitored := negb (Z.land (flags m) MODULE_FLAG_AI_MONITOR =? 0);
                       ref_count := 1 |}) s5 in
                  let s7 := module_add_to_list (Some i) s6 in
                  let st := statistics s7 in
                  let s8 := set_statistics
                              (set_load_stats (u32 (modules_loaded st + 1))
                                 (modules_unloaded st)
                                 (u64 (total_memory_used st + total)) st) s7 in
                  let s9 := on_module i (set_state MODULE_STATE_LOADED) s8 in
                  let s10 :=
                    if negb (Z.land (flags (module_at i s9)) MODULE_FLAG_AUTO_START =? 0)
                    then snd (module_start mid init_result s9)
                    else s9 in
                  (mid, s10)
            end
        end
  end.

(** ** The interface as a transition system *)

Inductive call :=
  | CModulesInit
  | CLoad (module_data : option module_image) (size alloc init_result : Z)
  | CUnload (mid : Z)
  | CStart (mid init_result : Z)
  | CStop (mid : Z)
  | CResolveSymbol (symbol_name : option string).

Definition run (c : call) (s : module_system_t) : module_system_t :=
  match c with
  | CModulesInit => modules_init s
  | CLoad module_data size alloc init_result =>
      snd (module_load module_data size alloc init_result s)
  | CUnload mid => snd (module_unload mid s)
  | CStart mid init_result => snd (module_start mid init_result s)
  | CStop mid => snd (module_stop mid s)
  | CResolveSymbol nm => snd (module_resolve_symbol nm s)
  end.

Inductive reachable : module_system_t -> Prop :=
  | reachable_boot : reachable boot_state
  | reachable_step s c : reachable s -> reachable (run c s).

(** ** Specification vocabulary *)

(** A module that [module_unload] must refuse: it carries the Core flag or
    other modules depend on it. *)
Definition pinned (m : module_t) : Prop :=
  Z.land (flags m) MODULE_FLAG_CORE <> 0 \/ 0 < dependent_count m.

(** The lifecycle state of the module in a pool slot. *)
Definition state_at (i : nat) (s : module_system_t) : Z := state (module_at i s).

(** The two pool arrays have one slot per module record. *)
Definition pool_shape (s : module_system_t) : Prop :=
  length (module_pool s) = length (module_pool_used s).

End Modules.
(** * Actor scheduler and messaging ([scheduler.c]) *)

Module Scheduler.

(** ** Constants of [scheduler.h] *)

Definition MAX_ACTORS : Z := 256.
Definition MAX_MESSAGES : Z := 1024.
Definition MAX_MESSAGE_SIZE : Z := 4096.
Definition ACTOR_STACK_SIZE : Z := 8192.
Definition SCHEDULER_TIMESLICE_MS : Z := 10.

Definition ACTOR_STATE_CREATED : Z := 0.
Definition ACTOR_STATE_READY : Z := 1.
Definition ACTOR_STATE_RUNNING : Z := 2.
Definition ACTOR_STATE_BLOCKED : Z := 3.
Definition ACTOR_STATE_FINISHED : Z := 4.
Definition ACTOR_STATE_ERROR : Z := 5.
Definition ACTOR_STATE_SUSPENDED : Z := 6.

Definition ACTOR_PRIORITY_CRITICAL : Z := 0.
Definition ACTOR_PRIORITY_HIGH : Z := 1.
Definition ACTOR_PRIORITY_NORMAL : Z := 2.
Definition ACTOR_PRIORITY_LOW : Z := 3.
Definition ACTOR_PRIORITY_IDLE : Z := 4.

Definition MSG_TYPE_ASYNC : Z := 0.
Definition MSG_TYPE_SYNC_REQUEST : Z := 1.
Definition MSG_TYPE_SYNC_REPLY : Z := 2.
Definition MSG_TYPE_BROADCAST : Z := 3.
Definition MSG_TYPE_SYSTEM : Z := 4.

(** ** Data structures *)

(** A [message_t*] is the index of a slot of [message_pool].  The link [next]
    is represented by the position of the slot in the mailbox chain it is
    on. *)
Record message_t := {
  sender_id : Z;
  recipient_id : Z;
  message_id : Z;
  type : Z;                     (* uint8_t *)
  m_priority : Z;               (* uint8_t priority *)
  m_flags : Z;                  (* uint16_t flags *)
  payload_size : Z;             (* size_t *)
  payload : Z;                  (* void* *)
  timestamp : Z;                (* uint64_t *)
  deadline : Z;                 (* uint64_t *)
  reply_to : Z;
  requires_reply : bool
}.

(** An [actor_t*] is the index of a slot of [actor_pool].

    [message_queue] is the chain of messages that starts at the C field of
    that name and follows [next], as the list of the message slots on it,
    head first; [queue_size] is the counter the C code keeps next to it. *)
Record actor_t := {
  actor_id : Z;
  parent_id : Z;
  state : Z;                    (* uint8_t *)
  priority : Z;                 (* uint8_t *)
  flags : Z;
  stack_base : Z;               (* void* *)
  stack_current : Z;
  stack_size : Z;               (* size_t *)
  entry_point : Z;
  user_data : Z;
  registers : list Z;           (* uint32_t[8] *)
  eip : Z;
  esp : Z;
  ebp : Z;
  eflags : Z;
  message_queue : list nat;
  queue_size : Z;               (* uint32_t *)
  max_queue_size : Z;           (* uint32_t *)
  cpu_time_used : Z;            (* uint64_t *)
  messages_sent : Z;            (* uint64_t *)
  messages_received : Z;        (* uint64_t *)
  creation_time : Z;
  last_scheduled : Z;           (* uint64_t *)
  memory_context : Z;
  memory_limit : Z;
  memory_used : Z;
  error_code : Z;
  error_message : Z;            (* char* *)
  behavior_score : Z;
  anomaly_count : Z;
  ai_monitored : bool;
  next : option nat;            (* struct actor_context* *)
  prev : option nat
}.

Record scheduler_stats_t := {
  context_switches : Z;         (* uint64_t *)
  actors_created : Z;
  actors_destroyed : Z;
  stat_messages_sent : Z;       (* uint64_t messages_sent *)
  messages_delivered : Z;       (* uint64_t *)
  cpu_time_total : Z;
  current_actors : Z;           (* uint32_t *)
  ready_actors : Z;             (* uint32_t *)
  blocked_actors : Z;
  average_queue_depth : Z;
  scheduler_overhead : Z;
  deadlocks_detected : Z;
  load_balance_actions : Z
}.

(** The global [kernel_scheduler], the file-scope pools and
    [scheduler_initialized], and the record of the calls into external
    code. *)
Record scheduler_t := {
  actors : list (option nat);       (* actor_t* [MAX_ACTORS] *)
  ready_queue : option nat;
  current_actor : option nat;
  next_actor_id : Z;
  message_count : Z;
  scheduler_enabled : bool;
  tick_count : Z;                   (* uint32_t *)
  current_timeslice : Z;            (* uint32_t *)
  statistics : scheduler_stats_t;
  ai_supervision : bool;
  context_switch_time : Z;
  load_average : list Z;            (* uint32_t[3] *)
  actor_pool : list actor_t;        (* [MAX_ACTORS] *)
  actor_pool_used : list bool;
  message_pool : list message_t;    (* [MAX_MESSAGES] *)
  message_pool_used : list bool;
  scheduler_initialized : bool;
  effects : list effect
}.

(** *** Field updates *)

Section ActorUpdates.

Variable a : actor_t.

(** The fields [actor_id], [parent_id], [state], [priority] and [flags]. *)
Definition set_header (id parent st prio fl : Z) : actor_t :=
  {| actor_id := id; parent_id := parent; state := st;
     priority := prio; flags := fl; stack_base := stack_base a;
     stack_current := stack_current a; stack_size := stack_size a;
     entry_point := entry_point a; user_data := user_data a;
     registers := registers a; eip := eip a; esp := esp a; ebp := ebp a;
     eflags := eflags a; message_queue := message_queue a;
     queue_size := queue_size a; max_queue_size := max_queue_size a;
     cpu_time_used := cpu_time_used a; messages_sent := messages_sent a;
     messages_received := messages_received a; creation_time := creation_time a;
     last_scheduled := last_scheduled a; memory_context := memory_context a;
     memory_limit := memory_limit a; memory_used := memory_used a;
     error_code := error_code a; error_message := error_message a;
     behavior_score := behavior_score a; anomaly_count := anomaly_count a;
     ai_monitored := ai_monitored a; next := next a; prev := prev a |}.

Definition set_state (v : Z) : actor_t :=
  set_header (actor_id a) (parent_id a) v (priority a) (flags a).

Definition set_links (n p : option nat) : actor_t :=
  {| actor_id := actor_id a; parent_id := parent_id a; state := state a;
     priority := priority a; flags := flags a; stack_base := stack_base a;
     stack_current := stack_current a; stack_size := stack_size a;
     entry_point := entry_point a; user_data := user_data a;
     registers := registers a; eip := eip a; esp := esp a; ebp := ebp a;
     eflags := eflags a; message_queue := message_queue a;
     queue_size := queue_size a; max_queue_size := max_queue_size a;
     cpu_time_used := cpu_time_used a; messages_sent := messages_sent a;
     messages_received := messages_received a; creation_time := creation_time a;
     last_scheduled := last_scheduled a; memory_context := memory_context a;
     memory_limit := memory_limit a; memory_used := memory_used a;
     error_code := error_code a; error_message := error_message a;
     behavior_score := behavior_score a; anomaly_count := anomaly_count a;
     ai_monitored := ai_monitored a; next := n; prev := p |}.

(** [message_queue] and [queue_size]. *)
Definition set_queue (q : list nat) (n : Z) : actor_t :=
  {| actor_id := actor_id a; parent_id := parent_id a; state := state a;
     priority := priority a; flags := flags a; stack_base := stack_base a;
     stack_current := stack_current a; stack_size := stack_size a;
     entry_point := entry_point a; user_data := user_data a;
     registers := registers a; eip := eip a; esp := esp a; ebp := ebp a;
     eflags := eflags a; message_queue := q;
     queue_size := n; max_queue_size := max_queue_size a;
     cpu_time_used := cpu_time_used a; messages_sent := messages_sent a;
     messages_received := messages_received a; creation_time := creation_time a;
     last_scheduled := last_scheduled a; memory_context := memory_context a;
     memory_limit := memory_limit a; memory_used := memory_used a;
     error_code := error_code a; error_message := error_message a;
     behavior_score := behavior_score a; anomaly_count := anomaly_count a;
     ai_monitored := ai_monitored a; next := next a; prev := prev a |}.

(** The accounting fields [cpu_time_used], [messages_sent],
    [messages_received], [last_scheduled] and [behavior_score]. *)
Definition set_accounting (cpu sent received last score : Z) : actor_t :=
  {| actor_id := actor_id a; parent_id := parent_id a; state := state a;
     priority := priority a; flags := flags a; stack_base := stack_base a;
     stack_current := stack_current a; stack_size := stack_size a;
     entry_point := entry_point a; user_data := user_data a;
     registers := registers a; eip := eip a; esp := esp a; ebp := ebp a;
     eflags := eflags a; message_queue := message_queue a;
     queue_size := queue_size a; max_queue_size := max_queue_size a;
     cpu_time_used := cpu; messages_sent := sent;
     messages_received := received; creation_time := creation_time a;
     last_scheduled := last; memory_context := memory_context a;
     memory_limit := memory_limit a; memory_used := memory_used a;
     error_code := error_code a; error_message := error_message a;
     behavior_score := score; anomaly_count := anomaly_count a;
     ai_monitored := ai_monitored a; next := next a; prev := prev a |}.

End ActorUpdates.

Definition set_next (n : option nat) (a : actor_t) : actor_t := set_links a n (prev a).
Definition set_prev (p : option nat) (a : actor_t) : actor_t := set_links a (next a) p.

Definition set_cpu_time_used (v : Z) (a : actor_t) : actor_t :=
  set_accounting a v (messages_sent a) (messages_received a) (last_scheduled a)
    (behavior_score a).
Definition set_messages_sent (v : Z) (a : actor_t) : actor_t :=
  set_accounting a (cpu_time_used a) v (messages_received a) (last_scheduled a)
    (behavior_score a).
Definition set_messages_received (v : Z) (a : actor_t) : actor_t :=
  set_accounting a (cpu_time_used a) (messages_sent a) v (last_scheduled a)
    (behavior_score a).
Definition set_last_scheduled (v : Z) (a : actor_t) : actor_t :=
  set_accounting a (cpu_time_used a) (messages_sent a) (messages_received a) v
    (behavior_score a).
Definition set_behavior_score (v : Z) (a : actor_t) : actor_t :=
  set_accounting a (cpu_time_used a) (messages_sent a) (messages_received a)
    (last_scheduled a) v.

Section SchedulerUpdates.

Variable s : scheduler_t.

Definition set_actor_pool (p : list actor_t) : scheduler_t :=
  {| actors := actors s; ready_queue := ready_queue s;
     current_actor := current_actor s; next_actor_id := next_actor_id s;
     message_count := message_count s; scheduler_enabled := scheduler_enabled s;
     tick_count := tick_count s; current_timeslice := current_timeslice s;
     statistics := statistics s; ai_supervision := ai_supervision s;
     context_switch_time := context_switch_time s; load_average := load_average s;
     actor_pool := p; actor_pool_used := actor_pool_used s;
     message_pool := message_pool s; message_pool_used := message_pool_used s;
     scheduler_initialized := scheduler_initialized s; effects := effects s |}.

(** The table [actors] and the flags [actor_pool_used]. *)
Definition set_actor_table (t : list (option nat)) (u : list bool) : scheduler_t :=
  {| actors := t; ready_queue := ready_queue s;
     current_actor := current_actor s; next_actor_id := next_actor_id s;
     message_count := message_count s; scheduler_enabled := scheduler_enabled s;
     tick_count := tick_count s; current_timeslice := current_timeslice s;
     statistics := statistics s; ai_supervision := ai_supervision s;
     context_switch_time := context_switch_time s; load_average := load_average s;
     actor_pool := actor_pool s; actor_pool_used := u;
     message_pool := message_pool s; message_pool_used := message_pool_used s;
     scheduler_initialized := scheduler_initialized s; effects := effects s |}.

Definition set_ready_queue (q : option nat) : scheduler_t :=
  {| actors := actors s; ready_queue := q;
     current_actor := current_actor s; next_actor_id := next_actor_id s;
     message_count := message_count s; scheduler_enabled := scheduler_enabled s;
     tick_count := tick_count s; current_timeslice := current_timeslice s;
     statistics := statistics s; ai_supervision := ai_supervision s;
     context_switch_time := context_switch_time s; load_average := load_average s;
     actor_pool := actor_pool s; actor_pool_used := actor_pool_used s;
     message_pool := message_pool s; message_pool_used := message_pool_used s;
     scheduler_initialized := scheduler_initialized s; effects := effects s |}.

Definition set_current_actor (c : option nat) : scheduler_t :=
  {| actors := actors s; ready_queue := ready_queue s;
     current_actor := c; next_actor_id := next_actor_id s;
     message_count := message_count s; scheduler_enabled := scheduler_enabled s;
     tick_count := tick_count s; current_timeslice := current_timeslice s;
     statistics := statistics s; ai_supervision := ai_supervision s;
     context_switch_time := context_switch_time s; load_average := load_average s;
     actor_pool := actor_pool s; actor_pool_used := actor_pool_used s;
     message_pool := message_pool s; message_pool_used := message_pool_used s;
     scheduler_initialized := scheduler_initialized s; effects := effects s |}.

(** [scheduler_enabled], [tick_count] and [current_timeslice]. *)
Definition set_clock (en : bool) (tick slice : Z) : scheduler_t :=
  {| actors := actors s; ready_queue := ready_queue s;
     current_actor := current_actor s; next_actor_id := next_actor_id s;
     message_count := message_count s; scheduler_enabled := en;
     tick_count := tick; current_timeslice := slice;
     statistics := statistics s; ai_supervision := ai_supervision s;
     context_switch_time := context_switch_time s; load_average := load_average s;
     actor_pool := actor_pool s; actor_pool_used := actor_pool_used s;
     message_pool := message_pool s; message_pool_used := message_pool_used s;
     scheduler_initialized := scheduler_initialized s; effects := effects s |}.

Definition set_statistics (st : scheduler_stats_t) : scheduler_t :=
  {| actors := actors s; ready_queue := ready_queue s;
     current_actor := current_actor s; next_actor_id := next_actor_id s;
     message_count := message_count s; scheduler_enabled := scheduler_enabled s;
     tick_count := tick_count s; current_timeslice := current_timeslice s;
     statistics := st; ai_supervision := ai_supervision s;
     context_switch_time := context_switch_time s; load_average := load_average s;
     actor_pool := actor_pool s; actor_pool_used := actor_pool_used s;
     message_pool := message_pool s; message_pool_used := message_pool_used s;
     scheduler_initialized := scheduler_initialized s; effects := effects s |}.

(** [message_pool] and [message_pool_used]. *)
Definition set_messages (p : list message_t) (u : list bool) : scheduler_t :=
  {| actors := actors s; ready_queue := ready_queue s;
     current_actor := current_actor s; next_actor_id := next_actor_id s;
     message_count := message_count s; scheduler_enabled := scheduler_enabled s;
     tick_count := tick_count s; current_timeslice := current_timeslice s;
     statistics := statistics s; ai_supervision := ai_supervision s;
     context_switch_time := context_switch_time s; load_average := load_average s;
     actor_pool := actor_pool s; actor_pool_used := actor_pool_used s;
     message_pool := p; message_pool_used := u;
     scheduler_initialized := scheduler_initialized s; effects := effects s |}.

Definition emit (e : effect) : scheduler_t :=
  {| actors := actors s; ready_queue := ready_queue s;
     current_actor := current_actor s; next_actor_id := next_actor_id s;
     message_count := message_count s; scheduler_enabled := scheduler_enabled s;
     tick_count := tick_count s; current_timeslice := current_timeslice s;
     statistics := statistics s; ai_supervision := ai_supervision s;
     context_switch_time := context_switch_time s; load_average := load_average s;
     actor_pool := actor_pool s; actor_pool_used := actor_pool_used s;
     message_pool := message_pool s; message_pool_used := message_pool_used s;
     scheduler_initialized := scheduler_initialized s; effects := e :: effects s |}.

End SchedulerUpdates.

Section StatsUpdates.

Variable st : scheduler_stats_t.

(** [context_switches], [messages_sent] and [messages_delivered]. *)
Definition set_traffic (cs sent delivered : Z) : scheduler_stats_t :=
  {| context_switches := cs; actors_created := actors_created st;
     actors_destroyed := actors_destroyed st; stat_messages_sent := sent;
     messages_delivered := delivered; cpu_time_total := cpu_time_total st;
     current_actors := current_actors st; ready_actors := ready_actors st;
     blocked_actors := blocked_actors st;
     average_queue_depth := average_queue_depth st;
     scheduler_overhead := scheduler_overhead st;
     deadlocks_detected := deadlocks_detected st;
     load_balance_actions := load_balance_actions st |}.

(** [actors_created], [actors_destroyed], [current_actors] and
    [ready_actors]. *)
Definition set_population (created destroyed current ready : Z) : scheduler_stats_t :=
  {| context_switches := context_switches st; actors_created := created;
     actors_destroyed := destroyed; stat_messages_sent := stat_messages_sent st;
     messages_delivered := messages_delivered st;
     cpu_time_total := cpu_time_total st;
     current_actors := current; ready_actors := ready;
     blocked_actors := blocked_actors st;
     average_queue_depth := average_queue_depth st;
     scheduler_overhead := scheduler_overhead st;
     deadlocks_detected := deadlocks_detected st;
     load_balance_actions := load_balance_actions st |}.

End StatsUpdates.

Definition set_ready_actors (n : Z) (st : scheduler_stats_t) : scheduler_stats_t :=
  set_population st (actors_created st) (actors_destroyed st) (current_actors st) n.

Definition on_actor (i : nat) (f : actor_t -> actor_t) (s : scheduler_t) : scheduler_t :=
  set_actor_pool s (update_at i f (actor_pool s)).

Definition on_statistics (f : scheduler_stats_t -> scheduler_stats_t) (s : scheduler_t)
  : scheduler_t :=
  set_statistics s (f (statistics s)).

(** ** Initial memory image *)

Definition zero_message : message_t :=
  {| sender_id := 0; recipient_id := 0; message_id := 0; type := 0; m_priority := 0;
     m_flags := 0; payload_size := 0; payload := 0; timestamp := 0; deadline := 0;
     reply_to := 0; requires_reply := false |}.

Definition zero_actor : actor_t :=
  {| actor_id := 0; parent_id := 0; state := 0; priority := 0; flags := 0;
     stack_base := 0; stack_current := 0; stack_size := 0; entry_point := 0;
     user_data := 0; registers := replicate 8 0; eip := 0; esp := 0; ebp := 0;
     eflags := 0; message_queue := []; queue_size := 0; max_queue_size := 0;
     cpu_time_used := 0; messages_sent := 0; messages_received := 0;
     creation_time := 0; last_scheduled := 0; memory_context := 0;
     memory_limit := 0; memory_used := 0; error_code := 0; error_message := 0;
     behavior_score := 0; anomaly_count := 0; ai_monitored := false;
     next := None; prev := None |}.

Definition zero_stats : scheduler_stats_t :=
  {| context_switches := 0; actors_created := 0; actors_destroyed := 0;
     stat_messages_sent := 0; messages_delivered := 0; cpu_time_total := 0;
     current_actors := 0; ready_actors := 0; blocked_actors := 0;
     average_queue_depth := 0; scheduler_overhead := 0; deadlocks_detected := 0;
     load_balance_actions := 0 |}.

Definition boot_state : scheduler_t :=
  {| actors := replicate (Z.to_nat MAX_ACTORS) None; ready_queue := None;
     current_actor := None; next_actor_id := 0; message_count := 0;
     scheduler_enabled := false; tick_count := 0; current_timeslice := 0;
     statistics := zero_stats; ai_supervision := false; context_switch_time := 0;
     load_average := replicate 3 0;
     actor_pool := replicate (Z.to_nat MAX_ACTORS) zero_actor;
     actor_pool_used := replicate (Z.to_nat MAX_ACTORS) false;
     message_pool := replicate (Z.to_nat MAX_MESSAGES) zero_message;
     message_pool_used := replicate (Z.to_nat MAX_MESSAGES) false;
     scheduler_initialized := false; effects := [] |}.

(** [*p] for a pointer [p] into [actor_pool]. *)
Definition actor_at (i : nat) (s : scheduler_t) : actor_t :=
  default zero_actor (actor_pool s !! i).

(** [*p] for a pointer [p] into [message_pool]. *)
Definition message_at (i : nat) (s : scheduler_t) : message_t :=
  default zero_message (message_pool s !! i).

(** ** Functions *)

(** Pointer comparison [p == q]. *)
Definition ptr_eqb (p q : option nat) : bool :=
  match p, q with
  | Some i, Some j => (i =? j)%nat
  | None, None => true
  | _, _ => false
  end.

(** [actor_get] *)
Definition actor_get (id : Z) (s : scheduler_t) : option nat :=
  if MAX_ACTORS <=? id then None
  else default None (actors s !! Z.to_nat id).

(** [actor_get_current] *)
Definition actor_get_current (s : scheduler_t) : option nat := current_actor s.

(** [scheduler_select_next_actor] *)
Definition scheduler_select_next_actor (s : scheduler_t) : option nat :=
  match ready_queue s with
  | None => None
  | Some a => Some a
  end.

(** [scheduler_add_to_ready_queue] *)
Definition scheduler_add_to_ready_queue (actor : option nat) (s : scheduler_t)
  : scheduler_t :=
  match actor with
  | None => s
  | Some i =>
      if negb (state (actor_at i s) =? ACTOR_STATE_READY) then s
      else
        let s1 := on_actor i (fun a => set_links a (ready_queue s) None) s in
        let s2 := match ready_queue s1 with
                  | Some h => on_actor h (set_prev (Some i)) s1
                  | None => s1
                  end in
        let s3 := set_ready_queue s2 (Some i) in
        on_statistics (fun st => set_ready_actors (u32 (ready_actors st + 1)) st) s3
  end.

(** [scheduler_remove_from_ready_queue] *)
Definition scheduler_remove_from_ready_queue (actor : option nat) (s : scheduler_t)
  : scheduler_t :=
  match actor with
  | None => s
  | Some i =>
      let s1 := match prev (actor_at i s) with
                | Some p => on_actor p (set_next (next (actor_at i s))) s
                | None => set_ready_queue s (next (actor_at i s))
                end in
      let s2 := match next (actor_at i s1) with
                | Some n => on_actor n (set_prev (prev (actor_at i s1))) s1
                | None => s1
                end in
      let s3 := on_actor i (fun a => set_links a None None) s2 in
      on_statistics (fun st => set_ready_actors (u32 (ready_actors st - 1)) st) s3
  end.

(** [scheduler_context_switch] *)
Definition scheduler_context_switch (next_actor : option nat) (s : scheduler_t)
  : scheduler_t :=
  let current := current_actor s in
  if ptr_eqb current next_actor then s
  else
    let s1 := match current with
              | Some c =>
                  if state (actor_at c s) =? ACTOR_STATE_RUNNING
                  then on_actor c (fun a => set_state a ACTOR_STATE_READY) s
                  else s
              | None => s
              end in
    match next_actor with
    | Some n =>
        let s2 := set_current_actor s1 (Some n) in
        let s3 := on_actor n (fun a =>
                    set_last_scheduled (tick_count s2) (set_state a ACTOR_STATE_RUNNING))
                    s2 in
        scheduler_remove_from_ready_queue (Some n) s3
    | None => s1
    end.

(** [scheduler_schedule] *)
Definition scheduler_schedule (s : scheduler_t) : scheduler_t :=
  if negb (scheduler_enabled s) then s
  else
    let next_actor := scheduler_select_next_actor s in
    let s1 := if negb (ptr_eqb next_actor (current_actor s))
              then scheduler_context_switch next_actor s
              else s in
    on_statistics (fun st =>
      set_traffic st (u64 (context_switches st + 1)) (stat_messages_sent st)
        (messages_delivered st)) s1.

(** [scheduler_yield] *)
Definition scheduler_yield (s : scheduler_t) : scheduler_t :=
  if negb (scheduler_initialized s) then s
  else
    let s1 := match current_actor s with
              | Some c =>
                  if state (actor_at c s) =? ACTOR_STATE_RUNNING
                  then scheduler_add_to_ready_queue (Some c)
                         (on_actor c (fun a => set_state a ACTOR_STATE_READY) s)
                  else s
              | None => s
              end in
    scheduler_schedule s1.

(** [scheduler_ai_analyze_actors] *)
Definition scheduler_ai_analyze_actors (s : scheduler_t) : scheduler_t :=
  if negb (ai_supervision s) then s
  else
    fold_left (fun s slot =>
                 match slot with
                 | Some p =>
                     let a := actor_at p s in
                     if ai_monitored a && (0 <? messages_sent a)
                        && (0 <? messages_received a) && (behavior_score a <? 100)
                     then on_actor p (set_behavior_score (u32 (behavior_score a + 1))) s
                     else s
                 | None => s
                 end)
              (actors s) s.

(** [scheduler_ai_balance_load] only prints. *)
Definition scheduler_ai_balance_load (s : scheduler_t) : scheduler_t := s.

(** [scheduler_ai_detect_deadlock] *)
Definition scheduler_ai_detect_deadlock (s : scheduler_t) : bool := false.

(** [scheduler_timer_handler] *)
Definition scheduler_timer_handler (s : scheduler_t) : scheduler_t :=
  if negb (scheduler_initialized s) then s
  else
    let s1 := set_clock s (scheduler_enabled s) (u32 (tick_count s + 1))
                (u32 (current_timeslice s + 1)) in
    let s2 := match current_actor s1 with
              | Some c => on_actor c (fun a =>
                            set_cpu_time_used (u64 (cpu_time_used a + 1)) a) s1
              | None => s1
              end in
    let s3 := if SCHEDULER_TIMESLICE_MS <=? current_timeslice s2
              then scheduler_yield
                     (set_clock s2 (scheduler_enabled s2) (tick_count s2) 0)
              else s2 in
    if tick_count s3 mod 1000 =? 0 then scheduler_ai_analyze_actors s3 else s3.

(** [actor_create_kernel_actor] *)
Definition actor_create_kernel_actor (s : scheduler_t) : scheduler_t :=
  let s1 := set_actor_table s (actors s) (<[0%nat := true]> (actor_pool_used s)) in
  let s2 := on_actor 0 (fun a =>
    {| actor_id := 0; parent_id := 0; state := ACTOR_STATE_RUNNING;
       priority := ACTOR_PRIORITY_CRITICAL; flags := 0;
       stack_base := 0; stack_current := 0; stack_size := 0;
       entry_point := 0; user_data := 0;
       registers := replicate 8 0;
       eip := eip a; esp := esp a; ebp := ebp a; eflags := eflags a;
       message_queue := []; queue_size := 0; max_queue_size := 256;
       cpu_time_used := 0; messages_sent := 0; messages_received := 0;
       creation_time := 0; last_scheduled := 0;
       memory_context := 0; memory_limit := 0; memory_used := 0;
       error_code := 0; error_message := 0;
       behavior_score := 100; anomaly_count := 0; ai_monitored := false;
       next := None; prev := None |}) s1 in
  let s3 := set_actor_table s2 (<[0%nat := Some 0%nat]> (actors s2)) (actor_pool_used s2) in
  set_current_actor s3 (Some 0%nat).

(** [scheduler_init].  Clearing [message_pool[i].next] for every [i] cuts
    every mailbox chain behind its first message. *)
Definition scheduler_init (s : scheduler_t) : scheduler_t :=
  let s1 :=
    {| actors := (fun _ => None) <$> actors s;
       ready_queue := None; current_actor := None; next_actor_id := 1;
       message_count := 0; scheduler_enabled := false;
       tick_count := 0; current_timeslice := 0;
       statistics := zero_stats; ai_supervision := true;
       context_switch_time := context_switch_time s;
       load_average := load_average s;
       actor_pool :=
         (fun a => set_queue a (take 1 (message_queue a)) (queue_size a))
           <$> actor_pool s;
       actor_pool_used := (fun _ => false) <$> actor_pool_used s;
       message_pool := message_pool s;
       message_pool_used := (fun _ => false) <$> message_pool_used s;
       scheduler_initialized := scheduler_initialized s;
       effects := effects s |} in
  let s2 := actor_create_kernel_actor s1 in
  {| actors := actors s2; ready_queue := ready_queue s2;
     current_actor := current_actor s2; next_actor_id := next_actor_id s2;
     message_count := message_count s2; scheduler_enabled := scheduler_enabled s2;
     tick_count := tick_count s2; current_timeslice := current_timeslice s2;
     statistics := statistics s2; ai_supervision := ai_supervision s2;
     context_switch_time := context_switch_time s2; load_average := load_average s2;
     actor_pool := actor_pool s2; actor_pool_used := actor_pool_used s2;
     message_pool := message_pool s2; message_pool_used := message_pool_used s2;
     scheduler_initialized := true; effects := effects s2 |}.

(** [scheduler_start] *)
Definition scheduler_start (s : scheduler_t) : scheduler_t :=
  if negb (scheduler_initialized s) then s
  else scheduler_schedule
         (set_clock s true (tick_count s) (current_timeslice s)).

(** [message_allocate] *)
Definition message_allocate (s : scheduler_t) : option nat * scheduler_t :=
  match find_index negb (message_pool_used s) with
  | Some i =>
      (Some i, set_messages s (message_pool s) (<[i:=true]> (message_pool_used s)))
  | None => (None, s)
  end.

(** [message_free] *)
Definition message_free (message : option nat) (s : scheduler_t) : scheduler_t :=
  match message with
  | None => s
  | Some m =>
      let s1 := if payload (message_at m s) =? 0 then s
                else emit s (Kfree (payload (message_at m s))) in
      if (m <? length (message_pool s1))%nat
      then set_messages s1 (message_pool s1) (<[m:=false]> (message_pool_used s1))
      else s1
  end.

(** [actor_add_message] *)
Definition actor_add_message (actor message : option nat) (s : scheduler_t)
  : bool * scheduler_t :=
  match actor, message with
  | Some a, Some m =>
      if max_queue_size (actor_at a s) <=? queue_size (actor_at a s) then (false, s)
      else
        (true, on_actor a (fun act =>
                 set_queue act (message_queue act ++ [m]) (u32 (queue_size act + 1))) s)
  | _, _ => (false, s)
  end.

(** [actor_clear_message_queue] *)
Definition actor_clear_message_queue (actor : option nat) (s : scheduler_t)
  : scheduler_t :=
  match actor with
  | None => s
  | Some a =>
      let s1 := fold_left (fun s m => message_free (Some m) s)
                          (message_queue (actor_at a s)) s in
      on_actor a (fun act => set_queue act [] 0) s1
  end.

(** [actor_create]; [alloc] is the address [kmalloc] returns for the stack
    (0 when it fails). *)
Definition actor_create (entry user prio stack alloc : Z) (s : scheduler_t)
  : Z * scheduler_t :=
  if negb (scheduler_initialized s) || (entry =? 0) then (0, s)
  else match find_index negb (drop 1 (actor_pool_used s)) with
  | None => (0, s)
  | Some k =>
      let i := S k in
      let s1 := set_actor_table s (actors s) (<[i:=true]> (actor_pool_used s)) in
      let s1' := on_actor i (fun a =>
                   set_header a (Z.of_nat i) (parent_id a) (state a) (priority a) (flags a))
                   s1 in
      let parent := match current_actor s1' with
                    | Some c => actor_id (actor_at c s1')
                    | None => 0
                    end in
      let size := if stack =? 0 then ACTOR_STACK_SIZE else stack in
      let s2 := on_actor i (fun a =>
        {| actor_id := actor_id a; parent_id := parent; state := ACTOR_STATE_CREATED;
           priority := prio; flags := 0;
           stack_base := alloc; stack_current := stack_current a;
           stack_size := stack_size a;
           entry_point := entry_point a; user_data := user_data a;
           registers := registers a;
           eip := eip a; esp := esp a; ebp := ebp a; eflags := eflags a;
           message_queue := message_queue a; queue_size := queue_size a;
           max_queue_size := max_queue_size a;
           cpu_time_used := cpu_time_used a; messages_sent := messages_sent a;
           messages_received := messages_received a;
           creation_time := creation_time a; last_scheduled := last_scheduled a;
           memory_context := memory_context a; memory_limit := memory_limit a;
           memory_used := memory_used a;
           error_code := error_code a; error_message := error_message a;
           behavior_score := behavior_score a; anomaly_count := anomaly_count a;
           ai_monitored := ai_monitored a; next := next a; prev := prev a |}) s1' in
      let s3 := emit s2 (Kmalloc size alloc) in
      if alloc =? 0 then
        (0, set_actor_table s3 (actors s3) (<[i:=false]> (actor_pool_used s3)))
      else
        let top := u32 (alloc + size - 4) in
        let s4 := on_actor i (fun a =>
          {| actor_id := actor_id a; parent_id := parent_id a; state := state a;
             priority := priority a; flags := flags a;
             stack_base := stack_base a; stack_current := top; stack_size := size;
             entry_point := entry; user_data := user;
             registers := replicate 8 0;
             eip := entry; esp := top; ebp := top; eflags := 0x200;
             message_queue := []; queue_size := 0; max_queue_size := 64;
             cpu_time_used := 0; messages_sent := 0; messages_received := 0;
             creation_time := tick_count s3; last_scheduled := 0;
             memory_context := 0; memory_limit := 1024 * 1024; memory_used := size;
             error_code := 0; error_message := 0;
             behavior_score := 100; anomaly_count := 0; ai_monitored := true;
             next := None; prev := None |}) s3 in
        let s5 := set_actor_table s4 (<[i:=Some i]> (actors s4)) (actor_pool_used s4) in
        let s6 := on_statistics (fun st =>
                    set_population st (u64 (actors_created st + 1)) (actors_destroyed st)
                      (u32 (current_actors st + 1)) (ready_actors st)) s5 in
        (Z.of_nat i, s6)
  end.

(** [actor_start] *)
Definition actor_start (id : Z) (s : scheduler_t) : bool * scheduler_t :=
  match actor_get id s with
  | None => (false, s)
  | Some a =>
      if negb (state (actor_at a s) =? ACTOR_STATE_CREATED) then (false, s)
      else
        (true, scheduler_add_to_ready_queue (Some a)
                 (on_actor a (fun act => set_state act ACTOR_STATE_READY) s))
  end.

(** [actor_terminate] *)
Definition actor_terminate (id : Z) (s : scheduler_t) : scheduler_t :=
  match actor_get id s with
  | None => s
  | Some a =>
      let s1 := scheduler_remove_from_ready_queue (Some a) s in
      let s2 := if stack_base (actor_at a s1) =? 0 then s1
                else emit s1 (Kfree (stack_base (actor_at a s1))) in
      let s3 := if error_message (actor_at a s2) =? 0 then s2
                else emit s2 (Kfree (error_message (actor_at a s2))) in
      let s4 := actor_clear_message_queue (Some a) s3 in
      let s5 := on_actor a (fun act => set_state act ACTOR_STATE_FINISHED) s4 in
      let s6 := on_statistics (fun st =>
                  set_population st (actors_created st) (u64 (actors_destroyed st + 1))
                    (u32 (current_actors st - 1)) (ready_actors st)) s5 in
      set_actor_table s6 (<[Z.to_nat id := None]> (actors s6))
                      (<[Z.to_nat id := false]> (actor_pool_used s6))
  end.

(** [message_send_async].  [data] is [None] for a [NULL] payload pointer;
    [alloc] is the address [kmalloc] returns for the payload copy (0 when it
    fails). *)
Definition message_send_async (recipient : Z) (mtype : Z) (data : option (list Z))
  (size : Z) (alloc : Z) (s : scheduler_t) : bool * scheduler_t :=
  if negb (scheduler_initialized s) then (false, s)
  else match actor_get recipient s with
  | None => (false, s)
  | Some r =>
      match message_allocate s with
      | (None, s1) => (false, s1)
      | (Some m, s1) =>
          let sender := match current_actor s1 with
                        | Some c => actor_id (actor_at c s1)
                        | None => 0
                        end in
          let copy := match data with
                      | Some _ => 0 <? size
                      | None => false
                      end in
          let msg :=
            {| sender_id := sender; recipient_id := recipient;
               message_id := u32 (stat_messages_sent (statistics s1) + 1);
               type := mtype; m_priority := ACTOR_PRIORITY_NORMAL; m_flags := 0;
               payload_size := size;
               payload := if copy then alloc else 0;
               timestamp := tick_count s1; deadline := 0; reply_to := 0;
               requires_reply := false |} in
          let s2 := set_messages s1 (<[m:=msg]> (message_pool s1)) (message_pool_used s1) in
          let s3 := if copy then emit s2 (Kmalloc size alloc) else s2 in
          if copy && (alloc =? 0) then (false, message_free (Some m) s3)
          else
            let s4 := if copy
                      then emit s3 (Store alloc
                             (take (Z.to_nat size)
                                (default [] data ++ replicate (Z.to_nat size) 0)))
                      else s3 in
            match actor_add_message (Some r) (Some m) s4 with
            | (true, s5) =>
                let s6 := on_statistics (fun st =>
                            set_traffic st (context_switches st)
                              (u64 (stat_messages_sent st + 1)) (messages_delivered st))
                            s5 in
                let s7 := match current_actor s6 with
                          | Some c => on_actor c (fun a =>
                                        set_messages_sent (u64 (messages_sent a + 1)) a) s6
                          | None => s6
                          end in
                let s8 := if state (actor_at r s7) =? ACTOR_STATE_BLOCKED
                          then scheduler_add_to_ready_queue (Some r)
                                 (on_actor r (fun a => set_state a ACTOR_STATE_READY) s7)
                          else s7 in
                (true, s8)
            | (false, s5) =>
                let s6 := if payload (message_at m s5) =? 0 then s5
                          else emit s5 (Kfree (payload (message_at m s5))) in
                (false, message_free (Some m) s6)
            end
      end
  end.

(** [message_receive] *)
Definition message_receive (s : scheduler_t) : option nat * scheduler_t :=
  match current_actor s with
  | None => (None, s)
  | Some c =>
      match message_queue (actor_at c s) with
      | m :: rest =>
          let s1 := on_actor c (fun a =>
                      set_messages_received (u64 (messages_received a + 1))
                        (set_queue a rest (u32 (queue_size a - 1)))) s in
          let s2 := on_statistics (fun st =>
                      set_traffic st (context_switches st) (stat_messages_sent st)
                        (u64 (messages_delivered st + 1))) s1 in
          (Some m, s2)
      | [] => (None, s)
      end
  end.

(** [message_wait] *)
Definition message_wait (timeout_ms : Z) (s : scheduler_t) : option nat * scheduler_t :=
  match current_actor s with
  | None => (None, s)
  | Some c =>
      match message_receive s with
      | (Some m, s1) => (Some m, s1)
      | (None, s1) =>
          let s2 := on_actor c (fun a => set_state a ACTOR_STATE_BLOCKED) s1 in
          let s3 := scheduler_remove_from_ready_queue (Some c) s2 in
          let s4 := scheduler_yield s3 in
          message_receive s4
      end
  end.

(** [scheduler_get_statistics] *)
Definition scheduler_get_statistics (s : scheduler_t) : option scheduler_stats_t :=
  if negb (scheduler_initialized s) then None else Some (statistics s).

(** ** The interface as a transition system *)

Inductive call :=
  | CInit
  | CStart
  | CSchedule
  | CYield
  | CTimerTick
  | CAnalyzeActors
  | CActorCreate (entry user prio stack alloc : Z)
  | CActorStart (id : Z)
  | CActorTerminate (id : Z)
  | CSendAsync (recipient mtype : Z) (data : option (list Z)) (size alloc : Z)
  | CReceive
  | CWait (timeout_ms : Z)
  | CFree (message : option nat).

Inductive result :=
  | RVoid
  | RBool (b : bool)
  | RActorId (id : Z)
  | RMessage (m : option nat).

Definition run (c : call) (s : scheduler_t) : result * scheduler_t :=
  match c with
  | CInit => (RVoid, scheduler_init s)
  | CStart => (RVoid, scheduler_start s)
  | CSchedule => (RVoid, scheduler_schedule s)
  | CYield => (RVoid, scheduler_yield s)
  | CTimerTick => (RVoid, scheduler_timer_handler s)
  | CAnalyzeActors => (RVoid, scheduler_ai_analyze_actors s)
  | CActorCreate entry user prio stack alloc =>
      let '(id, s') := actor_create entry user prio stack alloc s in (RActorId id, s')
  | CActorStart id => let '(b, s') := actor_start id s in (RBool b, s')
  | CActorTerminate id => (RVoid, actor_terminate id s)
  | CSendAsync recipient mtype data size alloc =>
      let '(b, s') := message_send_async recipient mtype data size alloc s in (RBool b, s')
  | CReceive => let '(m, s') := message_receive s in (RMessage m, s')
  | CWait t => let '(m, s') := message_wait t s in (RMessage m, s')
  | CFree m => (RVoid, message_free m s)
  end.

(** An actor is live when the actor table points to its slot. *)
Definition live (a : nat) (s : scheduler_t) : Prop :=
  exists id : nat, actors s !! id = Some (Some a).

(** Ownership discipline of the messaging interface: a message is released by
    the actor that received it, so no message that still sits in the mailbox
    of a live actor is passed to [message_free].  Actor and message
    identifiers are 32-bit values. *)
Definition permitted (c : call) (s : scheduler_t) : Prop :=
  match c with
  | CFree (Some m) => forall a, live a s -> m ∉ message_queue (actor_at a s)
  | CActorStart id | CActorTerminate id => 0 <= id < 2 ^ 32
  | CSendAsync recipient _ _ _ _ => 0 <= recipient < 2 ^ 32
  | _ => True
  end.

Inductive reachable : scheduler_t -> Prop :=
  | reachable_boot : reachable boot_state
  | reachable_step s c : reachable s -> permitted c s -> reachable (snd (run c s)).

(** *** What a call does to one mailbox *)

(** The message a call appends to the mailbox of the actor in slot [a]: the
    slot [message_send_async] takes from the pool, when the call is a send
    to [a] that reports success. *)
Definition enqueues (a : nat) (c : call) (s : scheduler_t) : list nat :=
  match c with
  | CSendAsync recipient _ _ _ _ =>
      match fst (run c s), actor_get recipient s,
            find_index negb (message_pool_used s) with
      | RBool true, Some r, Some m => if (r =? a)%nat then [m] else []
      | _, _, _ => []
      end
  | _ => []
  end.

(** The message a call hands to the actor in slot [a]: what [message_receive]
    or [message_wait] returns while [a] is the current actor. *)
Definition delivers (a : nat) (c : call) (s : scheduler_t) : list nat :=
  match c with
  | CReceive | CWait _ =>
      match run c s with
      | (RMessage (Some m), s') =>
          if ptr_eqb (current_actor s') (Some a) then [m] else []
      | _ => []
      end
  | _ => []
  end.

(** The state after a sequence of calls, and the messages the sequence puts
    into and takes out of the mailbox of [a], in order. *)
Fixpoint run_all (tr : list call) (s : scheduler_t) : scheduler_t :=
  match tr with
  | [] => s
  | c :: tr' => run_all tr' (snd (run c s))
  end.

Fixpoint enqueued (a : nat) (tr : list call) (s : scheduler_t) : list nat :=
  match tr with
  | [] => []
  | c :: tr' => enqueues a c s ++ enqueued a tr' (snd (run c s))
  end.

Fixpoint delivered (a : nat) (tr : list call) (s : scheduler_t) : list nat :=
  match tr with
  | [] => []
  | c :: tr' => delivers a c s ++ delivered a tr' (snd (run c s))
  end.

(** A call that resets the mailbox of the actor in slot [a]. *)
Definition resets (a : nat) (c : call) : bool :=
  match c with
  | CInit => true
  | CActorTerminate id => (Z.to_nat id =? a)%nat
  | _ => false
  end.

(** Every call of a sequence is permitted in the state it is issued in. *)
Fixpoint permitted_all (tr : list call) (s : scheduler_t) : Prop :=
  match tr with
  | [] => True
  | c :: tr' => permitted c s /\ permitted_all tr' (snd (run c s))
  end.

(** ** Specification vocabulary *)

(** The mailbox of the actor in a pool slot. *)
Definition mailbox (a : nat) (s : scheduler_t) : list nat := message_queue (actor_at a s).

(** The three fields that make up a mailbox. *)
Definition mbox (x : actor_t) : list nat * Z * Z :=
  (message_queue x, queue_size x, max_queue_size x).

(** From [s] to [s'] no mailbox, no entry of the actor table and no slot
    flag has changed. *)
Definition quiet (s s' : scheduler_t) : Prop :=
  (forall i, mbox (actor_at i s') = mbox (actor_at i s)) /\
  actors s' = actors s /\
  actor_pool_used s' = actor_pool_used s.

(** The length of the mailbox is within the counter, the counter within the
    capacity, the capacity a 32-bit value. *)
Definition bounded (x : actor_t) : Prop :=
  Z.of_nat (length (message_queue x)) <= queue_size x /\
  queue_size x <= max_queue_size x /\
  max_queue_size x < 2 ^ 32.

(** The counter is the length of the mailbox. *)
Definition counted (x : actor_t) : Prop :=
  queue_size x = Z.of_nat (length (message_queue x)).

Record well_formed (s : scheduler_t) : Prop := {
  wf_bounded : forall i, bounded (actor_at i s);
  wf_live : forall id p, actors s !! id = Some (Some p) ->
                         p = id /\ counted (actor_at p s)
}.

(** From [s] to [s'] the mailbox in slot [r] has changed by [g] and nothing
    else has changed of what [quiet] looks at. *)
Definition touches (r : nat) (g : list nat * Z * Z -> list nat * Z * Z)
  (s s' : scheduler_t) : Prop :=
  (forall i, mbox (actor_at i s') =
             if decide (i = r) then g (mbox (actor_at i s)) else mbox (actor_at i s)) /\
  actors s' = actors s /\
  actor_pool_used s' = actor_pool_used s.

(** What [actor_add_message] and [message_receive] do to a mailbox. *)
Definition push (m : nat) (b : list nat * Z * Z) : list nat * Z * Z :=
  let '(q, n, cap) := b in (q ++ [m], u32 (n + 1), cap).

Definition pop (b : list nat * Z * Z) : list nat * Z * Z :=
  let '(q, n, cap) := b in (tail q, u32 (n - 1), cap).

End Scheduler.

(** * The kernel: the three subsystems side by side

    None of the three translation units calls into another one: each function
    of a subsystem reads and writes the globals of its own unit only. *)

Module Kernel.

Record kernel_t := {
  sched : Scheduler.scheduler_t;
  modules : Modules.module_system_t;
  sandbox : Sandbox.sandboxing_system_state_t
}.

Definition boot_state : kernel_t :=
  {| sched := Scheduler.boot_state; modules := Modules.boot_state;
     sandbox := Sandbox.boot_state |}.

Definition with_sched (f : Scheduler.scheduler_t -> Scheduler.scheduler_t) (k : kernel_t)
  : kernel_t :=
  {| sched := f (sched k); modules := modules k; sandbox := sandbox k |}.

Definition with_modules (f : Modules.module_system_t -> Modules.module_system_t)
  (k : kernel_t) : kernel_t :=
  {| sched := sched k; modules := f (modules k); sandbox := sandbox k |}.

Definition with_sandbox
  (f : Sandbox.sandboxing_system_state_t -> Sandbox.sandboxing_system_state_t)
  (k : kernel_t) : kernel_t :=
  {| sched := sched k; modules := modules k; sandbox := f (sandbox k) |}.

(** [module_load] as a function of the kernel. *)
Definition module_load (module_data : option Modules.module_image)
  (size alloc init_result : Z) (k : kernel_t) : Z * kernel_t :=
  let '(id, m) := Modules.module_load module_data size alloc init_result (modules k) in
  (id, with_modules (fun _ => m) k).

(** [sandboxing_check_function_call] as a function of the kernel. *)
Definition sandboxing_check_function_call (mid : Z) (function_name : option string)
  (k : kernel_t) : bool * kernel_t :=
  let '(ok, sb) := Sandbox.sandboxing_check_function_call mid function_name (sandbox k) in
  (ok, with_sandbox (fun _ => sb) k).

(** [sandboxing_create_sandbox] as a function of the kernel. *)
Definition sandboxing_create_sandbox (mid level : Z) (k : kernel_t) : Z * kernel_t :=
  let '(r, sb) := Sandbox.sandboxing_create_sandbox mid level (sandbox k) in
  (r, with_sandbox (fun _ => sb) k).

Inductive call :=
  | OfScheduler (c : Scheduler.call)
  | OfModules (c : Modules.call)
  | OfSandbox (c : Sandbox.call).

Definition permitted (c : call) (k : kernel_t) : Prop :=
  match c with
  | OfScheduler c => Scheduler.permitted c (sched k)
  | OfModules _ => True
  | OfSandbox c => Sandbox.well_typed c
  end.

Section Transitions.

Variable sandboxing_disable_vm :
  Z -> Sandbox.sandboxing_system_state_t -> Z * Sandbox.sandboxing_system_state_t.

Definition run (c : call) (k : kernel_t) : kernel_t :=
  match c with
  | OfScheduler c => with_sched (fun s => snd (Scheduler.run c s)) k
  | OfModules c => with_modules (Modules.run c) k
  | OfSandbox c => with_sandbox (Sandbox.run sandboxing_disable_vm c) k
  end.

Inductive reachable : kernel_t -> Prop :=
  | reachable_boot : reachable boot_state
  | reachable_step k c : reachable k -> permitted c k -> reachable (run c k).

End Transitions.

End Kernel.

(** * Claims as stated, and concrete scenarios *)

(** The statements of the specification that the code is compared with. *)
Module Stated.



(** Selection policy, first part: the actor selected for dispatch is of the
    highest priority class among the Ready actors, that is, no live actor in
    state Ready has a smaller priority number. *)
Definition ready (a : nat) (s : Scheduler.scheduler_t) : Prop :=
  Scheduler.live a s /\
  Scheduler.state (Scheduler.actor_at a s) = Scheduler.ACTOR_STATE_READY.

Definition selects_highest_priority (s : Scheduler.scheduler_t) : Prop :=
  forall n, Scheduler.scheduler_select_next_actor s = Some n ->
  forall a, ready a s ->
    Scheduler.priority (Scheduler.actor_at n s) <=
    Scheduler.priority (Scheduler.actor_at a s).

(** Backpressure, second part: a message of kind System is still enqueued
    when the mailbox of the recipient is at capacity. *)
Definition system_bypasses_cap (recipient : Z) (data : option (list Z))
  (size alloc : Z) (s : Scheduler.scheduler_t) : Prop :=
  forall a, Scheduler.actor_get recipient s = Some a ->
    Z.of_nat (length (Scheduler.mailbox a s)) =
      Scheduler.max_queue_size (Scheduler.actor_at a s) ->
    fst (Scheduler.message_send_async recipient Scheduler.MSG_TYPE_SYSTEM
           data size alloc s) = true.


End Stated.

Module Examples.

(** A stand-in for the undefined [sandboxing_disable_vm]. *)
Definition no_vm (mid : Z) (s : Sandbox.sandboxing_system_state_t)
  : Z * Sandbox.sandboxing_system_state_t := (-1, s).

(** *** Sandbox engine alone *)

Definition sandbox_ready : Sandbox.sandboxing_system_state_t :=
  Sandbox.run no_vm Sandbox.CInit Sandbox.boot_state.

(** Module 1 sandboxed at User level. *)
Definition sandbox_user : Sandbox.sandboxing_system_state_t :=
  Sandbox.run no_vm (Sandbox.CCreateSandbox 1 Sandbox.SANDBOX_LEVEL_USER) sandbox_ready.

Definition violate (s : Sandbox.sandboxing_system_state_t)
  : Sandbox.sandboxing_system_state_t :=
  Sandbox.run no_vm
    (Sandbox.CHandleViolation 1 Sandbox.VIOLATION_CAPABILITY (Some "denied"%string)) s.

(** Module 1 after five handled capability violations. *)
Definition sandbox_five : Sandbox.sandboxing_system_state_t :=
  violate (violate (violate (violate (violate sandbox_user)))).

(** *** A module image *)

Definition mod_user_header : Modules.module_header_t :=
  {| Modules.magic := Modules.MODULE_MAGIC;
     Modules.version := Modules.MODULE_VERSION;
     Modules.module_version := 1;
     Modules.h_name := char_array 64 "mod_user";
     Modules.h_description := char_array 256 "user module";
     Modules.author := char_array 128 "";
     Modules.license := char_array 64 "";
     Modules.h_type := 7;
     Modules.priority := 0;
     Modules.h_flags := Modules.MODULE_FLAG_AUTO_START;
     Modules.code_size := 4;
     Modules.data_size := 2;
     Modules.bss_size := 2;
     Modules.entry_point := 0;
     Modules.exit_point := 0;
     Modules.h_symbol_count := 0;
     Modules.symbol_table_offset := 0;
     Modules.h_dependency_count := 0;
     Modules.dependency_table_offset := 0;
     Modules.checksum := 0;
     Modules.signature := 0 |}.

Definition mod_user_image : Modules.module_image :=
  {| Modules.header := mod_user_header;
     Modules.sections := [0x90; 0x90; 0x90; 0xC3; 1; 2] |}.

Definition load_mod_user : Modules.call :=
  Modules.CLoad (Some mod_user_image) 578 0x100000 0.

(** A module that carries the Core flag. *)
Definition mod_core_header : Modules.module_header_t :=
  {| Modules.magic := Modules.MODULE_MAGIC;
     Modules.version := Modules.MODULE_VERSION;
     Modules.module_version := 1;
     Modules.h_name := char_array 64 "mod_core";
     Modules.h_description := char_array 256 "core module";
     Modules.author := char_array 128 "";
     Modules.license := char_array 64 "";
     Modules.h_type := 3;
     Modules.priority := 0;
     Modules.h_flags := Modules.MODULE_FLAG_CORE;
     Modules.code_size := 4;
     Modules.data_size := 0;
     Modules.bss_size := 0;
     Modules.entry_point := 0;
     Modules.exit_point := 2;
     Modules.h_symbol_count := 0;
     Modules.symbol_table_offset := 0;
     Modules.h_dependency_count := 0;
     Modules.dependency_table_offset := 0;
     Modules.checksum := 0;
     Modules.signature := 0 |}.

Definition mod_core_image : Modules.module_image :=
  {| Modules.header := mod_core_header;
     Modules.sections := [0x90; 0xC3; 0x90; 0xC3] |}.

(** The registry with [mod_core] loaded as module 1 (pool slot 0). *)
Definition modules_core : Modules.module_system_t :=
  Modules.run (Modules.CLoad (Some mod_core_image) 576 0x200000 0)
    (Modules.run Modules.CModulesInit Modules.boot_state).

(** *** The kernel with [mod_user] *)




(** *** Scheduler *)

(** The scheduler after [scheduler_init]: the kernel actor alone, running. *)
Definition sched_ready : Scheduler.scheduler_t :=
  Scheduler.scheduler_init Scheduler.boot_state.

(** Actor 1 of priority Critical and actor 2 of priority Low are created,
    then started in this order. *)
Definition sched_two_calls : list Scheduler.call :=
  [ Scheduler.CInit;
    Scheduler.CActorCreate 0x1000 0 Scheduler.ACTOR_PRIORITY_CRITICAL 4096 0x200000;
    Scheduler.CActorCreate 0x2000 0 Scheduler.ACTOR_PRIORITY_LOW 4096 0x300000;
    Scheduler.CActorStart 1;
    Scheduler.CActorStart 2 ].

Definition sched_two : Scheduler.scheduler_t :=
  Scheduler.run_all sched_two_calls Scheduler.boot_state.

Definition send_to (recipient mtype : Z) : Scheduler.call :=
  Scheduler.CSendAsync recipient mtype None 0 0.

(** The mailbox of actor 1 filled to its capacity of 64 messages. *)
Definition sched_full_calls : list Scheduler.call :=
  sched_two_calls ++ replicate 64 (send_to 1 Scheduler.MSG_TYPE_ASYNC).

Definition sched_full : Scheduler.scheduler_t :=
  Scheduler.run_all sched_full_calls Scheduler.boot_state.

(** One message short of the capacity. *)
Definition sched_nearly_full_calls : list Scheduler.call :=
  sched_two_calls ++ replicate 63 (send_to 1 Scheduler.MSG_TYPE_ASYNC).

Definition sched_nearly_full : Scheduler.scheduler_t :=
  Scheduler.run_all sched_nearly_full_calls Scheduler.boot_state.

(** Two messages of different kinds are sent to actor 2, the scheduler is
    started (which dispatches actor 2), and actor 2 receives twice. *)
Definition exchange : list Scheduler.call :=
  [ send_to 2 Scheduler.MSG_TYPE_ASYNC;
    send_to 2 Scheduler.MSG_TYPE_SYSTEM;
    Scheduler.CStart;
    Scheduler.CReceive;
    send_to 2 Scheduler.MSG_TYPE_ASYNC;
    Scheduler.CReceive ].

End Examples.

(** * Kernel heap ([heap.c], [heap.h]) *)

Module Heap.

(** ** Constants of [heap.h] and [memory.h] *)

Definition HEAP_MIN_BLOCK_SIZE : Z := 16.
Definition HEAP_MAX_BLOCK_SIZE : Z := 0x100000.
Definition HEAP_ALIGNMENT : Z := 8.
Definition SLAB_SIZE_COUNT : Z := 12.
Definition SLAB_SIZES : list Z :=
  [16; 32; 64; 128; 256; 512; 1024; 2048; 4096; 8192; 16384; 32768].
Definition KERNEL_HEAP_START : Z := 0x200000.
Definition KERNEL_HEAP_END : Z := 0x400000.

(** Pointers and [size_t] are 32-bit values: the kernel is built for the
    32-bit x86.  [NULL] is 0.  Pointer arithmetic wraps at 2^32. *)

(** [HEAP_ALIGN_UP(addr, align)]: [((addr) + (align) - 1) & ~((align) - 1)]
    on [size_t]. *)
Definition HEAP_ALIGN_UP (addr align : Z) : Z :=
  Z.land (u32 (addr + align - 1)) (u32 (Z.lnot (align - 1))).

(** [HEAP_IS_ALIGNED(addr, align)] *)
Definition HEAP_IS_ALIGNED (addr align : Z) : bool :=
  Z.land addr (align - 1) =? 0.

(** ** Data structures *)

Record heap_stats_t := {
  total_allocations : Z;        (* uint64_t *)
  total_frees : Z;
  current_allocations : Z;
  bytes_allocated : Z;
  bytes_freed : Z;
  peak_usage : Z;
  fragmentation_level : Z;      (* uint32_t *)
  allocation_time_avg : Z;
  free_time_avg : Z;
  potential_leaks : Z;
  leaked_bytes : Z;
  actor_allocations : list Z;   (* uint32_t[256] *)
  actor_memory_used : list Z    (* uint64_t[256] *)
}.

Record slab_allocator_t := {
  slabs : list Z;               (* slab_t*[SLAB_SIZE_COUNT] *)
  total_slabs : Z;
  total_allocated : Z;
  total_freed : Z
}.

Record heap_t := {
  start_address : Z;
  end_address : Z;
  total_size : Z;               (* uint64_t *)
  available_size : Z;
  free_list : Z;
  slab_allocator : slab_allocator_t;
  statistics : heap_stats_t;
  corruption_check_enabled : bool;
  leak_detection_enabled : bool;
  ai_monitoring_enabled : bool
}.

(** The globals of [heap.c].  [effects] records the memory the unit writes
    outside its globals, most recent first. *)
Record heap_state := {
  kernel_heap : heap_t;
  heap_initialized : bool;
  free_list_head : Z;
  heap_current_pos : Z;
  effects : list effect
}.

(** ** Field updates *)

Definition set_heap (s : heap_state) (h : heap_t) : heap_state :=
  {| kernel_heap := h; heap_initialized := heap_initialized s;
     free_list_head := free_list_head s; heap_current_pos := heap_current_pos s;
     effects := effects s |}.

Definition set_heap_current_pos (s : heap_state) (p : Z) : heap_state :=
  {| kernel_heap := kernel_heap s; heap_initialized := heap_initialized s;
     free_list_head := free_list_head s; heap_current_pos := p;
     effects := effects s |}.

Definition set_heap_initialized (s : heap_state) (b : bool) : heap_state :=
  {| kernel_heap := kernel_heap s; heap_initialized := b;
     free_list_head := free_list_head s; heap_current_pos := heap_current_pos s;
     effects := effects s |}.

Definition emit (s : heap_state) (e : effect) : heap_state :=
  {| kernel_heap := kernel_heap s; heap_initialized := heap_initialized s;
     free_list_head := free_list_head s; heap_current_pos := heap_current_pos s;
     effects := e :: effects s |}.

Definition set_statistics (h : heap_t) (st : heap_stats_t) : heap_t :=
  {| start_address := start_address h; end_address := end_address h;
     total_size := total_size h; available_size := available_size h;
     free_list := free_list h; slab_allocator := slab_allocator h;
     statistics := st;
     corruption_check_enabled := corruption_check_enabled h;
     leak_detection_enabled := leak_detection_enabled h;
     ai_monitoring_enabled := ai_monitoring_enabled h |}.

Definition on_statistics (f : heap_stats_t -> heap_stats_t) (s : heap_state)
  : heap_state :=
  set_heap s (set_statistics (kernel_heap s) (f (statistics (kernel_heap s)))).

(** The three counters of an allocation and the memory of the kernel
    actor. *)
Definition set_counters (st : heap_stats_t) (total current bytes : Z)
  (used : list Z) : heap_stats_t :=
  {| total_allocations := total; total_frees := total_frees st;
     current_allocations := current; bytes_allocated := bytes;
     bytes_freed := bytes_freed st; peak_usage := peak_usage st;
     fragmentation_level := fragmentation_level st;
     allocation_time_avg := allocation_time_avg st;
     free_time_avg := free_time_avg st;
     potential_leaks := potential_leaks st; leaked_bytes := leaked_bytes st;
     actor_allocations := actor_allocations st;
     actor_memory_used := used |}.

Definition set_frees (st : heap_stats_t) (frees current : Z) : heap_stats_t :=
  {| total_allocations := total_allocations st; total_frees := frees;
     current_allocations := current; bytes_allocated := bytes_allocated st;
     bytes_freed := bytes_freed st; peak_usage := peak_usage st;
     fragmentation_level := fragmentation_level st;
     allocation_time_avg := allocation_time_avg st;
     free_time_avg := free_time_avg st;
     potential_leaks := potential_leaks st; leaked_bytes := leaked_bytes st;
     actor_allocations := actor_allocations st;
     actor_memory_used := actor_memory_used st |}.

Definition set_usage (st : heap_stats_t) (peak level : Z) : heap_stats_t :=
  {| total_allocations := total_allocations st; total_frees := total_frees st;
     current_allocations := current_allocations st;
     bytes_allocated := bytes_allocated st;
     bytes_freed := bytes_freed st; peak_usage := peak;
     fragmentation_level := level;
     allocation_time_avg := allocation_time_avg st;
     free_time_avg := free_time_avg st;
     potential_leaks := potential_leaks st; leaked_bytes := leaked_bytes st;
     actor_allocations := actor_allocations st;
     actor_memory_used := actor_memory_used st |}.

(** ** Initial memory image *)

Definition zero_stats : heap_stats_t :=
  {| total_allocations := 0; total_frees := 0; current_allocations := 0;
     bytes_allocated := 0; bytes_freed := 0; peak_usage := 0;
     fragmentation_level := 0; allocation_time_avg := 0; free_time_avg := 0;
     potential_leaks := 0; leaked_bytes := 0;
     actor_allocations := replicate 256 0; actor_memory_used := replicate 256 0 |}.

Definition zero_slab_allocator : slab_allocator_t :=
  {| slabs := replicate (Z.to_nat SLAB_SIZE_COUNT) 0; total_slabs := 0;
     total_allocated := 0; total_freed := 0 |}.

Definition boot_state : heap_state :=
  {| kernel_heap :=
       {| start_address := 0; end_address := 0; total_size := 0; available_size := 0;
          free_list := 0; slab_allocator := zero_slab_allocator;
          statistics := zero_stats;
          corruption_check_enabled := false; leak_detection_enabled := false;
          ai_monitoring_enabled := false |};
     heap_initialized := false; free_list_head := 0; heap_current_pos := 0;
     effects := [] |}.

(** ** Functions *)

(** [heap_get_slab_index] *)
Definition heap_get_slab_index (size : Z) : Z :=
  match find_index (fun slab_size => size <=? slab_size) SLAB_SIZES with
  | Some i => Z.of_nat i
  | None => SLAB_SIZE_COUNT
  end.

(** [heap_create].  The kernel has one heap, [kernel_heap]: [heap] is [None]
    for a [NULL] argument and [Some tt] for [&kernel_heap].  The addresses
    are converted to [uint64_t] without sign. *)
Definition heap_create (heap : option unit) (start end_ : Z) (s : heap_state)
  : bool * heap_state :=
  match heap with
  | None => (false, s)
  | Some _ =>
      if end_ <=? start then (false, s)
      else
        let h := kernel_heap s in
        let h1 :=
          {| start_address := start; end_address := end_;
             total_size := u64 (end_ - start); available_size := u64 (end_ - start);
             free_list := 0; slab_allocator := slab_allocator h;
             statistics :=
               {| total_allocations := 0; total_frees := 0; current_allocations := 0;
                  bytes_allocated := 0; bytes_freed := 0; peak_usage := 0;
                  fragmentation_level := 0; allocation_time_avg := 0;
                  free_time_avg := 0; potential_leaks := 0; leaked_bytes := 0;
                  actor_allocations :=
                    (fun _ => 0) <$> actor_allocations (statistics h);
                  actor_memory_used :=
                    (fun _ => 0) <$> actor_memory_used (statistics h) |};
             corruption_check_enabled := corruption_check_enabled h;
             leak_detection_enabled := leak_detection_enabled h;
             ai_monitoring_enabled := ai_monitoring_enabled h |} in
        (true, set_heap_current_pos (set_heap s h1) start)
  end.

(** [slab_init] on [&kernel_heap.slab_allocator] *)
Definition slab_init (s : heap_state) : heap_state :=
  let h := kernel_heap s in
  set_heap s
    {| start_address := start_address h; end_address := end_address h;
       total_size := total_size h; available_size := available_size h;
       free_list := free_list h;
       slab_allocator :=
         {| slabs := (fun _ => 0) <$> slabs (slab_allocator h); total_slabs := 0;
            total_allocated := 0; total_freed := 0 |};
       statistics := statistics h;
       corruption_check_enabled := corruption_check_enabled h;
       leak_detection_enabled := leak_detection_enabled h;
       ai_monitoring_enabled := ai_monitoring_enabled h |}.

(** [heap_init] *)
Definition heap_init (s : heap_state) : heap_state :=
  match heap_create (Some tt) KERNEL_HEAP_START KERNEL_HEAP_END s with
  | (false, s1) => s1
  | (true, s1) =>
      let s2 := slab_init s1 in
      let h := kernel_heap s2 in
      let s3 := set_heap s2
        {| start_address := start_address h; end_address := end_address h;
           total_size := total_size h; available_size := available_size h;
           free_list := free_list h; slab_allocator := slab_allocator h;
           statistics := statistics h;
           corruption_check_enabled := true; leak_detection_enabled := true;
           ai_monitoring_enabled := true |} in
      set_heap_initialized s3 true
  end.

(** [slab_alloc] *)
Definition slab_alloc (size : Z) : Z :=
  let slab_index := heap_get_slab_index size in
  if SLAB_SIZE_COUNT <=? slab_index then 0 else 0.

(** [kmalloc] *)
Definition kmalloc (size : Z) (s : heap_state) : Z * heap_state :=
  if negb (heap_initialized s) || (size =? 0) || (HEAP_MAX_BLOCK_SIZE <? size) then
    let s1 := on_statistics (fun st =>
                set_counters st (u64 (total_allocations st + 1))
                  (current_allocations st) (bytes_allocated st)
                  (actor_memory_used st)) s in
    if (0 <? size) && (size <=? 4096) && negb (heap_current_pos s1 =? 0) then
      let ptr := heap_current_pos s1 in
      let s2 := set_heap_current_pos s1
                  (u32 (heap_current_pos s1 + HEAP_ALIGN_UP size HEAP_ALIGNMENT)) in
      if heap_current_pos s2 <=? end_address (kernel_heap s2) then
        (ptr, on_statistics (fun st =>
                set_counters st (total_allocations st)
                  (u64 (current_allocations st + 1)) (u64 (bytes_allocated st + size))
                  (actor_memory_used st)) s2)
      else (0, s2)
    else (0, s1)
  else
    let ptr := if size <=? default 0 (last SLAB_SIZES) then slab_alloc size else 0 in
    if negb (ptr =? 0) then
      (ptr, on_statistics (fun st =>
              set_counters st (u64 (total_allocations st + 1))
                (u64 (current_allocations st + 1)) (u64 (bytes_allocated st + size))
                (actor_memory_used st)) s)
    else
      let aligned_size := HEAP_ALIGN_UP size HEAP_ALIGNMENT in
      if negb (heap_current_pos s =? 0) &&
         (u32 (heap_current_pos s + aligned_size) <=? end_address (kernel_heap s))
      then
        let ptr := heap_current_pos s in
        let s1 := set_heap_current_pos s (u32 (heap_current_pos s + aligned_size)) in
        (ptr, on_statistics (fun st =>
                set_counters st (u64 (total_allocations st + 1))
                  (u64 (current_allocations st + 1))
                  (u64 (bytes_allocated st + aligned_size))
                  (update_at 0 (fun used => u64 (used + aligned_size))
                     (actor_memory_used st))) s1)
      else (0, s).

(** [kcalloc] *)
Definition kcalloc (count size : Z) (s : heap_state) : Z * heap_state :=
  let total_size := u32 (count * size) in
  let '(ptr, s1) := kmalloc total_size s in
  if negb (ptr =? 0)
  then (ptr, emit s1 (Store ptr (replicate (Z.to_nat total_size) 0)))
  else (ptr, s1).

(** [kfree] *)
Definition kfree (ptr : Z) (s : heap_state) : heap_state :=
  if (ptr =? 0) || negb (heap_initialized s) then s
  else on_statistics (fun st =>
         set_frees st (u64 (total_frees st + 1)) (u64 (current_allocations st - 1))) s.

(** [heap_validate_pointer] *)
Definition heap_validate_pointer (ptr : Z) (s : heap_state) : bool :=
  if (ptr =? 0) || negb (heap_initialized s) then false
  else if (ptr <? start_address (kernel_heap s)) ||
          (end_address (kernel_heap s) <=? ptr) then false
  else if negb (HEAP_IS_ALIGNED (u32 ptr) HEAP_ALIGNMENT) then false
  else true.

(** [heap_check_corruption] *)
Definition heap_check_corruption (s : heap_state) : bool :=
  if negb (heap_initialized s) || negb (corruption_check_enabled (kernel_heap s))
  then false else false.

(** [heap_update_statistics] *)
Definition heap_update_statistics (s : heap_state) : heap_state :=
  if negb (heap_initialized s) then s
  else
    let st := statistics (kernel_heap s) in
    let current_usage := u64 (bytes_allocated st - bytes_freed st) in
    let s1 := if peak_usage st <? current_usage
              then on_statistics (fun st =>
                     set_usage st current_usage (fragmentation_level st)) s
              else s in
    if 0 <? total_size (kernel_heap s1)
    then on_statistics (fun st =>
           set_usage st (peak_usage st)
             (u32 (u64 (current_usage * 100) / total_size (kernel_heap s1)))) s1
    else s1.

(** [heap_get_statistics] *)
Definition heap_get_statistics (s : heap_state) : option heap_stats_t * heap_state :=
  if negb (heap_initialized s) then (None, s)
  else let s1 := heap_update_statistics s in (Some (statistics (kernel_heap s1)), s1).

(** ** The interface as a transition system

    [heap_create] is called from [heap_init] only. *)

Inductive call :=
  | CHeapInit
  | CKmalloc (size : Z)
  | CKcalloc (count size : Z)
  | CKfree (ptr : Z)
  | CUpdateStatistics
  | CGetStatistics.

Definition run (c : call) (s : heap_state) : heap_state :=
  match c with
  | CHeapInit => heap_init s
  | CKmalloc size => snd (kmalloc size s)
  | CKcalloc count size => snd (kcalloc count size s)
  | CKfree ptr => kfree ptr s
  | CUpdateStatistics => heap_update_statistics s
  | CGetStatistics => snd (heap_get_statistics s)
  end.

(** The arguments are 32-bit values. *)
Definition well_typed (c : call) : Prop :=
  match c with
  | CKmalloc size => 0 <= size < 2 ^ 32
  | CKcalloc count size => 0 <= count < 2 ^ 32 /\ 0 <= size < 2 ^ 32
  | CKfree ptr => 0 <= ptr < 2 ^ 32
  | _ => True
  end.

Inductive reachable : heap_state -> Prop :=
  | reachable_boot : reachable boot_state
  | reachable_step s c : reachable s -> well_typed c -> reachable (run c s).

Fixpoint run_all (tr : list call) (s : heap_state) : heap_state :=
  match tr with
  | [] => s
  | c :: tr' => run_all tr' (run c s)
  end.

Fixpoint well_typed_all (tr : list call) : Prop :=
  match tr with
  | [] => True
  | c :: tr' => well_typed c /\ well_typed_all tr'
  end.

End Heap.

(** * Vocabulary of the further properties *)

Module SandboxSpec.
Import Sandbox.

(** The violation log is a ring of [MAX_VIOLATION_LOG] slots: the write
    index stays inside the array and the entry count never exceeds its
    size. *)
Definition log_ring (s : sandboxing_system_state_t) : Prop :=
  length (violation_log s) = Z.to_nat MAX_VIOLATION_LOG /\
  0 <= violation_index s < MAX_VIOLATION_LOG /\
  0 <= violation_count s <= MAX_VIOLATION_LOG.

(** The limit records [sandboxing_create_sandbox] leaves in a fresh sandbox
    of a level. *)
Definition fresh_limits (level : Z) : list resource_limit_t :=
  fold_left (fun ls rl => put_limit (fst rl) (snd rl) ls) (default_limits level) [].

(** What a sandbox does not lose or gain when it is not quarantined: its
    level, its capability masks and its limit records. *)
Definition same_policy (a b : sandbox_context_t) : Prop :=
  security_level a = security_level b /\
  capabilities a = capabilities b /\
  denied_capabilities a = denied_capabilities b /\
  limits a = limits b.

End SandboxSpec.

Module ModulesSpec.
Import Modules.

(** Every module record holds its name in an array of [MAX_MODULE_NAME]
    characters. *)
Definition names_sized (s : module_system_t) : Prop :=
  Forall (fun m => length (name m) = Z.to_nat MAX_MODULE_NAME) (module_pool s).

(** A header name with a terminating NUL among its first
    [MAX_MODULE_NAME - 1] characters. *)
Definition terminated (nm : list ascii) : Prop :=
  NUL ∈ take (Z.to_nat (MAX_MODULE_NAME - 1)) nm.

(** The image format: magic number, format version, the code and data
    sections inside the buffer of [size] bytes, no section over
    [MAX_MODULE_SIZE]. *)
Definition image_in_format (img : module_image) (size : Z) : Prop :=
  let h := header img in
  SIZEOF_MODULE_HEADER <= size /\
  magic h = MODULE_MAGIC /\
  version h = MODULE_VERSION /\
  SIZEOF_MODULE_HEADER + code_size h + data_size h <= size /\
  code_size h <= MAX_MODULE_SIZE /\
  data_size h <= MAX_MODULE_SIZE /\
  bss_size h <= MAX_MODULE_SIZE.

End ModulesSpec.

Module ModulesSpec2.
Import Modules.

(** Every module on the list of loaded modules occupies a pool slot that is
    marked used. *)
Definition listed_in_use (s : module_system_t) : Prop :=
  Forall (fun i => module_pool_used s !! i = Some true) (loaded_modules s).

(** The invariants of the registry taken together. *)
Definition registry_ok (s : module_system_t) : Prop :=
  pool_shape s /\ ModulesSpec.names_sized s /\ listed_in_use s.

End ModulesSpec2.

Module SchedulerSpec.
Import Scheduler.

(** The five tables of the scheduler have the sizes of their declarations. *)
Definition sized (s : scheduler_t) : Prop :=
  length (actors s) = Z.to_nat MAX_ACTORS /\
  length (actor_pool s) = Z.to_nat MAX_ACTORS /\
  length (actor_pool_used s) = Z.to_nat MAX_ACTORS /\
  length (message_pool s) = Z.to_nat MAX_MESSAGES /\
  length (message_pool_used s) = Z.to_nat MAX_MESSAGES.

(** From [s] to [s'] no table has changed its size and the clock has not
    moved. *)
Definition steady (s s' : scheduler_t) : Prop :=
  length (actors s') = length (actors s) /\
  length (actor_pool s') = length (actor_pool s) /\
  length (actor_pool_used s') = length (actor_pool_used s) /\
  length (message_pool s') = length (message_pool s) /\
  length (message_pool_used s') = length (message_pool_used s) /\
  tick_count s' = tick_count s /\
  current_timeslice s' = current_timeslice s.

(** The time slice counter is below the length of a time slice. *)
Definition slice_running (s : scheduler_t) : Prop :=
  0 <= current_timeslice s < SCHEDULER_TIMESLICE_MS.

(** What is kept in every reachable state. *)
Definition in_order (s : scheduler_t) : Prop :=
  sized s /\ slice_running s /\ well_formed s.

(** The actor in slot [a] is not linked into the ready queue. *)
Definition unlinked (a : nat) (s : scheduler_t) : Prop :=
  next (actor_at a s) = None /\ prev (actor_at a s) = None.

End SchedulerSpec.

Module HeapSpec.
Import Heap.

(** The heap as [heap_init] lays it out and [kmalloc] advances it: before
    [heap_init] there is no position to allocate from; after it the position
    is an aligned address between the bounds of the heap and the bytes
    accounted for are the bytes between the start and the position. *)
Definition laid_out (s : heap_state) : Prop :=
  if heap_initialized s
  then start_address (kernel_heap s) = KERNEL_HEAP_START /\
       end_address (kernel_heap s) = KERNEL_HEAP_END /\
       total_size (kernel_heap s) = KERNEL_HEAP_END - KERNEL_HEAP_START /\
       KERNEL_HEAP_START <= heap_current_pos s <= KERNEL_HEAP_END /\
       heap_current_pos s mod HEAP_ALIGNMENT = 0 /\
       bytes_allocated (statistics (kernel_heap s))
         = heap_current_pos s - KERNEL_HEAP_START /\
       bytes_freed (statistics (kernel_heap s)) = 0
  else heap_current_pos s = 0.

(** The block of [size] bytes at [p] and the block of [size'] bytes at [p']
    have no byte in common. *)
Definition disjoint (p size p' size' : Z) : Prop :=
  p + size <= p' \/ p' + size' <= p.

(** No call of a sequence is [heap_init]. *)
Definition no_init (tr : list call) : Prop :=
  Forall (fun c => c <> CHeapInit) tr.

End HeapSpec.

(** * Properties *)

(** ** Machine integers and arrays *)

Lemma u32_small (x : Z) : 0 <= x < 2 ^ 32 -> u32 x = x.
Proof. intros H. unfold u32, wrap. apply Z.mod_small. exact H. Qed.

Lemma u64_small (x : Z) : 0 <= x < 2 ^ 64 -> u64 x = x.
Proof. intros H. unfold u64, wrap. apply Z.mod_small. exact H. Qed.

Lemma u32_range (x : Z) : 0 <= u32 x < 2 ^ 32.
Proof. unfold u32, wrap. apply Z.mod_pos_bound. lia. Qed.

Section ArrayLemmas.

Context {A : Type}.
Implicit Types (l : list A) (p : A -> bool) (f : A -> A).

Lemma find_index_Some p l i :
  find_index p l = Some i ->
  exists x, l !! i = Some x /\ p x = true.
Proof.
  revert i. induction l as [|y l IH]; intros i; simpl; [discriminate|].
  destruct (p y) eqn:Hy.
  - intros [= <-]. exists y. split; [reflexivity | exact Hy].
  - destruct (find_index p l) as [k|] eqn:Hk; simpl; [|discriminate].
    intros [= <-]. destruct (IH k eq_refl) as (x & Hx & Hp).
    exists x. split; [exact Hx | exact Hp].
Qed.

Lemma find_index_first p l i j y :
  find_index p l = Some i -> (j < i)%nat -> l !! j = Some y -> p y = false.
Proof.
  revert i j. induction l as [|z l IH]; intros i j; simpl; [discriminate|].
  destruct (p z) eqn:Hz.
  - intros [= <-] Hlt. lia.
  - destruct (find_index p l) as [k|] eqn:Hk; simpl; [|discriminate].
    intros [= <-] Hlt. destruct j as [|j]; simpl.
    + intros [= <-]. exact Hz.
    + intros Hj. apply (IH k j); [reflexivity | lia | exact Hj].
Qed.

Lemma find_index_None p l i x :
  find_index p l = None -> l !! i = Some x -> p x = false.
Proof.
  revert i. induction l as [|y l IH]; intros i; simpl; [intros _; discriminate|].
  destruct (p y) eqn:Hy; [discriminate|].
  destruct (find_index p l) eqn:Hk; simpl; [discriminate|].
  intros _. destruct i as [|i]; simpl.
  - intros [= <-]. exact Hy.
  - apply IH. reflexivity.
Qed.

Lemma find_index_lt p l i : find_index p l = Some i -> (i < length l)%nat.
Proof.
  intros H. destruct (find_index_Some _ _ _ H) as (x & Hx & _).
  apply lookup_lt_Some in Hx. exact Hx.
Qed.

(** [find_index] and [List.find] walk the array alike. *)
Lemma find_index_find p l i :
  find_index p l = Some i -> List.find p l = l !! i.
Proof.
  revert i. induction l as [|y l IH]; intros i; simpl; [discriminate|].
  destruct (p y) eqn:Hy.
  - intros [= <-]. reflexivity.
  - destruct (find_index p l) as [k|] eqn:Hk; simpl; [|discriminate].
    intros [= <-]. simpl. apply IH. reflexivity.
Qed.

Lemma find_index_None_find p l : find_index p l = None -> List.find p l = None.
Proof.
  induction l as [|y l IH]; simpl; [reflexivity|].
  destruct (p y) eqn:Hy; [discriminate|].
  destruct (find_index p l) eqn:Hk; simpl; [discriminate|].
  intros _. apply IH. reflexivity.
Qed.

Lemma find_Some_index p l x :
  List.find p l = Some x -> exists i, find_index p l = Some i /\ l !! i = Some x.
Proof.
  induction l as [|y l IH]; simpl; [discriminate|].
  destruct (p y) eqn:Hy.
  - intros [= <-]. exists 0%nat. split; reflexivity.
  - intros H. destruct (IH H) as (i & Hi & Hx). exists (S i).
    rewrite Hi. split; [reflexivity | exact Hx].
Qed.

Lemma update_at_length i f l : length (update_at i f l) = length l.
Proof.
  unfold update_at. destruct (l !! i); [apply length_insert | reflexivity].
Qed.

Lemma update_at_lookup i j f l :
  update_at i f l !! j = if decide (i = j) then f <$> l !! j else l !! j.
Proof.
  unfold update_at. destruct (decide (i = j)) as [->|Hne].
  - destruct (l !! j) as [x|] eqn:Hx; simpl.
    + apply list_lookup_insert_eq. apply lookup_lt_Some in Hx. exact Hx.
    + exact Hx.
  - destruct (l !! i); [apply list_lookup_insert_ne; exact Hne | reflexivity].
Qed.

Lemma update_at_lookup_eq i f l x :
  l !! i = Some x -> update_at i f l !! i = Some (f x).
Proof.
  intros H. rewrite update_at_lookup. destruct (decide (i = i)); [|congruence].
  rewrite H. reflexivity.
Qed.

Lemma update_at_lookup_ne i j f l :
  i <> j -> update_at i f l !! j = l !! j.
Proof.
  intros H. rewrite update_at_lookup. destruct (decide (i = j)); [congruence|].
  reflexivity.
Qed.

Lemma update_at_update_at i f g l :
  update_at i f (update_at i g l) = update_at i (fun x => f (g x)) l.
Proof.
  unfold update_at at 2 3. destruct (l !! i) as [x|] eqn:Hx.
  - unfold update_at. rewrite list_lookup_insert_eq
      by (apply lookup_lt_Some in Hx; exact Hx).
    apply list_insert_insert_eq.
  - unfold update_at. rewrite Hx. reflexivity.
Qed.

(** An update that does not change what [p] looks at does not change what the
    search finds. *)
Lemma find_index_update_at p i f l :
  (forall x, p (f x) = p x) -> find_index p (update_at i f l) = find_index p l.
Proof.
  intros Hp. revert i. induction l as [|y l IH]; intros i.
  - reflexivity.
  - destruct i as [|i].
    + unfold update_at. simpl. rewrite Hp. reflexivity.
    + specialize (IH i). unfold update_at in *. simpl.
      destruct (l !! i) eqn:Hi; simpl.
      * rewrite IH. reflexivity.
      * reflexivity.
Qed.

Lemma Forall_update_at (P : A -> Prop) i f l :
  (forall x, P x -> P (f x)) -> Forall P l -> Forall P (update_at i f l).
Proof.
  intros Hf Hl. unfold update_at. destruct (l !! i) as [x|] eqn:Hx; [|exact Hl].
  apply Forall_insert; [exact Hl|]. apply Hf.
  eapply Forall_lookup_1; eassumption.
Qed.

End ArrayLemmas.

(** The element found by [List.find] after an update of the slot
    [find_index] returns. *)
Lemma find_update_at_found {A : Type} (p : A -> bool) (f : A -> A) (l : list A) k :
  find_index p l = Some k -> (forall x, p (f x) = p x) ->
  List.find p (update_at k f l) = f <$> List.find p l.
Proof.
  intros Hk Hp.
  assert (Hk' : find_index p (update_at k f l) = Some k)
    by (rewrite find_index_update_at; assumption).
  rewrite (find_index_find _ _ _ Hk'), (find_index_find _ _ _ Hk).
  rewrite update_at_lookup. destruct (decide (k = k)); [reflexivity | congruence].
Qed.

(** An update of a slot [q] rejects leaves what [List.find q] returns. *)
Lemma find_update_at_other {A : Type} (q : A -> bool) (f : A -> A) (l : list A) k :
  (forall x, l !! k = Some x -> q x = false) -> (forall x, q (f x) = q x) ->
  List.find q (update_at k f l) = List.find q l.
Proof.
  revert k. induction l as [|y l IH]; intros k Hk Hq.
  - reflexivity.
  - destruct k as [|k].
    + unfold update_at. simpl. rewrite Hq, (Hk y eq_refl). reflexivity.
    + assert (Hl : update_at (S k) f (y :: l) = y :: update_at k f l).
      { unfold update_at. simpl. destruct (l !! k); reflexivity. }
      rewrite Hl. simpl. destruct (q y); [reflexivity|].
      apply IH; [|exact Hq]. intros x Hx. apply (Hk x). exact Hx.
Qed.

(** ** Sandbox engine *)

Module SandboxFacts.
Import Sandbox.

Lemma set_limits_id sb : set_limits (limits sb) sb = sb.
Proof. destruct sb; reflexivity. Qed.

Lemma set_sandboxes_id s : set_sandboxes (sandboxes s) s = s.
Proof. destruct s; reflexivity. Qed.

Lemma sandbox_at_lookup i s sb : sandboxes s !! i = Some sb -> sandbox_at i s = sb.
Proof. intros H. unfold sandbox_at. rewrite H. reflexivity. Qed.

Lemma sandbox_at_on_sandbox i f s sb :
  sandboxes s !! i = Some sb -> sandbox_at i (on_sandbox i f s) = f sb.
Proof.
  intros H. unfold sandbox_at, on_sandbox. simpl.
  rewrite (update_at_lookup_eq _ _ _ _ H). reflexivity.
Qed.

Lemma lookup_on_sandbox i f s sb :
  sandboxes s !! i = Some sb -> sandboxes (on_sandbox i f s) !! i = Some (f sb).
Proof. intros H. simpl. apply update_at_lookup_eq. exact H. Qed.

Lemma on_sandbox_on_sandbox i f g s :
  on_sandbox i f (on_sandbox i g s) = on_sandbox i (fun sb => f (g sb)) s.
Proof.
  unfold on_sandbox. simpl. rewrite update_at_update_at. reflexivity.
Qed.

Lemma on_sandbox_ext i f g s sb :
  sandboxes s !! i = Some sb -> f sb = g sb -> on_sandbox i f s = on_sandbox i g s.
Proof.
  intros H Hfg. unfold on_sandbox, update_at. rewrite H, Hfg. reflexivity.
Qed.

Lemma on_sandbox_id i f s sb :
  sandboxes s !! i = Some sb -> f sb = sb -> on_sandbox i f s = s.
Proof.
  intros H Hf. unfold on_sandbox, update_at. rewrite H, Hf.
  rewrite list_insert_id by exact H. apply set_sandboxes_id.
Qed.

(** *** Finding the sandbox of a module *)

Lemma find_unfold mid s :
  sandboxing_find_sandbox_by_module mid s =
  if negb (sandboxing_initialized s) then None
  else find_index (bound_to mid) (sandboxes s).
Proof. reflexivity. Qed.

Lemma find_found mid s i :
  sandboxing_find_sandbox_by_module mid s = Some i ->
  sandboxing_initialized s = true /\
  exists sb, sandboxes s !! i = Some sb /\ active sb = true /\ module_id sb = mid.
Proof.
  rewrite find_unfold. destruct (sandboxing_initialized s); simpl; [|discriminate].
  intros H. split; [reflexivity|].
  destruct (find_index_Some _ _ _ H) as (sb & Hsb & Hp).
  exists sb. unfold bound_to in Hp. apply andb_true_iff in Hp as [Ha Hm].
  apply Z.eqb_eq in Hm. auto.
Qed.

Lemma find_frame mid s s' :
  sandboxing_initialized s' = sandboxing_initialized s ->
  sandboxes s' = sandboxes s ->
  sandboxing_find_sandbox_by_module mid s' = sandboxing_find_sandbox_by_module mid s.
Proof. intros H1 H2. rewrite !find_unfold, H1, H2. reflexivity. Qed.

Lemma find_on_sandbox mid i f s :
  keeps_binding f ->
  sandboxing_find_sandbox_by_module mid (on_sandbox i f s) =
  sandboxing_find_sandbox_by_module mid s.
Proof.
  intros Hf. rewrite !find_unfold. simpl.
  rewrite find_index_update_at; [reflexivity|].
  intros sb. unfold bound_to. destruct (Hf sb) as [-> ->]. reflexivity.
Qed.

(** *** [sandboxing_log_violation] touches the violation ring only *)

Lemma log_violation_frame mid vtype cap desc s :
  let s' := sandboxing_log_violation mid vtype cap desc s in
  sandboxes s' = sandboxes s /\
  sandboxing_initialized s' = sandboxing_initialized s /\
  default_capabilities s' = default_capabilities s /\
  strict_enforcement s' = strict_enforcement s /\
  quarantined_modules s' = quarantined_modules s /\
  logging_enabled s' = logging_enabled s.
Proof.
  unfold sandboxing_log_violation. destruct (logging_enabled s) eqn:E; simpl; auto 10.
Qed.

(** *** [sandboxing_set_resource_limit] is [put_limit] on the sandbox found *)

Lemma set_resource_limit_spec mid rtype lim s i :
  sandboxing_find_sandbox_by_module mid s = Some i ->
  rtype < MAX_RESOURCE_LIMITS ->
  snd (sandboxing_set_resource_limit mid rtype lim s) =
  on_sandbox i (fun sb => set_limits (put_limit rtype lim (limits sb)) sb) s.
Proof.
  intros Hfind Hrt. destruct (find_found _ _ _ Hfind) as (Hinit & sb & Hsb & _).
  unfold sandboxing_set_resource_limit. rewrite Hinit, Hfind. simpl negb. cbv iota.
  destruct (MAX_RESOURCE_LIMITS <=? rtype) eqn:E; [apply Z.leb_le in E; lia|].
  rewrite (sandbox_at_lookup _ _ _ Hsb).
  destruct (find_index (fun r => resource_type r =? rtype) (limits sb)) as [k|] eqn:Hk.
  - simpl. apply (on_sandbox_ext _ _ _ _ _ Hsb). unfold put_limit. rewrite Hk. reflexivity.
  - unfold limit_count.
    destruct (Z.of_nat (length (limits sb)) <? MAX_RESOURCE_LIMITS) eqn:Hc; simpl.
    + apply (on_sandbox_ext _ _ _ _ _ Hsb). unfold put_limit. rewrite Hk, Hc. reflexivity.
    + symmetry. apply (on_sandbox_id _ _ _ _ Hsb). unfold put_limit. rewrite Hk, Hc.
      apply set_limits_id.
Qed.

Lemma keeps_binding_put_limit rtype lim :
  keeps_binding (fun sb => set_limits (put_limit rtype lim (limits sb)) sb).
Proof. intros sb. split; reflexivity. Qed.

(** *** [put_limit] on the list of limit records *)

Lemma fmap_update_at_fixed {A B : Type} (g : A -> B) (f : A -> A) i (l : list A) :
  (forall x, g (f x) = g x) -> g <$> update_at i f l = g <$> l.
Proof.
  intros H. unfold update_at. destruct (l !! i) as [x|] eqn:Hx; [|reflexivity].
  rewrite list_fmap_insert, H. apply list_insert_id.
  rewrite list_lookup_fmap, Hx. reflexivity.
Qed.

Lemma limits_wf_update_at k f ls :
  (forall r, resource_type (f r) = resource_type r) ->
  limits_wf ls -> limits_wf (update_at k f ls).
Proof.
  intros Hf [Hnd Hall]. split.
  - rewrite fmap_update_at_fixed by exact Hf. exact Hnd.
  - apply Forall_update_at; [|exact Hall]. intros r Hr. rewrite Hf. exact Hr.
Qed.

Lemma find_index_None_not_in rtype ls :
  find_index (fun r => resource_type r =? rtype) ls = None ->
  rtype ∉ resource_type <$> ls.
Proof.
  intros Hnone Hin. apply list_elem_of_fmap in Hin as (r & -> & Hr).
  apply list_elem_of_lookup in Hr as (i & Hi).
  pose proof (find_index_None _ _ _ _ Hnone Hi) as Hp. simpl in Hp.
  apply Z.eqb_neq in Hp. congruence.
Qed.

Lemma limits_wf_put_limit rtype lim ls :
  0 <= rtype < MAX_RESOURCE_LIMITS -> limits_wf ls -> limits_wf (put_limit rtype lim ls).
Proof.
  intros Hrt Hwf. unfold put_limit.
  destruct (find_index _ ls) as [k|] eqn:Hk.
  - apply limits_wf_update_at; [reflexivity | exact Hwf].
  - destruct (Z.of_nat (length ls) <? MAX_RESOURCE_LIMITS); [|exact Hwf].
    destruct Hwf as [Hnd Hall]. split.
    + rewrite fmap_app. simpl. apply NoDup_app. split; [exact Hnd|]. split.
      * intros x Hx Hx'. apply list_elem_of_singleton in Hx'. subst x.
        apply (find_index_None_not_in _ _ Hk). exact Hx.
      * apply NoDup_singleton.
    + apply Forall_app. split; [exact Hall|].
      apply Forall_singleton. simpl. exact Hrt.
Qed.

(** A well-formed list that lacks a resource type has room for it. *)
Lemma limits_wf_room rtype ls :
  0 <= rtype < MAX_RESOURCE_LIMITS -> limits_wf ls ->
  rtype ∉ resource_type <$> ls ->
  Z.of_nat (length ls) < MAX_RESOURCE_LIMITS.
Proof.
  intros Hrt [Hnd Hall] Hnotin.
  assert (Hsub : (rtype :: (resource_type <$> ls)) ⊆ Z.of_nat <$> seq 0 16).
  { intros x Hx. apply list_elem_of_fmap. exists (Z.to_nat x).
    assert (0 <= x < 16) as Hxr.
    { apply elem_of_cons in Hx as [->|Hx]; [exact Hrt|].
      apply list_elem_of_fmap in Hx as (r & -> & Hr).
      rewrite Forall_forall in Hall. apply Hall. exact Hr. }
    split; [lia|]. apply elem_of_seq. lia. }
  assert (Hnd' : NoDup (rtype :: (resource_type <$> ls))).
  { apply NoDup_cons. split; assumption. }
  pose proof (submseteq_length _ _ (NoDup_submseteq _ _ Hnd' Hsub)) as Hlen.
  rewrite length_fmap, length_seq in Hlen. cbn [length] in Hlen.
  rewrite length_fmap in Hlen. unfold MAX_RESOURCE_LIMITS. lia.
Qed.

Lemma find_app_first {A : Type} (p : A -> bool) (l k : list A) :
  List.find p (l ++ k) =
  match List.find p l with Some x => Some x | None => List.find p k end.
Proof.
  induction l as [|y l IH]; simpl; [reflexivity|].
  destruct (p y); [reflexivity | exact IH].
Qed.

Lemma find_put_limit_same rtype lim ls :
  0 <= rtype < MAX_RESOURCE_LIMITS -> limits_wf ls ->
  exists r, List.find (fun r => resource_type r =? rtype) (put_limit rtype lim ls) = Some r
            /\ limit r = lim /\ enforce r = true.
Proof.
  intros Hrt Hwf. unfold put_limit.
  destruct (find_index _ ls) as [k|] eqn:Hk.
  - rewrite (find_update_at_found _ _ _ _ Hk) by reflexivity.
    rewrite (find_index_find _ _ _ Hk).
    destruct (find_index_Some _ _ _ Hk) as (r & -> & _). simpl.
    eexists. split; [reflexivity|]. split; reflexivity.
  - pose proof (limits_wf_room _ _ Hrt Hwf (find_index_None_not_in _ _ Hk)) as Hroom.
    apply Z.ltb_lt in Hroom. rewrite Hroom.
    rewrite find_app_first, (find_index_None_find _ _ Hk). simpl. rewrite Z.eqb_refl.
    eexists. split; [reflexivity|]. split; reflexivity.
Qed.

Lemma find_put_limit_other t rtype lim ls :
  t <> rtype ->
  List.find (fun r => resource_type r =? t) (put_limit rtype lim ls) =
  List.find (fun r => resource_type r =? t) ls.
Proof.
  intros Hne. unfold put_limit.
  destruct (find_index _ ls) as [k|] eqn:Hk.
  - apply find_update_at_other; [|reflexivity].
    intros x Hx. destruct (find_index_Some _ _ _ Hk) as (r & Hr & Hp).
    rewrite Hx in Hr. injection Hr as <-. apply Z.eqb_eq in Hp. apply Z.eqb_neq. congruence.
  - destruct (Z.of_nat (length ls) <? MAX_RESOURCE_LIMITS); [|reflexivity].
    rewrite find_app_first. destruct (List.find _ ls); [reflexivity|]. simpl.
    destruct (rtype =? t) eqn:E; [apply Z.eqb_eq in E; congruence | reflexivity].
Qed.

(** *** The states the engine reaches are consistent *)

(** The first three conditions of [benign] hold by computation for the
    updates the engine makes; the fourth is left. *)
Ltac benign_start :=
  let sb := fresh "sb" in
  intros sb; simpl; split; [auto | split; [auto | split; [auto |]]].

Lemma unique_modules_update_at i f l :
  (forall sb, (active (f sb) = true -> active sb = true) /\
              module_id (f sb) = module_id sb) ->
  unique_modules l -> unique_modules (update_at i f l).
Proof.
  intros Hf Hu a b x y Ha Hb Hax Hay Hm.
  rewrite update_at_lookup in Ha, Hb.
  assert (Hx : exists x0, l !! a = Some x0 /\ active x0 = true /\ module_id x0 = module_id x).
  { destruct (decide (i = a)).
    - destruct (l !! a) as [x0|]; [|discriminate]. injection Ha as <-.
      exists x0. destruct (Hf x0) as [H1 H2]. auto.
    - exists x. auto. }
  assert (Hy : exists y0, l !! b = Some y0 /\ active y0 = true /\ module_id y0 = module_id y).
  { destruct (decide (i = b)).
    - destruct (l !! b) as [y0|]; [|discriminate]. injection Hb as <-.
      exists y0. destruct (Hf y0) as [H1 H2]. auto.
    - exists y. auto. }
  destruct Hx as (x0 & Hx0 & Hax0 & Hmx). destruct Hy as (y0 & Hy0 & Hay0 & Hmy).
  apply (Hu a b x0 y0); [assumption..|congruence].
Qed.

Lemma consistent_frame s s' :
  sandboxes s' = sandboxes s ->
  default_capabilities s' = default_capabilities s ->
  sandboxing_initialized s' = sandboxing_initialized s ->
  consistent s -> consistent s'.
Proof.
  intros H1 H2 H3 [A B C D E]. split; rewrite ?H1, ?H2, ?H3; assumption.
Qed.

(** Strip an update of a field [consistent] does not read. *)
Ltac strip_frame :=
  match goal with
  | |- consistent (?g ?t) => apply (consistent_frame t); [reflexivity..|]
  end.

Lemma consistent_on_sandbox i f s :
  benign f -> consistent s -> consistent (on_sandbox i f s).
Proof.
  intros Hf [A B C D E]. split; simpl; [assumption | assumption | | | ].
  - apply Forall_update_at; [|exact C]. intros sb. apply (Hf sb).
  - apply Forall_update_at; [|exact D]. intros sb. apply (Hf sb).
  - apply unique_modules_update_at; [|exact E].
    intros sb. destruct (Hf sb) as (H1 & H2 & _). auto.
Qed.

Lemma limits_wf_nil : limits_wf [].
Proof. split; [apply NoDup_nil_2 | apply Forall_nil_2]. Qed.

Lemma consistent_boot : consistent boot_state.
Proof.
  split; cbn -[replicate Z.to_nat].
  - reflexivity.
  - discriminate.
  - apply Forall_replicate. apply limits_wf_nil.
  - apply Forall_replicate. reflexivity.
  - intros i j x y Hx _ Hax. apply lookup_replicate in Hx as [-> _]. discriminate.
Qed.

Lemma consistent_log_violation mid vtype cap desc s :
  consistent s -> consistent (sandboxing_log_violation mid vtype cap desc s).
Proof.
  destruct (log_violation_frame mid vtype cap desc s) as (H1 & H2 & H3 & _).
  apply consistent_frame; assumption.
Qed.

Lemma consistent_init_default_policies s :
  consistent s -> consistent (snd (sandboxing_init_default_policies s)).
Proof.
  intros [A B C D E]. split; simpl; try assumption.
  - rewrite !length_insert. exact A.
  - intros _. apply list_lookup_insert_eq. rewrite !length_insert, A.
    unfold SANDBOX_LEVEL_QUARANTINE. simpl. lia.
Qed.

Lemma consistent_init s : consistent s -> consistent (snd (sandboxing_init s)).
Proof.
  intros [A B C D E]. split; simpl.
  - rewrite !length_insert. exact A.
  - intros _. apply list_lookup_insert_eq. rewrite !length_insert, A.
    unfold SANDBOX_LEVEL_QUARANTINE. simpl. lia.
  - apply Forall_fmap. eapply Forall_impl; [exact C|]. intros sb H. exact H.
  - apply Forall_fmap. eapply Forall_impl; [exact D|]. intros sb H. exact H.
  - intros i j x y Hx _ Hax. rewrite list_lookup_fmap in Hx.
    destruct (sandboxes s !! i); [|discriminate]. injection Hx as <-. discriminate.
Qed.

Lemma set_resource_limit_cases mid rtype lim s :
  snd (sandboxing_set_resource_limit mid rtype lim s) = s \/
  exists i, sandboxing_find_sandbox_by_module mid s = Some i /\ rtype < MAX_RESOURCE_LIMITS /\
            snd (sandboxing_set_resource_limit mid rtype lim s) =
            on_sandbox i (fun sb => set_limits (put_limit rtype lim (limits sb)) sb) s.
Proof.
  destruct (sandboxing_find_sandbox_by_module mid s) as [i|] eqn:Hfind.
  - destruct (Z.lt_ge_cases rtype MAX_RESOURCE_LIMITS) as [Hlt|Hge].
    + right. exists i. split; [reflexivity|]. split; [exact Hlt|].
      apply set_resource_limit_spec; assumption.
    + left. unfold sandboxing_set_resource_limit. rewrite Hfind.
      apply Z.leb_le in Hge. rewrite Hge.
      destruct (negb (sandboxing_initialized s)); reflexivity.
  - left. unfold sandboxing_set_resource_limit. rewrite Hfind.
    destruct (negb (sandboxing_initialized s)); reflexivity.
Qed.

Lemma benign_put_limit rtype lim :
  0 <= rtype < MAX_RESOURCE_LIMITS ->
  benign (fun sb => set_limits (put_limit rtype lim (limits sb)) sb).
Proof.
  intros Hrt. benign_start. apply limits_wf_put_limit. exact Hrt.
Qed.

Lemma consistent_set_resource_limit mid rtype lim s :
  0 <= rtype -> consistent s ->
  consistent (snd (sandboxing_set_resource_limit mid rtype lim s)).
Proof.
  intros Hrt Hs.
  destruct (set_resource_limit_cases mid rtype lim s) as [->|(i & _ & Hlt & ->)];
    [exact Hs|].
  apply consistent_on_sandbox; [|exact Hs]. apply benign_put_limit. lia.
Qed.

Lemma benign_charge k delta :
  benign (fun sb => set_limits (update_at k (charge delta) (limits sb)) sb).
Proof.
  benign_start. apply limits_wf_update_at. reflexivity.
Qed.

Lemma consistent_update_resource_usage mid rtype delta s :
  consistent s -> consistent (snd (sandboxing_update_resource_usage mid rtype delta s)).
Proof.
  intros Hs. unfold sandboxing_update_resource_usage.
  destruct (negb (sandboxing_initialized s)); [exact Hs|].
  destruct (sandboxing_find_sandbox_by_module mid s) as [i|]; [|exact Hs].
  destruct (find_index _ _) as [k|]; [|exact Hs].
  simpl. apply consistent_on_sandbox; [apply benign_charge | exact Hs].
Qed.

Lemma consistent_check_resource_limit mid rtype req s :
  consistent s -> consistent (snd (sandboxing_check_resource_limit mid rtype req s)).
Proof.
  intros Hs. unfold sandboxing_check_resource_limit.
  destruct (negb (sandboxing_initialized s)); [exact Hs|].
  destruct (sandboxing_find_sandbox_by_module mid s) as [i|]; [|exact Hs].
  destruct (List.find _ _) as [r|]; [|exact Hs].
  destruct (negb (enforce r)); [exact Hs|].
  destruct (limit r <? _); [|exact Hs].
  simpl. apply consistent_log_violation. exact Hs.
Qed.

Lemma benign_set_counters (fc cc vi : sandbox_context_t -> Z) :
  benign (fun sb => set_counters (fc sb) (cc sb) (vi sb) sb).
Proof. benign_start. auto. Qed.

Lemma benign_set_caps (g d : sandbox_context_t -> Z) :
  benign (fun sb => set_caps (g sb) (d sb) sb).
Proof. benign_start. auto. Qed.

Lemma consistent_has_capability mid cap s :
  consistent s -> consistent (snd (sandboxing_has_capability mid cap s)).
Proof.
  intros Hs. unfold sandboxing_has_capability.
  destruct (negb (sandboxing_initialized s)); [exact Hs|].
  destruct (sandboxing_find_sandbox_by_module mid s) as [i|]; [|exact Hs].
  match goal with
  | |- context [set_total_capability_checks ?n (on_sandbox i ?f s)] =>
      assert (H2 : consistent (set_total_capability_checks n (on_sandbox i f s)))
  end.
  { strip_frame.
    apply consistent_on_sandbox; [|exact Hs].
    apply (benign_set_counters function_calls (fun sb => u64 (capability_checks sb + 1))
             violations). }
  cbv zeta. destruct (negb (Z.land _ cap =? 0)); simpl.
  - apply consistent_log_violation. exact H2.
  - destruct (negb (Z.land _ cap =? 0)); [exact H2|].
    apply consistent_log_violation. exact H2.
Qed.

Lemma consistent_grant_capability mid cap s :
  consistent s -> consistent (snd (sandboxing_grant_capability mid cap s)).
Proof.
  intros Hs. unfold sandboxing_grant_capability.
  destruct (negb (sandboxing_initialized s)); [exact Hs|].
  destruct (sandboxing_find_sandbox_by_module mid s) as [i|]; [|exact Hs].
  simpl. apply consistent_on_sandbox; [|exact Hs].
  apply (benign_set_caps (fun sb => Z.lor (capabilities sb) cap)
           (fun sb => Z.land (denied_capabilities sb) (u32 (Z.lnot cap)))).
Qed.

Lemma consistent_revoke_capability mid cap s :
  consistent s -> consistent (snd (sandboxing_revoke_capability mid cap s)).
Proof.
  intros Hs. unfold sandboxing_revoke_capability.
  destruct (negb (sandboxing_initialized s)); [exact Hs|].
  destruct (sandboxing_find_sandbox_by_module mid s) as [i|]; [|exact Hs].
  simpl. apply consistent_on_sandbox; [|exact Hs].
  apply (benign_set_caps (fun sb => Z.land (capabilities sb) (u32 (Z.lnot cap)))
           (fun sb => Z.lor (denied_capabilities sb) cap)).
Qed.

Lemma consistent_set_capabilities mid caps s :
  consistent s -> consistent (snd (sandboxing_set_capabilities mid caps s)).
Proof.
  intros Hs. unfold sandboxing_set_capabilities.
  destruct (negb (sandboxing_initialized s)); [exact Hs|].
  destruct (sandboxing_find_sandbox_by_module mid s) as [i|]; [|exact Hs].
  simpl. apply consistent_on_sandbox; [|exact Hs].
  apply (benign_set_caps (fun _ => caps) (fun _ => 0)).
Qed.

Lemma consistent_check_memory_access mid address size write s :
  consistent s ->
  consistent (snd (sandboxing_check_memory_access mid address size write s)).
Proof.
  intros Hs. unfold sandboxing_check_memory_access.
  destruct (negb (sandboxing_initialized s)); [exact Hs|].
  destruct (sandboxing_find_sandbox_by_module mid s) as [i|]; [|exact Hs].
  pose proof (consistent_has_capability mid
                (if write then CAP_MEMORY_ALLOC else CAP_MEMORY_ALLOC) s Hs) as H1.
  destruct (sandboxing_has_capability mid _ s) as [ok s1]. simpl in H1.
  destruct (negb ok); [exact H1|].
  destruct ((address =? 0) || (size =? 0)); [|exact H1].
  simpl. apply consistent_log_violation. exact H1.
Qed.

Lemma consistent_check_function_call mid nm s :
  consistent s -> consistent (snd (sandboxing_check_function_call mid nm s)).
Proof.
  intros Hs. unfold sandboxing_check_function_call.
  destruct (negb (sandboxing_initialized s)); [exact Hs|].
  destruct (sandboxing_find_sandbox_by_module mid s) as [i|]; [|exact Hs].
  match goal with
  | |- context [sandboxing_update_resource_usage mid RESOURCE_MODULE_CALLS 1 ?s1] =>
      assert (H1 : consistent s1)
  end.
  { apply consistent_on_sandbox; [|exact Hs].
    apply (benign_set_counters (fun sb => u64 (function_calls sb + 1))
             capability_checks violations). }
  apply (consistent_update_resource_usage mid RESOURCE_MODULE_CALLS 1) in H1.
  apply (consistent_check_resource_limit mid RESOURCE_MODULE_CALLS 0) in H1.
  cbv zeta. destruct (sandboxing_check_resource_limit _ _ _ _) as [ok s3]. simpl in H1.
  destruct (negb ok); [exact H1|].
  destruct nm as [name|]; [|exact H1].
  destruct (existsb _ _); [|exact H1].
  simpl. apply consistent_log_violation. exact H1.
Qed.

Lemma consistent_quarantine_module mid s :
  consistent s -> consistent (snd (sandboxing_quarantine_module mid s)).
Proof.
  intros Hs. unfold sandboxing_quarantine_module.
  destruct (negb (sandboxing_initialized s)); [exact Hs|].
  destruct (sandboxing_find_sandbox_by_module mid s) as [i|]; [|exact Hs].
  cbv zeta. simpl snd.
  strip_frame.
  repeat (apply consistent_set_resource_limit;
          [unfold RESOURCE_MEMORY, RESOURCE_CHILD_ACTORS, RESOURCE_HEAP_ALLOCS,
             RESOURCE_MODULE_CALLS; lia|]).
  apply consistent_on_sandbox; [|exact Hs].
  benign_start. auto.
Qed.

Lemma consistent_handle_violation mid vtype desc s :
  consistent s -> consistent (snd (sandboxing_handle_violation mid vtype desc s)).
Proof.
  intros Hs. unfold sandboxing_handle_violation.
  destruct (negb (sandboxing_initialized s)); [exact Hs|].
  match goal with
  | |- context [sandboxing_log_violation mid vtype 0 desc ?s1] =>
      assert (H1 : consistent s1)
  end.
  { destruct (sandboxing_find_sandbox_by_module mid s) as [i|]; [|exact Hs].
    apply consistent_on_sandbox; [|exact Hs].
    apply (benign_set_counters function_calls capability_checks
             (fun sb => u64 (violations sb + 1))). }
  apply (consistent_log_violation mid vtype 0 desc) in H1.
  cbv zeta. destruct (strict_enforcement _); [|exact H1].
  destruct ((vtype =? VIOLATION_CAPABILITY) || (vtype =? VIOLATION_EXECUTION));
    [|exact H1].
  destruct (sandboxing_find_sandbox_by_module mid s) as [i|]; [|exact H1].
  destruct (5 <? _); [|exact H1].
  simpl. apply consistent_quarantine_module. exact H1.
Qed.

Lemma consistent_enable_strict_mode b s :
  consistent s -> consistent (snd (sandboxing_enable_strict_mode b s)).
Proof.
  intros Hs. unfold sandboxing_enable_strict_mode.
  destruct (negb (sandboxing_initialized s)); [exact Hs|].
  simpl. strip_frame. exact Hs.
Qed.

Lemma default_limits_typed level :
  Forall (fun rl => 0 <= fst rl) (default_limits level).
Proof.
  unfold default_limits.
  repeat (match goal with |- context [if ?b then _ else _] => destruct b end);
    repeat constructor; simpl; unfold RESOURCE_MEMORY, RESOURCE_CHILD_ACTORS,
      RESOURCE_HEAP_ALLOCS, RESOURCE_MODULE_CALLS, RESOURCE_AI_QUERIES; lia.
Qed.

Lemma consistent_apply_limits mid ls s :
  Forall (fun rl => 0 <= fst rl) ls -> consistent s -> consistent (apply_limits mid ls s).
Proof.
  unfold apply_limits. revert s. induction ls as [|rl ls IH]; intros s Hls Hs; simpl.
  - exact Hs.
  - apply Forall_cons in Hls as [Hrl Hls]. apply IH; [exact Hls|].
    apply consistent_set_resource_limit; assumption.
Qed.

Lemma consistent_create_sandbox mid level s :
  consistent s -> consistent (snd (sandboxing_create_sandbox mid level s)).
Proof.
  intros Hs. unfold sandboxing_create_sandbox.
  destruct (sandboxing_initialized s) eqn:Hinit; [|exact Hs]. simpl negb. cbv iota.
  destruct (MAX_SANDBOXES <=? sandbox_count s); [exact Hs|].
  destruct (SANDBOX_LEVEL_QUARANTINE <? level); [exact Hs|].
  destruct (sandboxing_find_sandbox_by_module mid s) as [j|] eqn:Hfind; [exact Hs|].
  destruct (find_index (fun sb => negb (active sb)) (sandboxes s)) as [i|] eqn:Hfree;
    [|exact Hs].
  cbv zeta. simpl snd.
  strip_frame.
  apply consistent_on_sandbox; [benign_start; auto|].
  apply consistent_apply_limits; [apply default_limits_typed|].
  destruct Hs as [A B C D E]. split; simpl; try assumption.
  - apply Forall_update_at; [|exact C]. intros sb _. simpl. apply limits_wf_nil.
  - apply Forall_update_at; [|exact D]. intros sb H. exact H.
  - rewrite find_unfold, Hinit in Hfind. simpl in Hfind.
    intros a b x y Ha Hb Hax Hay Hm. rewrite update_at_lookup in Ha, Hb.
    destruct (decide (i = a)) as [Hia|Hia], (decide (i = b)) as [Hib|Hib].
    + congruence.
    + subst a. destruct (sandboxes s !! i) as [x0|]; [|discriminate]. injection Ha as <-.
      simpl in Hm. pose proof (find_index_None _ _ _ _ Hfind Hb) as Hn.
      unfold bound_to in Hn. rewrite Hay, <- Hm, Z.eqb_refl in Hn. discriminate.
    + subst b. destruct (sandboxes s !! i) as [y0|]; [|discriminate]. injection Hb as <-.
      simpl in Hm. pose proof (find_index_None _ _ _ _ Hfind Ha) as Hn.
      unfold bound_to in Hn. rewrite Hax, Hm, Z.eqb_refl in Hn. discriminate.
    + apply (E a b x y); assumption.
Qed.

Lemma consistent_set_initialized_false s :
  consistent s -> consistent (set_initialized false s).
Proof.
  intros [A B C D E]. split; [exact A | discriminate | exact C | exact D | exact E].
Qed.

Section WithVM.

Variable sandboxing_disable_vm :
  Z -> sandboxing_system_state_t -> Z * sandboxing_system_state_t.

Lemma consistent_destroy_sandbox sid s :
  consistent s ->
  consistent (snd (sandboxing_destroy_sandbox sandboxing_disable_vm sid s)).
Proof.
  intros Hs. unfold sandboxing_destroy_sandbox.
  destruct (negb (sandboxing_initialized s)); [exact Hs|].
  destruct (find_index _ (sandboxes s)) as [i|] eqn:Hi; [|exact Hs].
  destruct (find_index_Some _ _ _ Hi) as (sb & Hsb & _).
  rewrite (sandbox_at_lookup _ _ _ Hsb).
  assert (Hvm : vm_enabled sb = false).
  { pose proof (cons_vm _ Hs) as D. rewrite Forall_lookup in D. apply (D i). exact Hsb. }
  rewrite Hvm. cbv zeta. simpl snd.
  strip_frame.
  apply consistent_on_sandbox; [|exact Hs].
  intros x. simpl. split; [discriminate | auto].
Qed.

Lemma consistent_shutdown s :
  consistent s -> consistent (sandboxing_shutdown sandboxing_disable_vm s).
Proof.
  intros Hs. unfold sandboxing_shutdown.
  destruct (negb (sandboxing_initialized s)); [exact Hs|].
  match goal with |- consistent (set_initialized false ?t) => assert (Ht : consistent t) end.
  { revert s Hs. generalize (seq 0 (Z.to_nat MAX_SANDBOXES)).
    induction l as [|i l IH]; intros s Hs; simpl; [exact Hs|].
    apply IH. destruct (active (sandbox_at i s)); [|exact Hs].
    apply consistent_destroy_sandbox. exact Hs. }
  apply consistent_set_initialized_false. exact Ht.
Qed.

Lemma consistent_run c s :
  well_typed c -> consistent s -> consistent (run sandboxing_disable_vm c s).
Proof.
  intros Hc Hs. destruct c; simpl in *.
  - apply consistent_init; exact Hs.
  - apply consistent_shutdown; exact Hs.
  - apply consistent_init_default_policies; exact Hs.
  - apply consistent_create_sandbox; exact Hs.
  - apply consistent_destroy_sandbox; exact Hs.
  - apply consistent_has_capability; exact Hs.
  - apply consistent_grant_capability; exact Hs.
  - apply consistent_revoke_capability; exact Hs.
  - apply consistent_set_capabilities; exact Hs.
  - apply consistent_set_resource_limit; [|exact Hs]. unfold is_u8 in Hc. lia.
  - apply consistent_check_resource_limit; exact Hs.
  - apply consistent_update_resource_usage; exact Hs.
  - apply consistent_check_memory_access; exact Hs.
  - apply consistent_check_function_call; exact Hs.
  - apply consistent_handle_violation; exact Hs.
  - apply consistent_log_violation; exact Hs.
  - apply consistent_quarantine_module; exact Hs.
  - apply consistent_enable_strict_mode; exact Hs.
Qed.

Lemma reachable_consistent s : reachable sandboxing_disable_vm s -> consistent s.
Proof.
  induction 1 as [|s c _ IH Hc]; [apply consistent_boot | apply consistent_run; assumption].
Qed.

End WithVM.

(** *** Quarantine *)

Lemma quarantine_module_spec mid s i :
  sandboxing_find_sandbox_by_module mid s = Some i ->
  sandboxing_quarantine_module mid s =
  (0, set_quarantined_modules (u32 (quarantined_modules s + 1))
        (on_sandbox i
           (quarantined
              (default 0 (default_capabilities s !! Z.to_nat SANDBOX_LEVEL_QUARANTINE)))
           s)).
Proof.
  intros Hfind. destruct (find_found _ _ _ Hfind) as (Hinit & sb & Hsb & _).
  unfold sandboxing_quarantine_module. rewrite Hinit, Hfind. simpl negb. cbv iota zeta.
  set (s1 := on_sandbox i _ s).
  assert (F1 : sandboxing_find_sandbox_by_module mid s1 = Some i).
  { unfold s1. rewrite find_on_sandbox; [exact Hfind|]. intros x. split; reflexivity. }
  rewrite (set_resource_limit_spec _ RESOURCE_MEMORY _ _ _ F1) by reflexivity.
  set (s2 := on_sandbox i _ s1).
  assert (F2 : sandboxing_find_sandbox_by_module mid s2 = Some i).
  { unfold s2. rewrite find_on_sandbox; [exact F1 | apply keeps_binding_put_limit]. }
  rewrite (set_resource_limit_spec _ RESOURCE_CHILD_ACTORS _ _ _ F2) by reflexivity.
  set (s3 := on_sandbox i _ s2).
  assert (F3 : sandboxing_find_sandbox_by_module mid s3 = Some i).
  { unfold s3. rewrite find_on_sandbox; [exact F2 | apply keeps_binding_put_limit]. }
  rewrite (set_resource_limit_spec _ RESOURCE_HEAP_ALLOCS _ _ _ F3) by reflexivity.
  set (s4 := on_sandbox i _ s3).
  assert (F4 : sandboxing_find_sandbox_by_module mid s4 = Some i).
  { unfold s4. rewrite find_on_sandbox; [exact F3 | apply keeps_binding_put_limit]. }
  rewrite (set_resource_limit_spec _ RESOURCE_MODULE_CALLS _ _ _ F4) by reflexivity.
  unfold s4, s3, s2, s1. rewrite !on_sandbox_on_sandbox. reflexivity.
Qed.

Lemma memory_limit_of_quarantined caps sb :
  limits_wf (limits sb) ->
  limit_of RESOURCE_MEMORY (quarantined caps sb) = Some (256 * 1024).
Proof.
  intros Hwf. unfold limit_of, quarantined. cbn [limits set_limits].
  rewrite !find_put_limit_other by discriminate.
  destruct (find_put_limit_same RESOURCE_MEMORY (256 * 1024) (limits sb))
    as (r & -> & Hr & _); [unfold RESOURCE_MEMORY, MAX_RESOURCE_LIMITS; lia | exact Hwf |].
  simpl. rewrite Hr. reflexivity.
Qed.

(** *** Charging and checking a resource *)

Lemma update_resource_usage_spec mid rtype delta s i :
  sandboxing_find_sandbox_by_module mid s = Some i ->
  snd (sandboxing_update_resource_usage mid rtype delta s) =
  on_sandbox i (fun sb => set_limits (charge_limit rtype delta (limits sb)) sb) s.
Proof.
  intros Hfind. destruct (find_found _ _ _ Hfind) as (Hinit & sb & Hsb & _).
  unfold sandboxing_update_resource_usage. rewrite Hinit, Hfind. simpl negb. cbv iota.
  rewrite (sandbox_at_lookup _ _ _ Hsb).
  destruct (find_index (fun r => resource_type r =? rtype) (limits sb)) as [k|] eqn:Hk.
  - simpl. apply (on_sandbox_ext _ _ _ _ _ Hsb). unfold charge_limit. rewrite Hk.
    reflexivity.
  - simpl. symmetry. apply (on_sandbox_id _ _ _ _ Hsb). unfold charge_limit. rewrite Hk.
    apply set_limits_id.
Qed.

Lemma find_charge_limit rtype delta ls :
  List.find (fun r => resource_type r =? rtype) (charge_limit rtype delta ls) =
  charge delta <$> List.find (fun r => resource_type r =? rtype) ls.
Proof.
  unfold charge_limit.
  destruct (find_index _ ls) as [k|] eqn:Hk.
  - apply find_update_at_found; [exact Hk | reflexivity].
  - rewrite (find_index_None_find _ _ Hk). reflexivity.
Qed.



(** *** Escalation *)

Lemma handle_violation_escalates mid vtype desc s i sb :
  sandboxing_find_sandbox_by_module mid s = Some i ->
  sandboxes s !! i = Some sb ->
  strict_enforcement s = true ->
  vtype = VIOLATION_CAPABILITY \/ vtype = VIOLATION_EXECUTION ->
  5 < u64 (violations sb + 1) ->
  exists s2,
    sandboxes s2 = sandboxes (on_sandbox i one_more_violation s) /\
    sandboxing_initialized s2 = sandboxing_initialized s /\
    default_capabilities s2 = default_capabilities s /\
    quarantined_modules s2 = quarantined_modules s /\
    snd (sandboxing_handle_violation mid vtype desc s) =
    set_quarantined_modules (u32 (quarantined_modules s + 1))
      (on_sandbox i
         (quarantined
            (default 0 (default_capabilities s !! Z.to_nat SANDBOX_LEVEL_QUARANTINE)))
         s2).
Proof.
  intros Hfind Hsb Hstrict Hty Hviol.
  destruct (find_found _ _ _ Hfind) as (Hinit & _).
  set (s1 := on_sandbox i one_more_violation s).
  set (s2 := sandboxing_log_violation mid vtype 0 desc s1).
  destruct (log_violation_frame mid vtype 0 desc s1) as (L1 & L2 & L3 & L4 & L5 & _).
  fold s2 in L1, L2, L3, L4, L5.
  assert (F2 : sandboxing_find_sandbox_by_module mid s2 = Some i).
  { rewrite (find_frame mid s1 s2 L2 L1). unfold s1.
    rewrite find_on_sandbox; [exact Hfind|]. intros x. split; reflexivity. }
  exists s2. split; [exact L1|]. split; [exact L2|]. split; [exact L3|].
  split; [exact L5|].
  unfold sandboxing_handle_violation. rewrite Hinit, Hfind. simpl negb. cbv iota zeta.
  fold one_more_violation. fold s1. fold s2.
  rewrite L4. change (strict_enforcement s1) with (strict_enforcement s). rewrite Hstrict.
  assert (Hor : (vtype =? VIOLATION_CAPABILITY) || (vtype =? VIOLATION_EXECUTION) = true).
  { destruct Hty as [-> | ->]; reflexivity. }
  rewrite Hor.
  assert (Hat : sandbox_at i s2 = one_more_violation sb).
  { unfold sandbox_at. rewrite L1. unfold s1.
    rewrite (lookup_on_sandbox _ _ _ _ Hsb). reflexivity. }
  rewrite Hat. cbn [violations one_more_violation set_counters].
  apply Z.ltb_lt in Hviol. rewrite Hviol.
  rewrite (quarantine_module_spec _ _ _ F2). cbn [snd].
  rewrite L3, L5. reflexivity.
Qed.

End SandboxFacts.

(** ** Module registry *)

Module ModulesFacts.
Import Modules.

Lemma module_at_lookup i s m : module_pool s !! i = Some m -> module_at i s = m.
Proof. intros H. unfold module_at. rewrite H. reflexivity. Qed.

Lemma module_at_on_module i f s m :
  module_pool s !! i = Some m -> module_at i (on_module i f s) = f m.
Proof.
  intros H. unfold module_at, on_module. cbn [module_pool set_module_pool].
  rewrite (update_at_lookup_eq _ _ _ _ H). reflexivity.
Qed.

Lemma module_at_on_module_ne i j f s :
  i <> j -> module_at j (on_module i f s) = module_at j s.
Proof.
  intros H. unfold module_at, on_module. cbn [module_pool set_module_pool].
  rewrite update_at_lookup_ne by exact H. reflexivity.
Qed.

(** *** Which calls can move a module into Unloading *)

(** From [s] to [s'] the module in slot [j] does not enter Unloading. *)
Local Abbreviation keeps_out j s s' :=
  (state_at j s <> MODULE_STATE_UNLOADING -> state_at j s' <> MODULE_STATE_UNLOADING).

Lemma keeps_out_on_module i j f s :
  (forall m, state m <> MODULE_STATE_UNLOADING -> state (f m) <> MODULE_STATE_UNLOADING) ->
  keeps_out j s (on_module i f s).
Proof.
  intros Hf. unfold state_at. destruct (decide (i = j)) as [->|Hne].
  - destruct (module_pool s !! j) as [m|] eqn:Hm.
    + rewrite (module_at_on_module _ _ _ _ Hm), (module_at_lookup _ _ _ Hm). apply Hf.
    + unfold on_module, update_at. rewrite Hm. destruct s; intros H; exact H.
  - rewrite module_at_on_module_ne by exact Hne. intros H; exact H.
Qed.

Lemma keeps_out_start j mid init_result s :
  keeps_out j s (snd (module_start mid init_result s)).
Proof.
  unfold module_start. destruct (module_get mid s) as [i|]; [|intros H; exact H].
  destruct (negb (state (module_at i s) =? MODULE_STATE_LOADED)); [intros H; exact H|].
  intros H.
  assert (H1 : state_at j (if init_func (module_at i s) =? 0 then s
                           else emit (Call (init_func (module_at i s))) s)
               <> MODULE_STATE_UNLOADING).
  { destruct (init_func (module_at i s) =? 0); exact H. }
  destruct (negb (init_func (module_at i s) =? 0) && negb (init_result =? 0));
    cbn [snd]; revert H1; apply keeps_out_on_module; intros m _; discriminate.
Qed.

Lemma keeps_out_stop j mid s : keeps_out j s (snd (module_stop mid s)).
Proof.
  unfold module_stop. destruct (module_get mid s) as [i|]; [|intros H; exact H].
  destruct (negb (state (module_at i s) =? MODULE_STATE_RUNNING)); [intros H; exact H|].
  intros H.
  assert (H1 : state_at j (if exit_func (module_at i s) =? 0 then s
                           else emit (Call (exit_func (module_at i s))) s)
               <> MODULE_STATE_UNLOADING).
  { destruct (exit_func (module_at i s) =? 0); exact H. }
  cbn [snd]. revert H1. apply keeps_out_on_module. intros m _. discriminate.
Qed.

Lemma state_at_frame j s s' : module_pool s' = module_pool s -> state_at j s' = state_at j s.
Proof. intros H. unfold state_at, module_at. rewrite H. reflexivity. Qed.

Lemma keeps_out_load j module_data size alloc init_result s :
  keeps_out j s (snd (module_load module_data size alloc init_result s)).
Proof.
  unfold module_load.
  destruct (negb (module_system_initialized s) || (size =? 0)); [intros H; exact H|].
  destruct module_data as [img|]; [|intros H; exact H].
  destruct (negb (module_validate (Some img) size)); [intros H; exact H|].
  destruct (module_find_by_name _ s); [intros H; exact H|].
  unfold module_allocate.
  destruct (find_index negb (module_pool_used s)) as [i|]; [|intros H; exact H].
  cbv zeta. intros H0.
  match goal with
  | |- context [emit (Kmalloc ?t alloc) (on_module i ?f ?s2)] =>
      set (s3 := on_module i f s2);
      assert (H3 : state_at j s3 <> MODULE_STATE_UNLOADING)
  end.
  { revert H0. unfold s3.
    rewrite <- (state_at_frame j s
                  (set_next_module_id (u32 (next_module_id s + 1))
                     (set_module_pool_used (<[i:=true]> (module_pool_used s)) s)))
      by reflexivity.
    apply keeps_out_on_module. intros m _. discriminate. }
  destruct (alloc =? 0).
  { cbn [snd].
    match goal with
    | |- state_at j ?t <> _ => rewrite (state_at_frame j s3 t); [exact H3|]
    end.
    unfold module_free. cbn [module_pool emit].
    destruct (i <? length (module_pool s3))%nat; reflexivity. }
  match goal with
  | |- context [module_add_to_list (Some i) (on_module i ?f ?s5)] =>
      set (s6 := on_module i f s5);
      assert (H6 : state_at j s6 <> MODULE_STATE_UNLOADING)
  end.
  { unfold s6.
    match goal with
    | |- state_at j (on_module i _ ?s5) <> _ =>
        assert (H5 : state_at j s5 <> MODULE_STATE_UNLOADING) by exact H3;
        revert H5; apply keeps_out_on_module; intros m Hm; exact Hm
    end. }
  match goal with
  | |- context [module_start _ init_result (on_module i ?f ?s8)] =>
      set (s9 := on_module i f s8);
      assert (H9 : state_at j s9 <> MODULE_STATE_UNLOADING)
  end.
  { unfold s9.
    match goal with
    | |- state_at j (on_module i _ ?s8) <> _ =>
        assert (H8 : state_at j s8 <> MODULE_STATE_UNLOADING) by exact H6;
        revert H8; apply keeps_out_on_module; intros m _; discriminate
    end. }
  destruct (negb (Z.land (flags (module_at i s9)) MODULE_FLAG_AUTO_START =? 0)).
  - cbn [snd]. revert H9. apply keeps_out_start.
  - exact H9.
Qed.

(** [module_unload] refuses a pinned module and changes nothing. *)
Lemma unload_pinned mid s i :
  module_get mid s = Some i -> pinned (module_at i s) -> module_unload mid s = (false, s).
Proof.
  intros Hget Hpin. unfold module_unload. rewrite Hget.
  destruct (Z.land (flags (module_at i s)) MODULE_FLAG_CORE =? 0) eqn:Hcore;
    [|reflexivity].
  destruct Hpin as [Hc|Hd]; [apply Z.eqb_eq in Hcore; contradiction|].
  apply Z.ltb_lt in Hd. simpl negb. cbv iota. rewrite Hd. reflexivity.
Qed.

Lemma keeps_out_unload j mid s :
  pinned (module_at j s) -> keeps_out j s (snd (module_unload mid s)).
Proof.
  intros Hpin H. destruct (module_get mid s) as [i|] eqn:Hget.
  - destruct (decide (i = j)) as [->|Hne].
    + rewrite (unload_pinned _ _ _ Hget Hpin). exact H.
    + unfold module_unload. rewrite Hget.
      destruct (negb (Z.land (flags (module_at i s)) MODULE_FLAG_CORE =? 0)); [exact H|].
      destruct (0 <? dependent_count (module_at i s)); [exact H|].
      cbv zeta. cbn [snd].
      match goal with
      | |- state_at j ?t <> _ =>
          rewrite (state_at_frame j (on_module i (set_state MODULE_STATE_UNLOADING) s) t)
      end.
      * unfold state_at. rewrite module_at_on_module_ne by exact Hne. exact H.
      * unfold module_free, free_if_set, module_remove_from_list.
        repeat match goal with
               | |- context [if ?b then _ else _] => destruct b
               end; reflexivity.
  - unfold module_unload. rewrite Hget. exact H.
Qed.

(** No call of the module interface moves a pinned module into Unloading. *)
Lemma keeps_out_run j c s : pinned (module_at j s) -> keeps_out j s (run c s).
Proof.
  intros Hpin. destruct c; cbn [run].
  - intros H. exact H.
  - apply keeps_out_load.
  - apply keeps_out_unload. exact Hpin.
  - apply keeps_out_start.
  - apply keeps_out_stop.
  - unfold module_resolve_symbol.
    destruct (negb (module_system_initialized s)); [intros H; exact H|].
    destruct symbol_name; intros H; exact H.
Qed.

(** *** A successful load *)

Lemma find_ext_pred {A : Type} (p q : A -> bool) (l : list A) :
  (forall x, p x = q x) -> List.find p l = List.find q l.
Proof.
  intros H. induction l as [|y l IH]; simpl; [reflexivity|].
  rewrite H, IH. reflexivity.
Qed.

Lemma module_get_frame mid s s' :
  module_system_initialized s' = module_system_initialized s ->
  loaded_modules s' = loaded_modules s ->
  (forall j, module_id (module_at j s') = module_id (module_at j s)) ->
  module_get mid s' = module_get mid s.
Proof.
  intros H1 H2 H3. unfold module_get. rewrite H1, H2.
  destruct (negb (module_system_initialized s)); [reflexivity|].
  apply find_ext_pred. intros j. rewrite H3. reflexivity.
Qed.

Lemma module_id_on_module i j f s :
  (forall m, module_id (f m) = module_id m) ->
  module_id (module_at j (on_module i f s)) = module_id (module_at j s).
Proof.
  intros Hf. destruct (decide (i = j)) as [->|Hne].
  - destruct (module_pool s !! j) as [m|] eqn:Hm.
    + rewrite (module_at_on_module _ _ _ _ Hm), (module_at_lookup _ _ _ Hm). apply Hf.
    + unfold on_module, update_at. rewrite Hm. destruct s; reflexivity.
  - rewrite module_at_on_module_ne by exact Hne. reflexivity.
Qed.



(** *** The pool arrays keep their shape *)

Lemma pool_shape_on_module i f s : pool_shape s -> pool_shape (on_module i f s).
Proof.
  unfold pool_shape. cbn [module_pool module_pool_used on_module set_module_pool].
  rewrite update_at_length. intros H; exact H.
Qed.

Lemma pool_shape_frame s s' :
  module_pool s' = module_pool s -> length (module_pool_used s') = length (module_pool_used s) ->
  pool_shape s -> pool_shape s'.
Proof. unfold pool_shape. intros -> ->. intros H; exact H. Qed.

Lemma pool_shape_start mid init_result s :
  pool_shape s -> pool_shape (snd (module_start mid init_result s)).
Proof.
  intros Hs. unfold module_start. destruct (module_get mid s) as [i|]; [|exact Hs].
  destruct (negb (state (module_at i s) =? MODULE_STATE_LOADED)); [exact Hs|].
  destruct (negb (init_func (module_at i s) =? 0) && negb (init_result =? 0));
    cbn [snd]; apply pool_shape_on_module;
    destruct (init_func (module_at i s) =? 0); exact Hs.
Qed.

Lemma pool_shape_stop mid s : pool_shape s -> pool_shape (snd (module_stop mid s)).
Proof.
  intros Hs. unfold module_stop. destruct (module_get mid s) as [i|]; [|exact Hs].
  destruct (negb (state (module_at i s) =? MODULE_STATE_RUNNING)); [exact Hs|].
  cbn [snd]. apply pool_shape_on_module.
  destruct (exit_func (module_at i s) =? 0); exact Hs.
Qed.

Lemma pool_shape_free m s : pool_shape s -> pool_shape (module_free m s).
Proof.
  intros Hs. unfold module_free. destruct m as [i|]; [|exact Hs].
  destruct (i <? length (module_pool s))%nat; [|exact Hs].
  apply (pool_shape_frame s); [reflexivity | | exact Hs].
  cbn [module_pool_used set_module_pool_used]. apply length_insert.
Qed.

Lemma pool_shape_unload mid s : pool_shape s -> pool_shape (snd (module_unload mid s)).
Proof.
  intros Hs. unfold module_unload. destruct (module_get mid s) as [i|]; [|exact Hs].
  destruct (negb (Z.land (flags (module_at i s)) MODULE_FLAG_CORE =? 0)); [exact Hs|].
  destruct (0 <? dependent_count (module_at i s)); [exact Hs|].
  cbv zeta. cbn [snd]. apply pool_shape_free.
  match goal with
  | |- pool_shape ?t =>
      apply (pool_shape_frame (on_module i (set_state MODULE_STATE_UNLOADING) s) t)
  end.
  - unfold free_if_set, module_remove_from_list.
    repeat match goal with
           | |- context [if ?b then _ else _] => destruct b
           end; reflexivity.
  - unfold free_if_set, module_remove_from_list.
    repeat match goal with
           | |- context [if ?b then _ else _] => destruct b
           end; reflexivity.
  - apply pool_shape_on_module. exact Hs.
Qed.

Lemma pool_shape_load module_data size alloc init_result s :
  pool_shape s -> pool_shape (snd (module_load module_data size alloc init_result s)).
Proof.
  intros Hs. unfold module_load.
  destruct (negb (module_system_initialized s) || (size =? 0)); [exact Hs|].
  destruct module_data as [img|]; [|exact Hs].
  destruct (negb (module_validate (Some img) size)); [exact Hs|].
  destruct (module_find_by_name _ s); [exact Hs|].
  unfold module_allocate.
  destruct (find_index negb (module_pool_used s)) as [i|]; [|exact Hs].
  cbv zeta.
  match goal with
  | |- context [emit (Kmalloc ?t alloc) (on_module i ?f ?s2)] =>
      set (s3 := on_module i f s2); assert (H3 : pool_shape s3)
  end.
  { unfold s3. apply pool_shape_on_module.
    apply (pool_shape_frame s); [reflexivity | | exact Hs].
    cbn [module_pool_used set_module_pool_used set_next_module_id]. apply length_insert. }
  destruct (alloc =? 0).
  { cbn [snd]. apply (pool_shape_frame (module_free (Some i) s3)).
    - unfold module_free. cbn [module_pool emit].
      destruct (i <? length (module_pool s3))%nat; reflexivity.
    - unfold module_free. cbn [module_pool emit].
      destruct (i <? length (module_pool s3))%nat; reflexivity.
    - apply pool_shape_free. exact H3. }
  match goal with
  | |- context [module_start _ init_result (on_module i ?f9 (set_statistics ?st
          (module_add_to_list (Some i) (on_module i ?f6 ?s5))))] =>
      set (s9 := on_module i f9 (set_statistics st
                   (module_add_to_list (Some i) (on_module i f6 s5))));
      assert (H9 : pool_shape s9)
  end.
  { unfold s9. apply pool_shape_on_module.
    match goal with
    | |- pool_shape (set_statistics _ (module_add_to_list _ ?s6)) =>
        apply (pool_shape_frame s6); [reflexivity | reflexivity |]
    end.
    apply pool_shape_on_module. exact H3. }
  destruct (negb (Z.land (flags (module_at i s9)) MODULE_FLAG_AUTO_START =? 0)).
  - cbn [snd]. apply pool_shape_start. exact H9.
  - exact H9.
Qed.

Lemma pool_shape_run c s : pool_shape s -> pool_shape (run c s).
Proof.
  intros Hs. destruct c; cbn [run].
  - unfold pool_shape, modules_init. cbn [module_pool module_pool_used].
    rewrite length_fmap. exact Hs.
  - apply pool_shape_load. exact Hs.
  - apply pool_shape_unload. exact Hs.
  - apply pool_shape_start. exact Hs.
  - apply pool_shape_stop. exact Hs.
  - unfold module_resolve_symbol.
    destruct (negb (module_system_initialized s)); [exact Hs|].
    destruct symbol_name; exact Hs.
Qed.


End ModulesFacts.

(** ** The kernel *)

Module KernelFacts.

Section WithVM.

Variable sandboxing_disable_vm :
  Z -> Sandbox.sandboxing_system_state_t -> Z * Sandbox.sandboxing_system_state_t.



Lemma reachable_sched k :
  Kernel.reachable sandboxing_disable_vm k -> Scheduler.reachable (Kernel.sched k).
Proof.
  induction 1 as [|k c _ IH Hc]; [apply Scheduler.reachable_boot|].
  destruct c as [c|c|c]; cbn [Kernel.run Kernel.sched Kernel.with_sched
    Kernel.with_modules Kernel.with_sandbox]; [| exact IH | exact IH].
  apply Scheduler.reachable_step; [exact IH | exact Hc].
Qed.

End WithVM.


End KernelFacts.

(** ** Actor scheduler and messaging *)

Module SchedulerFacts.
Import Scheduler.

Lemma actor_at_lookup i s x : actor_pool s !! i = Some x -> actor_at i s = x.
Proof. intros H. unfold actor_at. rewrite H. reflexivity. Qed.

Lemma actor_at_on_actor i f s x :
  actor_pool s !! i = Some x -> actor_at i (on_actor i f s) = f x.
Proof.
  intros H. unfold actor_at, on_actor. cbn [actor_pool set_actor_pool].
  rewrite (update_at_lookup_eq _ _ _ _ H). reflexivity.
Qed.

Lemma actor_at_on_actor_ne i j f s :
  i <> j -> actor_at j (on_actor i f s) = actor_at j s.
Proof.
  intros H. unfold actor_at, on_actor. cbn [actor_pool set_actor_pool].
  rewrite update_at_lookup_ne by exact H. reflexivity.
Qed.

Lemma on_actor_missing i f s : actor_pool s !! i = None -> on_actor i f s = s.
Proof.
  intros H. unfold on_actor, update_at. rewrite H. destruct s; reflexivity.
Qed.

(** What an update of one slot does to a property of all slots. *)
Lemma actor_at_on_actor_cases i j f s :
  actor_at j (on_actor i f s) = actor_at j s \/
  (i = j /\ exists x, actor_pool s !! i = Some x /\
                      actor_at j s = x /\ actor_at j (on_actor i f s) = f x).
Proof.
  destruct (decide (i = j)) as [->|Hne].
  - destruct (actor_pool s !! j) as [x|] eqn:Hx.
    + right. split; [reflexivity|]. exists x. split; [reflexivity|].
      split; [apply actor_at_lookup; exact Hx | apply actor_at_on_actor; exact Hx].
    + left. rewrite on_actor_missing by exact Hx. reflexivity.
  - left. apply actor_at_on_actor_ne. exact Hne.
Qed.

(** *** Calls that leave every mailbox alone *)

Lemma quiet_refl s : quiet s s.
Proof. split; [intros i; reflexivity | split; reflexivity]. Qed.

Lemma quiet_trans s1 s2 s3 : quiet s1 s2 -> quiet s2 s3 -> quiet s1 s3.
Proof.
  intros (A1 & B1 & C1) (A2 & B2 & C2). split; [|split; congruence].
  intros i. rewrite A2. apply A1.
Qed.

Lemma quiet_frame s s' :
  actor_pool s' = actor_pool s -> actors s' = actors s ->
  actor_pool_used s' = actor_pool_used s -> quiet s s'.
Proof.
  intros H1 H2 H3. split; [|split; assumption].
  intros i. unfold actor_at. rewrite H1. reflexivity.
Qed.

Lemma quiet_on_actor i f s :
  (forall x, mbox (f x) = mbox x) -> quiet s (on_actor i f s).
Proof.
  intros Hf. split; [|split; reflexivity]. intros j.
  destruct (actor_at_on_actor_cases i j f s) as [->|(_ & x & _ & -> & ->)];
    [reflexivity | apply Hf].
Qed.

(** Peel the outermost update off the state on the right. *)
Ltac quiet_via t := apply (quiet_trans _ t); [| apply quiet_frame; reflexivity].

Ltac quiet_step :=
  lazymatch goal with
  | |- quiet ?s ?s => apply quiet_refl
  | |- quiet ?s (on_actor ?i ?f ?t) =>
      apply (quiet_trans s t); [| apply quiet_on_actor; intros ?; reflexivity]
  | |- quiet ?s (on_statistics _ ?t) => quiet_via t
  | |- quiet ?s (set_ready_queue ?t _) => quiet_via t
  | |- quiet ?s (set_current_actor ?t _) => quiet_via t
  | |- quiet ?s (set_clock ?t _ _ _) => quiet_via t
  | |- quiet ?s (set_statistics ?t _) => quiet_via t
  | |- quiet ?s (set_messages ?t _ _) => quiet_via t
  | |- quiet ?s (emit ?t _) => quiet_via t
  end.

(** Case analysis on what the state on the right branches on. *)
Ltac quiet_case :=
  match goal with
  | |- quiet _ (match ?x with _ => _ end) => destruct x
  end.

Lemma quiet_add_to_ready_queue a s : quiet s (scheduler_add_to_ready_queue a s).
Proof.
  unfold scheduler_add_to_ready_queue. destruct a as [i|]; [|apply quiet_refl].
  destruct (negb (state (actor_at i s) =? ACTOR_STATE_READY)); [apply quiet_refl|].
  cbv zeta. quiet_step. quiet_step.
  destruct (ready_queue _); repeat quiet_step.
Qed.

Lemma quiet_remove_from_ready_queue a s : quiet s (scheduler_remove_from_ready_queue a s).
Proof.
  unfold scheduler_remove_from_ready_queue. destruct a as [i|]; [|apply quiet_refl].
  cbv zeta. quiet_step. quiet_step.
  match goal with
  | |- quiet s (match next (actor_at i ?s1) with _ => _ end) =>
      assert (H1 : quiet s s1)
  end.
  { destruct (prev (actor_at i s)); repeat quiet_step. }
  match goal with |- quiet s (match ?x with _ => _ end) => destruct x end;
    [quiet_step; exact H1 | exact H1].
Qed.

Lemma quiet_context_switch a s : quiet s (scheduler_context_switch a s).
Proof.
  unfold scheduler_context_switch.
  destruct (ptr_eqb (current_actor s) a); [apply quiet_refl|]. cbv zeta.
  assert (H1 : quiet s (match current_actor s with
                        | Some c =>
                            if state (actor_at c s) =? ACTOR_STATE_RUNNING
                            then on_actor c (fun a => set_state a ACTOR_STATE_READY) s
                            else s
                        | None => s
                        end)).
  { destruct (current_actor s) as [c|]; [|apply quiet_refl].
    destruct (state (actor_at c s) =? ACTOR_STATE_RUNNING); repeat quiet_step. }
  destruct a as [n|]; [|exact H1].
  eapply quiet_trans; [|apply quiet_remove_from_ready_queue].
  quiet_step. quiet_step. exact H1.
Qed.

Lemma quiet_schedule s : quiet s (scheduler_schedule s).
Proof.
  unfold scheduler_schedule. destruct (negb (scheduler_enabled s)); [apply quiet_refl|].
  cbv zeta. quiet_step.
  destruct (negb (ptr_eqb _ _)); [apply quiet_context_switch | apply quiet_refl].
Qed.

Lemma quiet_yield s : quiet s (scheduler_yield s).
Proof.
  unfold scheduler_yield. destruct (negb (scheduler_initialized s)); [apply quiet_refl|].
  cbv zeta. eapply quiet_trans; [|apply quiet_schedule].
  destruct (current_actor s) as [c|]; [|apply quiet_refl].
  destruct (state (actor_at c s) =? ACTOR_STATE_RUNNING); [|apply quiet_refl].
  eapply quiet_trans; [|apply quiet_add_to_ready_queue]. repeat quiet_step.
Qed.

Lemma quiet_ai_analyze_actors s : quiet s (scheduler_ai_analyze_actors s).
Proof.
  unfold scheduler_ai_analyze_actors. destruct (negb (ai_supervision s)); [apply quiet_refl|].
  generalize (actors s) as l. intros l.
  assert (H : forall t, quiet s t ->
            quiet s (fold_left (fun s slot =>
                 match slot with
                 | Some p =>
                     let a := actor_at p s in
                     if ai_monitored a && (0 <? messages_sent a)
                        && (0 <? messages_received a) && (behavior_score a <? 100)
                     then on_actor p (set_behavior_score (u32 (behavior_score a + 1))) s
                     else s
                 | None => s
                 end) l t)).
  { induction l as [|slot l IH]; intros t Ht; simpl; [exact Ht|].
    apply IH. destruct slot as [p|]; [|exact Ht].
    destruct (_ && _); [|exact Ht]. eapply quiet_trans; [exact Ht|].
    apply quiet_on_actor. intros x. reflexivity. }
  apply H. apply quiet_refl.
Qed.

Lemma quiet_timer_handler s : quiet s (scheduler_timer_handler s).
Proof.
  unfold scheduler_timer_handler.
  destruct (negb (scheduler_initialized s)); [apply quiet_refl|]. cbv zeta.
  match goal with
  | |- quiet s (if _ then scheduler_ai_analyze_actors ?t else _) =>
      assert (H3 : quiet s t)
  end.
  { match goal with |- quiet s (if ?b then _ else _) => destruct b end.
    - eapply quiet_trans; [|apply quiet_yield]. quiet_step.
      destruct (current_actor _); repeat quiet_step.
    - destruct (current_actor _); repeat quiet_step. }
  match goal with |- quiet s (if ?b then _ else _) => destruct b end;
    [eapply quiet_trans; [exact H3 | apply quiet_ai_analyze_actors] | exact H3].
Qed.

Lemma quiet_start s : quiet s (scheduler_start s).
Proof.
  unfold scheduler_start. destruct (negb (scheduler_initialized s)); [apply quiet_refl|].
  eapply quiet_trans; [|apply quiet_schedule]. repeat quiet_step.
Qed.

Lemma quiet_actor_start id s : quiet s (snd (actor_start id s)).
Proof.
  unfold actor_start. destruct (actor_get id s) as [a|]; [|apply quiet_refl].
  destruct (negb (state (actor_at a s) =? ACTOR_STATE_CREATED)); [apply quiet_refl|].
  cbn [snd]. eapply quiet_trans; [|apply quiet_add_to_ready_queue]. repeat quiet_step.
Qed.

Lemma quiet_message_free m s : quiet s (message_free m s).
Proof.
  unfold message_free. destruct m as [m|]; [|apply quiet_refl]. cbv zeta.
  assert (H1 : quiet s (if payload (message_at m s) =? 0 then s
                        else emit s (Kfree (payload (message_at m s))))).
  { destruct (payload (message_at m s) =? 0); repeat quiet_step. }
  destruct (_ <? _)%nat; [|exact H1]. quiet_step. exact H1.
Qed.

Lemma quiet_message_allocate s : quiet s (snd (message_allocate s)).
Proof.
  unfold message_allocate. destruct (find_index negb (message_pool_used s));
    cbn [snd]; repeat quiet_step.
Qed.

(** *** Calls that change one mailbox *)

Lemma touches_on_actor r g f s x :
  actor_pool s !! r = Some x -> mbox (f x) = g (mbox x) ->
  touches r g s (on_actor r f s).
Proof.
  intros Hx Hf. split; [|split; reflexivity]. intros i.
  destruct (decide (i = r)) as [->|Hne].
  - rewrite (actor_at_on_actor _ _ _ _ Hx), (actor_at_lookup _ _ _ Hx). exact Hf.
  - rewrite actor_at_on_actor_ne by congruence. reflexivity.
Qed.

Lemma touches_quiet_l r g s s1 s2 : quiet s s1 -> touches r g s1 s2 -> touches r g s s2.
Proof.
  intros (A1 & B1 & C1) (A2 & B2 & C2). split; [|split; congruence].
  intros i. rewrite A2, A1. reflexivity.
Qed.

Lemma touches_quiet_r r g s s1 s2 : touches r g s s1 -> quiet s1 s2 -> touches r g s s2.
Proof.
  intros (A1 & B1 & C1) (A2 & B2 & C2). split; [|split; congruence].
  intros i. rewrite A2, A1. reflexivity.
Qed.

Lemma touches_other r g s s' i : touches r g s s' -> i <> r ->
  mbox (actor_at i s') = mbox (actor_at i s).
Proof.
  intros (A & _) Hne. rewrite A. destruct (decide (i = r)); [contradiction | reflexivity].
Qed.

Lemma touches_self r g s s' : touches r g s s' ->
  mbox (actor_at r s') = g (mbox (actor_at r s)).
Proof.
  intros (A & _). rewrite A. destruct (decide (r = r)); [reflexivity | contradiction].
Qed.

(** *** [actor_add_message] *)

Lemma add_message_full a m s :
  max_queue_size (actor_at a s) <= queue_size (actor_at a s) ->
  actor_add_message (Some a) (Some m) s = (false, s).
Proof.
  intros H. unfold actor_add_message. apply Z.leb_le in H. rewrite H. reflexivity.
Qed.

Lemma add_message_room a m s :
  queue_size (actor_at a s) < max_queue_size (actor_at a s) ->
  exists s', actor_add_message (Some a) (Some m) s = (true, s') /\ touches a (push m) s s'.
Proof.
  intros H. unfold actor_add_message.
  destruct (max_queue_size (actor_at a s) <=? queue_size (actor_at a s)) eqn:E;
    [apply Z.leb_le in E; lia|].
  eexists. split; [reflexivity|].
  destruct (actor_pool s !! a) as [x|] eqn:Hx.
  - apply (touches_on_actor _ _ _ _ x Hx). reflexivity.
  - exfalso. unfold actor_at in H. rewrite Hx in H. simpl in H. lia.
Qed.

(** *** [message_send_async] *)

(** What a send finds: whether the scheduler runs, who the recipient is,
    which message slot is free, whether the payload copy can be
    allocated. *)
Lemma send_async_cases recipient mtype data size alloc s :
  let r := message_send_async recipient mtype data size alloc s in
  (fst r = false /\ quiet s (snd r)) \/
  (fst r = true /\
   exists a m,
     scheduler_initialized s = true /\
     actor_get recipient s = Some a /\
     find_index negb (message_pool_used s) = Some m /\
     queue_size (actor_at a s) < max_queue_size (actor_at a s) /\
     touches a (push m) s (snd r)).
Proof.
  intros r. subst r. unfold message_send_async.
  destruct (scheduler_initialized s) eqn:Hinit; [|left; split; [reflexivity|apply quiet_refl]].
  simpl negb. cbv iota.
  destruct (actor_get recipient s) as [a|] eqn:Hget;
    [|left; split; [reflexivity|apply quiet_refl]].
  pose proof (quiet_message_allocate s) as Halloc. unfold message_allocate in *.
  destruct (find_index negb (message_pool_used s)) as [m|] eqn:Hm;
    [|left; split; [reflexivity|apply quiet_refl]].
  cbn [snd] in Halloc. cbv zeta.
  set (s1 := set_messages s (message_pool s) (<[m:=true]> (message_pool_used s))) in *.
  set (copy := match data with Some _ => 0 <? size | None => false end).
  match goal with
  | |- context [message_free (Some m) (if copy then emit ?s2 _ else _)] =>
      set (s3 := if copy then emit s2 (Kmalloc size alloc) else s2);
      assert (H3 : quiet s s3)
  end.
  { unfold s3. destruct copy; repeat quiet_step; exact Halloc. }
  destruct (copy && (alloc =? 0)).
  { left. split; [reflexivity|]. cbn [snd].
    eapply quiet_trans; [exact H3 | apply quiet_message_free]. }
  match goal with
  | |- context [actor_add_message (Some a) (Some m) ?t] =>
      set (s4 := t); assert (H4 : quiet s s4)
  end.
  { unfold s4. destruct copy; [quiet_step|]; exact H3. }
  assert (Hmb : mbox (actor_at a s4) = mbox (actor_at a s)) by apply H4.
  destruct (Z.lt_ge_cases (queue_size (actor_at a s4)) (max_queue_size (actor_at a s4)))
    as [Hroom|Hfull].
  - destruct (add_message_room a m s4 Hroom) as (s5 & -> & H5).
    right. split; [reflexivity|]. exists a, m.
    split; [reflexivity|]. split; [reflexivity|]. split; [reflexivity|].
    split. { unfold mbox in Hmb. injection Hmb as _ Hq Hc. lia. }
    cbn [snd]. apply (touches_quiet_l _ _ _ s4); [exact H4|].
    apply (touches_quiet_r _ _ _ s5); [exact H5|].
    match goal with
    | |- quiet s5 (if _ then scheduler_add_to_ready_queue _ _ else ?s7) =>
        assert (H7 : quiet s5 s7)
    end.
    { quiet_case; repeat quiet_step. }
    match goal with |- quiet s5 (if ?b then _ else _) => destruct b end; [|exact H7].
    eapply quiet_trans; [|apply quiet_add_to_ready_queue]. quiet_step. exact H7.
  - rewrite (add_message_full a m s4) by lia.
    left. split; [reflexivity|]. cbn [snd].
    eapply quiet_trans; [|apply quiet_message_free].
    destruct (payload (message_at m s4) =? 0); [|quiet_step]; exact H4.
Qed.

(** A send into a mailbox whose counter has reached the capacity fails,
    whatever the kind of the message. *)
Lemma send_async_full recipient mtype data size alloc s a :
  actor_get recipient s = Some a ->
  max_queue_size (actor_at a s) <= queue_size (actor_at a s) ->
  let r := message_send_async recipient mtype data size alloc s in
  fst r = false /\ quiet s (snd r).
Proof.
  intros Hget Hfull r.
  destruct (send_async_cases recipient mtype data size alloc s)
    as [H|(_ & a' & m & _ & Hget' & _ & Hroom & _)]; [exact H|].
  rewrite Hget in Hget'. injection Hget' as <-. lia.
Qed.

(** A send succeeds when the scheduler runs, the recipient exists, a message
    slot is free, the payload copy (if any) is allocated and the mailbox has
    room. *)
Lemma send_async_room recipient mtype data size alloc s a :
  scheduler_initialized s = true ->
  actor_get recipient s = Some a ->
  (exists m, find_index negb (message_pool_used s) = Some m) ->
  (alloc <> 0 \/ data = None \/ size <= 0) ->
  queue_size (actor_at a s) < max_queue_size (actor_at a s) ->
  fst (message_send_async recipient mtype data size alloc s) = true.
Proof.
  intros Hinit Hget (m & Hm) Halloc Hroom. unfold message_send_async.
  rewrite Hinit, Hget. simpl negb. cbv iota.
  pose proof (quiet_message_allocate s) as Hq. unfold message_allocate in *.
  rewrite Hm in *. cbn [snd] in Hq. cbv zeta.
  set (copy := match data with Some _ => 0 <? size | None => false end).
  assert (Hc : copy && (alloc =? 0) = false).
  { destruct Halloc as [H|[H|H]].
    - apply Z.eqb_neq in H. rewrite H. apply andb_false_r.
    - unfold copy. rewrite H. reflexivity.
    - unfold copy. destruct data; [|reflexivity].
      destruct (0 <? size) eqn:E; [apply Z.ltb_lt in E; lia | reflexivity]. }
  rewrite Hc.
  match goal with
  | |- context [actor_add_message (Some a) (Some m) ?t] =>
      set (s4 := t); assert (H4 : quiet s s4)
  end.
  { unfold s4. destruct copy; repeat quiet_step; exact Hq. }
  assert (Hmb : mbox (actor_at a s4) = mbox (actor_at a s)) by apply H4.
  unfold mbox in Hmb. injection Hmb as _ Hqs Hcap.
  destruct (add_message_room a m s4) as (s5 & -> & _); [lia|]. reflexivity.
Qed.

(** *** [message_receive] and [message_wait] *)

Lemma receive_cases s :
  message_receive s = (None, s) \/
  exists c m rest,
    current_actor s = Some c /\
    message_queue (actor_at c s) = m :: rest /\
    fst (message_receive s) = Some m /\
    current_actor (snd (message_receive s)) = Some c /\
    touches c pop s (snd (message_receive s)).
Proof.
  unfold message_receive. destruct (current_actor s) as [c|] eqn:Hc; [|left; reflexivity].
  destruct (message_queue (actor_at c s)) as [|m rest] eqn:Hq; [left; reflexivity|].
  right. exists c, m, rest. split; [reflexivity|]. split; [exact Hq|].
  split; [reflexivity|]. split; [exact Hc|]. cbn [snd].
  destruct (actor_pool s !! c) as [x|] eqn:Hx.
  - apply (touches_quiet_r _ _ _ (on_actor c (fun a =>
             set_messages_received (u64 (messages_received a + 1))
               (set_queue a rest (u32 (queue_size a - 1)))) s)).
    + apply (touches_on_actor _ _ _ _ x Hx). cbn.
      rewrite (actor_at_lookup _ _ _ Hx) in Hq. rewrite Hq. reflexivity.
    + quiet_step. apply quiet_refl.
  - unfold actor_at in Hq. rewrite Hx in Hq. discriminate.
Qed.

(** [message_wait] is [message_receive], from the state itself or from a
    state whose mailboxes are the same. *)
Lemma wait_as_receive timeout_ms s :
  exists s0, quiet s s0 /\ message_wait timeout_ms s = message_receive s0.
Proof.
  unfold message_wait. destruct (current_actor s) as [c|] eqn:Hc.
  - destruct (message_receive s) as [[m|] s1] eqn:Hr.
    + exists s. split; [apply quiet_refl | symmetry; exact Hr].
    + eexists. split; [|reflexivity].
      assert (H1 : quiet s s1).
      { destruct (receive_cases s) as [H|(c' & m & rest & _ & _ & Hm & _)].
        - rewrite Hr in H. injection H as ->. apply quiet_refl.
        - rewrite Hr in Hm. discriminate. }
      eapply quiet_trans; [|apply quiet_yield].
      eapply quiet_trans; [|apply quiet_remove_from_ready_queue].
      quiet_step. exact H1.
  - exists s. split; [apply quiet_refl|]. unfold message_receive. rewrite Hc. reflexivity.
Qed.

(** *** Well-formed states *)

Lemma bounded_mbox x y : mbox x = mbox y -> bounded y -> bounded x.
Proof.
  unfold mbox, bounded. intros [= H1 H2 H3]. rewrite H1, H2, H3. intros H; exact H.
Qed.

Lemma counted_mbox x y : mbox x = mbox y -> counted y -> counted x.
Proof.
  unfold mbox, counted. intros [= H1 H2 H3]. rewrite H1, H2. intros H; exact H.
Qed.

Lemma bounded_zero : bounded zero_actor.
Proof. unfold bounded. simpl. lia. Qed.

Lemma counted_zero : counted zero_actor.
Proof. reflexivity. Qed.

Lemma well_formed_quiet s s' : quiet s s' -> well_formed s -> well_formed s'.
Proof.
  intros (A & B & C) [Hb Hl]. split.
  - intros i. apply (bounded_mbox _ _ (A i)). apply Hb.
  - intros id p Hp. rewrite B in Hp. destruct (Hl id p Hp) as [-> Hc].
    split; [reflexivity|]. apply (counted_mbox _ _ (A id)). exact Hc.
Qed.

Lemma well_formed_push a m s s' :
  touches a (push m) s s' ->
  queue_size (actor_at a s) < max_queue_size (actor_at a s) ->
  well_formed s -> well_formed s'.
Proof.
  intros Ht Hroom [Hb Hl].
  pose proof (touches_self _ _ _ _ Ht) as Hself. unfold mbox, push in Hself.
  injection Hself as Hq Hn Hc.
  pose proof (Hb a) as (B1 & B2 & B3).
  assert (Hn' : queue_size (actor_at a s') = queue_size (actor_at a s) + 1).
  { rewrite Hn. apply u32_small. lia. }
  split.
  - intros i. destruct (decide (i = a)) as [->|Hne].
    + unfold bounded. rewrite Hq, Hn', Hc, length_app. simpl. lia.
    + apply (bounded_mbox _ _ (touches_other _ _ _ _ _ Ht Hne)). apply Hb.
  - intros id p Hp. destruct Ht as (A & B & C). rewrite B in Hp.
    destruct (Hl id p Hp) as [-> Hcount]. split; [reflexivity|].
    destruct (decide (id = a)) as [->|Hne].
    + unfold counted in *. rewrite Hq, Hn', length_app. simpl. lia.
    + apply (counted_mbox _ (actor_at id s)); [|exact Hcount].
      rewrite A. destruct (decide (id = a)); [contradiction | reflexivity].
Qed.

Lemma well_formed_pop c m rest s s' :
  touches c pop s s' ->
  message_queue (actor_at c s) = m :: rest ->
  well_formed s -> well_formed s'.
Proof.
  intros Ht Hq0 [Hb Hl].
  pose proof (touches_self _ _ _ _ Ht) as Hself. unfold mbox, pop in Hself.
  injection Hself as Hq Hn Hc. rewrite Hq0 in Hq. simpl in Hq.
  pose proof (Hb c) as (B1 & B2 & B3). rewrite Hq0 in B1. simpl length in B1.
  assert (Hn' : queue_size (actor_at c s') = queue_size (actor_at c s) - 1).
  { rewrite Hn. apply u32_small. lia. }
  split.
  - intros i. destruct (decide (i = c)) as [->|Hne].
    + unfold bounded. rewrite Hq, Hn', Hc. lia.
    + apply (bounded_mbox _ _ (touches_other _ _ _ _ _ Ht Hne)). apply Hb.
  - intros id p Hp. destruct Ht as (A & B & C). rewrite B in Hp.
    destruct (Hl id p Hp) as [-> Hcount]. split; [reflexivity|].
    destruct (decide (id = c)) as [->|Hne].
    + unfold counted in *. rewrite Hq, Hn', Hcount, Hq0. simpl length. lia.
    + apply (counted_mbox _ (actor_at id s)); [|exact Hcount].
      rewrite A. destruct (decide (id = c)); [contradiction | reflexivity].
Qed.

Lemma well_formed_receive s : well_formed s -> well_formed (snd (message_receive s)).
Proof.
  intros Hs. destruct (receive_cases s) as [->|(c & m & rest & _ & Hq & _ & _ & Ht)];
    [exact Hs|].
  apply (well_formed_pop _ _ _ _ _ Ht Hq Hs).
Qed.

Lemma well_formed_wait t s : well_formed s -> well_formed (snd (message_wait t s)).
Proof.
  intros Hs. destruct (wait_as_receive t s) as (s0 & Hq & ->).
  apply well_formed_receive. apply (well_formed_quiet _ _ Hq Hs).
Qed.

Lemma well_formed_send recipient mtype data size alloc s :
  well_formed s ->
  well_formed (snd (message_send_async recipient mtype data size alloc s)).
Proof.
  intros Hs. destruct (send_async_cases recipient mtype data size alloc s)
    as [(_ & Hq)|(_ & a & m & _ & _ & _ & Hroom & Ht)].
  - apply (well_formed_quiet _ _ Hq Hs).
  - apply (well_formed_push _ _ _ _ Ht Hroom Hs).
Qed.

(** *** Creating and terminating actors, initialising the scheduler *)

Lemma actor_at_on_actor_self i f s :
  actor_at i (on_actor i f s) =
  match actor_pool s !! i with Some x => f x | None => zero_actor end.
Proof.
  destruct (actor_pool s !! i) as [x|] eqn:Hx.
  - apply actor_at_on_actor. exact Hx.
  - rewrite on_actor_missing by exact Hx. unfold actor_at. rewrite Hx. reflexivity.
Qed.

Lemma mbox_on_actor i j f s :
  (forall x, mbox (f x) = mbox x) ->
  mbox (actor_at j (on_actor i f s)) = mbox (actor_at j s).
Proof. intros Hf. apply (quiet_on_actor i f s Hf). Qed.

Lemma create_cases entry user prio stack alloc s :
  let r := actor_create entry user prio stack alloc s in
  quiet s (snd r) \/
  exists i,
    fst r = Z.of_nat i /\
    actor_pool_used s !! i = Some false /\
    (forall j, j <> i -> mbox (actor_at j (snd r)) = mbox (actor_at j s)) /\
    bounded (actor_at i (snd r)) /\ counted (actor_at i (snd r)) /\
    actors (snd r) = <[i:=Some i]> (actors s) /\
    actor_pool_used (snd r) = <[i:=true]> (actor_pool_used s).
Proof.
  intros r. subst r. unfold actor_create.
  destruct (negb (scheduler_initialized s) || (entry =? 0)); [left; apply quiet_refl|].
  destruct (find_index negb (drop 1 (actor_pool_used s))) as [k|] eqn:Hk;
    [|left; apply quiet_refl].
  assert (Hfree : actor_pool_used s !! S k = Some false).
  { destruct (find_index_Some _ _ _ Hk) as (b & Hb & Hn).
    rewrite lookup_drop in Hb. destruct b; [discriminate | exact Hb]. }
  cbv zeta.
  set (s1 := set_actor_table s (actors s) (<[S k:=true]> (actor_pool_used s))).
  match goal with
  | |- context [emit (on_actor (S k) ?f2 (on_actor (S k) ?f1 s1)) ?e] =>
      set (s3 := emit (on_actor (S k) f2 (on_actor (S k) f1 s1)) e)
  end.
  assert (H3 : forall j, mbox (actor_at j s3) = mbox (actor_at j s)).
  { intros j. unfold s3.
    change (actor_at j (emit ?t _)) with (actor_at j t).
    rewrite !mbox_on_actor by (intros x; reflexivity). reflexivity. }
  destruct (alloc =? 0).
  - left. cbn [snd]. split; [|split].
    + intros j. rewrite <- H3. reflexivity.
    + reflexivity.
    + cbn [actor_pool_used set_actor_table s3 emit on_actor set_actor_pool s1].
      rewrite list_insert_insert_eq. apply list_insert_id. exact Hfree.
  - right. exists (S k). cbn [fst snd]. split; [reflexivity|]. split; [exact Hfree|].
    split; [|split; [|split; [|split]]].
    + intros j Hj. rewrite <- H3.
      change (actor_at j (on_statistics ?f ?t)) with (actor_at j t).
      change (actor_at j (set_actor_table ?t ?a ?u)) with (actor_at j t).
      rewrite actor_at_on_actor_ne by congruence. reflexivity.
    + change (actor_at (S k) (on_statistics ?f ?t)) with (actor_at (S k) t).
      change (actor_at (S k) (set_actor_table ?t ?a ?u)) with (actor_at (S k) t).
      rewrite actor_at_on_actor_self. destruct (actor_pool s3 !! S k).
      * unfold bounded. simpl. lia.
      * apply bounded_zero.
    + change (actor_at (S k) (on_statistics ?f ?t)) with (actor_at (S k) t).
      change (actor_at (S k) (set_actor_table ?t ?a ?u)) with (actor_at (S k) t).
      rewrite actor_at_on_actor_self. destruct (actor_pool s3 !! S k); reflexivity.
    + reflexivity.
    + reflexivity.
Qed.

Lemma quiet_clear_messages (q : list nat) s :
  quiet s (fold_left (fun s m => message_free (Some m) s) q s).
Proof.
  assert (H : forall t, quiet s t ->
            quiet s (fold_left (fun s m => message_free (Some m) s) q t)).
  { induction q as [|m q IH]; intros t Ht; cbn [fold_left]; [exact Ht|].
    apply IH. eapply quiet_trans; [exact Ht | apply quiet_message_free]. }
  apply H. apply quiet_refl.
Qed.

Lemma terminate_cases id s :
  let s' := actor_terminate id s in
  s' = s \/
  exists a,
    actor_get id s = Some a /\
    (forall j, j <> a -> mbox (actor_at j s') = mbox (actor_at j s)) /\
    mbox (actor_at a s') = ([], 0, max_queue_size (actor_at a s)) /\
    actors s' = <[Z.to_nat id:=None]> (actors s) /\
    actor_pool_used s' = <[Z.to_nat id:=false]> (actor_pool_used s).
Proof.
  intros s'. subst s'. unfold actor_terminate.
  destruct (actor_get id s) as [a|] eqn:Hget; [|left; reflexivity].
  right. exists a. split; [reflexivity|]. cbv zeta.
  unfold actor_clear_message_queue.
  match goal with
  | |- context [on_actor a (fun act => set_queue act [] 0) ?t] =>
      set (s3 := t); assert (H3 : quiet s s3)
  end.
  { unfold s3. eapply quiet_trans; [|apply quiet_clear_messages].
    match goal with
    | |- quiet s (if _ then ?t2 else _) => assert (H2 : quiet s t2)
    end.
    { match goal with |- quiet s (if ?b then _ else _) => destruct b end;
        [|quiet_step]; apply quiet_remove_from_ready_queue. }
    match goal with |- quiet s (if ?b then _ else _) => destruct b end;
      [|quiet_step]; exact H2. }
  clearbody s3.
  destruct H3 as (H3 & Htab & Hused).
  split; [|split; [|split]].
  - intros j Hj.
    change (actor_at j (set_actor_table ?t ?x ?u)) with (actor_at j t).
    change (actor_at j (on_statistics ?f ?t)) with (actor_at j t).
    rewrite !actor_at_on_actor_ne by congruence. apply H3.
  - change (actor_at a (set_actor_table ?t ?x ?u)) with (actor_at a t).
    change (actor_at a (on_statistics ?f ?t)) with (actor_at a t).
    rewrite mbox_on_actor by (intros x; reflexivity).
    rewrite actor_at_on_actor_self.
    pose proof (H3 a) as Ha. unfold mbox in Ha. injection Ha as _ _ Hc.
    rewrite <- Hc. unfold actor_at.
    destruct (actor_pool s3 !! a); reflexivity.
  - change (actors (set_actor_table ?t ?x ?u)) with x.
    change (actors (on_statistics ?f ?t)) with (actors t).
    do 2 change (actors (on_actor ?i ?f ?t)) with (actors t).
    rewrite Htab. reflexivity.
  - change (actor_pool_used (set_actor_table ?t ?x ?u)) with u.
    change (actor_pool_used (on_statistics ?f ?t)) with (actor_pool_used t).
    do 2 change (actor_pool_used (on_actor ?i ?f ?t)) with (actor_pool_used t).
    rewrite Hused. reflexivity.
Qed.

Lemma init_mailbox j s :
  let s' := scheduler_init s in
  mbox (actor_at j s') = ([], 0, 256) \/
  actor_at j s' = zero_actor \/
  mbox (actor_at j s') = (take 1 (message_queue (actor_at j s)),
                          queue_size (actor_at j s), max_queue_size (actor_at j s)).
Proof.
  intros s'. subst s'. unfold scheduler_init, actor_create_kernel_actor.
  cbv zeta. unfold actor_at at 1 2 3.
  cbn [actor_pool set_current_actor set_actor_table on_actor set_actor_pool].
  rewrite !update_at_lookup. destruct (decide (0%nat = j)) as [<-|Hne].
  - rewrite list_lookup_fmap. destruct (actor_pool s !! 0%nat); simpl.
    + left. reflexivity.
    + right. left. reflexivity.
  - rewrite list_lookup_fmap. unfold actor_at.
    destruct (actor_pool s !! j); simpl.
    + right. right. reflexivity.
    + right. left. reflexivity.
Qed.

Lemma init_table id p s :
  actors (scheduler_init s) !! id = Some (Some p) -> id = 0%nat /\ p = 0%nat.
Proof.
  unfold scheduler_init, actor_create_kernel_actor. cbv zeta.
  cbn [actors set_current_actor set_actor_table on_actor set_actor_pool].
  intros H. destruct (decide (id = 0%nat)) as [->|Hne].
  - split; [reflexivity|].
    rewrite list_lookup_insert_eq in H; [congruence|].
    apply lookup_lt_Some in H. rewrite length_insert in H. exact H.
  - rewrite list_lookup_insert_ne in H by congruence.
    rewrite list_lookup_fmap in H. destruct (actors s !! id); discriminate.
Qed.

Lemma init_kernel_counted s : counted (actor_at 0 (scheduler_init s)).
Proof.
  unfold scheduler_init, actor_create_kernel_actor. cbv zeta. unfold actor_at.
  cbn [actor_pool set_current_actor set_actor_table on_actor set_actor_pool].
  rewrite update_at_lookup. destruct (decide (0%nat = 0%nat)); [|congruence].
  rewrite list_lookup_fmap. destruct (actor_pool s !! 0%nat); reflexivity.
Qed.

Lemma well_formed_init s : well_formed s -> well_formed (scheduler_init s).
Proof.
  intros [Hb Hl]. split.
  - intros i. destruct (init_mailbox i s) as [H|[H|H]].
    + unfold mbox in H. injection H as Hq Hn Hc. unfold bounded.
      rewrite Hq, Hn, Hc. simpl. lia.
    + rewrite H. apply bounded_zero.
    + unfold mbox in H. injection H as Hq Hn Hc. unfold bounded.
      rewrite Hq, Hn, Hc. destruct (Hb i) as (B1 & B2 & B3).
      rewrite length_take. lia.
  - intros id p Hp. destruct (init_table _ _ _ Hp) as [-> ->]. split; [reflexivity|].
    apply init_kernel_counted.
Qed.

Lemma actor_get_slot id a s :
  well_formed s -> actor_get id s = Some a ->
  a = Z.to_nat id /\ actors s !! a = Some (Some a).
Proof.
  intros [_ Hl]. unfold actor_get. destruct (MAX_ACTORS <=? id); [discriminate|].
  destruct (actors s !! Z.to_nat id) as [[p|]|] eqn:E; cbn [default]; try discriminate.
  intros [= <-]. destruct (Hl _ _ E) as [-> _]. split; [reflexivity | exact E].
Qed.

Lemma well_formed_create entry user prio stack alloc s :
  well_formed s -> well_formed (snd (actor_create entry user prio stack alloc s)).
Proof.
  intros Hs. destruct (create_cases entry user prio stack alloc s)
    as [Hq|(i & _ & _ & Hoth & Hb & Hc & Htab & _)].
  - apply (well_formed_quiet _ _ Hq Hs).
  - destruct Hs as [Hbs Hl]. split.
    + intros j. destruct (decide (j = i)) as [->|Hne]; [exact Hb|].
      apply (bounded_mbox _ _ (Hoth j Hne)). apply Hbs.
    + intros id p Hp. rewrite Htab in Hp.
      destruct (decide (id = i)) as [Heq|Hne].
      * subst id. assert (Hlt : (i < length (actors s))%nat).
        { apply lookup_lt_Some in Hp. rewrite length_insert in Hp. exact Hp. }
        rewrite list_lookup_insert_eq in Hp by exact Hlt.
        injection Hp as <-. split; [reflexivity | exact Hc].
      * rewrite list_lookup_insert_ne in Hp by congruence.
        destruct (Hl id p Hp) as [-> Hcount]. split; [reflexivity|].
        apply (counted_mbox _ _ (Hoth id Hne)). exact Hcount.
Qed.

Lemma well_formed_terminate id s :
  well_formed s -> well_formed (actor_terminate id s).
Proof.
  intros Hs.
  destruct (terminate_cases id s) as [->|(a & Hget & Hoth & Hself & Htab & _)];
    [exact Hs|].
  destruct (actor_get_slot _ _ _ Hs Hget) as [Ha _].
  destruct Hs as [Hbs Hl]. split.
  - intros j. destruct (decide (j = a)) as [->|Hne].
    + unfold mbox in Hself. injection Hself as Hq Hn Hc. unfold bounded.
      rewrite Hq, Hn, Hc. destruct (Hbs a) as (B1 & B2 & B3).
      cbn [length]. lia.
    + apply (bounded_mbox _ _ (Hoth j Hne)). apply Hbs.
  - intros i p Hp. rewrite Htab in Hp.
    destruct (decide (i = Z.to_nat id)) as [Heq|Hne].
    + subst i. assert (Hlt : (Z.to_nat id < length (actors s))%nat).
      { apply lookup_lt_Some in Hp. rewrite length_insert in Hp. exact Hp. }
      rewrite list_lookup_insert_eq in Hp by exact Hlt. discriminate.
    + rewrite list_lookup_insert_ne in Hp by congruence.
      destruct (Hl i p Hp) as [-> Hcount]. split; [reflexivity|].
      assert (Hia : i <> a) by congruence.
      apply (counted_mbox _ _ (Hoth i Hia)). exact Hcount.
Qed.

(** *** The interface as a whole *)

Lemma run_create entry user prio stack alloc s :
  run (CActorCreate entry user prio stack alloc) s =
  (RActorId (fst (actor_create entry user prio stack alloc s)),
   snd (actor_create entry user prio stack alloc s)).
Proof. cbn [run]. destruct (actor_create entry user prio stack alloc s). reflexivity. Qed.

Lemma run_actor_start id s :
  run (CActorStart id) s = (RBool (fst (actor_start id s)), snd (actor_start id s)).
Proof. cbn [run]. destruct (actor_start id s). reflexivity. Qed.

Lemma run_send recipient mtype data size alloc s :
  run (CSendAsync recipient mtype data size alloc) s =
  (RBool (fst (message_send_async recipient mtype data size alloc s)),
   snd (message_send_async recipient mtype data size alloc s)).
Proof.
  cbn [run]. destruct (message_send_async recipient mtype data size alloc s).
  reflexivity.
Qed.

Lemma run_receive s :
  run CReceive s = (RMessage (fst (message_receive s)), snd (message_receive s)).
Proof. cbn [run]. destruct (message_receive s). reflexivity. Qed.

Lemma run_wait t s :
  run (CWait t) s = (RMessage (fst (message_wait t s)), snd (message_wait t s)).
Proof. cbn [run]. destruct (message_wait t s). reflexivity. Qed.

Lemma well_formed_run c s : well_formed s -> well_formed (snd (run c s)).
Proof.
  intros Hs. destruct c.
  - apply well_formed_init. exact Hs.
  - apply (well_formed_quiet _ _ (quiet_start s) Hs).
  - apply (well_formed_quiet _ _ (quiet_schedule s) Hs).
  - apply (well_formed_quiet _ _ (quiet_yield s) Hs).
  - apply (well_formed_quiet _ _ (quiet_timer_handler s) Hs).
  - apply (well_formed_quiet _ _ (quiet_ai_analyze_actors s) Hs).
  - rewrite run_create. apply well_formed_create. exact Hs.
  - rewrite run_actor_start. apply (well_formed_quiet _ _ (quiet_actor_start id s) Hs).
  - apply well_formed_terminate. exact Hs.
  - rewrite run_send. apply well_formed_send. exact Hs.
  - rewrite run_receive. apply well_formed_receive. exact Hs.
  - rewrite run_wait. apply well_formed_wait. exact Hs.
  - apply (well_formed_quiet _ _ (quiet_message_free message s) Hs).
Qed.

Lemma well_formed_boot : well_formed boot_state.
Proof.
  split.
  - intros i. unfold actor_at, boot_state. cbn [actor_pool].
    destruct (replicate (Z.to_nat MAX_ACTORS) zero_actor !! i) as [x|] eqn:E.
    + apply lookup_replicate in E as [-> _]. apply bounded_zero.
    + apply bounded_zero.
  - intros id p Hp. unfold boot_state in Hp. cbn [actors] in Hp.
    apply lookup_replicate in Hp as [Hp _]. discriminate.
Qed.

Lemma reachable_well_formed s : reachable s -> well_formed s.
Proof.
  induction 1 as [|s c _ IH _]; [apply well_formed_boot|].
  apply well_formed_run. exact IH.
Qed.

Lemma reachable_run_all tr s :
  reachable s -> permitted_all tr s -> reachable (run_all tr s).
Proof.
  revert s. induction tr as [|c tr IH]; intros s Hs Hp; [exact Hs|].
  destruct Hp as [Hc Hp]. cbn [run_all]. apply IH; [|exact Hp].
  apply reachable_step; assumption.
Qed.

(** *** What a call does to one mailbox *)

Lemma quiet_mailbox a s s' : quiet s s' -> mailbox a s' = mailbox a s.
Proof.
  intros (A & _). specialize (A a). unfold mbox in A. injection A as Hq _ _. exact Hq.
Qed.

Lemma receive_mailbox a s :
  let r := message_receive s in
  match fst r with
  | Some m => if ptr_eqb (current_actor (snd r)) (Some a) then [m] else []
  | None => []
  end ++ mailbox a (snd r) = mailbox a s /\
  actor_pool_used (snd r) = actor_pool_used s.
Proof.
  intros r. subst r.
  destruct (receive_cases s) as [->|(c & m & rest & _ & Hq & Hm & Hc & Ht)].
  - split; reflexivity.
  - rewrite Hm, Hc. split; [|apply Ht]. cbn [ptr_eqb].
    destruct (Nat.eqb_spec c a) as [->|Hne].
    + pose proof (touches_self _ _ _ _ Ht) as Hself. unfold mbox, pop in Hself.
      injection Hself as Hq' _ _. unfold mailbox. rewrite Hq', Hq. reflexivity.
    + assert (Hac : a <> c) by congruence.
      pose proof (touches_other _ _ _ _ _ Ht Hac) as Ho. unfold mbox in Ho.
      injection Ho as Hq' _ _. unfold mailbox. rewrite Hq'. reflexivity.
Qed.

Lemma delivers_receive a s :
  delivers a CReceive s =
  match fst (message_receive s) with
  | Some m => if ptr_eqb (current_actor (snd (message_receive s))) (Some a)
              then [m] else []
  | None => []
  end.
Proof.
  unfold delivers. rewrite run_receive.
  destruct (message_receive s) as [[m|] s']; reflexivity.
Qed.

Lemma delivers_wait a t s :
  delivers a (CWait t) s =
  match fst (message_wait t s) with
  | Some m => if ptr_eqb (current_actor (snd (message_wait t s))) (Some a)
              then [m] else []
  | None => []
  end.
Proof.
  unfold delivers. rewrite run_wait.
  destruct (message_wait t s) as [[m|] s']; reflexivity.
Qed.

Lemma mailbox_step a c s :
  well_formed s -> actor_pool_used s !! a = Some true -> resets a c = false ->
  delivers a c s ++ mailbox a (snd (run c s)) = mailbox a s ++ enqueues a c s /\
  actor_pool_used (snd (run c s)) !! a = Some true.
Proof.
  intros Hs Hused Hres.
  assert (Hquiet : forall s', quiet s s' ->
            [] ++ mailbox a s' = mailbox a s ++ [] /\
            actor_pool_used s' !! a = Some true).
  { intros s' Hq. rewrite app_nil_r, (quiet_mailbox a _ _ Hq).
    split; [reflexivity|]. destruct Hq as (_ & _ & ->). exact Hused. }
  destruct c; try discriminate Hres.
  - apply Hquiet, quiet_start.
  - apply Hquiet, quiet_schedule.
  - apply Hquiet, quiet_yield.
  - apply Hquiet, quiet_timer_handler.
  - apply Hquiet, quiet_ai_analyze_actors.
  - rewrite run_create. cbn [delivers enqueues snd].
    destruct (create_cases entry user prio stack alloc s)
      as [Hq|(i & _ & Hfree & Hoth & _ & _ & _ & Hu)]; [apply Hquiet, Hq|].
    assert (Hne : a <> i) by (intros ->; congruence).
    rewrite app_nil_r. split.
    + specialize (Hoth a Hne). unfold mbox in Hoth. injection Hoth as Hq _ _.
      exact Hq.
    + rewrite Hu, list_lookup_insert_ne by congruence. exact Hused.
  - rewrite run_actor_start. apply Hquiet, quiet_actor_start.
  - cbn [resets] in Hres. apply Nat.eqb_neq in Hres.
    cbn [run delivers enqueues snd].
    destruct (terminate_cases id s) as [->|(p & Hget & Hoth & _ & _ & Hu)];
      [apply Hquiet, quiet_refl|].
    destruct (actor_get_slot _ _ _ Hs Hget) as [-> _].
    rewrite app_nil_r. split.
    + assert (Hne : a <> Z.to_nat id) by congruence.
      specialize (Hoth a Hne). unfold mbox in Hoth. injection Hoth as Hq _ _.
      exact Hq.
    + rewrite Hu, list_lookup_insert_ne by exact Hres. exact Hused.
  - unfold delivers, enqueues. rewrite run_send. cbn [fst snd].
    destruct (send_async_cases recipient mtype data size alloc s)
      as [(Hf & Hq)|(Hf & r & m & _ & Hget & Hm & _ & Ht)]; rewrite Hf.
    + apply Hquiet, Hq.
    + rewrite Hget, Hm. split; [|destruct Ht as (_ & _ & ->); exact Hused].
      cbn [app]. destruct (Nat.eqb_spec r a) as [->|Hne].
      * pose proof (touches_self _ _ _ _ Ht) as Hself. unfold mbox, push in Hself.
        injection Hself as Hq _ _. exact Hq.
      * assert (Har : a <> r) by congruence.
        pose proof (touches_other _ _ _ _ _ Ht Har) as Ho. unfold mbox in Ho.
        injection Ho as Hq _ _. unfold mailbox. rewrite Hq, app_nil_r. reflexivity.
  - rewrite delivers_receive, run_receive. cbn [enqueues snd]. rewrite app_nil_r.
    destruct (receive_mailbox a s) as [H1 H2]. split; [exact H1|].
    rewrite H2. exact Hused.
  - rewrite delivers_wait, run_wait. cbn [enqueues snd]. rewrite app_nil_r.
    destruct (wait_as_receive timeout_ms s) as (s0 & Hq & ->).
    destruct (receive_mailbox a s0) as [H1 H2]. split.
    + rewrite H1. apply (quiet_mailbox a _ _ Hq).
    + rewrite H2. destruct Hq as (_ & _ & ->). exact Hused.
  - apply Hquiet, quiet_message_free.
Qed.

Lemma mailbox_trace a tr s :
  well_formed s -> actor_pool_used s !! a = Some true ->
  Forall (fun c => resets a c = false) tr ->
  delivered a tr s ++ mailbox a (run_all tr s) = mailbox a s ++ enqueued a tr s.
Proof.
  revert s. induction tr as [|c tr IH]; intros s Hs Hused Hres.
  - cbn [delivered run_all enqueued]. rewrite app_nil_r. reflexivity.
  - apply Forall_cons in Hres as [Hc Hres].
    destruct (mailbox_step a c s Hs Hused Hc) as [Hstep Hused'].
    cbn [delivered run_all enqueued].
    rewrite <- app_assoc, (IH _ (well_formed_run c s Hs) Hused' Hres).
    rewrite !app_assoc, Hstep. reflexivity.
Qed.

(** *** The state field of the actors *)

Lemma state_on_actor i j f s :
  (forall x, state (f x) = state x) ->
  state (actor_at j (on_actor i f s)) = state (actor_at j s).
Proof.
  intros Hf.
  destruct (actor_at_on_actor_cases i j f s) as [->|(_ & x & _ & -> & ->)];
    [reflexivity | apply Hf].
Qed.

Lemma state_remove_from_ready_queue a j s :
  state (actor_at j (scheduler_remove_from_ready_queue a s)) = state (actor_at j s).
Proof.
  unfold scheduler_remove_from_ready_queue. destruct a as [i|]; [|reflexivity].
  cbv zeta.
  change (actor_at j (on_statistics ?f ?t)) with (actor_at j t).
  rewrite state_on_actor by (intros x; reflexivity).
  match goal with
  | |- state (actor_at j (match ?x with _ => _ end)) = _ => destruct x
  end; [rewrite state_on_actor by (intros x; reflexivity)|];
  (match goal with
   | |- state (actor_at j (match ?x with _ => _ end)) = _ => destruct x
   end; [rewrite state_on_actor by (intros x; reflexivity)|]; reflexivity).
Qed.

Lemma remove_from_ready_queue_frame a s :
  let s' := scheduler_remove_from_ready_queue a s in
  current_actor s' = current_actor s /\
  scheduler_enabled s' = scheduler_enabled s /\
  scheduler_initialized s' = scheduler_initialized s /\
  context_switches (statistics s') = context_switches (statistics s).
Proof.
  unfold scheduler_remove_from_ready_queue. destruct a as [i|]; [|repeat split].
  cbv zeta.
  match goal with
  | |- context [on_actor i _ (match _ with Some _ => _ | None => ?t end)] =>
      set (s1 := t)
  end.
  assert (H1 : current_actor s1 = current_actor s /\
               scheduler_enabled s1 = scheduler_enabled s /\
               scheduler_initialized s1 = scheduler_initialized s /\
               context_switches (statistics s1) = context_switches (statistics s))
    by (unfold s1; destruct (prev (actor_at i s)); repeat split).
  clearbody s1. destruct (next (actor_at i s1)); exact H1.
Qed.

Lemma receive_empty c s :
  current_actor s = Some c -> mailbox c s = [] -> message_receive s = (None, s).
Proof.
  intros Hc Hq. unfold message_receive. rewrite Hc. unfold mailbox in Hq.
  rewrite Hq. reflexivity.
Qed.




End SchedulerFacts.

(** *** The two ends of a mailbox *)

Module SchedulerFifo.
Import Scheduler SchedulerFacts.

(** A sequence of calls that does not reset the mailbox of a slot in use
    leaves the slot in use and the state well formed. *)
Lemma used_run_all a tr s :
  well_formed s -> actor_pool_used s !! a = Some true ->
  Forall (fun c => resets a c = false) tr ->
  well_formed (run_all tr s) /\ actor_pool_used (run_all tr s) !! a = Some true.
Proof.
  revert s. induction tr as [|c tr IH]; intros s Hs Hused Hres; [split; assumption|].
  apply Forall_cons in Hres as [Hc Hres].
  destruct (mailbox_step a c s Hs Hused Hc) as [_ Hused'].
  cbn [run_all]. apply IH; [apply well_formed_run; exact Hs | exact Hused' | exact Hres].
Qed.

(** [message_receive] hands the current actor the message at the head of its
    mailbox and leaves the rest. *)
Lemma receive_head a m rest s :
  current_actor s = Some a -> mailbox a s = m :: rest ->
  fst (message_receive s) = Some m /\
  mailbox a (snd (message_receive s)) = rest /\
  current_actor (snd (message_receive s)) = Some a.
Proof.
  intros Hc Hq. unfold mailbox in Hq.
  destruct (receive_cases s) as [Hn|(c & m' & rest' & Hc' & Hq' & Hm & Hcur & Ht)].
  { exfalso. unfold message_receive in Hn. rewrite Hc, Hq in Hn. discriminate Hn. }
  assert (c = a) by congruence. subst c.
  rewrite Hq in Hq'. injection Hq' as <- <-.
  split; [exact Hm|]. split; [|exact Hcur].
  pose proof (touches_self _ _ _ _ Ht) as Hself. unfold mbox, pop in Hself.
  injection Hself as Hq' _ _. unfold mailbox. rewrite Hq', Hq. reflexivity.
Qed.

(** With a message waiting, [message_wait] is [message_receive]. *)
Lemma wait_head a m rest t s :
  current_actor s = Some a -> mailbox a s = m :: rest ->
  message_wait t s = message_receive s.
Proof.
  intros Hc Hq. destruct (receive_head a m rest s Hc Hq) as (Hm & _).
  unfold message_wait. rewrite Hc.
  destruct (message_receive s) as [[m'|] s1]; [reflexivity|].
  cbn [fst] in Hm. discriminate Hm.
Qed.

End SchedulerFifo.

(** * The claims *)

(** ** Sandbox engine *)

(** C10.  Every sandbox enforcement entry point fails open: when the
    sandboxing system is not initialised, or the queried module has no
    sandbox, [sandboxing_has_capability], [sandboxing_check_resource_limit],
    [sandboxing_check_memory_access] and [sandboxing_check_function_call]
    all return true and leave the whole state, violation log included, as
    it was. *)
Theorem C10_enforcement_fails_open
  (s : Sandbox.sandboxing_system_state_t) (mid : Z) :
  Sandbox.sandboxing_initialized s = false \/
  Sandbox.sandboxing_find_sandbox_by_module mid s = None ->
  (forall capability,
     Sandbox.sandboxing_has_capability mid capability s = (true, s)) /\
  (forall rtype requested,
     Sandbox.sandboxing_check_resource_limit mid rtype requested s = (true, s)) /\
  (forall address size write,
     Sandbox.sandboxing_check_memory_access mid address size write s = (true, s)) /\
  (forall function_name,
     Sandbox.sandboxing_check_function_call mid function_name s = (true, s)).
Proof.
  intros H.
  assert (Hnone : Sandbox.sandboxing_find_sandbox_by_module mid s = None).
  { destruct H as [H|H]; [|exact H].
    unfold Sandbox.sandboxing_find_sandbox_by_module. rewrite H. reflexivity. }
  repeat split; intros.
  - unfold Sandbox.sandboxing_has_capability. rewrite Hnone.
    destruct (negb (Sandbox.sandboxing_initialized s)); reflexivity.
  - unfold Sandbox.sandboxing_check_resource_limit. rewrite Hnone.
    destruct (negb (Sandbox.sandboxing_initialized s)); reflexivity.
  - unfold Sandbox.sandboxing_check_memory_access. rewrite Hnone.
    destruct (negb (Sandbox.sandboxing_initialized s)); reflexivity.
  - unfold Sandbox.sandboxing_check_function_call. rewrite Hnone.
    destruct (negb (Sandbox.sandboxing_initialized s)); reflexivity.
Qed.

(** C10 at a concrete state: the engine is initialised and module 1 is
    sandboxed; module 2 has no sandbox. *)
Lemma C10_enforcement_fails_open_witness :
  (forall capability,
     Sandbox.sandboxing_has_capability 2 capability Examples.sandbox_user
     = (true, Examples.sandbox_user)) /\
  (forall rtype requested,
     Sandbox.sandboxing_check_resource_limit 2 rtype requested Examples.sandbox_user
     = (true, Examples.sandbox_user)) /\
  (forall address size write,
     Sandbox.sandboxing_check_memory_access 2 address size write Examples.sandbox_user
     = (true, Examples.sandbox_user)) /\
  (forall function_name,
     Sandbox.sandboxing_check_function_call 2 function_name Examples.sandbox_user
     = (true, Examples.sandbox_user)).
Proof.
  apply (C10_enforcement_fails_open Examples.sandbox_user 2).
  right. vm_compute. reflexivity.
Defined.




(** C4.  With strict enforcement on, the handled capability violation that
    takes the violation counter of a module's sandbox from 5 to 6 quarantines
    the module: its security level becomes Quarantine, its granted capability
    mask is ModuleQuery alone, its Memory limit is set (to 256 KiB, so to at
    most 512 KiB), and the count of quarantined modules grows by one.  The
    state is any state the engine can reach. *)
Theorem C4_sixth_violation_quarantines
  (sandboxing_disable_vm :
     Z -> Sandbox.sandboxing_system_state_t -> Z * Sandbox.sandboxing_system_state_t)
  (s : Sandbox.sandboxing_system_state_t) (mid : Z) (i : nat) (desc : option string) :
  Sandbox.reachable sandboxing_disable_vm s ->
  Sandbox.sandboxing_find_sandbox_by_module mid s = Some i ->
  Sandbox.strict_enforcement s = true ->
  Sandbox.violations (Sandbox.sandbox_at i s) = 5 ->
  0 <= Sandbox.quarantined_modules s < UINT32_MAX ->
  let s' := snd (Sandbox.sandboxing_handle_violation mid
                   Sandbox.VIOLATION_CAPABILITY desc s) in
  Sandbox.sandboxing_find_sandbox_by_module mid s' = Some i /\
  Sandbox.violations (Sandbox.sandbox_at i s') = 6 /\
  Sandbox.security_level (Sandbox.sandbox_at i s') = Sandbox.SANDBOX_LEVEL_QUARANTINE /\
  Sandbox.capabilities (Sandbox.sandbox_at i s') = Sandbox.CAP_MODULE_QUERY /\
  (exists lim, Sandbox.limit_of Sandbox.RESOURCE_MEMORY (Sandbox.sandbox_at i s') = Some lim
               /\ lim <= 512 * 1024) /\
  Sandbox.quarantined_modules s' = Sandbox.quarantined_modules s + 1.
Proof.
  intros Hreach Hfind Hstrict Hviol Hq s'.
  pose proof (SandboxFacts.reachable_consistent _ _ Hreach) as Hc.
  destruct (SandboxFacts.find_found _ _ _ Hfind) as (Hinit & sb & Hsb & _).
  rewrite (SandboxFacts.sandbox_at_lookup _ _ _ Hsb) in Hviol.
  destruct (SandboxFacts.handle_violation_escalates mid Sandbox.VIOLATION_CAPABILITY
              desc s i sb Hfind Hsb Hstrict (or_introl eq_refl))
    as (s2 & L1 & L2 & L3 & L5 & Hs').
  { rewrite Hviol. vm_compute. reflexivity. }
  fold s' in Hs'.
  assert (Hsb2 : Sandbox.sandboxes s2 !! i = Some (Sandbox.one_more_violation sb)).
  { rewrite L1. apply SandboxFacts.lookup_on_sandbox. exact Hsb. }
  assert (Hat : Sandbox.sandbox_at i s' =
                Sandbox.quarantined
                  (default 0 (Sandbox.default_capabilities s !!
                                Z.to_nat Sandbox.SANDBOX_LEVEL_QUARANTINE))
                  (Sandbox.one_more_violation sb)).
  { rewrite Hs'. apply (SandboxFacts.sandbox_at_on_sandbox i _ s2 _ Hsb2). }
  split.
  { rewrite Hs'.
    etransitivity;
      [apply (SandboxFacts.find_frame mid (Sandbox.on_sandbox i (Sandbox.quarantined
                (default 0 (Sandbox.default_capabilities s !!
                              Z.to_nat Sandbox.SANDBOX_LEVEL_QUARANTINE))) s2));
       reflexivity|].
    rewrite SandboxFacts.find_on_sandbox by (intros x; split; reflexivity).
    etransitivity;
      [apply (SandboxFacts.find_frame mid
                (Sandbox.on_sandbox i Sandbox.one_more_violation s) s2 L2 L1)|].
    rewrite SandboxFacts.find_on_sandbox by (intros x; split; reflexivity).
    exact Hfind. }
  rewrite Hat. split; [|split; [|split; [|split]]].
  - cbn. rewrite Hviol. reflexivity.
  - reflexivity.
  - cbn [Sandbox.capabilities Sandbox.quarantined Sandbox.set_limits Sandbox.set_caps].
    rewrite (Sandbox.cons_quarantine_caps _ Hc Hinit). reflexivity.
  - exists (256 * 1024). split; [|lia].
    apply SandboxFacts.memory_limit_of_quarantined.
    pose proof (Sandbox.cons_limits _ Hc) as Hl. rewrite Forall_lookup in Hl.
    apply (Hl i sb Hsb).
  - rewrite Hs'. cbn [Sandbox.quarantined_modules Sandbox.set_quarantined_modules].
    apply u32_small. unfold UINT32_MAX in Hq. lia.
Qed.

(** C4 at the sandbox of module 1 after five handled capability
    violations. *)
Lemma C4_sixth_violation_quarantines_witness :
  let s' := snd (Sandbox.sandboxing_handle_violation 1
                   Sandbox.VIOLATION_CAPABILITY (Some "denied"%string)
                   Examples.sandbox_five) in
  Sandbox.sandboxing_find_sandbox_by_module 1 s' = Some 0%nat /\
  Sandbox.violations (Sandbox.sandbox_at 0 s') = 6 /\
  Sandbox.security_level (Sandbox.sandbox_at 0 s') = Sandbox.SANDBOX_LEVEL_QUARANTINE /\
  Sandbox.capabilities (Sandbox.sandbox_at 0 s') = Sandbox.CAP_MODULE_QUERY /\
  (exists lim, Sandbox.limit_of Sandbox.RESOURCE_MEMORY (Sandbox.sandbox_at 0 s') = Some lim
               /\ lim <= 512 * 1024) /\
  Sandbox.quarantined_modules s' = Sandbox.quarantined_modules Examples.sandbox_five + 1.
Proof.
  apply (C4_sixth_violation_quarantines Examples.no_vm Examples.sandbox_five 1 0
           (Some "denied"%string)).
  - unfold Examples.sandbox_five, Examples.violate, Examples.sandbox_user,
      Examples.sandbox_ready.
    repeat (apply Sandbox.reachable_step;
            [| vm_compute; repeat split; discriminate]).
    apply Sandbox.reachable_boot.
  - vm_compute. reflexivity.
  - vm_compute. reflexivity.
  - vm_compute. reflexivity.
  - vm_compute. split; [discriminate | reflexivity].
Defined.

(** ** Module registry *)

(** C9.  [module_unload] refuses a module that carries the Core flag or has
    dependents: it returns false and the whole registry (the state of the
    module, its memory, the module list, the record of allocator calls) is as
    it was.  Consequently no call of the module interface takes such a module
    into the Unloading state. *)
Theorem C9_unload_refuses_pinned_module
  (s : Modules.module_system_t) (mid : Z) (i : nat) :
  Modules.module_get mid s = Some i ->
  Z.land (Modules.flags (Modules.module_at i s)) Modules.MODULE_FLAG_CORE <> 0 \/
  0 < Modules.dependent_count (Modules.module_at i s) ->
  Modules.module_unload mid s = (false, s) /\
  (forall c : Modules.call,
     Modules.state_at i s <> Modules.MODULE_STATE_UNLOADING ->
     Modules.state_at i (Modules.run c s) <> Modules.MODULE_STATE_UNLOADING).
Proof.
  intros Hget Hpin. split.
  - apply (ModulesFacts.unload_pinned _ _ _ Hget Hpin).
  - intros c. apply ModulesFacts.keeps_out_run. exact Hpin.
Qed.

(** C9 at the registry that holds the Core module [mod_core]. *)
Lemma C9_unload_refuses_pinned_module_witness :
  Modules.module_unload 1 Examples.modules_core = (false, Examples.modules_core) /\
  (forall c : Modules.call,
     Modules.state_at 0 Examples.modules_core <> Modules.MODULE_STATE_UNLOADING ->
     Modules.state_at 0 (Modules.run c Examples.modules_core)
       <> Modules.MODULE_STATE_UNLOADING).
Proof.
  apply (C9_unload_refuses_pinned_module Examples.modules_core 1 0).
  - vm_compute. reflexivity.
  - left. vm_compute. discriminate.
Defined.




(** ** Actor scheduler and messaging *)

(** C1, as stated, fails.  Actor 1 (priority Critical) and actor 2 (priority
    Low) have been created and started, in this order; both are Ready.
    [scheduler_select_next_actor] returns actor 2. *)
Lemma C1_counterexample : ~ Stated.selects_highest_priority Examples.sched_two.
Proof.
  intros H.
  assert (Hsel : Scheduler.scheduler_select_next_actor Examples.sched_two = Some 2%nat)
    by (vm_compute; reflexivity).
  assert (Hready : Stated.ready 1 Examples.sched_two).
  { split; [exists 1%nat|]; vm_compute; reflexivity. }
  specialize (H _ Hsel _ Hready). clear Hsel Hready. vm_compute in H.
  apply H. reflexivity.
Qed.

(** C1, amended.  [scheduler_select_next_actor] returns the head of the ready
    queue (no actor when the queue is empty).  The choice depends on nothing
    else: two scheduler states with the same ready-queue head, whatever the
    priorities, states and [last_scheduled] ticks of their actors, select
    the same actor. *)
Theorem C1_selection_is_head_of_ready_queue (s : Scheduler.scheduler_t) :
  Scheduler.scheduler_select_next_actor s = Scheduler.ready_queue s /\
  (forall s' : Scheduler.scheduler_t,
     Scheduler.ready_queue s' = Scheduler.ready_queue s ->
     Scheduler.scheduler_select_next_actor s' =
     Scheduler.scheduler_select_next_actor s).
Proof.
  assert (H : forall t, Scheduler.scheduler_select_next_actor t = Scheduler.ready_queue t).
  { intros t. unfold Scheduler.scheduler_select_next_actor.
    destruct (Scheduler.ready_queue t); reflexivity. }
  split; [apply H|]. intros s' Hs. rewrite !H. exact Hs.
Qed.

(** C5, as stated, fails.  The mailbox of actor 1 holds 64 messages, its
    capacity; a send of kind System to actor 1 returns false. *)
Lemma C5_counterexample : ~ Stated.system_bypasses_cap 1 None 0 0 Examples.sched_full.
Proof.
  intros H. specialize (H 1%nat).
  assert (H1 : Scheduler.actor_get 1 Examples.sched_full = Some 1%nat)
    by (vm_compute; reflexivity).
  assert (H2 : Z.of_nat (length (Scheduler.mailbox 1 Examples.sched_full)) =
               Scheduler.max_queue_size (Scheduler.actor_at 1 Examples.sched_full))
    by (vm_compute; reflexivity).
  specialize (H H1 H2). clear H1 H2. vm_compute in H. discriminate H.
Qed.

(** C5, amended.  A send to an actor whose message count has reached its
    capacity fails for every kind of message, kind System included: it
    returns false, and the mailbox of the recipient and its message count
    are what they were. *)
Theorem C5_full_mailbox_rejects_every_kind
  (s : Scheduler.scheduler_t) (recipient mtype : Z) (data : option (list Z))
  (size alloc : Z) (a : nat) :
  Scheduler.actor_get recipient s = Some a ->
  Scheduler.max_queue_size (Scheduler.actor_at a s) <=
    Scheduler.queue_size (Scheduler.actor_at a s) ->
  let r := Scheduler.message_send_async recipient mtype data size alloc s in
  fst r = false /\
  Scheduler.mailbox a (snd r) = Scheduler.mailbox a s /\
  Scheduler.queue_size (Scheduler.actor_at a (snd r)) =
    Scheduler.queue_size (Scheduler.actor_at a s).
Proof.
  intros Hget Hfull r.
  destruct (SchedulerFacts.send_async_full recipient mtype data size alloc s a
              Hget Hfull) as [Hf (Hq & _)].
  split; [exact Hf|]. specialize (Hq a). unfold Scheduler.mbox in Hq.
  injection Hq as H1 H2 _. split; assumption.
Qed.

(** C5 amended, at a send of kind System into the full mailbox of actor 1. *)
Lemma C5_full_mailbox_rejects_every_kind_witness :
  let r := Scheduler.message_send_async 1 Scheduler.MSG_TYPE_SYSTEM None 0 0
             Examples.sched_full in
  fst r = false /\
  Scheduler.mailbox 1 (snd r) = Scheduler.mailbox 1 Examples.sched_full /\
  Scheduler.queue_size (Scheduler.actor_at 1 (snd r)) =
    Scheduler.queue_size (Scheduler.actor_at 1 Examples.sched_full).
Proof.
  apply (C5_full_mailbox_rejects_every_kind Examples.sched_full 1
           Scheduler.MSG_TYPE_SYSTEM None 0 0 1).
  - vm_compute. reflexivity.
  - vm_compute. discriminate.
Defined.

(** C6.  In every reachable state the mailbox of every actor slot is no
    longer than its capacity.  A send to an actor whose mailbox holds as many
    messages as its capacity fails.  A send to an actor whose mailbox holds
    fewer messages than its capacity, one less in particular, succeeds,
    provided the scheduler is initialised, a message slot is free and the
    payload copy, if one is needed, could be allocated; the mailbox then
    holds one message more, as many as its capacity if it held one less. *)
Theorem C6_mailbox_within_capacity (s : Scheduler.scheduler_t) :
  Scheduler.reachable s ->
  (forall a : nat,
     Z.of_nat (length (Scheduler.mailbox a s)) <=
     Scheduler.max_queue_size (Scheduler.actor_at a s)) /\
  (forall (recipient mtype : Z) (data : option (list Z)) (size alloc : Z) (a : nat),
     Scheduler.actor_get recipient s = Some a ->
     Z.of_nat (length (Scheduler.mailbox a s)) =
       Scheduler.max_queue_size (Scheduler.actor_at a s) ->
     fst (Scheduler.message_send_async recipient mtype data size alloc s) = false) /\
  (forall (recipient mtype : Z) (data : option (list Z)) (size alloc : Z) (a : nat),
     Scheduler.actor_get recipient s = Some a ->
     Z.of_nat (length (Scheduler.mailbox a s)) <
       Scheduler.max_queue_size (Scheduler.actor_at a s) ->
     Scheduler.scheduler_initialized s = true ->
     (exists m, find_index negb (Scheduler.message_pool_used s) = Some m) ->
     alloc <> 0 \/ data = None \/ size <= 0 ->
     let r := Scheduler.message_send_async recipient mtype data size alloc s in
     fst r = true /\
     length (Scheduler.mailbox a (snd r)) = S (length (Scheduler.mailbox a s)) /\
     Scheduler.max_queue_size (Scheduler.actor_at a (snd r)) =
       Scheduler.max_queue_size (Scheduler.actor_at a s) /\
     (Z.of_nat (length (Scheduler.mailbox a s)) =
        Scheduler.max_queue_size (Scheduler.actor_at a s) - 1 ->
      Z.of_nat (length (Scheduler.mailbox a (snd r))) =
        Scheduler.max_queue_size (Scheduler.actor_at a (snd r)))).
Proof.
  intros Hreach. pose proof (SchedulerFacts.reachable_well_formed s Hreach) as Hwf.
  assert (Hcount : forall recipient a, Scheduler.actor_get recipient s = Some a ->
            Scheduler.queue_size (Scheduler.actor_at a s) =
            Z.of_nat (length (Scheduler.mailbox a s))).
  { intros recipient a Hget.
    destruct (SchedulerFacts.actor_get_slot _ _ _ Hwf Hget) as [_ Hlive].
    apply (Scheduler.wf_live s Hwf _ _ Hlive). }
  split; [|split].
  - intros a. destruct (Scheduler.wf_bounded s Hwf a) as (B1 & B2 & _).
    unfold Scheduler.mailbox. lia.
  - intros recipient mtype data size alloc a Hget Hlen.
    apply (SchedulerFacts.send_async_full recipient mtype data size alloc s a Hget).
    rewrite (Hcount _ _ Hget). lia.
  - intros recipient mtype data size alloc a Hget Hlen Hinit Hslot Halloc r.
    assert (Hroom : Scheduler.queue_size (Scheduler.actor_at a s) <
                    Scheduler.max_queue_size (Scheduler.actor_at a s))
      by (rewrite (Hcount _ _ Hget); lia).
    pose proof (SchedulerFacts.send_async_room recipient mtype data size alloc s a
                  Hinit Hget Hslot Halloc Hroom) as Hok.
    split; [exact Hok|].
    destruct (SchedulerFacts.send_async_cases recipient mtype data size alloc s)
      as [(Hf & _)|(_ & a' & m & _ & Hget' & _ & _ & Ht)].
    + fold r in Hf. unfold r in Hf. rewrite Hok in Hf. discriminate.
    + assert (a' = a) by congruence. subst a'.
      pose proof (SchedulerFacts.touches_self _ _ _ _ Ht) as Hself.
      unfold Scheduler.mbox, Scheduler.push in Hself. injection Hself as Hq _ Hc.
      unfold r, Scheduler.mailbox in *. rewrite Hq, Hc, length_app. cbn [length].
      split; [lia|]. split; [reflexivity|]. lia.
Qed.

(** C6 at the state in which the mailbox of actor 1 holds 63 of 64
    messages: no mailbox is over its capacity; the send to actor 1 succeeds
    and fills the mailbox; in the state with the full mailbox the next send
    fails. *)
Lemma C6_mailbox_within_capacity_witness :
  let s := Examples.sched_nearly_full in
  let r := Scheduler.message_send_async 1 Scheduler.MSG_TYPE_ASYNC None 0 0 s in
  (forall a : nat,
     Z.of_nat (length (Scheduler.mailbox a s)) <=
     Scheduler.max_queue_size (Scheduler.actor_at a s)) /\
  (length (Scheduler.mailbox 1 s) = 63%nat /\
   Scheduler.max_queue_size (Scheduler.actor_at 1 s) = 64 /\
   fst r = true /\
   Z.of_nat (length (Scheduler.mailbox 1 (snd r))) =
     Scheduler.max_queue_size (Scheduler.actor_at 1 (snd r)) /\
   length (Scheduler.mailbox 1 (snd r)) = 64%nat) /\
  (length (Scheduler.mailbox 1 Examples.sched_full) = 64%nat /\
   Scheduler.max_queue_size (Scheduler.actor_at 1 Examples.sched_full) = 64 /\
   fst (Scheduler.message_send_async 1 Scheduler.MSG_TYPE_ASYNC None 0 0
          Examples.sched_full) = false).
Proof.
  intros s r.
  assert (Hreach : Scheduler.reachable s).
  { apply (SchedulerFacts.reachable_run_all Examples.sched_nearly_full_calls
             Scheduler.boot_state Scheduler.reachable_boot).
    vm_compute. repeat split; discriminate. }
  assert (Hfull : Scheduler.reachable Examples.sched_full).
  { apply (SchedulerFacts.reachable_run_all Examples.sched_full_calls
             Scheduler.boot_state Scheduler.reachable_boot).
    vm_compute. repeat split; discriminate. }
  destruct (C6_mailbox_within_capacity s Hreach) as (Hcap & _ & Hroom).
  destruct (C6_mailbox_within_capacity Examples.sched_full Hfull) as (_ & Hrefuse & _).
  split; [exact Hcap|]. split.
  - destruct (Hroom 1 Scheduler.MSG_TYPE_ASYNC None 0 0 1%nat)
      as (Hok & _ & _ & Hlen).
    + vm_compute. reflexivity.
    + vm_compute. reflexivity.
    + vm_compute. reflexivity.
    + exists 63%nat. vm_compute. reflexivity.
    + right. left. reflexivity.
    + fold r in Hok, Hlen.
      split; [vm_compute; reflexivity|]. split; [vm_compute; reflexivity|].
      split; [exact Hok|]. split; [|vm_compute; reflexivity].
      apply Hlen. vm_compute. reflexivity.
  - split; [vm_compute; reflexivity|]. split; [vm_compute; reflexivity|].
    apply (Hrefuse 1 Scheduler.MSG_TYPE_ASYNC None 0 0 1%nat).
    + vm_compute. reflexivity.
    + vm_compute. reflexivity.
Defined.

(** C7.  Every mailbox is first in, first out.  Take a reachable state, an
    actor slot [a] in use, and any sequence of permitted interface calls of
    which none re-initialises the scheduler or terminates [a]; let [s'] be
    the state after the sequence.

    - The messages the sequence delivers to [a], in the order of delivery,
      followed by the messages left in the mailbox of [a], are the messages
      the mailbox held at the start followed by the messages of the
      successful sends to [a], in the order of the sends.
    - A receive delivers the oldest message: when [a] is the current actor
      in [s'] and its mailbox is not empty, [message_receive], and
      [message_wait] with any timeout, return the message at the head of the
      mailbox, take exactly that message out, and the delivery is booked to
      [a].
    - A successful send to [a] in [s'] puts its message behind every
      message the mailbox holds.

    Neither the kind nor the priority of a message enters. *)
Theorem C7_mailbox_is_fifo (s : Scheduler.scheduler_t) (a : nat)
  (tr : list Scheduler.call) :
  Scheduler.reachable s ->
  Scheduler.actor_pool_used s !! a = Some true ->
  Scheduler.permitted_all tr s ->
  Forall (fun c => Scheduler.resets a c = false) tr ->
  let s' := Scheduler.run_all tr s in
  Scheduler.delivered a tr s ++ Scheduler.mailbox a s' =
    Scheduler.mailbox a s ++ Scheduler.enqueued a tr s /\
  (forall (m : nat) (rest : list nat) (timeout_ms : Z),
     Scheduler.current_actor s' = Some a ->
     Scheduler.mailbox a s' = m :: rest ->
     fst (Scheduler.message_receive s') = Some m /\
     Scheduler.mailbox a (snd (Scheduler.message_receive s')) = rest /\
     Scheduler.delivers a Scheduler.CReceive s' = [m] /\
     fst (Scheduler.message_wait timeout_ms s') = Some m /\
     Scheduler.mailbox a (snd (Scheduler.message_wait timeout_ms s')) = rest /\
     Scheduler.delivers a (Scheduler.CWait timeout_ms) s' = [m]) /\
  (forall (recipient mtype : Z) (data : option (list Z)) (size alloc : Z) (m : nat),
     let c := Scheduler.CSendAsync recipient mtype data size alloc in
     Scheduler.enqueues a c s' = [m] ->
     Scheduler.mailbox a (snd (Scheduler.run c s')) = Scheduler.mailbox a s' ++ [m]).
Proof.
  intros Hreach Hused _ Hres s'.
  pose proof (SchedulerFacts.reachable_well_formed s Hreach) as Hwf.
  destruct (SchedulerFifo.used_run_all a tr s Hwf Hused Hres) as (Hwf' & Hused').
  fold s' in Hwf', Hused'.
  split; [apply SchedulerFacts.mailbox_trace; assumption|].
  split.
  - intros m rest timeout_ms Hc Hq.
    destruct (SchedulerFifo.receive_head a m rest s' Hc Hq) as (R1 & R2 & R3).
    assert (Hd : Scheduler.delivers a Scheduler.CReceive s' = [m]).
    { rewrite SchedulerFacts.delivers_receive, R1, R3. cbn [Scheduler.ptr_eqb].
      rewrite Nat.eqb_refl. reflexivity. }
    split; [exact R1|]. split; [exact R2|]. split; [exact Hd|].
    rewrite SchedulerFacts.delivers_wait.
    rewrite (SchedulerFifo.wait_head a m rest timeout_ms s' Hc Hq).
    split; [exact R1|]. split; [exact R2|].
    rewrite R1, R3. cbn [Scheduler.ptr_eqb]. rewrite Nat.eqb_refl. reflexivity.
  - intros recipient mtype data size alloc m c Hm.
    destruct (SchedulerFacts.mailbox_step a c s' Hwf' Hused' eq_refl) as [Hstep _].
    rewrite Hm in Hstep. exact Hstep.
Qed.

(** C7 at an exchange with actor 2.  Two messages of different kinds are
    sent to it and it is dispatched: the first receive returns the message
    sent first and leaves the other.  Over the whole exchange, with a third
    send between the two receptions, the messages are delivered in the order
    in which they were sent. *)
Lemma C7_mailbox_is_fifo_witness :
  let s := Examples.sched_two in
  let s1 := Scheduler.run_all (take 3 Examples.exchange) s in
  (Scheduler.enqueued 2 (take 3 Examples.exchange) s = [0; 1]%nat /\
   Scheduler.mailbox 2 s1 = [0; 1]%nat /\
   fst (Scheduler.message_receive s1) = Some 0%nat /\
   Scheduler.mailbox 2 (snd (Scheduler.message_receive s1)) = [1]%nat /\
   Scheduler.delivers 2 Scheduler.CReceive s1 = [0]%nat /\
   Scheduler.mailbox 2 (snd (Scheduler.run (Examples.send_to 2 Scheduler.MSG_TYPE_ASYNC) s1))
     = [0; 1; 2]%nat) /\
  (Scheduler.enqueued 2 Examples.exchange s = [0; 1; 2]%nat /\
   Scheduler.delivered 2 Examples.exchange s = [0; 1]%nat /\
   Scheduler.mailbox 2 (Scheduler.run_all Examples.exchange s) = [2]%nat /\
   Scheduler.delivered 2 Examples.exchange s ++
     Scheduler.mailbox 2 (Scheduler.run_all Examples.exchange s) =
   Scheduler.mailbox 2 s ++ Scheduler.enqueued 2 Examples.exchange s).
Proof.
  intros s s1.
  assert (Hreach : Scheduler.reachable s).
  { apply (SchedulerFacts.reachable_run_all Examples.sched_two_calls
             Scheduler.boot_state Scheduler.reachable_boot).
    vm_compute. repeat split; discriminate. }
  assert (Hused : Scheduler.actor_pool_used s !! 2%nat = Some true)
    by (vm_compute; reflexivity).
  split.
  - destruct (C7_mailbox_is_fifo s 2 (take 3 Examples.exchange) Hreach Hused)
      as (_ & Hhead & Htail).
    { vm_compute. repeat split; discriminate. }
    { unfold Examples.exchange, Examples.send_to. cbn [take]. repeat constructor. }
    assert (Hq : Scheduler.mailbox 2 s1 = [0; 1]%nat) by (vm_compute; reflexivity).
    destruct (Hhead 0%nat [1]%nat 0) as (R1 & R2 & R3 & _);
      [vm_compute; reflexivity | exact Hq |].
    split; [vm_compute; reflexivity|]. split; [exact Hq|].
    split; [exact R1|]. split; [exact R2|]. split; [exact R3|].
    change [0; 1; 2]%nat with ([0; 1] ++ [2])%nat. rewrite <- Hq.
    apply (Htail 2 Scheduler.MSG_TYPE_ASYNC None 0 0 2%nat).
    vm_compute. reflexivity.
  - destruct (C7_mailbox_is_fifo s 2 Examples.exchange Hreach Hused) as (Heq & _).
    { vm_compute. repeat split; discriminate. }
    { unfold Examples.exchange, Examples.send_to. repeat constructor. }
    split; [vm_compute; reflexivity|]. split; [vm_compute; reflexivity|].
    split; [vm_compute; reflexivity|]. exact Heq.
Defined.




(** * Further properties of the code *)

(** ** Sandbox engine: capabilities *)

Module SandboxMore.
Import Sandbox SandboxFacts.

(** Bit masks. *)
Lemma land_u32_lnot_diag (d c : Z) : Z.land (Z.land d (u32 (Z.lnot c))) c = 0.
Proof.
  unfold u32, wrap. rewrite <- Z.land_ones by lia.
  rewrite <- !Z.land_assoc, (Z.land_comm (Z.ones 32) c), (Z.land_assoc (Z.lnot c)).
  rewrite (Z.land_comm (Z.lnot c) c), Z.land_lnot_diag.
  rewrite Z.land_0_l, Z.land_0_r. reflexivity.
Qed.

Lemma land_lor_same (g c : Z) : Z.land (Z.lor g c) c = c.
Proof.
  apply Z.bits_inj'. intros n _. rewrite Z.land_spec, Z.lor_spec.
  destruct (Z.testbit g n), (Z.testbit c n); reflexivity.
Qed.

(** The sandbox a capability check looks at carries the masks it had before
    the check counters were bumped. *)
Lemma has_capability_result mid cap s i :
  sandboxing_find_sandbox_by_module mid s = Some i ->
  fst (sandboxing_has_capability mid cap s) =
  (Z.land (denied_capabilities (sandbox_at i s)) cap =? 0) &&
  negb (Z.land (capabilities (sandbox_at i s)) cap =? 0).
Proof.
  intros Hfind. destruct (find_found _ _ _ Hfind) as (Hinit & sb & Hsb & _ & _).
  unfold sandboxing_has_capability. rewrite Hinit, Hfind. cbn [negb]. cbv zeta.
  match goal with
  | |- context [sandbox_at i (set_total_capability_checks ?n ?t)] =>
      change (sandbox_at i (set_total_capability_checks n t)) with (sandbox_at i t)
  end.
  rewrite (sandbox_at_on_sandbox _ _ _ _ Hsb), (sandbox_at_lookup _ _ _ Hsb).
  cbn [denied_capabilities capabilities set_counters].
  destruct (Z.land (denied_capabilities sb) cap =? 0); cbn [negb andb fst];
    [|reflexivity].
  destruct (Z.land (capabilities sb) cap =? 0); reflexivity.
Qed.

(** A capability check that passes logs nothing. *)
Lemma has_capability_pass_log mid cap s :
  fst (sandboxing_has_capability mid cap s) = true ->
  total_violations (snd (sandboxing_has_capability mid cap s)) = total_violations s /\
  violation_log (snd (sandboxing_has_capability mid cap s)) = violation_log s.
Proof.
  unfold sandboxing_has_capability.
  destruct (negb (sandboxing_initialized s)); [split; reflexivity|].
  destruct (sandboxing_find_sandbox_by_module mid s) as [i|]; [|split; reflexivity].
  cbv zeta.
  match goal with
  | |- context [if negb (?d =? 0) then _ else _] => destruct (d =? 0)
  end; cbn [negb fst snd]; [|discriminate].
  match goal with
  | |- context [negb (?c =? 0)] => destruct (c =? 0)
  end; cbn [negb fst snd]; [discriminate|]. intros _. split; reflexivity.
Qed.

Lemma grant_spec mid cap s i :
  sandboxing_find_sandbox_by_module mid s = Some i ->
  sandboxing_grant_capability mid cap s =
  (0, on_sandbox i (fun sb =>
        set_caps (Z.lor (capabilities sb) cap)
                 (Z.land (denied_capabilities sb) (u32 (Z.lnot cap))) sb) s).
Proof.
  intros Hfind. destruct (find_found _ _ _ Hfind) as (Hinit & _).
  unfold sandboxing_grant_capability. rewrite Hinit, Hfind. reflexivity.
Qed.

Lemma revoke_spec mid cap s i :
  sandboxing_find_sandbox_by_module mid s = Some i ->
  sandboxing_revoke_capability mid cap s =
  (0, on_sandbox i (fun sb =>
        set_caps (Z.land (capabilities sb) (u32 (Z.lnot cap)))
                 (Z.lor (denied_capabilities sb) cap) sb) s).
Proof.
  intros Hfind. destruct (find_found _ _ _ Hfind) as (Hinit & _).
  unfold sandboxing_revoke_capability. rewrite Hinit, Hfind. reflexivity.
Qed.

Lemma keeps_binding_set_caps (g d : sandbox_context_t -> Z) :
  keeps_binding (fun sb => set_caps (g sb) (d sb) sb).
Proof. intros sb. split; reflexivity. Qed.

End SandboxMore.

(** X1.  Granting a capability makes the check for it pass, also when the
    capability had been revoked before.  For a module with a sandbox and a
    non-empty 32-bit mask [cap], [sandboxing_grant_capability] returns 0 and
    a following [sandboxing_has_capability] for [cap] returns true and logs
    no violation. *)
Theorem grant_capability_then_check_passes
  (s : Sandbox.sandboxing_system_state_t) (mid cap : Z) (i : nat) :
  Sandbox.sandboxing_find_sandbox_by_module mid s = Some i ->
  0 < cap < 2 ^ 32 ->
  let g := Sandbox.sandboxing_grant_capability mid cap s in
  let c := Sandbox.sandboxing_has_capability mid cap (snd g) in
  fst g = 0 /\ fst c = true /\
  Sandbox.total_violations (snd c) = Sandbox.total_violations s.
Proof.
  intros Hfind Hcap g c. subst g c.
  rewrite (SandboxMore.grant_spec _ _ _ _ Hfind). cbn [fst snd].
  destruct (SandboxFacts.find_found _ _ _ Hfind) as (_ & sb & Hsb & _ & _).
  set (f := fun sb0 : Sandbox.sandbox_context_t =>
              Sandbox.set_caps (Z.lor (Sandbox.capabilities sb0) cap)
                (Z.land (Sandbox.denied_capabilities sb0) (u32 (Z.lnot cap))) sb0).
  assert (Hfind' : Sandbox.sandboxing_find_sandbox_by_module mid
                     (Sandbox.on_sandbox i f s) = Some i).
  { rewrite SandboxFacts.find_on_sandbox; [exact Hfind|].
    intros x. split; reflexivity. }
  assert (Hpass : fst (Sandbox.sandboxing_has_capability mid cap
                         (Sandbox.on_sandbox i f s)) = true).
  { rewrite (SandboxMore.has_capability_result _ _ _ _ Hfind').
    rewrite (SandboxFacts.sandbox_at_on_sandbox _ _ _ _ Hsb). unfold f.
    cbn [Sandbox.denied_capabilities Sandbox.capabilities Sandbox.set_caps].
    rewrite SandboxMore.land_u32_lnot_diag, SandboxMore.land_lor_same.
    cbn [Z.eqb andb]. destruct (Z.eqb_spec cap 0); [lia | reflexivity]. }
  split; [reflexivity|]. split; [exact Hpass|].
  destruct (SandboxMore.has_capability_pass_log _ _ _ Hpass) as [-> _]. reflexivity.
Qed.

(** X1 at the User-level sandbox of module 1 and the capability to write
    files, which the User level lacks. *)
Lemma grant_capability_then_check_passes_witness :
  let s := Examples.sandbox_user in
  let g := Sandbox.sandboxing_grant_capability 1 Sandbox.CAP_FILESYSTEM_WRITE s in
  let c := Sandbox.sandboxing_has_capability 1 Sandbox.CAP_FILESYSTEM_WRITE (snd g) in
  fst g = 0 /\ fst c = true /\
  Sandbox.total_violations (snd c) = Sandbox.total_violations s.
Proof.
  apply (grant_capability_then_check_passes Examples.sandbox_user 1
           Sandbox.CAP_FILESYSTEM_WRITE 0).
  - vm_compute. reflexivity.
  - vm_compute. split; reflexivity.
Defined.

(** X2.  Revoking a capability makes the check for it fail, whatever had been
    granted.  For a module with a sandbox and a non-empty mask [cap],
    [sandboxing_revoke_capability] returns 0 and a following
    [sandboxing_has_capability] for [cap] returns false; with logging enabled
    the refusal is recorded as the last violation: kind Capability, the
    module, the mask asked for. *)
Theorem revoke_capability_then_check_fails
  (s : Sandbox.sandboxing_system_state_t) (mid cap : Z) (i : nat) :
  Sandbox.sandboxing_find_sandbox_by_module mid s = Some i ->
  cap <> 0 ->
  let r := Sandbox.sandboxing_revoke_capability mid cap s in
  let c := Sandbox.sandboxing_has_capability mid cap (snd r) in
  fst r = 0 /\ fst c = false /\
  (Sandbox.logging_enabled s = true ->
   Sandbox.total_violations (snd c) = u64 (Sandbox.total_violations s + 1) /\
   (forall e, Sandbox.violation_log (snd c) !! Z.to_nat (Sandbox.violation_index s)
                = Some e ->
      Sandbox.v_module_id e = mid /\
      Sandbox.violation_type e = Sandbox.VIOLATION_CAPABILITY /\
      Sandbox.attempted_capability e = cap)).
Proof.
  intros Hfind Hcap r c. subst r c.
  rewrite (SandboxMore.revoke_spec _ _ _ _ Hfind). cbn [fst snd].
  destruct (SandboxFacts.find_found _ _ _ Hfind) as (Hinit & sb & Hsb & _ & _).
  set (f := fun sb0 : Sandbox.sandbox_context_t =>
              Sandbox.set_caps (Z.land (Sandbox.capabilities sb0) (u32 (Z.lnot cap)))
                (Z.lor (Sandbox.denied_capabilities sb0) cap) sb0).
  assert (Hfind' : Sandbox.sandboxing_find_sandbox_by_module mid
                     (Sandbox.on_sandbox i f s) = Some i).
  { rewrite SandboxFacts.find_on_sandbox; [exact Hfind|].
    intros x. split; reflexivity. }
  split; [reflexivity|].
  assert (Hden : (Z.land (Sandbox.denied_capabilities
                            (Sandbox.sandbox_at i (Sandbox.on_sandbox i f s))) cap =? 0)
                 = false).
  { rewrite (SandboxFacts.sandbox_at_on_sandbox _ _ _ _ Hsb). unfold f.
    cbn [Sandbox.denied_capabilities Sandbox.set_caps].
    rewrite SandboxMore.land_lor_same. apply Z.eqb_neq. exact Hcap. }
  split.
  - rewrite (SandboxMore.has_capability_result _ _ _ _ Hfind'), Hden. reflexivity.
  - intros Hlog. unfold Sandbox.sandboxing_has_capability.
    change (Sandbox.sandboxing_initialized (Sandbox.on_sandbox i f s))
      with (Sandbox.sandboxing_initialized s).
    rewrite Hinit, Hfind'. cbn [negb]. cbv zeta.
    set (s1 := Sandbox.on_sandbox i _ (Sandbox.on_sandbox i f s)).
    set (s2 := Sandbox.set_total_capability_checks _ s1).
    assert (Hden2 : (Z.land (Sandbox.denied_capabilities (Sandbox.sandbox_at i s2)) cap
                     =? 0) = false).
    { change (Sandbox.sandbox_at i s2) with (Sandbox.sandbox_at i s1). unfold s1.
      rewrite (SandboxFacts.sandbox_at_on_sandbox _ _ _ (f sb)).
      - rewrite <- Hden, (SandboxFacts.sandbox_at_on_sandbox _ _ _ _ Hsb). reflexivity.
      - apply SandboxFacts.lookup_on_sandbox. exact Hsb. }
    rewrite Hden2. cbn [negb snd].
    unfold Sandbox.sandboxing_log_violation.
    change (Sandbox.logging_enabled s2) with (Sandbox.logging_enabled s).
    rewrite Hlog. cbn [negb]. cbv zeta.
    cbn [Sandbox.total_violations Sandbox.violation_log Sandbox.set_violation_log].
    split; [reflexivity|]. intros e He.
    change (Sandbox.violation_index s2) with (Sandbox.violation_index s) in He.
    change (Sandbox.violation_log s2) with (Sandbox.violation_log s) in He.
    assert (Hlt : (Z.to_nat (Sandbox.violation_index s)
                   < length (Sandbox.violation_log s))%nat).
    { apply lookup_lt_Some in He. rewrite length_insert in He. exact He. }
    rewrite list_lookup_insert_eq in He by exact Hlt.
    injection He as <-. repeat split.
Qed.

(** X2 at the User-level sandbox of module 1 and the capability to write to
    the screen, which the User level has. *)
Lemma revoke_capability_then_check_fails_witness :
  let s := Examples.sandbox_user in
  let r := Sandbox.sandboxing_revoke_capability 1 Sandbox.CAP_VGA_WRITE s in
  let c := Sandbox.sandboxing_has_capability 1 Sandbox.CAP_VGA_WRITE (snd r) in
  fst r = 0 /\ fst c = false /\
  (Sandbox.logging_enabled s = true ->
   Sandbox.total_violations (snd c) = u64 (Sandbox.total_violations s + 1) /\
   (forall e, Sandbox.violation_log (snd c) !! Z.to_nat (Sandbox.violation_index s)
                = Some e ->
      Sandbox.v_module_id e = 1 /\
      Sandbox.violation_type e = Sandbox.VIOLATION_CAPABILITY /\
      Sandbox.attempted_capability e = Sandbox.CAP_VGA_WRITE)).
Proof.
  apply (revoke_capability_then_check_fails Examples.sandbox_user 1
           Sandbox.CAP_VGA_WRITE 0).
  - vm_compute. reflexivity.
  - vm_compute. discriminate.
Defined.

(** X3.  A capability check passes exactly when none of the requested bits
    is denied and at least one of them is granted: for a mask of several
    capabilities it is enough that the module holds one of them. *)
Theorem has_capability_needs_one_granted_bit
  (s : Sandbox.sandboxing_system_state_t) (mid cap : Z) (i : nat) :
  Sandbox.sandboxing_find_sandbox_by_module mid s = Some i ->
  (fst (Sandbox.sandboxing_has_capability mid cap s) = true <->
   Z.land (Sandbox.denied_capabilities (Sandbox.sandbox_at i s)) cap = 0 /\
   Z.land (Sandbox.capabilities (Sandbox.sandbox_at i s)) cap <> 0).
Proof.
  intros Hfind. rewrite (SandboxMore.has_capability_result _ _ _ _ Hfind).
  rewrite andb_true_iff, negb_true_iff, Z.eqb_eq, Z.eqb_neq. reflexivity.
Qed.

(** X3 at the User-level sandbox of module 1: the mask asking for both the
    screen and the file system passes on the strength of the screen alone. *)
Lemma has_capability_needs_one_granted_bit_witness :
  fst (Sandbox.sandboxing_has_capability 1
         (Z.lor Sandbox.CAP_VGA_WRITE Sandbox.CAP_FILESYSTEM_WRITE)
         Examples.sandbox_user) = true <->
  Z.land (Sandbox.denied_capabilities (Sandbox.sandbox_at 0 Examples.sandbox_user))
    (Z.lor Sandbox.CAP_VGA_WRITE Sandbox.CAP_FILESYSTEM_WRITE) = 0 /\
  Z.land (Sandbox.capabilities (Sandbox.sandbox_at 0 Examples.sandbox_user))
    (Z.lor Sandbox.CAP_VGA_WRITE Sandbox.CAP_FILESYSTEM_WRITE) <> 0.
Proof.
  apply (has_capability_needs_one_granted_bit Examples.sandbox_user 1
           (Z.lor Sandbox.CAP_VGA_WRITE Sandbox.CAP_FILESYSTEM_WRITE) 0).
  vm_compute. reflexivity.
Defined.

(** ** Sandbox engine: creating and destroying sandboxes *)

Module SandboxLife.
Import Sandbox SandboxFacts SandboxSpec.

Lemma find_index_intro {A : Type} (p : A -> bool) (l : list A) i x :
  l !! i = Some x -> p x = true ->
  (forall j y, (j < i)%nat -> l !! j = Some y -> p y = false) ->
  find_index p l = Some i.
Proof.
  revert i. induction l as [|a l IH]; intros i Hi Hp Hbefore; [discriminate|].
  destruct i as [|i]; cbn [find_index].
  - injection Hi as ->. rewrite Hp. reflexivity.
  - rewrite (Hbefore 0%nat a) by (try lia; reflexivity).
    rewrite (IH i Hi Hp); [reflexivity|].
    intros j y Hj Hy. apply (Hbefore (S j) y); [lia | exact Hy].
Qed.

Lemma find_index_None_intro {A : Type} (p : A -> bool) (l : list A) :
  (forall j y, l !! j = Some y -> p y = false) -> find_index p l = None.
Proof.
  induction l as [|a l IH]; intros H; [reflexivity|]. cbn [find_index].
  rewrite (H 0%nat a) by reflexivity. rewrite IH; [reflexivity|].
  intros j y Hy. apply (H (S j) y). exact Hy.
Qed.

(** An update of a slot the test rejects before and after is invisible to
    the search. *)
Lemma find_index_update_at_false {A : Type} (p : A -> bool) (f : A -> A) (l : list A) i x :
  l !! i = Some x -> p x = false -> p (f x) = false ->
  find_index p (update_at i f l) = find_index p l.
Proof.
  intros Hi Hx Hfx. unfold update_at. rewrite Hi. revert i Hi.
  induction l as [|a l IH]; intros i Hi; [discriminate|].
  destruct i as [|i]; cbn [find_index].
  - injection Hi as ->. cbn [insert list_insert find_index]. rewrite Hx, Hfx. reflexivity.
  - cbn [insert list_insert find_index]. destruct (p a); [reflexivity|].
    f_equal. apply (IH i Hi).
Qed.

Lemma apply_limits_spec mid ls s i :
  sandboxing_find_sandbox_by_module mid s = Some i ->
  Forall (fun rl => fst rl < MAX_RESOURCE_LIMITS) ls ->
  apply_limits mid ls s =
  on_sandbox i (fun sb =>
    set_limits (fold_left (fun l rl => put_limit (fst rl) (snd rl) l) ls (limits sb)) sb) s.
Proof.
  intros Hfind Hls. revert s Hfind.
  induction Hls as [|rl ls Hrl _ IH]; intros s Hfind.
  - destruct (find_found _ _ _ Hfind) as (_ & sb & Hsb & _).
    cbn [apply_limits fold_left]. symmetry. apply (on_sandbox_id _ _ _ _ Hsb).
    apply set_limits_id.
  - change (apply_limits mid (rl :: ls) s)
      with (apply_limits mid ls
              (snd (sandboxing_set_resource_limit mid (fst rl) (snd rl) s))).
    cbn [fold_left].
    rewrite (set_resource_limit_spec _ _ _ _ _ Hfind Hrl).
    rewrite IH.
    + rewrite on_sandbox_on_sandbox. reflexivity.
    + rewrite find_on_sandbox by apply keeps_binding_put_limit. exact Hfind.
Qed.

Lemma default_limits_small level :
  Forall (fun rl => fst rl < MAX_RESOURCE_LIMITS) (default_limits level).
Proof.
  unfold default_limits.
  repeat match goal with |- context [if ?b then _ else _] => destruct b end;
    repeat constructor.
Qed.

(** What a successful [sandboxing_create_sandbox] makes of the slot it
    takes. *)
Lemma create_sandbox_success mid level s i :
  sandboxing_initialized s = true ->
  sandbox_count s < MAX_SANDBOXES ->
  level <= SANDBOX_LEVEL_QUARANTINE ->
  sandboxing_find_sandbox_by_module mid s = None ->
  find_index (fun sb => negb (active sb)) (sandboxes s) = Some i ->
  exists sbf,
    sandboxing_create_sandbox mid level s =
    (to_int32 (next_sandbox_id s),
     set_sandbox_ids (u32 (sandbox_count s + 1)) (u32 (next_sandbox_id s + 1))
       (on_sandbox i (fun _ => sbf) s)) /\
    active sbf = true /\ module_id sbf = mid /\ sandbox_id sbf = next_sandbox_id s /\
    security_level sbf = level /\
    capabilities sbf = default 0 (default_capabilities s !! Z.to_nat level) /\
    denied_capabilities sbf = 0 /\ violations sbf = 0 /\ vm_enabled sbf = false /\
    limits sbf = fresh_limits level.
Proof.
  intros Hinit Hcount Hlevel Hnone Hfree.
  destruct (find_index_Some _ _ _ Hfree) as (sb0 & Hsb0 & Hinactive).
  unfold sandboxing_create_sandbox. rewrite Hinit, Hnone, Hfree. cbn [negb].
  destruct (Z.leb_spec MAX_SANDBOXES (sandbox_count s)) as [|_]; [lia|].
  destruct (Z.ltb_spec SANDBOX_LEVEL_QUARANTINE level) as [|_]; [lia|].
  cbv zeta.
  match goal with
  | |- context [apply_limits mid (default_limits level) (on_sandbox i ?f ?t)] =>
      set (init := f); set (s1 := t)
  end.
  assert (Hsb1 : sandboxes s1 !! i = Some sb0) by exact Hsb0.
  assert (Hfind2 : sandboxing_find_sandbox_by_module mid (on_sandbox i init s1) = Some i).
  { rewrite find_unfold.
    change (sandboxing_initialized (on_sandbox i init s1)) with (sandboxing_initialized s).
    rewrite Hinit. cbn [negb].
    apply (find_index_intro _ _ _ (init sb0)).
    - apply lookup_on_sandbox. exact Hsb1.
    - unfold bound_to, init. cbn [active module_id]. rewrite Z.eqb_refl. reflexivity.
    - intros j y Hj Hy.
      change (sandboxes (on_sandbox i init s1)) with (update_at i init (sandboxes s)) in Hy.
      rewrite update_at_lookup_ne in Hy by lia.
      rewrite find_unfold, Hinit in Hnone. cbn [negb] in Hnone.
      apply (find_index_None _ _ _ _ Hnone Hy). }
  rewrite (apply_limits_spec _ _ _ _ Hfind2 (default_limits_small level)).
  rewrite !on_sandbox_on_sandbox.
  match goal with
  | |- context [on_sandbox i ?f s1] => set (F := f)
  end.
  exists (F sb0). split.
  - rewrite (on_sandbox_ext i F (fun _ => F sb0) s1 sb0 Hsb1 eq_refl).
    reflexivity.
  - unfold F, init. cbn. repeat split.
Qed.

End SandboxLife.

(** X4.  A sandbox that has been created is found.  With the engine
    initialised, fewer than 32 sandboxes, a level up to Quarantine, no
    sandbox bound to the module and [i] the first inactive slot,
    [sandboxing_create_sandbox] returns the sandbox id it assigned, the
    lookup by module then yields slot [i], and the sandbox there has the
    requested level, the default capability mask of that level, no denied
    capability, a violation count of 0 and the default limits of the level.
    The lookup of every other module is as before. *)
Theorem create_sandbox_then_find
  (s : Sandbox.sandboxing_system_state_t) (mid level : Z) (i : nat) :
  Sandbox.sandboxing_initialized s = true ->
  Sandbox.sandbox_count s < Sandbox.MAX_SANDBOXES ->
  level <= Sandbox.SANDBOX_LEVEL_QUARANTINE ->
  Sandbox.sandboxing_find_sandbox_by_module mid s = None ->
  find_index (fun sb => negb (Sandbox.active sb)) (Sandbox.sandboxes s) = Some i ->
  let r := Sandbox.sandboxing_create_sandbox mid level s in
  let sb := Sandbox.sandbox_at i (snd r) in
  fst r = to_int32 (Sandbox.next_sandbox_id s) /\
  Sandbox.sandboxing_find_sandbox_by_module mid (snd r) = Some i /\
  Sandbox.security_level sb = level /\
  Sandbox.capabilities sb =
    default 0 (Sandbox.default_capabilities s !! Z.to_nat level) /\
  Sandbox.denied_capabilities sb = 0 /\
  Sandbox.violations sb = 0 /\
  Sandbox.limits sb = SandboxSpec.fresh_limits level /\
  (forall m, m <> mid ->
     Sandbox.sandboxing_find_sandbox_by_module m (snd r) =
     Sandbox.sandboxing_find_sandbox_by_module m s).
Proof.
  intros Hinit Hcount Hlevel Hnone Hfree r sb. subst r sb.
  destruct (SandboxLife.create_sandbox_success mid level s i Hinit Hcount Hlevel
              Hnone Hfree)
    as (sbf & -> & Hact & Hmid & _ & Hlv & Hcaps & Hden & Hviol & _ & Hlim).
  destruct (find_index_Some _ _ _ Hfree) as (sb0 & Hsb0 & Hinactive).
  cbn [fst snd].
  change (Sandbox.sandbox_at i (Sandbox.set_sandbox_ids ?c ?n ?t))
    with (Sandbox.sandbox_at i t).
  rewrite (SandboxFacts.sandbox_at_on_sandbox _ _ _ _ Hsb0).
  assert (Hfind : forall m,
            Sandbox.sandboxing_find_sandbox_by_module m
              (Sandbox.set_sandbox_ids (u32 (Sandbox.sandbox_count s + 1))
                 (u32 (Sandbox.next_sandbox_id s + 1))
                 (Sandbox.on_sandbox i (fun _ => sbf) s)) =
            find_index (Sandbox.bound_to m)
              (update_at i (fun _ => sbf) (Sandbox.sandboxes s))).
  { intros m. rewrite SandboxFacts.find_unfold.
    change (Sandbox.sandboxing_initialized (Sandbox.set_sandbox_ids _ _ _))
      with (Sandbox.sandboxing_initialized s).
    rewrite Hinit. reflexivity. }
  rewrite SandboxFacts.find_unfold, Hinit in Hnone. cbn [negb] in Hnone.
  repeat split; try assumption.
  - rewrite Hfind. apply (SandboxLife.find_index_intro _ _ _ sbf).
    + apply (update_at_lookup_eq i (fun _ => sbf) _ sb0 Hsb0).
    + unfold Sandbox.bound_to. rewrite Hact, Hmid, Z.eqb_refl. reflexivity.
    + intros j y Hj Hy. rewrite update_at_lookup_ne in Hy by lia.
      apply (find_index_None _ _ _ _ Hnone Hy).
  - intros m Hm. rewrite Hfind, SandboxFacts.find_unfold, Hinit. cbn [negb].
    apply (SandboxLife.find_index_update_at_false _ _ _ _ sb0 Hsb0).
    + unfold Sandbox.bound_to. apply negb_true_iff in Hinactive.
      rewrite Hinactive. reflexivity.
    + unfold Sandbox.bound_to. rewrite Hmid.
      destruct (Z.eqb_spec mid m); [congruence|]. apply andb_false_r.
Qed.

(** X4 at the creation of an Untrusted sandbox for module 2 beside the
    sandbox of module 1. *)
Lemma create_sandbox_then_find_witness :
  let s := Examples.sandbox_user in
  let r := Sandbox.sandboxing_create_sandbox 2 Sandbox.SANDBOX_LEVEL_UNTRUSTED s in
  let sb := Sandbox.sandbox_at 1 (snd r) in
  fst r = to_int32 (Sandbox.next_sandbox_id s) /\
  Sandbox.sandboxing_find_sandbox_by_module 2 (snd r) = Some 1%nat /\
  Sandbox.security_level sb = Sandbox.SANDBOX_LEVEL_UNTRUSTED /\
  Sandbox.capabilities sb =
    default 0 (Sandbox.default_capabilities s
                 !! Z.to_nat Sandbox.SANDBOX_LEVEL_UNTRUSTED) /\
  Sandbox.denied_capabilities sb = 0 /\
  Sandbox.violations sb = 0 /\
  Sandbox.limits sb = SandboxSpec.fresh_limits Sandbox.SANDBOX_LEVEL_UNTRUSTED /\
  (forall m, m <> 2 ->
     Sandbox.sandboxing_find_sandbox_by_module m (snd r) =
     Sandbox.sandboxing_find_sandbox_by_module m s).
Proof.
  apply (create_sandbox_then_find Examples.sandbox_user 2
           Sandbox.SANDBOX_LEVEL_UNTRUSTED 1).
  - vm_compute. reflexivity.
  - vm_compute. reflexivity.
  - vm_compute. discriminate.
  - vm_compute. reflexivity.
  - vm_compute. reflexivity.
Defined.

Module SandboxLife2.
Import Sandbox SandboxFacts SandboxSpec SandboxLife.

Lemma find_after_create mid level s i :
  sandboxing_initialized s = true ->
  sandbox_count s < MAX_SANDBOXES ->
  level <= SANDBOX_LEVEL_QUARANTINE ->
  sandboxing_find_sandbox_by_module mid s = None ->
  find_index (fun sb => negb (active sb)) (sandboxes s) = Some i ->
  let s' := snd (sandboxing_create_sandbox mid level s) in
  sandboxing_initialized s' = true /\
  sandboxing_find_sandbox_by_module mid s' = Some i.
Proof.
  intros Hinit Hcount Hlevel Hnone Hfree s'. subst s'.
  destruct (create_sandbox_success mid level s i Hinit Hcount Hlevel Hnone Hfree)
    as (sbf & -> & Hact & Hmid & _).
  destruct (find_index_Some _ _ _ Hfree) as (sb0 & Hsb0 & _).
  cbn [snd]. split; [exact Hinit|]. rewrite find_unfold.
  change (sandboxing_initialized (set_sandbox_ids _ _ _)) with (sandboxing_initialized s).
  rewrite Hinit. cbn [negb].
  rewrite find_unfold, Hinit in Hnone. cbn [negb] in Hnone.
  apply (find_index_intro _ _ _ sbf).
  - apply (update_at_lookup_eq i (fun _ => sbf) _ sb0 Hsb0).
  - unfold bound_to. rewrite Hact, Hmid, Z.eqb_refl. reflexivity.
  - intros j y Hj Hy.
    change (sandboxes (set_sandbox_ids _ _ (on_sandbox i (fun _ => sbf) s)))
      with (update_at i (fun _ => sbf) (sandboxes s)) in Hy.
    rewrite update_at_lookup_ne in Hy by lia.
    apply (find_index_None _ _ _ _ Hnone Hy).
Qed.

Section Destroy.

Variable sandboxing_disable_vm :
  Z -> sandboxing_system_state_t -> Z * sandboxing_system_state_t.

Lemma destroy_spec sid s j :
  consistent s ->
  sandboxing_initialized s = true ->
  find_index (fun sb => active sb && (sandbox_id sb =? sid)) (sandboxes s) = Some j ->
  sandboxing_destroy_sandbox sandboxing_disable_vm sid s =
  (0, set_sandbox_ids (u32 (sandbox_count s - 1)) (next_sandbox_id s)
        (on_sandbox j (set_active false) s)).
Proof.
  intros Hcons Hinit Hj. unfold sandboxing_destroy_sandbox. rewrite Hinit, Hj.
  cbn [negb]. cbv zeta.
  destruct (find_index_Some _ _ _ Hj) as (sbj & Hsbj & _).
  rewrite (sandbox_at_lookup _ _ _ Hsbj).
  pose proof (cons_vm s Hcons) as Hvm. rewrite Forall_lookup in Hvm.
  rewrite (Hvm _ _ Hsbj). reflexivity.
Qed.

End Destroy.

End SandboxLife2.

(** X5.  No module gets a second sandbox.  After a successful
    [sandboxing_create_sandbox] for a module, a further call for the same
    module, at whatever level, returns one of the error codes -2, -3, -4 and
    changes nothing. *)
Theorem create_sandbox_twice_refused
  (s : Sandbox.sandboxing_system_state_t) (mid level level' : Z) (i : nat) :
  Sandbox.sandboxing_initialized s = true ->
  Sandbox.sandbox_count s < Sandbox.MAX_SANDBOXES ->
  level <= Sandbox.SANDBOX_LEVEL_QUARANTINE ->
  Sandbox.sandboxing_find_sandbox_by_module mid s = None ->
  find_index (fun sb => negb (Sandbox.active sb)) (Sandbox.sandboxes s) = Some i ->
  let s1 := snd (Sandbox.sandboxing_create_sandbox mid level s) in
  let r := Sandbox.sandboxing_create_sandbox mid level' s1 in
  snd r = s1 /\ (fst r = -2 \/ fst r = -3 \/ fst r = -4).
Proof.
  intros Hinit Hcount Hlevel Hnone Hfree s1 r.
  destruct (SandboxLife2.find_after_create mid level s i Hinit Hcount Hlevel Hnone Hfree)
    as [Hinit1 Hfind1].
  fold s1 in Hinit1, Hfind1. subst r. clearbody s1.
  unfold Sandbox.sandboxing_create_sandbox. rewrite Hinit1, Hfind1. cbn [negb].
  destruct (Sandbox.MAX_SANDBOXES <=? Sandbox.sandbox_count s1);
    [split; [reflexivity | left; reflexivity]|].
  destruct (Sandbox.SANDBOX_LEVEL_QUARANTINE <? level');
    split; try reflexivity; [right; left | right; right]; reflexivity.
Qed.

(** X5 at a second sandbox for module 2, asked for at the Trusted level. *)
Lemma create_sandbox_twice_refused_witness :
  let s1 := snd (Sandbox.sandboxing_create_sandbox 2 Sandbox.SANDBOX_LEVEL_UNTRUSTED
                   Examples.sandbox_user) in
  let r := Sandbox.sandboxing_create_sandbox 2 Sandbox.SANDBOX_LEVEL_TRUSTED s1 in
  snd r = s1 /\ (fst r = -2 \/ fst r = -3 \/ fst r = -4).
Proof.
  apply (create_sandbox_twice_refused Examples.sandbox_user 2
           Sandbox.SANDBOX_LEVEL_UNTRUSTED Sandbox.SANDBOX_LEVEL_TRUSTED 1).
  - vm_compute. reflexivity.
  - vm_compute. reflexivity.
  - vm_compute. discriminate.
  - vm_compute. reflexivity.
  - vm_compute. reflexivity.
Defined.

(** X6.  A sandbox that has been destroyed is no longer found.  In a
    reachable state of the initialised engine, when slot [j] is the first
    active sandbox with id [sid], [sandboxing_destroy_sandbox] returns 0, the
    module of that sandbox has no sandbox afterwards, the sandbox count has
    dropped by one, and the lookup of every other module is as before. *)
Theorem destroy_sandbox_then_find
  (sandboxing_disable_vm :
     Z -> Sandbox.sandboxing_system_state_t -> Z * Sandbox.sandboxing_system_state_t)
  (s : Sandbox.sandboxing_system_state_t) (sid : Z) (j : nat) :
  Sandbox.reachable sandboxing_disable_vm s ->
  Sandbox.sandboxing_initialized s = true ->
  find_index (fun sb => Sandbox.active sb && (Sandbox.sandbox_id sb =? sid))
    (Sandbox.sandboxes s) = Some j ->
  let r := Sandbox.sandboxing_destroy_sandbox sandboxing_disable_vm sid s in
  let mid := Sandbox.module_id (Sandbox.sandbox_at j s) in
  fst r = 0 /\
  Sandbox.sandboxing_find_sandbox_by_module mid (snd r) = None /\
  Sandbox.sandbox_count (snd r) = u32 (Sandbox.sandbox_count s - 1) /\
  (forall m, m <> mid ->
     Sandbox.sandboxing_find_sandbox_by_module m (snd r) =
     Sandbox.sandboxing_find_sandbox_by_module m s).
Proof.
  intros Hreach Hinit Hj r mid. subst r mid.
  pose proof (SandboxFacts.reachable_consistent _ _ Hreach) as Hcons.
  rewrite (SandboxLife2.destroy_spec sandboxing_disable_vm sid s j Hcons Hinit Hj).
  destruct (find_index_Some _ _ _ Hj) as (sbj & Hsbj & Hpj).
  apply andb_true_iff in Hpj as [Hactj _].
  rewrite (SandboxFacts.sandbox_at_lookup _ _ _ Hsbj). cbn [fst snd].
  assert (Hfind : forall m,
            Sandbox.sandboxing_find_sandbox_by_module m
              (Sandbox.set_sandbox_ids (u32 (Sandbox.sandbox_count s - 1))
                 (Sandbox.next_sandbox_id s)
                 (Sandbox.on_sandbox j (Sandbox.set_active false) s)) =
            find_index (Sandbox.bound_to m)
              (update_at j (Sandbox.set_active false) (Sandbox.sandboxes s))).
  { intros m. rewrite SandboxFacts.find_unfold.
    change (Sandbox.sandboxing_initialized (Sandbox.set_sandbox_ids _ _ _))
      with (Sandbox.sandboxing_initialized s).
    rewrite Hinit. reflexivity. }
  split; [reflexivity|]. split; [|split; [reflexivity|]].
  - rewrite Hfind. apply SandboxLife.find_index_None_intro. intros k y Hy.
    rewrite update_at_lookup in Hy. destruct (decide (j = k)) as [<-|Hne].
    + rewrite Hsbj in Hy. injection Hy as <-. reflexivity.
    + unfold Sandbox.bound_to.
      destruct (Sandbox.active y) eqn:Hact; [|reflexivity].
      destruct (Z.eqb_spec (Sandbox.module_id y) (Sandbox.module_id sbj)) as [Heq|];
        [|reflexivity].
      exfalso. apply Hne. symmetry.
      apply (Sandbox.cons_unique s Hcons k j y sbj Hy Hsbj Hact Hactj Heq).
  - intros m Hm. rewrite Hfind, SandboxFacts.find_unfold, Hinit. cbn [negb].
    unfold Sandbox.bound_to at 1.
    apply (SandboxLife.find_index_update_at_false _ _ _ _ sbj Hsbj).
    + destruct (Z.eqb_spec (Sandbox.module_id sbj) m); [congruence|].
      apply andb_false_r.
    + reflexivity.
Qed.

(** X6 at the destruction of the sandbox of module 1. *)
Lemma destroy_sandbox_then_find_witness :
  let s := Examples.sandbox_user in
  let r := Sandbox.sandboxing_destroy_sandbox Examples.no_vm 1 s in
  let mid := Sandbox.module_id (Sandbox.sandbox_at 0 s) in
  fst r = 0 /\
  Sandbox.sandboxing_find_sandbox_by_module mid (snd r) = None /\
  Sandbox.sandbox_count (snd r) = u32 (Sandbox.sandbox_count s - 1) /\
  (forall m, m <> mid ->
     Sandbox.sandboxing_find_sandbox_by_module m (snd r) =
     Sandbox.sandboxing_find_sandbox_by_module m s).
Proof.
  apply (destroy_sandbox_then_find Examples.no_vm Examples.sandbox_user 1 0).
  - unfold Examples.sandbox_user, Examples.sandbox_ready.
    repeat (apply Sandbox.reachable_step;
            [| vm_compute; repeat split; discriminate]).
    apply Sandbox.reachable_boot.
  - vm_compute. reflexivity.
  - vm_compute. reflexivity.
Defined.

(** ** Sandbox engine: the violation log *)

Module SandboxLog.
Import Sandbox SandboxFacts SandboxSpec.

Lemma log_ring_frame s s' :
  violation_log s' = violation_log s ->
  violation_index s' = violation_index s ->
  violation_count s' = violation_count s ->
  log_ring s -> log_ring s'.
Proof. unfold log_ring. intros -> -> ->. intros H; exact H. Qed.

Lemma log_ring_log_violation mid vtype cap desc s :
  log_ring s -> log_ring (sandboxing_log_violation mid vtype cap desc s).
Proof.
  intros (Hlen & Hidx & Hcnt). unfold sandboxing_log_violation.
  destruct (negb (logging_enabled s)); [repeat split; assumption || apply Hidx || apply Hcnt|].
  cbv zeta. unfold log_ring.
  cbn [violation_log violation_index violation_count set_violation_log].
  rewrite length_insert. split; [exact Hlen|]. unfold MAX_VIOLATION_LOG in *. split.
  - apply Z.mod_pos_bound. lia.
  - destruct (Z.ltb_spec (violation_count s) 100).
    + rewrite u32_small by lia. lia.
    + lia.
Qed.

(** Peel one layer off a state that differs from a state below it in fields
    the log does not live in, or by one logged violation. *)
Ltac ring_step :=
  match goal with
  | H : log_ring ?s |- log_ring ?s => exact H
  | |- log_ring (sandboxing_log_violation _ _ _ _ _) => apply log_ring_log_violation
  | |- log_ring (snd (_, _)) => cbn [snd]
  | |- log_ring (snd (if ?b then _ else _)) => destruct b
  | |- log_ring (if ?b then _ else _) => destruct b
  | |- log_ring (snd (match ?x with _ => _ end)) => destruct x
  | |- log_ring (match ?x with _ => _ end) => destruct x
  | |- log_ring (on_sandbox _ _ ?t) => apply (log_ring_frame t); [reflexivity..|]
  | |- log_ring (set_total_capability_checks _ ?t) =>
      apply (log_ring_frame t); [reflexivity..|]
  | |- log_ring (set_quarantined_modules _ ?t) =>
      apply (log_ring_frame t); [reflexivity..|]
  | |- log_ring (set_sandbox_ids _ _ ?t) => apply (log_ring_frame t); [reflexivity..|]
  | |- log_ring (set_strict_enforcement _ ?t) => apply (log_ring_frame t); [reflexivity..|]
  | |- log_ring (set_default_capabilities _ ?t) =>
      apply (log_ring_frame t); [reflexivity..|]
  | |- log_ring (set_initialized _ ?t) => apply (log_ring_frame t); [reflexivity..|]
  end.

Lemma log_ring_has_capability mid cap s :
  log_ring s -> log_ring (snd (sandboxing_has_capability mid cap s)).
Proof. intros H. unfold sandboxing_has_capability. cbv zeta. repeat ring_step. Qed.

Lemma log_ring_set_resource_limit mid rtype lim s :
  log_ring s -> log_ring (snd (sandboxing_set_resource_limit mid rtype lim s)).
Proof.
  intros H. destruct (set_resource_limit_cases mid rtype lim s) as [->|(i & _ & _ & ->)];
    repeat ring_step.
Qed.

Lemma log_ring_update_resource_usage mid rtype delta s :
  log_ring s -> log_ring (snd (sandboxing_update_resource_usage mid rtype delta s)).
Proof. intros H. unfold sandboxing_update_resource_usage. repeat ring_step. Qed.

Lemma log_ring_check_resource_limit mid rtype req s :
  log_ring s -> log_ring (snd (sandboxing_check_resource_limit mid rtype req s)).
Proof. intros H. unfold sandboxing_check_resource_limit. repeat ring_step. Qed.

Lemma log_ring_check_memory_access mid address size write s :
  log_ring s -> log_ring (snd (sandboxing_check_memory_access mid address size write s)).
Proof.
  intros H. unfold sandboxing_check_memory_access.
  destruct (negb (sandboxing_initialized s)); [exact H|].
  destruct (sandboxing_find_sandbox_by_module mid s); [|exact H]. cbv zeta.
  pose proof (log_ring_has_capability mid
                (if write then CAP_MEMORY_ALLOC else CAP_MEMORY_ALLOC) s H) as H1.
  destruct (sandboxing_has_capability mid
              (if write then CAP_MEMORY_ALLOC else CAP_MEMORY_ALLOC) s) as [ok s1].
  cbn [snd] in H1. repeat ring_step.
Qed.

Lemma log_ring_check_function_call mid nm s :
  log_ring s -> log_ring (snd (sandboxing_check_function_call mid nm s)).
Proof.
  intros H. unfold sandboxing_check_function_call.
  destruct (negb (sandboxing_initialized s)); [exact H|].
  destruct (sandboxing_find_sandbox_by_module mid s) as [i|]; [|exact H]. cbv zeta.
  match goal with
  | |- context [sandboxing_check_resource_limit mid RESOURCE_MODULE_CALLS 0 ?t] =>
      assert (H2 : log_ring t);
      [ apply log_ring_update_resource_usage; repeat ring_step
      | pose proof (log_ring_check_resource_limit mid RESOURCE_MODULE_CALLS 0 t H2) as H3;
        destruct (sandboxing_check_resource_limit mid RESOURCE_MODULE_CALLS 0 t)
          as [ok s3] ]
  end.
  cbn [snd] in H3. repeat ring_step.
Qed.

Lemma log_ring_quarantine_module mid s :
  log_ring s -> log_ring (snd (sandboxing_quarantine_module mid s)).
Proof.
  intros H. unfold sandboxing_quarantine_module.
  destruct (negb (sandboxing_initialized s)); [exact H|].
  destruct (sandboxing_find_sandbox_by_module mid s) as [i|]; [|exact H]. cbv zeta.
  cbn [snd]. ring_step. repeat apply log_ring_set_resource_limit. repeat ring_step.
Qed.

Lemma log_ring_handle_violation mid vtype desc s :
  log_ring s -> log_ring (snd (sandboxing_handle_violation mid vtype desc s)).
Proof.
  intros H. unfold sandboxing_handle_violation.
  destruct (negb (sandboxing_initialized s)); [exact H|]. cbv zeta.
  match goal with
  | |- context [strict_enforcement ?t] => assert (H2 : log_ring t)
  end.
  { apply log_ring_log_violation.
    destruct (sandboxing_find_sandbox_by_module mid s); repeat ring_step. }
  destruct (strict_enforcement _); [|exact H2].
  destruct ((vtype =? VIOLATION_CAPABILITY) || (vtype =? VIOLATION_EXECUTION));
    [|exact H2].
  destruct (sandboxing_find_sandbox_by_module mid s) as [i|]; [|exact H2].
  match goal with |- context [if ?b then _ else _] => destruct b end; [|exact H2].
  cbn [snd]. apply log_ring_quarantine_module. exact H2.
Qed.

Lemma log_ring_apply_limits mid ls s : log_ring s -> log_ring (apply_limits mid ls s).
Proof.
  revert s. induction ls as [|rl ls IH]; intros s H; [exact H|].
  change (apply_limits mid (rl :: ls) s)
    with (apply_limits mid ls
            (snd (sandboxing_set_resource_limit mid (fst rl) (snd rl) s))).
  apply IH. apply log_ring_set_resource_limit. exact H.
Qed.

Lemma log_ring_create_sandbox mid level s :
  log_ring s -> log_ring (snd (sandboxing_create_sandbox mid level s)).
Proof.
  intros H. unfold sandboxing_create_sandbox.
  destruct (negb (sandboxing_initialized s)); [exact H|].
  destruct (MAX_SANDBOXES <=? sandbox_count s); [exact H|].
  destruct (SANDBOX_LEVEL_QUARANTINE <? level); [exact H|].
  destruct (sandboxing_find_sandbox_by_module mid s); [exact H|].
  destruct (find_index _ (sandboxes s)) as [i|]; [|exact H]. cbv zeta. cbn [snd].
  ring_step. ring_step. apply log_ring_apply_limits. repeat ring_step.
Qed.

Lemma log_ring_init s : log_ring s -> log_ring (snd (sandboxing_init s)).
Proof.
  intros (Hlen & _ & _). unfold sandboxing_init, sandboxing_init_default_policies.
  cbv zeta. cbn [snd]. unfold log_ring, MAX_VIOLATION_LOG in *.
  cbn [violation_log violation_index violation_count set_initialized
       set_default_capabilities].
  split; [exact Hlen|]. lia.
Qed.

Section WithVM.

Variable sandboxing_disable_vm :
  Z -> sandboxing_system_state_t -> Z * sandboxing_system_state_t.

Lemma log_ring_destroy_sandbox sid s :
  consistent s -> log_ring s ->
  log_ring (snd (sandboxing_destroy_sandbox sandboxing_disable_vm sid s)).
Proof.
  intros Hcons H. unfold sandboxing_destroy_sandbox.
  destruct (negb (sandboxing_initialized s)); [exact H|].
  destruct (find_index _ (sandboxes s)) as [j|] eqn:Hj; [|exact H]. cbv zeta.
  destruct (find_index_Some _ _ _ Hj) as (sbj & Hsbj & _).
  rewrite (sandbox_at_lookup _ _ _ Hsbj).
  pose proof (cons_vm s Hcons) as Hvm. rewrite Forall_lookup in Hvm.
  rewrite (Hvm _ _ Hsbj). cbn [snd]. repeat ring_step.
Qed.

Lemma log_ring_set_initialized b s : log_ring s -> log_ring (set_initialized b s).
Proof. intros H. exact H. Qed.

Lemma log_ring_shutdown s :
  consistent s -> log_ring s ->
  log_ring (sandboxing_shutdown sandboxing_disable_vm s).
Proof.
  intros Hcons H. unfold sandboxing_shutdown.
  destruct (negb (sandboxing_initialized s)); [exact H|]. cbv zeta.
  apply log_ring_set_initialized.
  generalize (seq 0 (Z.to_nat MAX_SANDBOXES)) as l. intros l. revert s Hcons H.
  induction l as [|i l IH]; intros s Hcons H; [exact H|]. cbn [fold_left].
  destruct (active (sandbox_at i s)).
  - apply IH.
    + apply consistent_destroy_sandbox. exact Hcons.
    + apply log_ring_destroy_sandbox; assumption.
  - apply IH; assumption.
Qed.

Lemma log_ring_run c s :
  consistent s -> log_ring s -> log_ring (run sandboxing_disable_vm c s).
Proof.
  intros Hcons H. destruct c; cbn [run].
  - apply log_ring_init. exact H.
  - apply log_ring_shutdown; assumption.
  - unfold sandboxing_init_default_policies. cbv zeta. repeat ring_step.
  - apply log_ring_create_sandbox. exact H.
  - apply log_ring_destroy_sandbox; assumption.
  - apply log_ring_has_capability. exact H.
  - unfold sandboxing_grant_capability. repeat ring_step.
  - unfold sandboxing_revoke_capability. repeat ring_step.
  - unfold sandboxing_set_capabilities. repeat ring_step.
  - apply log_ring_set_resource_limit. exact H.
  - apply log_ring_check_resource_limit. exact H.
  - apply log_ring_update_resource_usage. exact H.
  - apply log_ring_check_memory_access. exact H.
  - apply log_ring_check_function_call. exact H.
  - apply log_ring_handle_violation. exact H.
  - apply log_ring_log_violation. exact H.
  - apply log_ring_quarantine_module. exact H.
  - unfold sandboxing_enable_strict_mode. repeat ring_step.
Qed.

Lemma log_ring_boot : log_ring boot_state.
Proof.
  unfold log_ring, boot_state, MAX_VIOLATION_LOG.
  cbn [violation_log violation_index violation_count].
  rewrite length_replicate. split; [reflexivity|]. lia.
Qed.

Lemma reachable_log_ring s : reachable sandboxing_disable_vm s -> log_ring s.
Proof.
  induction 1 as [|s c Hs IH Hc]; [apply log_ring_boot|].
  apply log_ring_run; [|exact IH].
  apply (reachable_consistent sandboxing_disable_vm). exact Hs.
Qed.

End WithVM.

End SandboxLog.

(** X7.  The violation log is a ring that never overflows.  In every
    reachable state the log has its 100 slots, the write index lies inside
    it and at most 100 entries are counted.  With logging enabled, the entry
    [sandboxing_log_violation] writes is read back as the last violation,
    with the module, the kind and the capability given and the next
    violation id, and the entry count grows by one until it stays at 100. *)
Theorem violation_log_is_a_bounded_ring
  (sandboxing_disable_vm :
     Z -> Sandbox.sandboxing_system_state_t -> Z * Sandbox.sandboxing_system_state_t)
  (s : Sandbox.sandboxing_system_state_t) :
  Sandbox.reachable sandboxing_disable_vm s ->
  SandboxSpec.log_ring s /\
  (Sandbox.logging_enabled s = true ->
   forall (mid vtype cap : Z) (desc : option string),
     let s' := Sandbox.sandboxing_log_violation mid vtype cap desc s in
     let e := Sandbox.last_violation s' in
     Sandbox.v_module_id e = mid /\
     Sandbox.violation_type e = vtype /\
     Sandbox.attempted_capability e = cap /\
     Sandbox.violation_id e = Sandbox.next_violation_id s /\
     Sandbox.violation_count s' =
       Z.min (Sandbox.violation_count s + 1) Sandbox.MAX_VIOLATION_LOG).
Proof.
  intros Hreach.
  pose proof (SandboxLog.reachable_log_ring sandboxing_disable_vm s Hreach) as Hring.
  split; [exact Hring|]. intros Hlog mid vtype cap desc s' e. subst e s'.
  destruct Hring as (Hlen & Hidx & Hcnt). unfold Sandbox.MAX_VIOLATION_LOG in *.
  unfold Sandbox.last_violation, Sandbox.sandboxing_log_violation.
  rewrite Hlog. cbn [negb]. cbv zeta.
  cbn [Sandbox.violation_log Sandbox.violation_index Sandbox.violation_count
       Sandbox.set_violation_log].
  assert (Hback : (u32 (Sandbox.violation_index s + 1) mod 100 + 100 - 1) mod 100
                  = Sandbox.violation_index s).
  { rewrite u32_small by lia.
    destruct (Z.eq_dec (Sandbox.violation_index s) 99) as [->|Hne]; [reflexivity|].
    rewrite (Z.mod_small (Sandbox.violation_index s + 1)) by lia.
    replace (Sandbox.violation_index s + 1 + 100 - 1)
      with (Sandbox.violation_index s + 1 * 100) by lia.
    rewrite Z.mod_add by lia. apply Z.mod_small. lia. }
  unfold Sandbox.MAX_VIOLATION_LOG. rewrite Hback.
  rewrite list_lookup_insert_eq by (rewrite Hlen; unfold Sandbox.MAX_VIOLATION_LOG; lia).
  cbn [default Sandbox.v_module_id Sandbox.violation_type Sandbox.attempted_capability
       Sandbox.violation_id].
  repeat split.
  destruct (Z.ltb_spec (Sandbox.violation_count s) 100).
  - rewrite u32_small by lia. lia.
  - lia.
Qed.

(** X7 at the engine with the User-level sandbox of module 1. *)
Lemma violation_log_is_a_bounded_ring_witness :
  let s := Examples.sandbox_user in
  SandboxSpec.log_ring s /\
  (Sandbox.logging_enabled s = true ->
   forall (mid vtype cap : Z) (desc : option string),
     let s' := Sandbox.sandboxing_log_violation mid vtype cap desc s in
     let e := Sandbox.last_violation s' in
     Sandbox.v_module_id e = mid /\
     Sandbox.violation_type e = vtype /\
     Sandbox.attempted_capability e = cap /\
     Sandbox.violation_id e = Sandbox.next_violation_id s /\
     Sandbox.violation_count s' =
       Z.min (Sandbox.violation_count s + 1) Sandbox.MAX_VIOLATION_LOG).
Proof.
  apply (violation_log_is_a_bounded_ring Examples.no_vm Examples.sandbox_user).
  unfold Examples.sandbox_user, Examples.sandbox_ready.
  repeat (apply Sandbox.reachable_step;
          [| vm_compute; repeat split; discriminate]).
  apply Sandbox.reachable_boot.
Defined.

(** ** Sandbox engine: resource accounting *)

Module SandboxUsage.
Import Sandbox SandboxFacts SandboxSpec.

Lemma keeps_binding_set_limits (g : sandbox_context_t -> list resource_limit_t) :
  keeps_binding (fun sb => set_limits (g sb) sb).
Proof. intros sb. split; reflexivity. Qed.

Lemma get_resource_usage_spec mid rtype s i :
  sandboxing_find_sandbox_by_module mid s = Some i ->
  sandboxing_get_resource_usage mid rtype s =
  match List.find (fun r => resource_type r =? rtype) (limits (sandbox_at i s)) with
  | Some r => current_usage r
  | None => 0
  end.
Proof.
  intros Hfind. destruct (find_found _ _ _ Hfind) as (Hinit & _).
  unfold sandboxing_get_resource_usage. rewrite Hinit, Hfind. reflexivity.
Qed.

(** The usage read back after an update is the usage the update computed. *)
Lemma usage_after_update mid rtype delta s i r :
  sandboxing_find_sandbox_by_module mid s = Some i ->
  List.find (fun r => resource_type r =? rtype) (limits (sandbox_at i s)) = Some r ->
  let u := sandboxing_update_resource_usage mid rtype delta s in
  fst u = 0 /\
  sandboxing_find_sandbox_by_module mid (snd u) = Some i /\
  List.find (fun r => resource_type r =? rtype) (limits (sandbox_at i (snd u))) =
    Some (charge delta r).
Proof.
  intros Hfind Hr u. subst u.
  destruct (find_found _ _ _ Hfind) as (Hinit & sb & Hsb & _ & _).
  split.
  - unfold sandboxing_update_resource_usage. rewrite Hinit, Hfind. cbn [negb].
    destruct (find_Some_index _ _ _ Hr) as (k & -> & _). reflexivity.
  - rewrite (update_resource_usage_spec _ _ _ _ _ Hfind). split.
    + rewrite find_on_sandbox by apply keeps_binding_set_limits. exact Hfind.
    + rewrite (sandbox_at_on_sandbox _ _ _ _ Hsb). cbn [limits set_limits].
      rewrite find_charge_limit. rewrite (sandbox_at_lookup _ _ _ Hsb) in Hr.
      rewrite Hr. reflexivity.
Qed.

Lemma charge_usage delta r :
  0 <= current_usage r -> - 2 ^ 31 <= delta < 2 ^ 31 -> current_usage r + delta < 2 ^ 32 ->
  current_usage (charge delta r) = Z.max 0 (current_usage r + delta) /\
  peak_usage (charge delta r) =
    Z.max (peak_usage r) (Z.max 0 (current_usage r + delta)) /\
  limit (charge delta r) = limit r /\ enforce (charge delta r) = enforce r.
Proof.
  intros Hcur Hdelta Hsum. unfold charge. cbv zeta.
  cbn [current_usage peak_usage limit enforce set_usage].
  assert (Hu : (if (delta <? 0) && (current_usage r <? u32 (- delta)) then 0
                else u32 (current_usage r + delta)) = Z.max 0 (current_usage r + delta)).
  { destruct (Z.ltb_spec delta 0); cbn [andb].
    - rewrite (u32_small (- delta)) by lia.
      destruct (Z.ltb_spec (current_usage r) (- delta)); [lia|].
      rewrite u32_small by lia. lia.
    - rewrite u32_small by lia. lia. }
  rewrite Hu. repeat split.
  destruct (Z.ltb_spec (peak_usage r) (Z.max 0 (current_usage r + delta))); lia.
Qed.

(** The same without the bound on the sum: the usage wraps at 2^32. *)
Lemma charge_usage_wrap delta r :
  0 <= current_usage r -> - 2 ^ 31 <= delta < 2 ^ 31 ->
  let usage := if current_usage r + delta <? 0 then 0
               else (current_usage r + delta) mod 2 ^ 32 in
  current_usage (charge delta r) = usage /\
  peak_usage (charge delta r) = Z.max (peak_usage r) usage /\
  limit (charge delta r) = limit r /\ enforce (charge delta r) = enforce r.
Proof.
  intros Hcur Hdelta usage. unfold charge. cbv zeta.
  cbn [current_usage peak_usage limit enforce set_usage].
  assert (Hu : (if (delta <? 0) && (current_usage r <? u32 (- delta)) then 0
                else u32 (current_usage r + delta)) = usage).
  { unfold usage. destruct (Z.ltb_spec delta 0); cbn [andb].
    - rewrite (u32_small (- delta)) by lia.
      destruct (Z.ltb_spec (current_usage r) (- delta));
        destruct (Z.ltb_spec (current_usage r + delta) 0); try lia; reflexivity.
    - destruct (Z.ltb_spec (current_usage r + delta) 0); [lia | reflexivity]. }
  rewrite Hu. repeat split.
  destruct (Z.ltb_spec (peak_usage r) usage); lia.
Qed.

Lemma check_resource_limit_result mid rtype req s i r :
  sandboxing_find_sandbox_by_module mid s = Some i ->
  List.find (fun r => resource_type r =? rtype) (limits (sandbox_at i s)) = Some r ->
  enforce r = true ->
  fst (sandboxing_check_resource_limit mid rtype req s) =
  negb (limit r <? u32 (current_usage r + req)).
Proof.
  intros Hfind Hr Henf. destruct (find_found _ _ _ Hfind) as (Hinit & _).
  unfold sandboxing_check_resource_limit. rewrite Hinit, Hfind, Hr, Henf. cbn [negb].
  destruct (limit r <? u32 (current_usage r + req)); reflexivity.
Qed.

End SandboxUsage.

(** X8.  Resource usage is clamped at zero, wraps at 2^32, and its peak is
    remembered.  For a tracked resource of a sandboxed module,
    [sandboxing_update_resource_usage] with an [int32_t] delta returns 0;
    the usage read back by [sandboxing_get_resource_usage] is 0 when the old
    usage plus the delta would be negative, and otherwise the old usage plus
    the delta modulo 2^32, so that an increase past 2^32 - 1 leaves a small
    usage; the peak is the larger of the old peak and the new usage; the
    limit is untouched. *)
Theorem update_resource_usage_clamps_at_zero
  (s : Sandbox.sandboxing_system_state_t) (mid rtype delta : Z) (i : nat)
  (r : Sandbox.resource_limit_t) :
  Sandbox.sandboxing_find_sandbox_by_module mid s = Some i ->
  List.find (fun r => Sandbox.resource_type r =? rtype)
    (Sandbox.limits (Sandbox.sandbox_at i s)) = Some r ->
  0 <= Sandbox.current_usage r ->
  - 2 ^ 31 <= delta < 2 ^ 31 ->
  let u := Sandbox.sandboxing_update_resource_usage mid rtype delta s in
  let usage := if Sandbox.current_usage r + delta <? 0 then 0
               else (Sandbox.current_usage r + delta) mod 2 ^ 32 in
  fst u = 0 /\
  Sandbox.sandboxing_get_resource_usage mid rtype (snd u) = usage /\
  exists r',
    List.find (fun r => Sandbox.resource_type r =? rtype)
      (Sandbox.limits (Sandbox.sandbox_at i (snd u))) = Some r' /\
    Sandbox.peak_usage r' = Z.max (Sandbox.peak_usage r) usage /\
    Sandbox.limit r' = Sandbox.limit r.
Proof.
  intros Hfind Hr Hcur Hdelta u usage.
  destruct (SandboxUsage.usage_after_update mid rtype delta s i r Hfind Hr)
    as (H0 & Hfind' & Hr').
  destruct (SandboxUsage.charge_usage_wrap delta r Hcur Hdelta) as (Hu & Hp & Hl & _).
  fold u in H0, Hfind', Hr'. fold usage in Hu, Hp. split; [exact H0|]. split.
  - rewrite (SandboxUsage.get_resource_usage_spec _ _ _ _ Hfind'), Hr'. exact Hu.
  - exists (Sandbox.charge delta r). split; [exact Hr'|]. split; assumption.
Qed.

(** X8 at the module-call budget of module 1: charged up to 2^32 - 2, then
    charged 5 more, the usage reads 3; released by more than was used, it
    reads 0. *)
Lemma update_resource_usage_clamps_at_zero_witness :
  let calls := Sandbox.RESOURCE_MODULE_CALLS in
  let s1 := snd (Sandbox.sandboxing_update_resource_usage 1 calls (2 ^ 31 - 1)
                   Examples.sandbox_user) in
  let s2 := snd (Sandbox.sandboxing_update_resource_usage 1 calls (2 ^ 31 - 1) s1) in
  let u := Sandbox.sandboxing_update_resource_usage 1 calls 5 s2 in
  let v := Sandbox.sandboxing_update_resource_usage 1 calls (-3) Examples.sandbox_user in
  (Sandbox.sandboxing_get_resource_usage 1 calls s2 = 2 ^ 32 - 2 /\
   fst u = 0 /\
   Sandbox.sandboxing_get_resource_usage 1 calls (snd u) = 3 /\
   exists r',
     List.find (fun r => Sandbox.resource_type r =? calls)
       (Sandbox.limits (Sandbox.sandbox_at 0 (snd u))) = Some r' /\
     Sandbox.peak_usage r' = 2 ^ 32 - 2 /\ Sandbox.limit r' = 1000) /\
  (Sandbox.sandboxing_get_resource_usage 1 calls Examples.sandbox_user = 0 /\
   fst v = 0 /\
   Sandbox.sandboxing_get_resource_usage 1 calls (snd v) = 0).
Proof.
  intros calls s1 s2 u v.
  pose (r2 := {| Sandbox.resource_type := Sandbox.RESOURCE_MODULE_CALLS;
                 Sandbox.limit := 1000; Sandbox.current_usage := 2 ^ 32 - 2;
                 Sandbox.peak_usage := 2 ^ 32 - 2; Sandbox.enforce := true |}).
  pose (r0 := {| Sandbox.resource_type := Sandbox.RESOURCE_MODULE_CALLS;
                 Sandbox.limit := 1000; Sandbox.current_usage := 0;
                 Sandbox.peak_usage := 0; Sandbox.enforce := true |}).
  split.
  - destruct (update_resource_usage_clamps_at_zero s2 1 calls 5 0 r2)
      as (W1 & W2 & r' & W3 & W4 & W5).
    + vm_compute. reflexivity.
    + vm_compute. reflexivity.
    + vm_compute. discriminate.
    + vm_compute. split; [discriminate | reflexivity].
    + split; [vm_compute; reflexivity|]. split; [exact W1|].
      split; [exact W2|]. exists r'. split; [exact W3|]. split; [exact W4 | exact W5].
  - destruct (update_resource_usage_clamps_at_zero Examples.sandbox_user 1 calls (-3) 0 r0)
      as (W1 & W2 & _).
    + vm_compute. reflexivity.
    + vm_compute. reflexivity.
    + vm_compute. discriminate.
    + vm_compute. split; [discriminate | reflexivity].
    + split; [vm_compute; reflexivity|]. split; [exact W1 | exact W2].
Defined.

(** X9.  The limit check adds in 32 bits.  For a tracked, enforced resource
    of a sandboxed module, [sandboxing_check_resource_limit] allows a request
    exactly when usage plus request, reduced modulo 2^32, is within the
    limit.  When the sum does not wrap and the check has allowed the
    request, charging the request leaves the usage within the limit; a
    request so large that the sum wraps is allowed whenever the wrapped sum
    is small enough. *)
Theorem check_resource_limit_adds_modulo
  (s : Sandbox.sandboxing_system_state_t) (mid rtype req : Z) (i : nat)
  (r : Sandbox.resource_limit_t) :
  Sandbox.sandboxing_find_sandbox_by_module mid s = Some i ->
  List.find (fun r => Sandbox.resource_type r =? rtype)
    (Sandbox.limits (Sandbox.sandbox_at i s)) = Some r ->
  Sandbox.enforce r = true ->
  (fst (Sandbox.sandboxing_check_resource_limit mid rtype req s) = true <->
   u32 (Sandbox.current_usage r + req) <= Sandbox.limit r) /\
  (fst (Sandbox.sandboxing_check_resource_limit mid rtype req s) = true ->
   0 <= Sandbox.current_usage r -> 0 <= req < 2 ^ 31 ->
   Sandbox.current_usage r + req < 2 ^ 32 ->
   Sandbox.sandboxing_get_resource_usage mid rtype
     (snd (Sandbox.sandboxing_update_resource_usage mid rtype req s))
   <= Sandbox.limit r).
Proof.
  intros Hfind Hr Henf.
  rewrite (SandboxUsage.check_resource_limit_result _ _ _ _ _ _ Hfind Hr Henf).
  rewrite negb_true_iff, Z.ltb_ge. split; [reflexivity|].
  intros Hle Hcur Hreq Hsum.
  destruct (SandboxUsage.usage_after_update mid rtype req s i r Hfind Hr)
    as (_ & Hfind' & Hr').
  rewrite (SandboxUsage.get_resource_usage_spec _ _ _ _ Hfind'), Hr'.
  destruct (SandboxUsage.charge_usage req r Hcur) as (-> & _); [lia | lia |].
  rewrite u32_small in Hle by lia. lia.
Qed.

(** X9 at the memory limit of module 1 (2 MiB, nothing used) and a request of
    1 MiB. *)
Lemma check_resource_limit_adds_modulo_witness :
  let s := Examples.sandbox_user in
  let r := {| Sandbox.resource_type := Sandbox.RESOURCE_MEMORY;
              Sandbox.limit := 2 * 1024 * 1024; Sandbox.current_usage := 0;
              Sandbox.peak_usage := 0; Sandbox.enforce := true |} in
  let req := 1024 * 1024 in
  (fst (Sandbox.sandboxing_check_resource_limit 1 Sandbox.RESOURCE_MEMORY req s) = true <->
   u32 (Sandbox.current_usage r + req) <= Sandbox.limit r) /\
  (fst (Sandbox.sandboxing_check_resource_limit 1 Sandbox.RESOURCE_MEMORY req s) = true ->
   0 <= Sandbox.current_usage r -> 0 <= req < 2 ^ 31 ->
   Sandbox.current_usage r + req < 2 ^ 32 ->
   Sandbox.sandboxing_get_resource_usage 1 Sandbox.RESOURCE_MEMORY
     (snd (Sandbox.sandboxing_update_resource_usage 1 Sandbox.RESOURCE_MEMORY req s))
   <= Sandbox.limit r).
Proof.
  intros s r req.
  apply (check_resource_limit_adds_modulo s 1 Sandbox.RESOURCE_MEMORY req 0 r).
  - vm_compute. reflexivity.
  - vm_compute. reflexivity.
  - reflexivity.
Defined.

Module SandboxLimits.
Import Sandbox SandboxFacts SandboxSpec.

Lemma set_resource_limit_ok mid rtype lim s i :
  sandboxing_find_sandbox_by_module mid s = Some i ->
  0 <= rtype < MAX_RESOURCE_LIMITS ->
  limits_wf (limits (sandbox_at i s)) ->
  fst (sandboxing_set_resource_limit mid rtype lim s) = 0.
Proof.
  intros Hfind Hrt Hwf. destruct (find_found _ _ _ Hfind) as (Hinit & _).
  unfold sandboxing_set_resource_limit. rewrite Hinit, Hfind. cbn [negb].
  destruct (Z.leb_spec MAX_RESOURCE_LIMITS rtype); [lia|]. cbv zeta.
  destruct (find_index _ (limits (sandbox_at i s))) as [k|] eqn:Hk; [reflexivity|].
  pose proof (limits_wf_room rtype _ Hrt Hwf (find_index_None_not_in _ _ Hk)) as Hroom.
  unfold limit_count. destruct (Z.ltb_spec (Z.of_nat (length (limits (sandbox_at i s))))
                                  MAX_RESOURCE_LIMITS); [reflexivity | lia].
Qed.

(** The usage recorded for a resource type, 0 when the type is not tracked. *)
Lemma usage_put_limit t rtype lim ls :
  match List.find (fun r => resource_type r =? t) (put_limit rtype lim ls) with
  | Some r => current_usage r
  | None => 0
  end =
  match List.find (fun r => resource_type r =? t) ls with
  | Some r => current_usage r
  | None => 0
  end.
Proof.
  destruct (Z.eq_dec t rtype) as [->|Hne];
    [|rewrite find_put_limit_other by exact Hne; reflexivity].
  unfold put_limit.
  destruct (find_index (fun r => resource_type r =? rtype) ls) as [k|] eqn:Hk.
  - rewrite (find_update_at_found _ _ _ _ Hk) by (intros x; reflexivity).
    destruct (List.find _ ls); reflexivity.
  - rewrite (find_index_None_find _ _ Hk).
    destruct (Z.of_nat (length ls) <? MAX_RESOURCE_LIMITS);
      [|rewrite (find_index_None_find _ _ Hk); reflexivity].
    rewrite find_app_first, (find_index_None_find _ _ Hk). cbn [List.find resource_type].
    rewrite Z.eqb_refl. reflexivity.
Qed.

End SandboxLimits.

(** X10.  A limit that has been set is the limit in force, and setting it
    does not touch the usage.  In a reachable state, for a sandboxed module
    and a resource type below 16, [sandboxing_set_resource_limit] returns 0;
    afterwards the limit of that type is the value given and it is enforced,
    the limits of the other types are what they were, and
    [sandboxing_get_resource_usage] reads the same usage as before for every
    type. *)
Theorem set_resource_limit_then_read
  (sandboxing_disable_vm :
     Z -> Sandbox.sandboxing_system_state_t -> Z * Sandbox.sandboxing_system_state_t)
  (s : Sandbox.sandboxing_system_state_t) (mid rtype lim : Z) (i : nat) :
  Sandbox.reachable sandboxing_disable_vm s ->
  Sandbox.sandboxing_find_sandbox_by_module mid s = Some i ->
  0 <= rtype < Sandbox.MAX_RESOURCE_LIMITS ->
  let r := Sandbox.sandboxing_set_resource_limit mid rtype lim s in
  fst r = 0 /\
  (exists rl,
     List.find (fun x => Sandbox.resource_type x =? rtype)
       (Sandbox.limits (Sandbox.sandbox_at i (snd r))) = Some rl /\
     Sandbox.limit rl = lim /\ Sandbox.enforce rl = true) /\
  (forall t, t <> rtype ->
     Sandbox.limit_of t (Sandbox.sandbox_at i (snd r)) =
     Sandbox.limit_of t (Sandbox.sandbox_at i s)) /\
  (forall t,
     Sandbox.sandboxing_get_resource_usage mid t (snd r) =
     Sandbox.sandboxing_get_resource_usage mid t s).
Proof.
  intros Hreach Hfind Hrt r. subst r.
  pose proof (SandboxFacts.reachable_consistent _ _ Hreach) as Hcons.
  destruct (SandboxFacts.find_found _ _ _ Hfind) as (Hinit & sb & Hsb & _ & _).
  assert (Hwf : Sandbox.limits_wf (Sandbox.limits sb)).
  { pose proof (Sandbox.cons_limits s Hcons) as H. rewrite Forall_lookup in H.
    apply (H _ _ Hsb). }
  split.
  - apply (SandboxLimits.set_resource_limit_ok mid rtype lim s i Hfind Hrt).
    rewrite (SandboxFacts.sandbox_at_lookup _ _ _ Hsb). exact Hwf.
  - rewrite (SandboxFacts.set_resource_limit_spec _ _ _ _ _ Hfind) by lia.
    rewrite (SandboxFacts.sandbox_at_on_sandbox _ _ _ _ Hsb),
      (SandboxFacts.sandbox_at_lookup _ _ _ Hsb).
    cbn [Sandbox.limits Sandbox.set_limits]. split; [|split].
    + apply SandboxFacts.find_put_limit_same; assumption.
    + intros t Ht. unfold Sandbox.limit_of. cbn [Sandbox.limits Sandbox.set_limits].
      rewrite SandboxFacts.find_put_limit_other by exact Ht. reflexivity.
    + intros t.
      assert (Hfind' : Sandbox.sandboxing_find_sandbox_by_module mid
                (Sandbox.on_sandbox i
                   (fun sb0 => Sandbox.set_limits
                      (Sandbox.put_limit rtype lim (Sandbox.limits sb0)) sb0) s) = Some i).
      { rewrite SandboxFacts.find_on_sandbox
          by apply SandboxFacts.keeps_binding_put_limit. exact Hfind. }
      rewrite (SandboxUsage.get_resource_usage_spec _ _ _ _ Hfind'),
        (SandboxUsage.get_resource_usage_spec _ _ _ _ Hfind).
      rewrite (SandboxFacts.sandbox_at_on_sandbox _ _ _ _ Hsb),
        (SandboxFacts.sandbox_at_lookup _ _ _ Hsb).
      cbn [Sandbox.limits Sandbox.set_limits].
      apply SandboxLimits.usage_put_limit.
Qed.

(** X10 at the User-level sandbox of module 1 and a limit on file handles,
    which the User level does not set. *)
Lemma set_resource_limit_then_read_witness :
  let s := Examples.sandbox_user in
  let r := Sandbox.sandboxing_set_resource_limit 1 Sandbox.RESOURCE_FILE_HANDLES 8 s in
  fst r = 0 /\
  (exists rl,
     List.find (fun x => Sandbox.resource_type x =? Sandbox.RESOURCE_FILE_HANDLES)
       (Sandbox.limits (Sandbox.sandbox_at 0 (snd r))) = Some rl /\
     Sandbox.limit rl = 8 /\ Sandbox.enforce rl = true) /\
  (forall t, t <> Sandbox.RESOURCE_FILE_HANDLES ->
     Sandbox.limit_of t (Sandbox.sandbox_at 0 (snd r)) =
     Sandbox.limit_of t (Sandbox.sandbox_at 0 s)) /\
  (forall t,
     Sandbox.sandboxing_get_resource_usage 1 t (snd r) =
     Sandbox.sandboxing_get_resource_usage 1 t s).
Proof.
  apply (set_resource_limit_then_read Examples.no_vm Examples.sandbox_user 1
           Sandbox.RESOURCE_FILE_HANDLES 8 0).
  - unfold Examples.sandbox_user, Examples.sandbox_ready.
    repeat (apply Sandbox.reachable_step;
            [| vm_compute; repeat split; discriminate]).
    apply Sandbox.reachable_boot.
  - vm_compute. reflexivity.
  - vm_compute. split; [discriminate | reflexivity].
Defined.

(** X11.  Only repeated Capability or Execution violations under strict
    enforcement quarantine a module.  When strict enforcement is off, or the
    violation is of another kind, or the module has no sandbox, or its
    violation counter is still at most 5 after the increment,
    [sandboxing_handle_violation] returns 0, counts no quarantine, and leaves
    the level, the capability masks and the limits of every sandbox as they
    were. *)
Theorem handle_violation_without_quarantine
  (s : Sandbox.sandboxing_system_state_t) (mid vtype : Z) (desc : option string) :
  Sandbox.sandboxing_initialized s = true ->
  Sandbox.strict_enforcement s = false \/
  (vtype <> Sandbox.VIOLATION_CAPABILITY /\ vtype <> Sandbox.VIOLATION_EXECUTION) \/
  Sandbox.sandboxing_find_sandbox_by_module mid s = None \/
  (exists i, Sandbox.sandboxing_find_sandbox_by_module mid s = Some i /\
             u64 (Sandbox.violations (Sandbox.sandbox_at i s) + 1) <= 5) ->
  let r := Sandbox.sandboxing_handle_violation mid vtype desc s in
  fst r = 0 /\
  Sandbox.quarantined_modules (snd r) = Sandbox.quarantined_modules s /\
  (forall j, SandboxSpec.same_policy (Sandbox.sandbox_at j (snd r))
               (Sandbox.sandbox_at j s)).
Proof.
  intros Hinit Hcase r. subst r. unfold Sandbox.sandboxing_handle_violation.
  rewrite Hinit. cbn [negb]. cbv zeta.
  set (s1 := match Sandbox.sandboxing_find_sandbox_by_module mid s with
             | Some i => Sandbox.on_sandbox i _ s
             | None => s
             end).
  set (s2 := Sandbox.sandboxing_log_violation mid vtype 0 desc s1).
  destruct (SandboxFacts.log_violation_frame mid vtype 0 desc s1)
    as (Hsb & _ & _ & Hstrict & Hq & _).
  fold s2 in Hsb, Hstrict, Hq.
  assert (Hpol1 : forall j, SandboxSpec.same_policy (Sandbox.sandbox_at j s1)
                              (Sandbox.sandbox_at j s)).
  { intros j. unfold s1.
    destruct (Sandbox.sandboxing_find_sandbox_by_module mid s) as [i|];
      [|repeat split].
    unfold Sandbox.sandbox_at, Sandbox.on_sandbox.
    cbn [Sandbox.sandboxes Sandbox.set_sandboxes]. rewrite update_at_lookup.
    destruct (decide (i = j)); [|repeat split].
    destruct (Sandbox.sandboxes s !! j); repeat split. }
  assert (Hdone : fst (0, s2) = 0 /\
            Sandbox.quarantined_modules (snd (0, s2)) = Sandbox.quarantined_modules s /\
            (forall j, SandboxSpec.same_policy (Sandbox.sandbox_at j (snd (0, s2)))
                         (Sandbox.sandbox_at j s))).
  { cbn [fst snd]. split; [reflexivity|]. split.
    - rewrite Hq. unfold s1.
      destruct (Sandbox.sandboxing_find_sandbox_by_module mid s); reflexivity.
    - intros j. unfold Sandbox.sandbox_at at 1. rewrite Hsb. apply Hpol1. }
  assert (Hstrict1 : Sandbox.strict_enforcement s1 = Sandbox.strict_enforcement s).
  { unfold s1. destruct (Sandbox.sandboxing_find_sandbox_by_module mid s); reflexivity. }
  rewrite Hstrict, Hstrict1.
  destruct (Sandbox.strict_enforcement s) eqn:Hst; [|exact Hdone].
  destruct ((vtype =? Sandbox.VIOLATION_CAPABILITY) ||
            (vtype =? Sandbox.VIOLATION_EXECUTION)) eqn:Hty; [|exact Hdone].
  destruct (Sandbox.sandboxing_find_sandbox_by_module mid s) as [i|] eqn:Hfind;
    [|exact Hdone].
  destruct Hcase as [Hc|[[Hc1 Hc2]|[Hc|(i' & Hi' & Hc)]]]; try discriminate.
  - apply orb_true_iff in Hty as [Hty|Hty]; apply Z.eqb_eq in Hty; contradiction.
  - injection Hi' as <-.
    destruct (SandboxFacts.find_found _ _ _ Hfind) as (_ & sb & Hsbi & _ & _).
    assert (Hv : Sandbox.violations (Sandbox.sandbox_at i s2) =
                 u64 (Sandbox.violations (Sandbox.sandbox_at i s) + 1)).
    { unfold Sandbox.sandbox_at at 1. rewrite Hsb.
      fold (Sandbox.sandbox_at i s1). unfold s1.
      rewrite (SandboxFacts.sandbox_at_on_sandbox _ _ _ _ Hsbi),
        (SandboxFacts.sandbox_at_lookup _ _ _ Hsbi). reflexivity. }
    rewrite Hv. destruct (Z.ltb_spec 5 (u64 (Sandbox.violations (Sandbox.sandbox_at i s) + 1)));
      [lia | exact Hdone].
Qed.

(** X11 at a violation of kind Resource by module 1 after five handled
    violations. *)
Lemma handle_violation_without_quarantine_witness :
  let s := Examples.sandbox_five in
  let r := Sandbox.sandboxing_handle_violation 1 Sandbox.VIOLATION_RESOURCE None s in
  fst r = 0 /\
  Sandbox.quarantined_modules (snd r) = Sandbox.quarantined_modules s /\
  (forall j, SandboxSpec.same_policy (Sandbox.sandbox_at j (snd r))
               (Sandbox.sandbox_at j s)).
Proof.
  apply (handle_violation_without_quarantine Examples.sandbox_five 1
           Sandbox.VIOLATION_RESOURCE None).
  - vm_compute. reflexivity.
  - right. left. split; vm_compute; discriminate.
Defined.

(** ** Module registry *)

(** X12.  [module_validate] accepts exactly the images in format.  For a
    header whose code and data sizes are not negative, the image is accepted
    if and only if the buffer holds a whole header, magic number and format
    version are the expected ones, header, code and data together fit in the
    buffer, and no section is larger than [MAX_MODULE_SIZE]: the 32-bit sum
    the code computes cannot wrap for an image that passes. *)
Theorem module_validate_accepts_images_in_format
  (img : Modules.module_image) (size : Z) :
  0 <= Modules.code_size (Modules.header img) ->
  0 <= Modules.data_size (Modules.header img) ->
  (Modules.module_validate (Some img) size = true <->
   ModulesSpec.image_in_format img size).
Proof.
  intros Hc Hd. unfold Modules.module_validate, ModulesSpec.image_in_format.
  cbv zeta. unfold Modules.SIZEOF_MODULE_HEADER, Modules.MAX_MODULE_SIZE.
  set (h := Modules.header img) in *.
  destruct (Z.ltb_spec size 572) as [Hs|Hs]; [split; [discriminate | lia]|].
  destruct (Z.eqb_spec (Modules.magic h) Modules.MODULE_MAGIC) as [Hm|Hm]; cbn [negb];
    [|split; [discriminate | tauto]].
  destruct (Z.eqb_spec (Modules.version h) Modules.MODULE_VERSION) as [Hv|Hv];
    cbn [negb]; [|split; [discriminate | tauto]].
  destruct (Z.ltb_spec (1024 * 1024) (Modules.code_size h)) as [Hcs|Hcs].
  { cbn [orb]. destruct (size <? _); split; try discriminate; lia. }
  destruct (Z.ltb_spec (1024 * 1024) (Modules.data_size h)) as [Hds|Hds].
  { cbn [orb]. destruct (size <? _); split; try discriminate; lia. }
  rewrite u32_small by lia.
  destruct (Z.ltb_spec size (572 + Modules.code_size h + Modules.data_size h));
    [split; [discriminate | lia]|].
  cbn [orb].
  destruct (Z.ltb_spec (1024 * 1024) (Modules.bss_size h));
    split; try discriminate; lia.
Qed.

(** X12 at the image of [mod_user] in a buffer of 578 bytes. *)
Lemma module_validate_accepts_images_in_format_witness :
  Modules.module_validate (Some Examples.mod_user_image) 578 = true <->
  ModulesSpec.image_in_format Examples.mod_user_image 578.
Proof.
  apply (module_validate_accepts_images_in_format Examples.mod_user_image 578).
  - vm_compute. discriminate.
  - vm_compute. discriminate.
Defined.

Module ModulesMore.
Import Modules ModulesFacts ModulesSpec.

Lemma module_get_on_module mid i f s :
  (forall m, module_id (f m) = module_id m) ->
  module_get mid (on_module i f s) = module_get mid s.
Proof.
  intros Hf. apply module_get_frame; [reflexivity | reflexivity |].
  intros j. apply module_id_on_module. exact Hf.
Qed.

Lemma module_get_emit mid e s : module_get mid (emit e s) = module_get mid s.
Proof. reflexivity. Qed.

Lemma module_get_slot mid s i :
  module_get mid s = Some i -> i ∈ loaded_modules s /\ module_id (module_at i s) = mid.
Proof.
  unfold module_get. destruct (negb (module_system_initialized s)); [discriminate|].
  intros H. apply find_some in H as [Hin Hid]. split.
  - apply list_elem_of_In. exact Hin.
  - apply Z.eqb_eq. exact Hid.
Qed.

End ModulesMore.

(** X16.  A module is started from Loaded only and stopped from Running only.
    For a loaded module in state Loaded whose init function succeeds (or is
    absent), [module_start] returns true and the state is Running; a second
    [module_start] returns false and changes nothing; [module_stop] then
    returns true and the state is Loaded again; and [module_stop] on the
    module while it is Loaded returns false and changes nothing. *)
Theorem module_start_stop_cycle
  (s : Modules.module_system_t) (mid init_result init_again : Z) (i : nat)
  (m : Modules.module_t) :
  Modules.module_get mid s = Some i ->
  Modules.module_pool s !! i = Some m ->
  Modules.state m = Modules.MODULE_STATE_LOADED ->
  Modules.init_func m = 0 \/ init_result = 0 ->
  let r1 := Modules.module_start mid init_result s in
  let r2 := Modules.module_stop mid (snd r1) in
  Modules.module_stop mid s = (false, s) /\
  fst r1 = true /\ Modules.state_at i (snd r1) = Modules.MODULE_STATE_RUNNING /\
  Modules.module_start mid init_again (snd r1) = (false, snd r1) /\
  fst r2 = true /\ Modules.state_at i (snd r2) = Modules.MODULE_STATE_LOADED.
Proof.
  intros Hget Hm Hst Hinit r1 r2.
  assert (Hstop0 : Modules.module_stop mid s = (false, s)).
  { unfold Modules.module_stop. rewrite Hget, (ModulesFacts.module_at_lookup _ _ _ Hm), Hst.
    reflexivity. }
  assert (Hr1 : exists s0, Modules.module_pool s0 = Modules.module_pool s /\
                  Modules.module_get mid s0 = Some i /\
                  r1 = (true, Modules.on_module i
                                (Modules.set_state Modules.MODULE_STATE_RUNNING) s0)).
  { subst r1. unfold Modules.module_start.
    rewrite Hget, (ModulesFacts.module_at_lookup _ _ _ Hm), Hst. cbn [Z.eqb negb].
    cbv zeta.
    destruct (Z.eqb_spec (Modules.init_func m) 0) as [H0|H0]; cbn [negb andb].
    - exists s. repeat split. exact Hget.
    - destruct Hinit as [Hinit|Hinit]; [contradiction|]. subst init_result.
      cbn [Z.eqb negb].
      exists (Modules.emit (Call (Modules.init_func m)) s). repeat split. exact Hget. }
  destruct Hr1 as (s0 & Hpool0 & Hget0 & Hr1).
  assert (Hm0 : Modules.module_pool s0 !! i = Some m) by (rewrite Hpool0; exact Hm).
  set (s1 := Modules.on_module i (Modules.set_state Modules.MODULE_STATE_RUNNING) s0)
    in *.
  assert (Hm1 : Modules.module_pool s1 !! i =
                Some (Modules.set_state Modules.MODULE_STATE_RUNNING m)).
  { unfold s1, Modules.on_module. cbn [Modules.module_pool Modules.set_module_pool].
    apply update_at_lookup_eq. exact Hm0. }
  assert (Hget1 : Modules.module_get mid s1 = Some i).
  { unfold s1. rewrite ModulesMore.module_get_on_module by (intros x; reflexivity).
    exact Hget0. }
  subst r2. rewrite Hr1. cbn [fst snd].
  split; [exact Hstop0|]. split; [reflexivity|]. split.
  { unfold Modules.state_at. rewrite (ModulesFacts.module_at_lookup _ _ _ Hm1).
    reflexivity. }
  split.
  { unfold Modules.module_start.
    rewrite Hget1, (ModulesFacts.module_at_lookup _ _ _ Hm1). reflexivity. }
  unfold Modules.module_stop.
  rewrite Hget1, (ModulesFacts.module_at_lookup _ _ _ Hm1).
  cbn [Modules.state Modules.set_state Modules.set_state_errors].
  rewrite Z.eqb_refl. cbn [negb]. cbv zeta.
  split; [reflexivity|]. cbn [snd]. unfold Modules.state_at.
  match goal with
  | |- Modules.state (Modules.module_at i (Modules.on_module i ?f ?t)) = _ =>
      assert (Ht : Modules.module_pool t !! i =
                   Some (Modules.set_state Modules.MODULE_STATE_RUNNING m))
        by (destruct (Modules.exit_func _ =? 0); exact Hm1);
      rewrite (ModulesFacts.module_at_on_module i f t _ Ht)
  end.
  reflexivity.
Qed.

(** X16 at the registry that holds [mod_core], loaded and not started. *)
Lemma module_start_stop_cycle_witness :
  let s := Examples.modules_core in
  let r1 := Modules.module_start 1 0 s in
  let r2 := Modules.module_stop 1 (snd r1) in
  Modules.module_stop 1 s = (false, s) /\
  fst r1 = true /\ Modules.state_at 0 (snd r1) = Modules.MODULE_STATE_RUNNING /\
  Modules.module_start 1 7 (snd r1) = (false, snd r1) /\
  fst r2 = true /\ Modules.state_at 0 (snd r2) = Modules.MODULE_STATE_LOADED.
Proof.
  apply (module_start_stop_cycle Examples.modules_core 1 0 7 0
           (Modules.module_at 0 Examples.modules_core)).
  - vm_compute. reflexivity.
  - vm_compute. reflexivity.
  - vm_compute. reflexivity.
  - right. reflexivity.
Defined.

Module ModulesNames.
Import Modules ModulesFacts ModulesSpec.

Lemma copy_name_length n src dst : length (copy_name n src dst) = length dst.
Proof.
  revert n src. induction dst as [|d dst IH]; intros n src;
    [destruct n; reflexivity|].
  destruct n as [|n]; [reflexivity|]. cbn [copy_name].
  destruct src as [|c src]; [reflexivity|].
  destruct (Ascii.eqb c NUL); [reflexivity|]. cbn [length]. rewrite IH. reflexivity.
Qed.

(** A name copied by [module_load] is found by the comparison of
    [module_find_by_name]. *)
Lemma names_match_copy_name n src dst :
  NUL ∈ take n src -> (n < length dst)%nat ->
  names_match (S n) (copy_name n src dst) src = true.
Proof.
  revert src dst. induction n as [|n IH]; intros src dst Hnul Hlen.
  - rewrite take_0 in Hnul. apply elem_of_nil in Hnul. contradiction.
  - destruct src as [|c src]; [apply elem_of_nil in Hnul; contradiction|].
    destruct dst as [|d dst]; [cbn [length] in Hlen; lia|].
    cbn [copy_name]. destruct (Ascii.eqb c NUL) eqn:Hc.
    + apply Ascii.eqb_eq in Hc. subst c.
      cbn [names_match hd]. rewrite Ascii.eqb_refl. reflexivity.
    + cbn [names_match hd tl]. rewrite Ascii.eqb_refl, Hc. cbn [negb].
      apply IH.
      * cbn [take] in Hnul. apply elem_of_cons in Hnul as [Heq|Hin]; [|exact Hin].
        subst c. rewrite Ascii.eqb_refl in Hc. discriminate.
      * cbn [length] in Hlen. lia.
Qed.

Lemma names_sized_on_module i f s :
  (forall m, length (name (f m)) = length (name m)) ->
  names_sized s -> names_sized (on_module i f s).
Proof.
  intros Hf Hs. unfold names_sized, on_module. cbn [module_pool set_module_pool].
  apply Forall_update_at; [|exact Hs]. intros m Hm. rewrite Hf. exact Hm.
Qed.

Lemma names_sized_frame s s' :
  module_pool s' = module_pool s -> names_sized s -> names_sized s'.
Proof. unfold names_sized. intros ->. intros H; exact H. Qed.

Lemma names_sized_start mid init_result s :
  names_sized s -> names_sized (snd (module_start mid init_result s)).
Proof.
  intros Hs. unfold module_start. destruct (module_get mid s) as [i|]; [|exact Hs].
  cbv zeta. destruct (negb (state (module_at i s) =? MODULE_STATE_LOADED)); [exact Hs|].
  assert (H1 : names_sized (if init_func (module_at i s) =? 0 then s
                            else emit (Call (init_func (module_at i s))) s))
    by (destruct (init_func (module_at i s) =? 0); exact Hs).
  destruct (negb (init_func (module_at i s) =? 0) && negb (init_result =? 0));
    cbn [snd]; apply names_sized_on_module; try exact H1; intros m; reflexivity.
Qed.

Lemma names_sized_stop mid s : names_sized s -> names_sized (snd (module_stop mid s)).
Proof.
  intros Hs. unfold module_stop. destruct (module_get mid s) as [i|]; [|exact Hs].
  cbv zeta. destruct (negb (state (module_at i s) =? MODULE_STATE_RUNNING)); [exact Hs|].
  cbn [snd]. apply names_sized_on_module; [intros m; reflexivity|].
  destruct (exit_func (module_at i s) =? 0); exact Hs.
Qed.

Lemma names_sized_unload mid s : names_sized s -> names_sized (snd (module_unload mid s)).
Proof.
  intros Hs. unfold module_unload. destruct (module_get mid s) as [i|]; [|exact Hs].
  cbv zeta.
  destruct (negb (Z.land (flags (module_at i s)) MODULE_FLAG_CORE =? 0)); [exact Hs|].
  destruct (0 <? dependent_count (module_at i s)); [exact Hs|]. cbn [snd].
  match goal with
  | |- names_sized (module_free _ ?t) =>
      apply (names_sized_frame t);
      [unfold module_free; destruct (i <? length (module_pool t))%nat; reflexivity|]
  end.
  match goal with
  | |- names_sized (set_statistics _ ?t) => apply (names_sized_frame t); [reflexivity|]
  end.
  unfold free_if_set.
  repeat match goal with
         | |- names_sized (if ?b then ?t else emit _ ?t) =>
             apply (names_sized_frame t); [destruct b; reflexivity|]
         end.
  match goal with
  | |- names_sized (module_remove_from_list _ ?t) =>
      apply (names_sized_frame t); [reflexivity|]
  end.
  match goal with
  | |- names_sized (if ?b then ?t else emit _ ?t) =>
      apply (names_sized_frame t); [destruct b; reflexivity|]
  end.
  apply names_sized_on_module; [intros m; reflexivity | exact Hs].
Qed.

(** The state of the registry right after a successful [module_load]. *)
Lemma module_load_shape img size alloc init_result s :
  pool_shape s ->
  let r := module_load (Some img) size alloc init_result s in
  fst r <> 0 ->
  exists i m0,
    find_index negb (module_pool_used s) = Some i /\
    module_pool s !! i = Some m0 /\
    module_system_initialized s = true /\
    module_validate (Some img) size = true /\
    module_find_by_name (Some (h_name (header img))) s = None /\
    alloc <> 0 /\
    fst r = next_module_id s /\
    module_system_initialized (snd r) = true /\
    loaded_modules (snd r) = i :: loaded_modules s /\
    module_pool_used (snd r) = <[i:=true]> (module_pool_used s) /\
    (forall j, j <> i -> module_at j (snd r) = module_at j s) /\
    module_id (module_at i (snd r)) = next_module_id s /\
    name (module_at i (snd r)) =
      copy_name (Z.to_nat (MAX_MODULE_NAME - 1)) (h_name (header img)) (name m0) /\
    base_address (module_at i (snd r)) = alloc /\
    flags (module_at i (snd r)) = h_flags (header img).
Proof.
  intros Hshape r. subst r. unfold module_load.
  destruct (module_system_initialized s) eqn:Hinit; [|intros H; contradiction H; reflexivity].
  cbn [negb orb].
  destruct (size =? 0); [intros H; contradiction H; reflexivity|].
  destruct (module_validate (Some img) size) eqn:Hval; cbn [negb];
    [|intros H; contradiction H; reflexivity].
  destruct (module_find_by_name _ s) eqn:Hname; [intros H; contradiction H; reflexivity|].
  unfold module_allocate.
  destruct (find_index negb (module_pool_used s)) as [i|] eqn:Hi;
    [|intros H; contradiction H; reflexivity].
  cbv zeta.
  destruct (Z.eqb_spec alloc 0) as [|Halloc]; [intros H; contradiction H; reflexivity|].
  assert (Hm0 : exists m0, module_pool s !! i = Some m0).
  { apply lookup_lt_is_Some. rewrite Hshape. apply (find_index_lt _ _ _ Hi). }
  destruct Hm0 as (m0 & Hm0).
  cbn [next_module_id set_module_pool_used].
  match goal with
  | |- context [module_start _ init_result (on_module i ?f9 ?s8)] =>
      set (s9 := on_module i f9 s8)
  end.
  assert (Hpool9 : exists F, module_pool s9 = update_at i F (module_pool s) /\
            module_id (F m0) = next_module_id s /\
            name (F m0) = copy_name (Z.to_nat (MAX_MODULE_NAME - 1))
                            (h_name (header img)) (name m0) /\
            base_address (F m0) = alloc /\ flags (F m0) = h_flags (header img)).
  { eexists. split.
    - unfold s9, on_module. cbn [module_pool set_module_pool set_statistics emit
        module_add_to_list set_loaded_modules set_next_module_id set_module_pool_used].
      rewrite !update_at_update_at. reflexivity.
    - repeat split. }
  destruct Hpool9 as (F & Hpool9 & Hid & Hnm & Hbase & Hfl).
  assert (Hrest9 : module_system_initialized s9 = true /\
                   loaded_modules s9 = i :: loaded_modules s /\
                   module_pool_used s9 = <[i:=true]> (module_pool_used s))
    by (repeat split; exact Hinit).
  clearbody s9. cbn [fst snd]. intros _. exists i, m0.
  assert (Hfin : forall t,
            module_pool t = module_pool s9 \/
            (exists g, module_pool t = update_at i g (module_pool s9) /\
               forall m, module_id (g m) = module_id m /\ name (g m) = name m /\
                         base_address (g m) = base_address m /\ flags (g m) = flags m) ->
            (forall j, j <> i -> module_at j t = module_at j s) /\
            module_id (module_at i t) = next_module_id s /\
            name (module_at i t) =
              copy_name (Z.to_nat (MAX_MODULE_NAME - 1)) (h_name (header img)) (name m0) /\
            base_address (module_at i t) = alloc /\
            flags (module_at i t) = h_flags (header img)).
  { intros t [Ht|(g & Ht & Hg)]; unfold module_at; rewrite Ht, Hpool9.
    - split.
      + intros j Hj. rewrite update_at_lookup_ne by congruence. reflexivity.
      + rewrite (update_at_lookup_eq _ _ _ _ Hm0). cbn [default]. repeat split; assumption.
    - rewrite update_at_update_at. split.
      + intros j Hj. rewrite update_at_lookup_ne by congruence. reflexivity.
      + rewrite (update_at_lookup_eq _ _ _ _ Hm0). cbn [default]. unfold id.
        destruct (Hg (F m0)) as (-> & -> & -> & ->). repeat split; assumption. }
  destruct Hrest9 as (Hinit9 & Hlist9 & Hused9).
  repeat (split; [first [assumption | reflexivity]|]).
  match goal with
  | |- context [if ?b then snd (module_start _ _ _) else _] => destruct b
  end.
  - unfold module_start. destruct (module_get (next_module_id s) s9) as [k|] eqn:Hk.
    + cbv zeta. destruct (negb (state (module_at k s9) =? MODULE_STATE_LOADED)).
      * cbn [snd]. repeat (split; [assumption|]). apply Hfin. left. reflexivity.
      * match goal with
        | |- context [if ?c then (false, on_module k ?f1 ?t) else (true, on_module k ?f2 ?t)] =>
            assert (Hboth : forall (b : bool) f,
                      (forall m, module_id (f m) = module_id m /\ name (f m) = name m /\
                                 base_address (f m) = base_address m /\
                                 flags (f m) = flags m) ->
                      module_system_initialized (snd (b, on_module k f t)) = true /\
                      loaded_modules (snd (b, on_module k f t)) = i :: loaded_modules s /\
                      module_pool_used (snd (b, on_module k f t)) =
                        <[i:=true]> (module_pool_used s) /\
                      (forall j, j <> i ->
                         module_at j (snd (b, on_module k f t)) = module_at j s) /\
                      module_id (module_at i (snd (b, on_module k f t))) = next_module_id s /\
                      name (module_at i (snd (b, on_module k f t))) =
                        copy_name (Z.to_nat (MAX_MODULE_NAME - 1))
                          (h_name (header img)) (name m0) /\
                      base_address (module_at i (snd (b, on_module k f t))) = alloc /\
                      flags (module_at i (snd (b, on_module k f t))) = h_flags (header img));
            [|destruct c; apply Hboth; intros m; repeat split]
        end.
        intros b f Hf. cbn [snd].
        assert (Ht : module_pool
                       (if init_func (module_at k s9) =? 0 then s9
                        else emit (Call (init_func (module_at k s9))) s9) = module_pool s9)
          by (destruct (init_func (module_at k s9) =? 0); reflexivity).
        assert (Hr : module_system_initialized
                       (on_module k f (if init_func (module_at k s9) =? 0 then s9
                          else emit (Call (init_func (module_at k s9))) s9)) = true /\
                     loaded_modules
                       (on_module k f (if init_func (module_at k s9) =? 0 then s9
                          else emit (Call (init_func (module_at k s9))) s9)) =
                       i :: loaded_modules s /\
                     module_pool_used
                       (on_module k f (if init_func (module_at k s9) =? 0 then s9
                          else emit (Call (init_func (module_at k s9))) s9)) =
                       <[i:=true]> (module_pool_used s))
          by (destruct (init_func (module_at k s9) =? 0); repeat split; assumption).
        destruct Hr as (R1 & R2 & R3).
        repeat (split; [assumption|]).
        assert (k = i).
        { destruct (decide (k = i)) as [|Hne]; [assumption|]. exfalso.
          unfold module_get in Hk. rewrite Hinit9 in Hk. cbn [negb] in Hk.
          rewrite Hlist9 in Hk. cbn [List.find] in Hk.
          destruct (Hfin s9 (or_introl eq_refl)) as (_ & Hidi & _).
          rewrite Hidi, Z.eqb_refl in Hk. congruence. }
        subst k. apply Hfin. right. exists f. split; [|exact Hf].
        unfold on_module. cbn [module_pool set_module_pool]. rewrite Ht. reflexivity.
    + cbn [snd]. repeat (split; [assumption|]). apply Hfin. left. reflexivity.
  - repeat (split; [assumption|]). apply Hfin. left. reflexivity.
Qed.

End ModulesNames.

Module ModulesInv.
Import Modules ModulesFacts ModulesSpec ModulesSpec2 ModulesNames.

Lemma names_sized_load module_data size alloc init_result s :
  names_sized s -> names_sized (snd (module_load module_data size alloc init_result s)).
Proof.
  intros Hs. unfold module_load.
  destruct (negb (module_system_initialized s) || (size =? 0)); [exact Hs|].
  destruct module_data as [img|]; [|exact Hs].
  destruct (negb (module_validate (Some img) size)); [exact Hs|].
  destruct (module_find_by_name _ s); [exact Hs|].
  unfold module_allocate.
  destruct (find_index negb (module_pool_used s)) as [i|]; [|exact Hs].
  cbv zeta.
  match goal with
  | |- context [emit (Kmalloc ?t alloc) (on_module i ?f ?s2)] =>
      set (s3 := on_module i f s2); assert (H3 : names_sized s3)
  end.
  { unfold s3. apply names_sized_on_module; [|exact Hs].
    intros m. cbn [name]. apply copy_name_length. }
  destruct (alloc =? 0).
  { cbn [snd]. apply (names_sized_frame s3); [|exact H3].
    unfold count_load_error, module_free. cbn [module_pool emit set_statistics].
    destruct (i <? length (module_pool s3))%nat; reflexivity. }
  match goal with
  | |- context [module_start _ init_result (on_module i ?f9 (set_statistics ?st
          (module_add_to_list (Some i) (on_module i ?f6 ?s5))))] =>
      set (s9 := on_module i f9 (set_statistics st
                   (module_add_to_list (Some i) (on_module i f6 s5))));
      assert (H9 : names_sized s9)
  end.
  { unfold s9. apply names_sized_on_module; [intros m; reflexivity|].
    match goal with
    | |- names_sized (set_statistics _ (module_add_to_list _ ?s6)) =>
        apply (names_sized_frame s6); [reflexivity|]
    end.
    apply names_sized_on_module; [intros m; reflexivity | exact H3]. }
  destruct (negb (Z.land (flags (module_at i s9)) MODULE_FLAG_AUTO_START =? 0)).
  - cbn [snd]. apply names_sized_start. exact H9.
  - exact H9.
Qed.

Lemma listed_frame s s' :
  loaded_modules s' = loaded_modules s -> module_pool_used s' = module_pool_used s ->
  listed_in_use s -> listed_in_use s'.
Proof. unfold listed_in_use. intros -> ->. intros H; exact H. Qed.

Lemma listed_start mid init_result s :
  listed_in_use s -> listed_in_use (snd (module_start mid init_result s)).
Proof.
  intros Hs. unfold module_start. destruct (module_get mid s) as [i|]; [|exact Hs].
  cbv zeta. destruct (negb (state (module_at i s) =? MODULE_STATE_LOADED)); [exact Hs|].
  destruct (negb (init_func (module_at i s) =? 0) && negb (init_result =? 0));
    cbn [snd]; (apply (listed_frame s); [| |exact Hs]);
    destruct (init_func (module_at i s) =? 0); reflexivity.
Qed.

Lemma listed_stop mid s : listed_in_use s -> listed_in_use (snd (module_stop mid s)).
Proof.
  intros Hs. unfold module_stop. destruct (module_get mid s) as [i|]; [|exact Hs].
  cbv zeta. destruct (negb (state (module_at i s) =? MODULE_STATE_RUNNING)); [exact Hs|].
  cbn [snd]. apply (listed_frame s); [| |exact Hs];
    destruct (exit_func (module_at i s) =? 0); reflexivity.
Qed.

(** What [module_unload] does to the list and the pool flags when it goes
    through. *)
Lemma unload_lists mid s i :
  module_get mid s = Some i -> ~ pinned (module_at i s) ->
  let r := module_unload mid s in
  fst r = true /\
  loaded_modules (snd r) = List.filter (fun j => negb (j =? i)%nat) (loaded_modules s) /\
  module_pool_used (snd r) =
    (if (i <? length (module_pool s))%nat then <[i:=false]> (module_pool_used s)
     else module_pool_used s) /\
  module_count (snd r) = u32 (module_count s - 1) /\
  module_pool (snd r) = update_at i (set_state MODULE_STATE_UNLOADING) (module_pool s) /\
  module_system_initialized (snd r) = module_system_initialized s /\
  modules_unloaded (statistics (snd r)) = u32 (modules_unloaded (statistics s) + 1) /\
  total_memory_used (statistics (snd r)) =
    u64 (total_memory_used (statistics s) - memory_allocated (module_at i s)) /\
  (base_address (module_at i s) <> 0 ->
   Kfree (base_address (module_at i s)) ∈ effects (snd r)).
Proof.
  intros Hget Hpin r. subst r. unfold module_unload. rewrite Hget. cbv zeta.
  unfold pinned in Hpin.
  destruct (Z.eqb_spec (Z.land (flags (module_at i s)) MODULE_FLAG_CORE) 0) as [Hc|Hc];
    [|exfalso; apply Hpin; left; exact Hc].
  destruct (Z.ltb_spec 0 (dependent_count (module_at i s))) as [Hd|Hd];
    [exfalso; apply Hpin; right; exact Hd|].
  cbn [negb fst snd]. unfold module_free, free_if_set.
  set (m := module_at i s).
  destruct (exit_func m =? 0), (Z.eqb_spec (base_address m) 0),
    (exported_symbols m =? 0), (dependencies m =? 0);
    cbn [module_pool set_statistics emit module_remove_from_list set_loaded_modules
         on_module set_module_pool];
    rewrite update_at_length;
    destruct (i <? length (module_pool s))%nat;
    cbn [loaded_modules module_pool_used module_count module_pool
         module_system_initialized statistics effects set_module_pool_used
         set_statistics emit module_remove_from_list set_loaded_modules on_module
         set_module_pool modules_unloaded total_memory_used set_load_stats];
    repeat split; try reflexivity; intros Hb; try contradiction;
    repeat first [apply list_elem_of_here | apply list_elem_of_further].
Qed.

Lemma listed_unload mid s :
  listed_in_use s -> listed_in_use (snd (module_unload mid s)).
Proof.
  intros Hs. destruct (module_get mid s) as [i|] eqn:Hget;
    [|unfold module_unload; rewrite Hget; exact Hs].
  assert (Hdec : pinned (module_at i s) \/ ~ pinned (module_at i s)).
  { unfold pinned.
    destruct (Z.eq_dec (Z.land (flags (module_at i s)) MODULE_FLAG_CORE) 0);
      destruct (Z_lt_dec 0 (dependent_count (module_at i s))); tauto. }
  destruct Hdec as [Hpin|Hpin].
  - rewrite (unload_pinned _ _ _ Hget Hpin). exact Hs.
  - destruct (unload_lists mid s i Hget Hpin) as (_ & Hl & Hu & _).
    unfold listed_in_use. rewrite Hl, Hu. unfold listed_in_use in Hs.
    rewrite Forall_forall in *. intros j Hj.
    apply list_elem_of_In, filter_In in Hj as [Hj Hne].
    apply negb_true_iff, Nat.eqb_neq in Hne.
    destruct (i <? length (module_pool s))%nat.
    + rewrite list_lookup_insert_ne by congruence. apply Hs, list_elem_of_In, Hj.
    + apply Hs, list_elem_of_In, Hj.
Qed.

End ModulesInv.

Module ModulesInv2.
Import Modules ModulesFacts ModulesSpec ModulesSpec2 ModulesNames ModulesInv.

Lemma insert_back (u : list bool) i :
  u !! i = Some false -> <[i:=false]> (<[i:=true]> u) = u.
Proof.
  intros H. rewrite list_insert_insert_eq. apply list_insert_id. exact H.
Qed.

Lemma validate_size img size : module_validate (Some img) size = true -> size <> 0.
Proof.
  unfold module_validate. destruct (Z.ltb_spec size SIZEOF_MODULE_HEADER); [discriminate|].
  intros _. unfold SIZEOF_MODULE_HEADER in *. lia.
Qed.

Lemma find_ext_in {A : Type} (p q : A -> bool) (l : list A) :
  (forall x, x ∈ l -> p x = q x) -> List.find p l = List.find q l.
Proof.
  induction l as [|a l IH]; intros H; [reflexivity|]. cbn [List.find].
  rewrite (H a) by apply list_elem_of_here. destruct (q a); [reflexivity|].
  apply IH. intros x Hx. apply H. apply list_elem_of_further. exact Hx.
Qed.

Lemma module_start_lists mid init_result s :
  loaded_modules (snd (module_start mid init_result s)) = loaded_modules s /\
  module_pool_used (snd (module_start mid init_result s)) = module_pool_used s.
Proof.
  unfold module_start. destruct (module_get mid s) as [k|]; [|split; reflexivity].
  cbv zeta. destruct (negb (state (module_at k s) =? MODULE_STATE_LOADED));
    [split; reflexivity|].
  destruct (init_func (module_at k s) =? 0), (init_result =? 0); split; reflexivity.
Qed.

(** [module_load] when the allocator has no memory for the module. *)
Lemma load_alloc_failed img size init_result s i :
  pool_shape s ->
  module_system_initialized s = true ->
  module_validate (Some img) size = true ->
  module_find_by_name (Some (h_name (header img))) s = None ->
  find_index negb (module_pool_used s) = Some i ->
  let r := module_load (Some img) size 0 init_result s in
  fst r = 0 /\
  loaded_modules (snd r) = loaded_modules s /\
  module_pool_used (snd r) = module_pool_used s /\
  module_count (snd r) = module_count s /\
  module_system_initialized (snd r) = true /\
  next_module_id (snd r) = u32 (next_module_id s + 1) /\
  load_errors (statistics (snd r)) = u32 (load_errors (statistics s) + 1) /\
  (forall j, j <> i -> module_at j (snd r) = module_at j s) /\
  (exists total, effects (snd r) = Kmalloc total 0 :: effects s).
Proof.
  intros Hshape Hinit Hval Hname Hi r. subst r. unfold module_load.
  rewrite Hinit, Hval, Hname. cbn [negb orb].
  destruct (Z.eqb_spec size 0) as [H0|_];
    [exfalso; apply (validate_size _ _ Hval); exact H0|].
  unfold module_allocate. rewrite Hi. cbv zeta. rewrite Z.eqb_refl.
  destruct (find_index_Some _ _ _ Hi) as (b & Hb & Hneg).
  apply negb_true_iff in Hneg. subst b.
  match goal with
  | |- context [emit (Kmalloc ?t 0) (on_module i ?f ?s2)] =>
      set (F := f); set (s3 := on_module i F s2); set (tot := t)
  end.
  assert (H3 : loaded_modules s3 = loaded_modules s /\
               module_pool_used s3 = <[i:=true]> (module_pool_used s) /\
               module_count s3 = module_count s /\
               module_system_initialized s3 = true /\
               next_module_id s3 = u32 (next_module_id s + 1) /\
               statistics s3 = statistics s /\
               module_pool s3 = update_at i F (module_pool s) /\
               effects s3 = effects s)
    by (repeat split; exact Hinit).
  clearbody s3. destruct H3 as (A1 & A2 & A3 & A4 & A5 & A6 & A7 & A8).
  cbn [fst snd]. unfold count_load_error, module_free.
  assert (Hlt : (i <? length (module_pool (emit (Kmalloc tot 0) s3)))%nat = true).
  { apply Nat.ltb_lt. cbn [module_pool emit]. rewrite A7, update_at_length, Hshape.
    apply (lookup_lt_Some _ _ _ Hb). }
  rewrite Hlt.
  cbn [loaded_modules module_pool_used module_count module_system_initialized
       next_module_id statistics effects set_statistics set_module_pool_used emit
       load_errors set_load_errors].
  rewrite A1, A2, A3, A4, A5, A6, A8, (insert_back _ _ Hb).
  repeat (split; [reflexivity|]). split.
  - intros j Hj. unfold module_at. cbn [module_pool set_statistics set_module_pool_used emit].
    rewrite A7, update_at_lookup_ne by congruence. reflexivity.
  - exists tot. reflexivity.
Qed.

(** What [module_load] does to the list and the pool flags. *)
Lemma module_load_lists module_data size alloc init_result s :
  pool_shape s ->
  let r := module_load module_data size alloc init_result s in
  (loaded_modules (snd r) = loaded_modules s /\
   module_pool_used (snd r) = module_pool_used s) \/
  (exists i, find_index negb (module_pool_used s) = Some i /\
             loaded_modules (snd r) = i :: loaded_modules s /\
             module_pool_used (snd r) = <[i:=true]> (module_pool_used s)).
Proof.
  intros Hshape r.
  destruct (module_system_initialized s) eqn:Hinit;
    [|left; subst r; unfold module_load; rewrite Hinit; split; reflexivity].
  destruct module_data as [img|];
    [|left; subst r; unfold module_load; rewrite Hinit;
      destruct (size =? 0); split; reflexivity].
  destruct (module_validate (Some img) size) eqn:Hval;
    [|left; subst r; unfold module_load; rewrite Hinit, Hval;
      destruct (size =? 0); split; reflexivity].
  destruct (module_find_by_name (Some (h_name (header img))) s) eqn:Hname;
    [left; subst r; unfold module_load; rewrite Hinit, Hval, Hname;
     destruct (size =? 0); split; reflexivity|].
  destruct (find_index negb (module_pool_used s)) as [i|] eqn:Hi;
    [|left; subst r; unfold module_load, module_allocate;
      rewrite Hinit, Hval, Hname, Hi; destruct (size =? 0); split; reflexivity].
  destruct (Z.eq_dec alloc 0) as [->|Halloc].
  - left. destruct (load_alloc_failed img size init_result s i Hshape Hinit Hval Hname Hi)
      as (_ & H1 & H2 & _).
    split; assumption.
  - right. exists i. split; [reflexivity|]. subst r. unfold module_load.
    rewrite Hinit, Hval, Hname. cbn [negb orb].
    destruct (Z.eqb_spec size 0) as [H0|_];
      [exfalso; apply (validate_size _ _ Hval); exact H0|].
    unfold module_allocate. rewrite Hi. cbv zeta.
    destruct (Z.eqb_spec alloc 0) as [|_]; [contradiction|].
    match goal with
    | |- context [if ?b then snd (module_start ?m ?r ?t) else ?t] =>
        set (s9 := t);
        assert (H9 : loaded_modules s9 = i :: loaded_modules s /\
                     module_pool_used s9 = <[i:=true]> (module_pool_used s))
          by (split; reflexivity);
        clearbody s9
    end.
    match goal with
    | |- context [if ?b then snd (module_start ?m ?r s9) else s9] =>
        destruct (module_start_lists m r s9) as [L1 L2];
        destruct b; cbn [snd]; [rewrite L1, L2|]; exact H9
    end.
Qed.

Lemma listed_load module_data size alloc init_result s :
  pool_shape s -> listed_in_use s ->
  listed_in_use (snd (module_load module_data size alloc init_result s)).
Proof.
  intros Hshape Hs.
  destruct (module_load_lists module_data size alloc init_result s Hshape)
    as [[Hl Hu]|(i & Hi & Hl & Hu)]; unfold listed_in_use; rewrite Hl, Hu.
  - exact Hs.
  - pose proof (find_index_lt _ _ _ Hi) as Hlt. constructor.
    + apply list_lookup_insert_eq. exact Hlt.
    + unfold listed_in_use in Hs. rewrite Forall_forall in *. intros j Hj.
      destruct (decide (j = i)) as [->|Hne].
      * apply list_lookup_insert_eq. exact Hlt.
      * rewrite list_lookup_insert_ne by congruence. apply Hs. exact Hj.
Qed.

Lemma registry_ok_run c s : registry_ok s -> registry_ok (run c s).
Proof.
  intros (H1 & H2 & H3). split; [apply pool_shape_run; exact H1|].
  destruct c; cbn [run].
  - split; [exact H2|]. unfold listed_in_use, modules_init. cbn [loaded_modules].
    constructor.
  - split; [apply names_sized_load; exact H2 | apply listed_load; assumption].
  - split; [apply names_sized_unload; exact H2 | apply listed_unload; exact H3].
  - split; [apply names_sized_start; exact H2 | apply listed_start; exact H3].
  - split; [apply names_sized_stop; exact H2 | apply listed_stop; exact H3].
  - unfold module_resolve_symbol.
    destruct (negb (module_system_initialized s)); [split; assumption|].
    destruct symbol_name; split; assumption.
Qed.

Lemma registry_ok_boot : registry_ok boot_state.
Proof.
  split; [|split].
  - unfold pool_shape, boot_state. cbn [module_pool module_pool_used].
    rewrite !length_replicate. reflexivity.
  - unfold names_sized, boot_state. cbn [module_pool]. apply Forall_replicate.
    unfold zero_module. cbn [name]. apply length_replicate.
  - unfold listed_in_use, boot_state. cbn [loaded_modules]. constructor.
Qed.

Lemma reachable_registry_ok s : reachable s -> registry_ok s.
Proof.
  induction 1 as [|s c _ IH]; [apply registry_ok_boot | apply registry_ok_run; exact IH].
Qed.

End ModulesInv2.

(** X13.  A module that has been loaded is found, by id and by name.  In a
    reachable state, when [module_load] succeeds for an image whose header
    name is terminated within 63 characters, the id it returns and the name
    in the header both lead to the pool slot the module was given; that slot
    is marked used, heads the list of loaded modules, and records the
    address the allocator returned and the flags of the header. *)
Theorem module_load_then_lookup
  (s : Modules.module_system_t) (img : Modules.module_image)
  (size alloc init_result : Z) :
  Modules.reachable s ->
  ModulesSpec.terminated (Modules.h_name (Modules.header img)) ->
  let r := Modules.module_load (Some img) size alloc init_result s in
  fst r <> 0 ->
  exists i,
    Modules.module_get (fst r) (snd r) = Some i /\
    Modules.module_find_by_name (Some (Modules.h_name (Modules.header img))) (snd r)
      = Some i /\
    Modules.module_pool_used (snd r) !! i = Some true /\
    Modules.loaded_modules (snd r) = i :: Modules.loaded_modules s /\
    Modules.base_address (Modules.module_at i (snd r)) = alloc /\
    Modules.flags (Modules.module_at i (snd r)) =
      Modules.h_flags (Modules.header img).
Proof.
  intros Hreach Hterm r Hok.
  destruct (ModulesInv2.reachable_registry_ok s Hreach) as (Hshape & Hnames & _).
  destruct (ModulesNames.module_load_shape img size alloc init_result s Hshape Hok)
    as (i & m0 & Hi & Hm0 & _ & _ & _ & _ & Hid & Hinit & Hlist & Hused & _ & Hmid
        & Hname & Hbase & Hflags).
  fold r in Hid, Hinit, Hlist, Hused, Hmid, Hname, Hbase, Hflags.
  exists i. split; [|split; [|split; [|split; [|split]]]]; try assumption.
  - unfold Modules.module_get. rewrite Hinit, Hlist. cbn [negb List.find].
    rewrite Hmid, Hid, Z.eqb_refl. reflexivity.
  - unfold Modules.module_find_by_name. rewrite Hinit, Hlist. cbn [negb List.find].
    rewrite Hname.
    change (Z.to_nat Modules.MAX_MODULE_NAME)
      with (S (Z.to_nat (Modules.MAX_MODULE_NAME - 1))).
    rewrite ModulesNames.names_match_copy_name; [reflexivity | exact Hterm |].
    unfold ModulesSpec.names_sized in Hnames. rewrite Forall_lookup in Hnames.
    rewrite (Hnames _ _ Hm0). unfold Modules.MAX_MODULE_NAME.
    apply Nat2Z.inj_lt. rewrite !Z2Nat.id by lia. lia.
  - rewrite Hused. apply list_lookup_insert_eq. apply (find_index_lt _ _ _ Hi).
Qed.

(** X13 at the load of [mod_user] into the initialised registry. *)
Lemma module_load_then_lookup_witness :
  let s := Modules.run Modules.CModulesInit Modules.boot_state in
  let img := Examples.mod_user_image in
  let r := Modules.module_load (Some img) 578 0x100000 0 s in
  exists i,
    Modules.module_get (fst r) (snd r) = Some i /\
    Modules.module_find_by_name (Some (Modules.h_name (Modules.header img))) (snd r)
      = Some i /\
    Modules.module_pool_used (snd r) !! i = Some true /\
    Modules.loaded_modules (snd r) = i :: Modules.loaded_modules s /\
    Modules.base_address (Modules.module_at i (snd r)) = 0x100000 /\
    Modules.flags (Modules.module_at i (snd r)) =
      Modules.h_flags (Modules.header img).
Proof.
  intros s img.
  apply (module_load_then_lookup s img 578 0x100000 0).
  - apply Modules.reachable_step. apply Modules.reachable_boot.
  - unfold ModulesSpec.terminated. vm_compute.
    repeat first [apply list_elem_of_here | apply list_elem_of_further].
  - vm_compute. discriminate.
Defined.

(** X14.  A module is not loaded twice under one name.  After a successful
    [module_load] of an image whose header name is terminated within 63
    characters, loading the same image again returns 0 and changes nothing,
    whatever the allocator would return. *)
Theorem module_load_twice_refused
  (s : Modules.module_system_t) (img : Modules.module_image)
  (size alloc init_result alloc' init_result' : Z) :
  Modules.reachable s ->
  ModulesSpec.terminated (Modules.h_name (Modules.header img)) ->
  let r := Modules.module_load (Some img) size alloc init_result s in
  fst r <> 0 ->
  Modules.module_load (Some img) size alloc' init_result' (snd r) = (0, snd r).
Proof.
  intros Hreach Hterm r Hok.
  destruct (ModulesInv2.reachable_registry_ok s Hreach) as (Hshape & Hnames & _).
  destruct (ModulesNames.module_load_shape img size alloc init_result s Hshape Hok)
    as (i & m0 & Hi & Hm0 & _ & Hval & _ & _ & _ & Hinit & Hlist & _ & _ & _
        & Hname & _).
  fold r in Hinit, Hlist, Hname.
  assert (Hfind : Modules.module_find_by_name
                    (Some (Modules.h_name (Modules.header img))) (snd r) = Some i).
  { unfold Modules.module_find_by_name. rewrite Hinit, Hlist. cbn [negb List.find].
    rewrite Hname.
    change (Z.to_nat Modules.MAX_MODULE_NAME)
      with (S (Z.to_nat (Modules.MAX_MODULE_NAME - 1))).
    rewrite ModulesNames.names_match_copy_name; [reflexivity | exact Hterm |].
    unfold ModulesSpec.names_sized in Hnames. rewrite Forall_lookup in Hnames.
    rewrite (Hnames _ _ Hm0). unfold Modules.MAX_MODULE_NAME.
    apply Nat2Z.inj_lt. rewrite !Z2Nat.id by lia. lia. }
  unfold Modules.module_load at 1. rewrite Hinit, Hval, Hfind. cbn [negb orb].
  destruct (Z.eqb_spec size 0) as [H0|_]; [|reflexivity].
  exfalso. apply (ModulesInv2.validate_size _ _ Hval). exact H0.
Qed.

(** X14 at a second load of [mod_user]. *)
Lemma module_load_twice_refused_witness :
  let s := Modules.run Modules.CModulesInit Modules.boot_state in
  let r := Modules.module_load (Some Examples.mod_user_image) 578 0x100000 0 s in
  Modules.module_load (Some Examples.mod_user_image) 578 0x180000 0 (snd r)
  = (0, snd r).
Proof.
  intros s.
  apply (module_load_twice_refused s Examples.mod_user_image 578 0x100000 0 0x180000 0).
  - apply Modules.reachable_step. apply Modules.reachable_boot.
  - unfold ModulesSpec.terminated. vm_compute.
    repeat first [apply list_elem_of_here | apply list_elem_of_further].
  - vm_compute. discriminate.
Defined.

(** X15.  Unloading releases what loading took.  In a reachable state, for
    a loaded module that neither carries the Core flag nor has dependents,
    [module_unload] returns true; the module's slot is off the list of
    loaded modules and marked free, the module count has dropped by one, the
    record is left in state Unloading, the statistics count one more unload
    and the module's memory less, and the memory of the module, if it has
    any, was handed to [kfree].  The lookup by id no longer yields the
    slot. *)
Theorem module_unload_releases
  (s : Modules.module_system_t) (mid : Z) (i : nat) :
  Modules.reachable s ->
  Modules.module_get mid s = Some i ->
  ~ Modules.pinned (Modules.module_at i s) ->
  let r := Modules.module_unload mid s in
  fst r = true /\
  (i ∉ Modules.loaded_modules (snd r)) /\
  Modules.module_get mid (snd r) <> Some i /\
  Modules.module_pool_used (snd r) !! i = Some false /\
  Modules.module_count (snd r) = u32 (Modules.module_count s - 1) /\
  Modules.state_at i (snd r) = Modules.MODULE_STATE_UNLOADING /\
  Modules.modules_unloaded (Modules.statistics (snd r)) =
    u32 (Modules.modules_unloaded (Modules.statistics s) + 1) /\
  Modules.total_memory_used (Modules.statistics (snd r)) =
    u64 (Modules.total_memory_used (Modules.statistics s)
         - Modules.memory_allocated (Modules.module_at i s)) /\
  (Modules.base_address (Modules.module_at i s) <> 0 ->
   Kfree (Modules.base_address (Modules.module_at i s)) ∈ Modules.effects (snd r)).
Proof.
  intros Hreach Hget Hpin r.
  destruct (ModulesInv2.reachable_registry_ok s Hreach) as (Hshape & _ & Hlisted).
  destruct (ModulesInv.unload_lists mid s i Hget Hpin)
    as (Hok & Hl & Hu & Hc & Hp & Hinit & Hun & Hmem & Hfree).
  fold r in Hok, Hl, Hu, Hc, Hp, Hinit, Hun, Hmem, Hfree.
  destruct (ModulesMore.module_get_slot _ _ _ Hget) as [Hin _].
  assert (Hused : Modules.module_pool_used s !! i = Some true).
  { unfold ModulesSpec2.listed_in_use in Hlisted. rewrite Forall_forall in Hlisted.
    apply Hlisted. exact Hin. }
  assert (Hlt : (i < length (Modules.module_pool s))%nat).
  { rewrite Hshape. apply (lookup_lt_Some _ _ _ Hused). }
  assert (Hnotin : i ∉ Modules.loaded_modules (snd r)).
  { rewrite Hl. intros Hi. apply list_elem_of_In, filter_In in Hi as [_ Hi].
    rewrite Nat.eqb_refl in Hi. discriminate. }
  split; [exact Hok|]. split; [exact Hnotin|]. split.
  { intros Hget'. apply Hnotin. apply (ModulesMore.module_get_slot _ _ _ Hget'). }
  split.
  { rewrite Hu. apply Nat.ltb_lt in Hlt. rewrite Hlt.
    apply list_lookup_insert_eq. rewrite <- Hshape. apply Nat.ltb_lt. exact Hlt. }
  split; [exact Hc|]. split.
  { unfold Modules.state_at, Modules.module_at. rewrite Hp.
    destruct (lookup_lt_is_Some_2 _ _ Hlt) as [m Hm].
    rewrite (update_at_lookup_eq _ _ _ _ Hm). reflexivity. }
  split; [exact Hun|]. split; [exact Hmem | exact Hfree].
Qed.

(** X15 at the unloading of [mod_user] from the registry it was loaded
    into. *)
Lemma module_unload_releases_witness :
  let s := Modules.run Examples.load_mod_user
             (Modules.run Modules.CModulesInit Modules.boot_state) in
  let r := Modules.module_unload 1 s in
  fst r = true /\
  (0%nat ∉ Modules.loaded_modules (snd r)) /\
  Modules.module_get 1 (snd r) <> Some 0%nat /\
  Modules.module_pool_used (snd r) !! 0%nat = Some false /\
  Modules.module_count (snd r) = u32 (Modules.module_count s - 1) /\
  Modules.state_at 0 (snd r) = Modules.MODULE_STATE_UNLOADING /\
  Modules.modules_unloaded (Modules.statistics (snd r)) =
    u32 (Modules.modules_unloaded (Modules.statistics s) + 1) /\
  Modules.total_memory_used (Modules.statistics (snd r)) =
    u64 (Modules.total_memory_used (Modules.statistics s)
         - Modules.memory_allocated (Modules.module_at 0 s)) /\
  (Modules.base_address (Modules.module_at 0 s) <> 0 ->
   Kfree (Modules.base_address (Modules.module_at 0 s)) ∈ Modules.effects (snd r)).
Proof.
  intros s.
  apply (module_unload_releases s 1 0).
  - apply Modules.reachable_step. apply Modules.reachable_step.
    apply Modules.reachable_boot.
  - vm_compute. reflexivity.
  - unfold Modules.pinned. vm_compute. intros [H|H]; [apply H; reflexivity | discriminate H].
Defined.

(** X17.  A load that fails for want of memory leaves the registry as it
    was, but for a module id.  In a reachable, initialised state, for an
    image that validates, whose name is not loaded, with a free pool slot,
    when [kmalloc] returns [NULL], [module_load] returns 0; the list of
    loaded modules, the pool flags and the module count are unchanged and
    every id looks up what it did before; one load error is counted and one
    module id has been used up. *)
Theorem module_load_without_memory
  (s : Modules.module_system_t) (img : Modules.module_image)
  (size init_result : Z) (i : nat) :
  Modules.reachable s ->
  Modules.module_system_initialized s = true ->
  Modules.module_validate (Some img) size = true ->
  Modules.module_find_by_name (Some (Modules.h_name (Modules.header img))) s = None ->
  find_index negb (Modules.module_pool_used s) = Some i ->
  let r := Modules.module_load (Some img) size 0 init_result s in
  fst r = 0 /\
  Modules.loaded_modules (snd r) = Modules.loaded_modules s /\
  Modules.module_pool_used (snd r) = Modules.module_pool_used s /\
  Modules.module_count (snd r) = Modules.module_count s /\
  (forall mid, Modules.module_get mid (snd r) = Modules.module_get mid s) /\
  Modules.load_errors (Modules.statistics (snd r)) =
    u32 (Modules.load_errors (Modules.statistics s) + 1) /\
  Modules.next_module_id (snd r) = u32 (Modules.next_module_id s + 1).
Proof.
  intros Hreach Hinit Hval Hname Hi r.
  destruct (ModulesInv2.reachable_registry_ok s Hreach) as (Hshape & _ & Hlisted).
  destruct (ModulesInv2.load_alloc_failed img size init_result s i Hshape Hinit Hval
              Hname Hi) as (H0 & Hl & Hu & Hc & Hinit' & Hnext & Herr & Hoth & _).
  fold r in H0, Hl, Hu, Hc, Hinit', Hnext, Herr, Hoth.
  repeat (split; [assumption|]). split; [|split; assumption].
  intros mid. unfold Modules.module_get. rewrite Hinit', Hinit, Hl. cbn [negb].
  apply ModulesInv2.find_ext_in. intros j Hj.
  rewrite Hoth; [reflexivity|]. intros ->.
  unfold ModulesSpec2.listed_in_use in Hlisted. rewrite Forall_forall in Hlisted.
  specialize (Hlisted _ Hj).
  destruct (find_index_Some _ _ _ Hi) as (b & Hb & Hneg). rewrite Hb in Hlisted.
  injection Hlisted as ->. discriminate.
Qed.

(** X17 at the load of [mod_user] beside [mod_core] when no memory is
    left. *)
Lemma module_load_without_memory_witness :
  let s := Examples.modules_core in
  let r := Modules.module_load (Some Examples.mod_user_image) 578 0 0 s in
  fst r = 0 /\
  Modules.loaded_modules (snd r) = Modules.loaded_modules s /\
  Modules.module_pool_used (snd r) = Modules.module_pool_used s /\
  Modules.module_count (snd r) = Modules.module_count s /\
  (forall mid, Modules.module_get mid (snd r) = Modules.module_get mid s) /\
  Modules.load_errors (Modules.statistics (snd r)) =
    u32 (Modules.load_errors (Modules.statistics s) + 1) /\
  Modules.next_module_id (snd r) = u32 (Modules.next_module_id s + 1).
Proof.
  apply (module_load_without_memory Examples.modules_core Examples.mod_user_image
           578 0 1).
  - unfold Examples.modules_core.
    apply Modules.reachable_step. apply Modules.reachable_step.
    apply Modules.reachable_boot.
  - vm_compute. reflexivity.
  - vm_compute. reflexivity.
  - vm_compute. reflexivity.
  - vm_compute. reflexivity.
Defined.

(** * Further properties of the actor scheduler *)

(** ** Table sizes and the clock *)

Module SchedulerShape.
Import Scheduler SchedulerFacts SchedulerSpec.

Lemma steady_refl s : steady s s.
Proof. repeat split. Qed.

Lemma steady_trans s1 s2 s3 : steady s1 s2 -> steady s2 s3 -> steady s1 s3.
Proof.
  unfold steady. intros H1 H2. decompose [and] H1. decompose [and] H2.
  repeat split; congruence.
Qed.

Ltac steady_now :=
  unfold steady, on_actor, on_statistics;
  cbn [actors actor_pool actor_pool_used message_pool message_pool_used tick_count
       current_timeslice set_actor_pool set_actor_table set_ready_queue
       set_current_actor set_clock set_statistics set_messages emit];
  rewrite ?length_insert, ?update_at_length; repeat split; reflexivity.

Lemma steady_on_actor i f s : steady s (on_actor i f s).
Proof. steady_now. Qed.

Lemma steady_on_statistics f s : steady s (on_statistics f s).
Proof. steady_now. Qed.

Lemma steady_set_ready_queue s q : steady s (set_ready_queue s q).
Proof. steady_now. Qed.

Lemma steady_set_current_actor s c : steady s (set_current_actor s c).
Proof. steady_now. Qed.

Lemma steady_set_enabled s en :
  steady s (set_clock s en (tick_count s) (current_timeslice s)).
Proof. steady_now. Qed.

Lemma steady_emit s e : steady s (emit s e).
Proof. steady_now. Qed.

Lemma steady_set_used s i b :
  steady s (set_messages s (message_pool s) (<[i:=b]> (message_pool_used s))).
Proof. steady_now. Qed.

Lemma steady_set_message s i m :
  steady s (set_messages s (<[i:=m]> (message_pool s)) (message_pool_used s)).
Proof. steady_now. Qed.

Lemma steady_set_flag s i b :
  steady s (set_actor_table s (actors s) (<[i:=b]> (actor_pool_used s))).
Proof. steady_now. Qed.

Lemma steady_set_entry s i x :
  steady s (set_actor_table s (<[i:=x]> (actors s)) (actor_pool_used s)).
Proof. steady_now. Qed.

Lemma steady_set_entry_flag s i x b :
  steady s (set_actor_table s (<[i:=x]> (actors s)) (<[i:=b]> (actor_pool_used s))).
Proof. steady_now. Qed.

(** Peel the outermost update off the state on the right. *)
Ltac steady_step :=
  lazymatch goal with
  | |- steady ?s ?s => apply steady_refl
  | |- steady ?s (on_actor _ _ ?t) =>
      apply (steady_trans s t); [| apply steady_on_actor]
  | |- steady ?s (on_statistics _ ?t) =>
      apply (steady_trans s t); [| apply steady_on_statistics]
  | |- steady ?s (set_ready_queue ?t _) =>
      apply (steady_trans s t); [| apply steady_set_ready_queue]
  | |- steady ?s (set_current_actor ?t _) =>
      apply (steady_trans s t); [| apply steady_set_current_actor]
  | |- steady ?s (set_clock ?t _ _ _) =>
      apply (steady_trans s t); [| apply steady_set_enabled]
  | |- steady ?s (emit ?t _) =>
      apply (steady_trans s t); [| apply steady_emit]
  | |- steady ?s (set_messages ?t _ _) =>
      apply (steady_trans s t);
      [| first [apply steady_set_used | apply steady_set_message]]
  | |- steady ?s (set_actor_table ?t _ _) =>
      apply (steady_trans s t);
      [| first [apply steady_set_flag | apply steady_set_entry
               | apply steady_set_entry_flag]]
  end.

Ltac steady_case :=
  match goal with
  | |- steady _ (match ?x with _ => _ end) => destruct x
  end.

Ltac steady_auto := repeat first [steady_step | steady_case].

Lemma steady_add_to_ready_queue a s : steady s (scheduler_add_to_ready_queue a s).
Proof. unfold scheduler_add_to_ready_queue. cbv zeta. steady_auto. Qed.

Lemma steady_remove_from_ready_queue a s :
  steady s (scheduler_remove_from_ready_queue a s).
Proof.
  unfold scheduler_remove_from_ready_queue. destruct a as [i|]; [|apply steady_refl].
  cbv zeta. steady_step. steady_step.
  match goal with
  | |- steady s (match next (actor_at i ?s1) with _ => _ end) =>
      assert (H1 : steady s s1) by steady_auto
  end.
  steady_case; [steady_step|]; exact H1.
Qed.

Lemma steady_context_switch a s : steady s (scheduler_context_switch a s).
Proof.
  unfold scheduler_context_switch.
  destruct (ptr_eqb (current_actor s) a); [apply steady_refl|]. cbv zeta.
  assert (H1 : steady s (match current_actor s with
                         | Some c =>
                             if state (actor_at c s) =? ACTOR_STATE_RUNNING
                             then on_actor c (fun a => set_state a ACTOR_STATE_READY) s
                             else s
                         | None => s
                         end)) by steady_auto.
  destruct a as [n|]; [|exact H1].
  eapply steady_trans; [|apply steady_remove_from_ready_queue].
  steady_step. steady_step. exact H1.
Qed.

Lemma steady_schedule s : steady s (scheduler_schedule s).
Proof.
  unfold scheduler_schedule. destruct (negb (scheduler_enabled s)); [apply steady_refl|].
  cbv zeta. steady_step.
  destruct (negb (ptr_eqb _ _)); [apply steady_context_switch | apply steady_refl].
Qed.

Lemma steady_yield s : steady s (scheduler_yield s).
Proof.
  unfold scheduler_yield. destruct (negb (scheduler_initialized s)); [apply steady_refl|].
  cbv zeta. eapply steady_trans; [|apply steady_schedule].
  destruct (current_actor s) as [c|]; [|apply steady_refl].
  destruct (state (actor_at c s) =? ACTOR_STATE_RUNNING); [|apply steady_refl].
  eapply steady_trans; [|apply steady_add_to_ready_queue]. steady_auto.
Qed.

Lemma steady_ai_analyze_actors s : steady s (scheduler_ai_analyze_actors s).
Proof.
  unfold scheduler_ai_analyze_actors.
  destruct (negb (ai_supervision s)); [apply steady_refl|].
  generalize (actors s) as l. intros l.
  assert (H : forall t, steady s t ->
            steady s (fold_left (fun s slot =>
                 match slot with
                 | Some p =>
                     let a := actor_at p s in
                     if ai_monitored a && (0 <? messages_sent a)
                        && (0 <? messages_received a) && (behavior_score a <? 100)
                     then on_actor p (set_behavior_score (u32 (behavior_score a + 1))) s
                     else s
                 | None => s
                 end) l t)).
  { induction l as [|slot l IH]; intros t Ht; simpl; [exact Ht|].
    apply IH. destruct slot as [p|]; [|exact Ht].
    destruct (_ && _); [|exact Ht]. eapply steady_trans; [exact Ht|].
    apply steady_on_actor. }
  apply H. apply steady_refl.
Qed.

Lemma steady_start s : steady s (scheduler_start s).
Proof.
  unfold scheduler_start. destruct (negb (scheduler_initialized s)); [apply steady_refl|].
  eapply steady_trans; [|apply steady_schedule]. apply steady_set_enabled.
Qed.

Lemma steady_actor_start id s : steady s (snd (actor_start id s)).
Proof.
  unfold actor_start. destruct (actor_get id s) as [a|]; [|apply steady_refl].
  destruct (negb (state (actor_at a s) =? ACTOR_STATE_CREATED)); [apply steady_refl|].
  cbn [snd]. eapply steady_trans; [|apply steady_add_to_ready_queue]. steady_auto.
Qed.

Lemma steady_message_free m s : steady s (message_free m s).
Proof.
  unfold message_free. destruct m as [m|]; [|apply steady_refl]. cbv zeta.
  assert (H1 : steady s (if payload (message_at m s) =? 0 then s
                         else emit s (Kfree (payload (message_at m s)))))
    by steady_auto.
  destruct (_ <? _)%nat; [|exact H1]. steady_step. exact H1.
Qed.

Lemma steady_message_allocate s : steady s (snd (message_allocate s)).
Proof.
  unfold message_allocate. destruct (find_index negb (message_pool_used s));
    cbn [snd]; steady_auto.
Qed.

Lemma steady_add_message a m s : steady s (snd (actor_add_message a m s)).
Proof.
  unfold actor_add_message. destruct a as [a|], m as [m|]; try apply steady_refl.
  destruct (_ <=? _); cbn [snd]; steady_auto.
Qed.

Lemma steady_clear_messages (q : list nat) s :
  steady s (fold_left (fun s m => message_free (Some m) s) q s).
Proof.
  revert s. induction q as [|m q IH]; intros s; cbn [fold_left]; [apply steady_refl|].
  eapply steady_trans; [apply (steady_message_free (Some m))|apply IH].
Qed.

Lemma steady_clear_message_queue a s : steady s (actor_clear_message_queue a s).
Proof.
  unfold actor_clear_message_queue. destruct a as [a|]; [|apply steady_refl].
  cbv zeta. steady_step. apply steady_clear_messages.
Qed.

Lemma steady_receive s : steady s (snd (message_receive s)).
Proof.
  unfold message_receive. destruct (current_actor s) as [c|]; [|apply steady_refl].
  destruct (message_queue (actor_at c s)); cbn [snd]; cbv zeta; steady_auto.
Qed.

Lemma steady_wait t s : steady s (snd (message_wait t s)).
Proof.
  unfold message_wait. destruct (current_actor s) as [c|]; [|apply steady_refl].
  pose proof (steady_receive s) as H1.
  destruct (message_receive s) as [[m|] s1]; cbn [snd] in H1; [exact H1|].
  cbv zeta. eapply steady_trans; [|apply steady_receive].
  eapply steady_trans; [|apply steady_yield].
  eapply steady_trans; [|apply steady_remove_from_ready_queue].
  steady_step. exact H1.
Qed.

Lemma steady_terminate id s : steady s (actor_terminate id s).
Proof.
  unfold actor_terminate. destruct (actor_get id s) as [a|]; [|apply steady_refl].
  cbv zeta. steady_step. steady_step. steady_step.
  eapply steady_trans; [|apply steady_clear_message_queue].
  match goal with
  | |- steady s (if _ then ?s2 else _) => assert (H2 : steady s s2)
  end.
  { steady_case; [|steady_step]; apply steady_remove_from_ready_queue. }
  steady_case; [|steady_step]; exact H2.
Qed.

Lemma steady_create entry user prio stack alloc s :
  steady s (snd (actor_create entry user prio stack alloc s)).
Proof.
  unfold actor_create. destruct (_ || _); [apply steady_refl|].
  destruct (find_index negb (drop 1 (actor_pool_used s))) as [k|]; [|apply steady_refl].
  cbv zeta. destruct (alloc =? 0); cbn [snd]; steady_auto.
Qed.

Lemma steady_send recipient mtype data size alloc s :
  steady s (snd (message_send_async recipient mtype data size alloc s)).
Proof.
  unfold message_send_async.
  destruct (negb (scheduler_initialized s)); [apply steady_refl|].
  destruct (actor_get recipient s) as [r|]; [|apply steady_refl].
  pose proof (steady_message_allocate s) as H1.
  destruct (message_allocate s) as [[m|] s1]; cbn [snd] in H1; [|exact H1].
  cbv zeta.
  match goal with
  | |- steady s (snd (if _ then (false, message_free _ ?s3) else _)) =>
      assert (H3 : steady s s3)
  end.
  { steady_case; [steady_step|]; steady_step; exact H1. }
  match goal with |- steady s (snd (if ?b then _ else _)) => destruct b end.
  { cbn [snd]. eapply steady_trans; [exact H3 | apply steady_message_free]. }
  match goal with
  | |- context [actor_add_message _ _ ?s4] =>
      assert (H4 : steady s s4);
      [| pose proof (steady_add_message (Some r) (Some m) s4) as H5;
         destruct (actor_add_message (Some r) (Some m) s4) as [[|] s5];
         cbn [snd] in H5 |- *;
         pose proof (steady_trans _ _ _ H4 H5) as H6 ]
  end.
  { steady_case; [steady_step|]; exact H3. }
  - match goal with
    | |- steady s (if _ then scheduler_add_to_ready_queue _ (on_actor _ _ ?s7) else _) =>
        assert (H7 : steady s s7)
    end.
    { steady_case; [steady_step|]; steady_step; exact H6. }
    steady_case; [|exact H7].
    eapply steady_trans; [|apply steady_add_to_ready_queue]. steady_step. exact H7.
  - eapply steady_trans; [|apply steady_message_free].
    steady_case; [|steady_step]; exact H6.
Qed.

(** *** The invariants *)

Lemma sized_steady s s' : steady s s' -> sized s -> sized s'.
Proof.
  unfold steady, sized. intros H1 H2. decompose [and] H1. decompose [and] H2.
  repeat split; congruence.
Qed.

Lemma slice_steady s s' : steady s s' -> slice_running s -> slice_running s'.
Proof. unfold steady, slice_running. intros H1 H2. decompose [and] H1. lia. Qed.

Lemma sized_boot : sized boot_state.
Proof.
  unfold sized, boot_state.
  cbn [actors actor_pool actor_pool_used message_pool message_pool_used].
  rewrite !length_replicate. repeat split.
Qed.

Lemma init_sizes s :
  length (actors (scheduler_init s)) = length (actors s) /\
  length (actor_pool (scheduler_init s)) = length (actor_pool s) /\
  length (actor_pool_used (scheduler_init s)) = length (actor_pool_used s) /\
  length (message_pool (scheduler_init s)) = length (message_pool s) /\
  length (message_pool_used (scheduler_init s)) = length (message_pool_used s) /\
  current_timeslice (scheduler_init s) = 0.
Proof.
  unfold scheduler_init, actor_create_kernel_actor, on_actor. cbv zeta.
  cbn [actors actor_pool actor_pool_used message_pool message_pool_used
       current_timeslice set_actor_pool set_actor_table set_current_actor].
  rewrite ?length_insert, ?update_at_length, ?length_fmap. repeat split.
Qed.

Lemma timer_sizes s :
  length (actors (scheduler_timer_handler s)) = length (actors s) /\
  length (actor_pool (scheduler_timer_handler s)) = length (actor_pool s) /\
  length (actor_pool_used (scheduler_timer_handler s)) = length (actor_pool_used s) /\
  length (message_pool (scheduler_timer_handler s)) = length (message_pool s) /\
  length (message_pool_used (scheduler_timer_handler s))
    = length (message_pool_used s) /\
  (scheduler_initialized s = true ->
   tick_count (scheduler_timer_handler s) = u32 (tick_count s + 1) /\
   current_timeslice (scheduler_timer_handler s) =
     if SCHEDULER_TIMESLICE_MS <=? u32 (current_timeslice s + 1) then 0
     else u32 (current_timeslice s + 1)) /\
  (scheduler_initialized s = false -> scheduler_timer_handler s = s).
Proof.
  unfold scheduler_timer_handler.
  destruct (scheduler_initialized s) eqn:Hi; cbn [negb];
    [|repeat split; try reflexivity; discriminate].
  cbv zeta.
  set (s1 := set_clock s (scheduler_enabled s) (u32 (tick_count s + 1))
               (u32 (current_timeslice s + 1))).
  set (s2 := match current_actor s1 with
             | Some c => on_actor c (fun a =>
                           set_cpu_time_used (u64 (cpu_time_used a + 1)) a) s1
             | None => s1
             end).
  assert (H2 : steady s1 s2) by (subst s2; steady_auto).
  set (s3 := if SCHEDULER_TIMESLICE_MS <=? current_timeslice s2
             then scheduler_yield
                    (set_clock s2 (scheduler_enabled s2) (tick_count s2) 0)
             else s2).
  assert (Hs2 : current_timeslice s2 = u32 (current_timeslice s + 1)).
  { destruct H2 as (_ & _ & _ & _ & _ & _ & ->). reflexivity. }
  assert (H3 : steady (set_clock s1 (scheduler_enabled s1) (tick_count s1)
                         (current_timeslice s3)) s3).
  { subst s3. destruct (SCHEDULER_TIMESLICE_MS <=? current_timeslice s2) eqn:Hc.
    - pose proof (steady_yield
        (set_clock s2 (scheduler_enabled s2) (tick_count s2) 0)) as Hy.
      unfold steady in *. decompose [and] Hy. decompose [and] H2.
      cbn [actors actor_pool actor_pool_used message_pool message_pool_used
           tick_count current_timeslice set_clock] in *.
      repeat split; congruence.
    - unfold steady in *. decompose [and] H2.
      cbn [actors actor_pool actor_pool_used message_pool message_pool_used
           tick_count current_timeslice set_clock] in *.
      repeat split; congruence. }
  assert (Hs3 : current_timeslice s3 =
                if SCHEDULER_TIMESLICE_MS <=? u32 (current_timeslice s + 1) then 0
                else u32 (current_timeslice s + 1)).
  { subst s3. rewrite Hs2.
    destruct (SCHEDULER_TIMESLICE_MS <=? u32 (current_timeslice s + 1)); [|exact Hs2].
    pose proof (steady_yield
      (set_clock s2 (scheduler_enabled s2) (tick_count s2) 0)) as Hy.
    destruct Hy as (_ & _ & _ & _ & _ & _ & ->). reflexivity. }
  assert (H4 : steady s3 (if tick_count s3 mod 1000 =? 0
                          then scheduler_ai_analyze_actors s3 else s3)).
  { destruct (_ =? 0); [apply steady_ai_analyze_actors | apply steady_refl]. }
  pose proof (steady_trans _ _ _ H3 H4) as H5. clear H3 H4.
  unfold steady in H5. rewrite Hs3 in H5. clearbody s3. clear H2 Hs2. subst s1.
  cbn [actors actor_pool actor_pool_used message_pool message_pool_used
       tick_count current_timeslice set_clock] in H5.
  decompose [and] H5.
  do 5 (split; [assumption|]).
  split; [intros _; split; assumption | intros Hf; discriminate Hf].
Qed.

Lemma steady_run c s :
  c <> CInit -> c <> CTimerTick -> steady s (snd (run c s)).
Proof.
  intros H1 H2. destruct c; try congruence.
  - apply steady_start.
  - apply steady_schedule.
  - apply steady_yield.
  - apply steady_ai_analyze_actors.
  - rewrite run_create. apply steady_create.
  - rewrite run_actor_start. apply steady_actor_start.
  - apply steady_terminate.
  - rewrite run_send. apply steady_send.
  - rewrite run_receive. apply steady_receive.
  - rewrite run_wait. apply steady_wait.
  - apply steady_message_free.
Qed.

Lemma sized_run c s : sized s -> sized (snd (run c s)).
Proof.
  intros Hz.
  destruct c;
    try (eapply sized_steady; [apply steady_run; discriminate | exact Hz]).
  - cbn [run snd]. destruct (init_sizes s) as (A & B & C & D & E & _).
    unfold sized in *. decompose [and] Hz. repeat split; congruence.
  - cbn [run snd]. destruct (timer_sizes s) as (A & B & C & D & E & _).
    unfold sized in *. decompose [and] Hz. repeat split; congruence.
Qed.

Lemma slice_run c s : slice_running s -> slice_running (snd (run c s)).
Proof.
  intros Hs.
  destruct c;
    try (eapply slice_steady; [apply steady_run; discriminate | exact Hs]).
  - cbn [run snd]. destruct (init_sizes s) as (_ & _ & _ & _ & _ & F).
    unfold slice_running. rewrite F. unfold SCHEDULER_TIMESLICE_MS. lia.
  - cbn [run snd]. destruct (timer_sizes s) as (_ & _ & _ & _ & _ & F & G).
    destruct (scheduler_initialized s).
    + destruct (F eq_refl) as (_ & F2). unfold slice_running. rewrite F2.
      pose proof (Z.mod_pos_bound (current_timeslice s + 1) (2 ^ 32)
                    ltac:(lia)) as Hm.
      unfold u32, wrap. destruct (Z.leb_spec SCHEDULER_TIMESLICE_MS
                                    ((current_timeslice s + 1) mod 2 ^ 32));
        unfold SCHEDULER_TIMESLICE_MS in *; lia.
    + rewrite (G eq_refl). exact Hs.
Qed.

Lemma in_order_run c s : in_order s -> in_order (snd (run c s)).
Proof.
  intros (Hz & Hs & Hw).
  split; [apply sized_run; exact Hz|].
  split; [apply slice_run; exact Hs | apply well_formed_run; exact Hw].
Qed.

Lemma reachable_in_order s : reachable s -> in_order s.
Proof.
  induction 1 as [|s c _ IH _]; [|apply in_order_run; exact IH].
  split; [apply sized_boot|split; [|apply well_formed_boot]].
  unfold slice_running, boot_state, SCHEDULER_TIMESLICE_MS.
  cbn [current_timeslice]. lia.
Qed.

End SchedulerShape.

(** ** The life of an actor *)

Module SchedulerLife.
Import Scheduler SchedulerFacts SchedulerSpec.

(** An identifier the table resolves is the number of the slot it resolves
    to, and that slot exists. *)
Lemma actor_get_in_pool id a s :
  in_order s -> actor_get id s = Some a ->
  a = Z.to_nat id /\ id < MAX_ACTORS /\ actors s !! a = Some (Some a) /\
  exists x, actor_pool s !! a = Some x.
Proof.
  intros (Hz & _ & Hw) Hget.
  destruct (actor_get_slot _ _ _ Hw Hget) as (-> & Hl).
  split; [reflexivity|]. split.
  { unfold actor_get in Hget. destruct (Z.leb_spec MAX_ACTORS id); [discriminate|lia]. }
  split; [exact Hl|].
  apply lookup_lt_is_Some_2. destruct Hz as (Hz1 & Hz2 & _).
  rewrite Hz2, <- Hz1. apply (lookup_lt_Some _ _ _ Hl).
Qed.

Lemma create_success entry user prio stack alloc s k x0 :
  scheduler_initialized s = true -> entry <> 0 -> alloc <> 0 ->
  find_index negb (drop 1 (actor_pool_used s)) = Some k ->
  actor_pool s !! S k = Some x0 ->
  let r := actor_create entry user prio stack alloc s in
  let x := actor_at (S k) (snd r) in
  fst r = Z.of_nat (S k) /\
  actors (snd r) = <[S k := Some (S k)]> (actors s) /\
  actor_pool_used (snd r) = <[S k := true]> (actor_pool_used s) /\
  ready_queue (snd r) = ready_queue s /\
  current_actor (snd r) = current_actor s /\
  effects (snd r) =
    Kmalloc (if stack =? 0 then ACTOR_STACK_SIZE else stack) alloc :: effects s /\
  (forall j, j <> S k -> actor_at j (snd r) = actor_at j s) /\
  actor_id x = Z.of_nat (S k) /\ state x = ACTOR_STATE_CREATED /\
  priority x = prio /\ stack_base x = alloc /\
  stack_size x = (if stack =? 0 then ACTOR_STACK_SIZE else stack) /\
  entry_point x = entry /\ user_data x = user /\
  message_queue x = [] /\ queue_size x = 0 /\ max_queue_size x = 64 /\
  next x = None /\ prev x = None.
Proof.
  intros Hi He Ha Hk Hx r. subst r. unfold actor_create.
  rewrite Hi, (proj2 (Z.eqb_neq entry 0) He), Hk. cbn [negb orb]. cbv zeta.
  rewrite (proj2 (Z.eqb_neq alloc 0) Ha). cbn [fst snd].
  do 6 (split; [reflexivity|]).
  split.
  { intros j Hj. unfold actor_at, on_actor, on_statistics.
    cbn [actor_pool set_actor_pool set_actor_table set_statistics emit].
    rewrite !update_at_lookup_ne by congruence. reflexivity. }
  unfold actor_at, on_actor, on_statistics.
  cbn [actor_pool set_actor_pool set_actor_table set_statistics emit].
  rewrite !update_at_update_at, (update_at_lookup_eq _ _ _ _ Hx).
  cbn [default from_option]. unfold id. repeat split.
Qed.

(** A field that an update of a slot does not write is the same after it. *)
Lemma field_on_actor {B : Type} (g : actor_t -> B) i j f s :
  (forall x, g (f x) = g x) -> g (actor_at j (on_actor i f s)) = g (actor_at j s).
Proof.
  intros Hf.
  destruct (actor_at_on_actor_cases i j f s) as [->|(_ & x & _ & -> & ->)];
    [reflexivity | apply Hf].
Qed.

(** [scheduler_add_to_ready_queue] of an actor in state Ready. *)
Lemma add_to_ready_queue_head i x s :
  actor_pool s !! i = Some x -> state x = ACTOR_STATE_READY ->
  let s' := scheduler_add_to_ready_queue (Some i) s in
  ready_queue s' = Some i /\
  next (actor_at i s') = ready_queue s /\
  current_actor s' = current_actor s /\
  scheduler_enabled s' = scheduler_enabled s /\
  scheduler_initialized s' = scheduler_initialized s /\
  actors s' = actors s /\
  effects s' = effects s /\
  context_switches (statistics s') = context_switches (statistics s) /\
  (forall j, state (actor_at j s') = state (actor_at j s)).
Proof.
  intros Hx Hst s'. subst s'. unfold scheduler_add_to_ready_queue.
  rewrite (actor_at_lookup _ _ _ Hx), Hst, Z.eqb_refl. cbn [negb]. cbv zeta.
  split; [reflexivity|].
  change (ready_queue (on_actor i (fun a => set_links a (ready_queue s) None) s))
    with (ready_queue s).
  split.
  { change (actor_at i (on_statistics ?f (set_ready_queue ?t ?q))) with (actor_at i t).
    destruct (ready_queue s) as [h|].
    - rewrite (field_on_actor next) by (intros y; reflexivity).
      rewrite (actor_at_on_actor _ _ _ _ Hx). reflexivity.
    - rewrite (actor_at_on_actor _ _ _ _ Hx). reflexivity. }
  destruct (ready_queue s) as [h|]; repeat split;
    intros j;
    change (actor_at j (on_statistics ?f (set_ready_queue ?t ?q))) with (actor_at j t);
    rewrite ?(field_on_actor state) by (intros y; reflexivity); reflexivity.
Qed.

End SchedulerLife.

(** X18.  A created actor is found under the identifier [actor_create]
    returns.  In a reachable, initialised state, with an entry point, a
    stack the allocator provides and a free slot, the identifier is the
    number of the first free slot above slot 0, which is never handed out;
    [actor_get] resolves it to that slot and every other identifier as
    before; the slot is marked used; the actor is in state Created with the
    priority, entry point and user data asked for, the allocated stack, and
    an empty mailbox of capacity 64; it is not in the ready queue, which is
    as before, as is the current actor. *)
Theorem actor_create_then_get
  (s : Scheduler.scheduler_t) (entry user prio stack alloc : Z) (k : nat) :
  Scheduler.reachable s ->
  Scheduler.scheduler_initialized s = true ->
  entry <> 0 -> alloc <> 0 ->
  find_index negb (drop 1 (Scheduler.actor_pool_used s)) = Some k ->
  let r := Scheduler.actor_create entry user prio stack alloc s in
  let x := Scheduler.actor_at (S k) (snd r) in
  fst r = Z.of_nat (S k) /\ 0 < fst r < Scheduler.MAX_ACTORS /\
  Scheduler.actor_get (fst r) (snd r) = Some (S k) /\
  (forall id, id <> fst r ->
     Scheduler.actor_get id (snd r) = Scheduler.actor_get id s) /\
  Scheduler.actor_pool_used (snd r) !! S k = Some true /\
  Scheduler.actor_id x = fst r /\
  Scheduler.state x = Scheduler.ACTOR_STATE_CREATED /\
  Scheduler.priority x = prio /\
  Scheduler.entry_point x = entry /\ Scheduler.user_data x = user /\
  Scheduler.stack_base x = alloc /\
  Scheduler.stack_size x = (if stack =? 0 then Scheduler.ACTOR_STACK_SIZE else stack) /\
  Scheduler.mailbox (S k) (snd r) = [] /\ Scheduler.max_queue_size x = 64 /\
  SchedulerSpec.unlinked (S k) (snd r) /\
  Scheduler.ready_queue (snd r) = Scheduler.ready_queue s /\
  Scheduler.current_actor (snd r) = Scheduler.current_actor s.
Proof.
  intros Hreach Hi He Ha Hk r x.
  destruct (SchedulerShape.reachable_in_order s Hreach) as ((Hz1 & Hz2 & Hz3 & _) & _).
  pose proof (find_index_lt _ _ _ Hk) as Hlt. rewrite length_drop, Hz3 in Hlt.
  assert (Hk256 : (S k < Z.to_nat Scheduler.MAX_ACTORS)%nat) by lia.
  destruct (lookup_lt_is_Some_2 (Scheduler.actor_pool s) (S k)) as [x0 Hx0];
    [rewrite Hz2; exact Hk256|].
  destruct (SchedulerLife.create_success entry user prio stack alloc s k x0
              Hi He Ha Hk Hx0)
    as (R1 & R2 & R3 & R4 & R5 & _ & _ & F1 & F2 & F3 & F4 & F5 & F6 & F7 & F8 & _
        & F10 & F11 & F12).
  fold r in R1, R2, R3, R4, R5. fold r x in F1, F2, F3, F4, F5, F6, F7, F8, F10, F11, F12.
  unfold Scheduler.MAX_ACTORS in *.
  split; [exact R1|]. split; [rewrite R1; lia|].
  split.
  { unfold Scheduler.actor_get, Scheduler.MAX_ACTORS. rewrite R1, R2.
    destruct (Z.leb_spec 256 (Z.of_nat (S k))); [lia|].
    rewrite Nat2Z.id, list_lookup_insert_eq by (rewrite Hz1; exact Hk256).
    reflexivity. }
  split.
  { intros id Hid. unfold Scheduler.actor_get. rewrite R2.
    destruct (Scheduler.MAX_ACTORS <=? id); [reflexivity|].
    rewrite list_lookup_insert_ne; [reflexivity|].
    intros Heq. apply Hid. rewrite R1, Heq. rewrite Z2Nat.id; [reflexivity|].
    destruct (Z.le_gt_cases 0 id) as [H0|H0]; [exact H0|].
    rewrite Z2Nat.nonpos in Heq by lia. discriminate Heq. }
  split; [rewrite R3; apply list_lookup_insert_eq; rewrite Hz3; exact Hk256|].
  split; [rewrite R1; exact F1|].
  unfold Scheduler.mailbox, SchedulerSpec.unlinked. fold x.
  repeat split; assumption.
Qed.

(** X18 at the creation of the first actor after [scheduler_init]. *)
Lemma actor_create_then_get_witness :
  let s := Examples.sched_ready in
  let r := Scheduler.actor_create 0x1000 7 Scheduler.ACTOR_PRIORITY_HIGH 0 0x200000 s in
  let x := Scheduler.actor_at 1 (snd r) in
  fst r = 1 /\ 0 < fst r < Scheduler.MAX_ACTORS /\
  Scheduler.actor_get (fst r) (snd r) = Some 1%nat /\
  (forall id, id <> fst r ->
     Scheduler.actor_get id (snd r) = Scheduler.actor_get id s) /\
  Scheduler.actor_pool_used (snd r) !! 1%nat = Some true /\
  Scheduler.actor_id x = fst r /\
  Scheduler.state x = Scheduler.ACTOR_STATE_CREATED /\
  Scheduler.priority x = Scheduler.ACTOR_PRIORITY_HIGH /\
  Scheduler.entry_point x = 0x1000 /\ Scheduler.user_data x = 7 /\
  Scheduler.stack_base x = 0x200000 /\
  Scheduler.stack_size x = Scheduler.ACTOR_STACK_SIZE /\
  Scheduler.mailbox 1 (snd r) = [] /\ Scheduler.max_queue_size x = 64 /\
  SchedulerSpec.unlinked 1 (snd r) /\
  Scheduler.ready_queue (snd r) = Scheduler.ready_queue s /\
  Scheduler.current_actor (snd r) = Scheduler.current_actor s.
Proof.
  intros s.
  apply (actor_create_then_get s 0x1000 7 Scheduler.ACTOR_PRIORITY_HIGH 0 0x200000 0).
  - apply (Scheduler.reachable_step _ Scheduler.CInit Scheduler.reachable_boot I).
  - reflexivity.
  - discriminate.
  - discriminate.
  - vm_compute. reflexivity.
Defined.

(** X19.  [actor_start] takes an actor from Created to Ready and puts it at
    the head of the ready queue, in front of whatever was queued, so that it
    is the actor selected next; the current actor is not changed.  It does
    so once: a second [actor_start] returns false and changes nothing. *)
Theorem actor_start_puts_at_head (s : Scheduler.scheduler_t) (id : Z) (a : nat) :
  Scheduler.reachable s ->
  Scheduler.actor_get id s = Some a ->
  Scheduler.state (Scheduler.actor_at a s) = Scheduler.ACTOR_STATE_CREATED ->
  let r := Scheduler.actor_start id s in
  fst r = true /\
  Scheduler.state (Scheduler.actor_at a (snd r)) = Scheduler.ACTOR_STATE_READY /\
  Scheduler.ready_queue (snd r) = Some a /\
  Scheduler.scheduler_select_next_actor (snd r) = Some a /\
  Scheduler.next (Scheduler.actor_at a (snd r)) = Scheduler.ready_queue s /\
  Scheduler.current_actor (snd r) = Scheduler.current_actor s /\
  Scheduler.actor_start id (snd r) = (false, snd r).
Proof.
  intros Hreach Hget Hst r.
  pose proof (SchedulerShape.reachable_in_order s Hreach) as Hord.
  destruct (SchedulerLife.actor_get_in_pool id a s Hord Hget)
    as (_ & _ & _ & x0 & Hx0).
  pose (s1 := Scheduler.on_actor a
                (fun act => Scheduler.set_state act Scheduler.ACTOR_STATE_READY) s).
  assert (Hr : r = (true, Scheduler.scheduler_add_to_ready_queue (Some a) s1)).
  { unfold r, Scheduler.actor_start. rewrite Hget, Hst. reflexivity. }
  assert (Hx1 : Scheduler.actor_pool s1 !! a =
                Some (Scheduler.set_state x0 Scheduler.ACTOR_STATE_READY)).
  { unfold s1, Scheduler.on_actor. cbn [Scheduler.actor_pool Scheduler.set_actor_pool].
    exact (update_at_lookup_eq a
             (fun act => Scheduler.set_state act Scheduler.ACTOR_STATE_READY)
             _ x0 Hx0). }
  destruct (SchedulerLife.add_to_ready_queue_head a _ s1 Hx1 eq_refl)
    as (Q1 & Q2 & Q3 & _ & _ & Q4 & _ & _ & Q5).
  rewrite Hr. cbn [fst snd].
  assert (Hready : Scheduler.state
            (Scheduler.actor_at a (Scheduler.scheduler_add_to_ready_queue (Some a) s1))
            = Scheduler.ACTOR_STATE_READY).
  { rewrite Q5. rewrite (SchedulerFacts.actor_at_lookup _ _ _ Hx1). reflexivity. }
  split; [reflexivity|]. split; [exact Hready|]. split; [exact Q1|].
  split; [unfold Scheduler.scheduler_select_next_actor; rewrite Q1; reflexivity|].
  split; [exact Q2|]. split; [exact Q3|].
  unfold Scheduler.actor_start at 1, Scheduler.actor_get. rewrite Q4.
  change (Scheduler.actors s1) with (Scheduler.actors s).
  fold (Scheduler.actor_get id s). rewrite Hget, Hready. reflexivity.
Qed.

(** X19 at the start of actor 3, created after actors 1 and 2 were
    started. *)
Lemma actor_start_puts_at_head_witness :
  let s := Scheduler.run_all
             (Examples.sched_two_calls ++
              [Scheduler.CActorCreate 0x3000 0 Scheduler.ACTOR_PRIORITY_IDLE 0 0x400000])
             Scheduler.boot_state in
  let r := Scheduler.actor_start 3 s in
  fst r = true /\
  Scheduler.state (Scheduler.actor_at 3 (snd r)) = Scheduler.ACTOR_STATE_READY /\
  Scheduler.ready_queue (snd r) = Some 3%nat /\
  Scheduler.scheduler_select_next_actor (snd r) = Some 3%nat /\
  Scheduler.next (Scheduler.actor_at 3 (snd r)) = Scheduler.ready_queue s /\
  Scheduler.current_actor (snd r) = Scheduler.current_actor s /\
  Scheduler.actor_start 3 (snd r) = (false, snd r).
Proof.
  intros s. apply (actor_start_puts_at_head s 3 3).
  - apply (SchedulerFacts.reachable_run_all _ Scheduler.boot_state
             Scheduler.reachable_boot).
    vm_compute. repeat split; discriminate.
  - vm_compute. reflexivity.
  - vm_compute. reflexivity.
Defined.

(** ** The ready queue *)

Module SchedulerQueue.
Import Scheduler SchedulerFacts SchedulerSpec.

(** A field other than the links is the same after
    [scheduler_remove_from_ready_queue]. *)
Lemma field_remove_from_ready_queue {B : Type} (g : actor_t -> B) a j s :
  (forall x n p, g (set_links x n p) = g x) ->
  g (actor_at j (scheduler_remove_from_ready_queue a s)) = g (actor_at j s).
Proof.
  intros Hg. unfold scheduler_remove_from_ready_queue. destruct a as [i|]; [|reflexivity].
  cbv zeta.
  change (actor_at j (on_statistics ?f ?t)) with (actor_at j t).
  rewrite (SchedulerLife.field_on_actor g) by (intros x; apply Hg).
  match goal with
  | |- g (actor_at j (match ?x with _ => _ end)) = _ => destruct x
  end; [rewrite (SchedulerLife.field_on_actor g) by (intros x; apply Hg)|];
  (match goal with
   | |- g (actor_at j (match ?x with _ => _ end)) = _ => destruct x
   end; [rewrite (SchedulerLife.field_on_actor g) by (intros x; apply Hg)|];
   reflexivity).
Qed.

Lemma remove_from_ready_queue_rest a s :
  let s' := scheduler_remove_from_ready_queue a s in
  effects s' = effects s /\
  message_pool s' = message_pool s /\
  message_pool_used s' = message_pool_used s.
Proof.
  unfold scheduler_remove_from_ready_queue. destruct a as [i|]; [|repeat split].
  cbv zeta.
  match goal with
  | |- context [on_actor i _ (match _ with Some _ => _ | None => ?t end)] =>
      set (s1 := t)
  end.
  assert (H1 : effects s1 = effects s /\ message_pool s1 = message_pool s /\
               message_pool_used s1 = message_pool_used s)
    by (unfold s1; destruct (prev (actor_at i s)); repeat split).
  clearbody s1. destruct (next (actor_at i s1)); exact H1.
Qed.

(** Removing an actor that has no links sets the head of the queue to its
    successor, which there is none. *)
Lemma remove_unlinked a s :
  unlinked a s -> ready_queue (scheduler_remove_from_ready_queue (Some a) s) = None.
Proof.
  intros [Hn Hp]. unfold scheduler_remove_from_ready_queue. cbv zeta.
  rewrite Hp, Hn.
  change (actor_at a (set_ready_queue s None)) with (actor_at a s). rewrite Hn.
  reflexivity.
Qed.

(** What [message_free] leaves alone, and what it does to the flags. *)
Lemma message_free_frame m s :
  length (message_pool_used s) = length (message_pool s) ->
  let s' := message_free m s in
  actor_pool s' = actor_pool s /\
  actors s' = actors s /\
  actor_pool_used s' = actor_pool_used s /\
  current_actor s' = current_actor s /\
  ready_queue s' = ready_queue s /\
  message_pool s' = message_pool s /\
  length (message_pool_used s') = length (message_pool_used s) /\
  (exists l, effects s' = l ++ effects s) /\
  (forall k, m = Some k \/ message_pool_used s !! k <> Some true ->
             message_pool_used s' !! k <> Some true).
Proof.
  intros Hlen. unfold message_free. destruct m as [m|].
  2:{ repeat split; try reflexivity; [exists []; reflexivity|].
      intros k [Hk|Hk]; [discriminate Hk | exact Hk]. }
  cbv zeta.
  set (s1 := if payload (message_at m s) =? 0 then s
             else emit s (Kfree (payload (message_at m s)))).
  assert (H1 : actor_pool s1 = actor_pool s /\ actors s1 = actors s /\
               actor_pool_used s1 = actor_pool_used s /\
               current_actor s1 = current_actor s /\
               ready_queue s1 = ready_queue s /\ message_pool s1 = message_pool s /\
               message_pool_used s1 = message_pool_used s /\
               exists l, effects s1 = l ++ effects s).
  { unfold s1. destruct (payload (message_at m s) =? 0).
    - repeat split. exists []. reflexivity.
    - repeat split. exists [Kfree (payload (message_at m s))]. reflexivity. }
  clearbody s1. destruct H1 as (A & A' & A'' & B & C & D & E & F).
  destruct (Nat.ltb_spec m (length (message_pool s1))) as [Hm|Hm].
  - cbn [actor_pool actors actor_pool_used current_actor ready_queue message_pool
         message_pool_used effects set_messages].
    rewrite length_insert, E. do 7 (split; [assumption || reflexivity|]).
    split; [exact F|].
    intros k Hk. destruct (decide (k = m)) as [->|Hne].
    + rewrite list_lookup_insert_eq; [discriminate|]. rewrite Hlen, <- D. exact Hm.
    + rewrite list_lookup_insert_ne by congruence.
      destruct Hk as [Hk|Hk]; [congruence | exact Hk].
  - do 6 (split; [assumption|]). split; [rewrite E; reflexivity|].
    split; [exact F|].
    intros k [Hk|Hk]; [|rewrite E; exact Hk].
    injection Hk as <-. rewrite E.
    rewrite (proj2 (lookup_ge_None _ _)); [discriminate|]. rewrite Hlen, <- D. exact Hm.
Qed.

Lemma clear_messages_frame (q : list nat) s :
  length (message_pool_used s) = length (message_pool s) ->
  let s' := fold_left (fun s m => message_free (Some m) s) q s in
  actor_pool s' = actor_pool s /\
  actors s' = actors s /\
  actor_pool_used s' = actor_pool_used s /\
  current_actor s' = current_actor s /\
  ready_queue s' = ready_queue s /\
  (exists l, effects s' = l ++ effects s) /\
  (forall k, k ∈ q \/ message_pool_used s !! k <> Some true ->
             message_pool_used s' !! k <> Some true).
Proof.
  revert s. induction q as [|m q IH]; intros s Hlen; cbn [fold_left].
  { repeat split; [exists []; reflexivity|].
    intros k [Hk|Hk]; [inversion Hk | exact Hk]. }
  destruct (message_free_frame (Some m) s Hlen)
    as (A & A1 & A2 & B & C & D & E & (l1 & F) & G).
  destruct (IH (message_free (Some m) s)) as (A' & A1' & A2' & B' & C' & (l2 & F') & G').
  { rewrite E, D. exact Hlen. }
  do 5 (split; [congruence|]).
  split; [exists (l2 ++ l1); rewrite F', F, app_assoc; reflexivity|].
  intros k Hk. apply G'. destruct Hk as [Hk|Hk].
  - apply elem_of_cons in Hk as [->|Hk]; [right; apply G; left; reflexivity|].
    left. exact Hk.
  - right. apply G. right. exact Hk.
Qed.

(** [actor_terminate] of an actor the table resolves. *)
Lemma terminate_live id a x0 s :
  actor_get id s = Some a -> actor_pool s !! a = Some x0 ->
  length (message_pool_used s) = length (message_pool s) ->
  let s' := actor_terminate id s in
  actors s' = <[Z.to_nat id:=None]> (actors s) /\
  actor_pool_used s' = <[Z.to_nat id:=false]> (actor_pool_used s) /\
  state (actor_at a s') = ACTOR_STATE_FINISHED /\
  message_queue (actor_at a s') = [] /\
  current_actor s' = current_actor s /\
  ready_queue s' = ready_queue (scheduler_remove_from_ready_queue (Some a) s) /\
  (forall k, k ∈ mailbox a s -> message_pool_used s' !! k <> Some true) /\
  (stack_base x0 <> 0 -> Kfree (stack_base x0) ∈ effects s').
Proof.
  intros Hget Hx0 Hlen s'.
  subst s'. unfold actor_terminate. rewrite Hget. cbv zeta.
  set (s1 := scheduler_remove_from_ready_queue (Some a) s).
  destruct (remove_from_ready_queue_frame (Some a) s) as (Fc & _).
  destruct (remove_from_ready_queue_rest (Some a) s) as (Fe & Fm & Fu).
  fold s1 in Fc, Fe, Fm, Fu.
  assert (Hq1 : quiet s s1) by apply quiet_remove_from_ready_queue.
  assert (Hb1 : stack_base (actor_at a s1) = stack_base x0).
  { unfold s1. rewrite (field_remove_from_ready_queue stack_base)
      by (intros; reflexivity).
    rewrite (actor_at_lookup _ _ _ Hx0). reflexivity. }
  assert (Hp1 : exists x1, actor_pool s1 !! a = Some x1).
  { apply lookup_lt_is_Some_2. unfold s1.
    destruct (SchedulerShape.steady_remove_from_ready_queue (Some a) s)
      as (_ & -> & _).
    apply (lookup_lt_Some _ _ _ Hx0). }
  clearbody s1. destruct Hq1 as (Hm1 & Ht1 & Hu1).
  set (s2 := if stack_base (actor_at a s1) =? 0 then s1
             else emit s1 (Kfree (stack_base (actor_at a s1)))).
  assert (H2 : actor_pool s2 = actor_pool s1 /\ actors s2 = actors s1 /\
               actor_pool_used s2 = actor_pool_used s1 /\
               current_actor s2 = current_actor s1 /\
               ready_queue s2 = ready_queue s1 /\
               message_pool s2 = message_pool s1 /\
               message_pool_used s2 = message_pool_used s1 /\
               (stack_base x0 <> 0 -> Kfree (stack_base x0) ∈ effects s2)).
  { unfold s2. rewrite Hb1. destruct (Z.eqb_spec (stack_base x0) 0) as [H0|H0].
    - repeat split. intros Hne. contradiction.
    - repeat split. intros _. apply list_elem_of_here. }
  clearbody s2. destruct H2 as (A2 & T2 & U2 & B2 & C2 & D2 & E2 & F2).
  set (s3 := if error_message (actor_at a s2) =? 0 then s2
             else emit s2 (Kfree (error_message (actor_at a s2)))).
  assert (H3 : actor_pool s3 = actor_pool s2 /\ actors s3 = actors s2 /\
               actor_pool_used s3 = actor_pool_used s2 /\
               current_actor s3 = current_actor s2 /\
               ready_queue s3 = ready_queue s2 /\
               message_pool s3 = message_pool s2 /\
               message_pool_used s3 = message_pool_used s2 /\
               (stack_base x0 <> 0 -> Kfree (stack_base x0) ∈ effects s3)).
  { unfold s3. destruct (error_message (actor_at a s2) =? 0).
    - repeat split. exact F2.
    - repeat split. intros Hne. apply list_elem_of_further. apply F2. exact Hne. }
  clearbody s3. destruct H3 as (A3 & T3 & U3 & B3 & C3 & D3 & E3 & F3).
  assert (Hq3 : message_queue (actor_at a s3) = mailbox a s).
  { unfold mailbox, actor_at. rewrite A3, A2. fold (actor_at a s1).
    pose proof (Hm1 a) as Hma. unfold mbox in Hma.
    injection Hma as -> _ _. reflexivity. }
  unfold actor_clear_message_queue. rewrite Hq3.
  destruct (clear_messages_frame (mailbox a s) s3)
    as (A4 & T4 & U4 & B4 & C4 & (l & D4) & E4).
  { rewrite E3, E2, D3, D2, Fm, Fu. exact Hlen. }
  set (s4 := fold_left (fun s m => message_free (Some m) s) (mailbox a s) s3) in *.
  clearbody s4.
  destruct Hp1 as (x1 & Hx1).
  assert (Hx4 : actor_pool s4 !! a = Some x1) by (rewrite A4, A3, A2; exact Hx1).
  split.
  { change (<[Z.to_nat id:=None]> (actors s4) = <[Z.to_nat id:=None]> (actors s)).
    congruence. }
  split.
  { change (<[Z.to_nat id:=false]> (actor_pool_used s4)
            = <[Z.to_nat id:=false]> (actor_pool_used s)).
    congruence. }
  split.
  { change (actor_at a (set_actor_table ?t ?x ?u)) with (actor_at a t).
    change (actor_at a (on_statistics ?f ?t)) with (actor_at a t).
    rewrite actor_at_on_actor_self.
    change (actor_pool (on_actor a ?f s4)) with (update_at a f (actor_pool s4)).
    rewrite (update_at_lookup_eq _ _ _ _ Hx4). reflexivity. }
  split.
  { change (actor_at a (set_actor_table ?t ?x ?u)) with (actor_at a t).
    change (actor_at a (on_statistics ?f ?t)) with (actor_at a t).
    rewrite actor_at_on_actor_self.
    change (actor_pool (on_actor a ?f s4)) with (update_at a f (actor_pool s4)).
    rewrite (update_at_lookup_eq _ _ _ _ Hx4). reflexivity. }
  split.
  { change (current_actor s4 = current_actor s). congruence. }
  split.
  { change (ready_queue s4 = ready_queue s1). congruence. }
  split.
  { intros k Hk. change (message_pool_used s4 !! k <> Some true).
    apply E4. left. exact Hk. }
  intros Hne. change (Kfree (stack_base x0) ∈ effects s4). rewrite D4.
  apply elem_of_app. right. apply F3. exact Hne.
Qed.

End SchedulerQueue.

(** X20.  [scheduler_yield] by a running actor never hands the processor to
    another actor.  With the scheduler initialised and the current actor in
    state Running, the yield marks it Ready and puts it at the head of the
    ready queue, in front of every actor that was waiting there, so that the
    pass of [scheduler_schedule] that follows selects it again: it is still
    the current actor, left in state Ready, and no other actor has changed
    its state. *)
Theorem scheduler_yield_keeps_running_actor (s : Scheduler.scheduler_t) (c : nat) :
  Scheduler.scheduler_initialized s = true ->
  Scheduler.current_actor s = Some c ->
  Scheduler.state (Scheduler.actor_at c s) = Scheduler.ACTOR_STATE_RUNNING ->
  let s' := Scheduler.scheduler_yield s in
  Scheduler.current_actor s' = Some c /\
  Scheduler.state (Scheduler.actor_at c s') = Scheduler.ACTOR_STATE_READY /\
  Scheduler.ready_queue s' = Some c /\
  Scheduler.next (Scheduler.actor_at c s') = Scheduler.ready_queue s /\
  (forall j, j <> c ->
     Scheduler.state (Scheduler.actor_at j s') = Scheduler.state (Scheduler.actor_at j s)).
Proof.
  intros Hi Hc Hst s'.
  assert (Hx : exists x, Scheduler.actor_pool s !! c = Some x).
  { unfold Scheduler.actor_at in Hst.
    destruct (Scheduler.actor_pool s !! c) as [x|]; [exists x; reflexivity|].
    discriminate Hst. }
  destruct Hx as (x & Hx).
  pose (s1 := Scheduler.on_actor c
                (fun a => Scheduler.set_state a Scheduler.ACTOR_STATE_READY) s).
  assert (Hx1 : Scheduler.actor_pool s1 !! c =
                Some (Scheduler.set_state x Scheduler.ACTOR_STATE_READY)).
  { unfold s1, Scheduler.on_actor. cbn [Scheduler.actor_pool Scheduler.set_actor_pool].
    exact (update_at_lookup_eq c
             (fun a => Scheduler.set_state a Scheduler.ACTOR_STATE_READY) _ x Hx). }
  destruct (SchedulerLife.add_to_ready_queue_head c _ s1 Hx1 eq_refl)
    as (Q1 & Q2 & Q3 & Q4 & _ & _ & _ & _ & Q5).
  set (s2 := Scheduler.scheduler_add_to_ready_queue (Some c) s1) in *.
  assert (Hy : s' = s2 \/ exists f, s' = Scheduler.on_statistics f s2).
  { unfold s', Scheduler.scheduler_yield. rewrite Hi, Hc, Hst, Z.eqb_refl.
    cbn [negb]. cbv zeta. fold s1. fold s2. unfold Scheduler.scheduler_schedule.
    destruct (Scheduler.scheduler_enabled s2); cbn [negb]; [|left; reflexivity].
    cbv zeta. unfold Scheduler.scheduler_select_next_actor. rewrite Q1, Q3.
    change (Scheduler.current_actor s1) with (Scheduler.current_actor s). rewrite Hc.
    cbn [Scheduler.ptr_eqb]. rewrite Nat.eqb_refl. cbn [negb].
    right. eexists. reflexivity. }
  assert (Hs' : Scheduler.current_actor s' = Scheduler.current_actor s2 /\
                Scheduler.ready_queue s' = Scheduler.ready_queue s2 /\
                forall j, Scheduler.actor_at j s' = Scheduler.actor_at j s2).
  { destruct Hy as [->|(f & ->)]; repeat split. }
  destruct Hs' as (E1 & E2 & E3). clearbody s'. clear Hy.
  split; [rewrite E1, Q3; exact Hc|].
  split.
  { rewrite E3, Q5. rewrite (SchedulerFacts.actor_at_lookup _ _ _ Hx1). reflexivity. }
  split; [rewrite E2; exact Q1|].
  split; [rewrite E3; exact Q2|].
  intros j Hj. rewrite E3, Q5. unfold s1.
  rewrite SchedulerFacts.actor_at_on_actor_ne by congruence. reflexivity.
Qed.

(** X20 at the kernel actor right after [scheduler_init], with actors 1 and 2
    waiting in the ready queue. *)
Lemma scheduler_yield_keeps_running_actor_witness :
  let s := Examples.sched_two in
  let s' := Scheduler.scheduler_yield s in
  Scheduler.current_actor s' = Some 0%nat /\
  Scheduler.state (Scheduler.actor_at 0 s') = Scheduler.ACTOR_STATE_READY /\
  Scheduler.ready_queue s' = Some 0%nat /\
  Scheduler.next (Scheduler.actor_at 0 s') = Scheduler.ready_queue s /\
  (forall j, j <> 0%nat ->
     Scheduler.state (Scheduler.actor_at j s') = Scheduler.state (Scheduler.actor_at j s)).
Proof.
  intros s. apply (scheduler_yield_keeps_running_actor s 0).
  - vm_compute. reflexivity.
  - vm_compute. reflexivity.
  - vm_compute. reflexivity.
Defined.

(** X21.  A terminated actor is gone and what it held is released.  In a
    reachable state, for an identifier the table resolves, after
    [actor_terminate] the identifier resolves to nothing while every other
    identifier resolves as before; the slot is marked free and the record is
    left in state Finished with an empty mailbox; no message that was in the
    mailbox is marked used in the message pool any more; a stack, if the
    actor had one, has been passed to [kfree].  The current actor is not
    changed, also when it is the one terminated. *)
Theorem actor_terminate_then_get (s : Scheduler.scheduler_t) (id : Z) (a : nat) :
  Scheduler.reachable s ->
  0 <= id ->
  Scheduler.actor_get id s = Some a ->
  let s' := Scheduler.actor_terminate id s in
  Scheduler.actor_get id s' = None /\
  (forall id', 0 <= id' -> id' <> id ->
     Scheduler.actor_get id' s' = Scheduler.actor_get id' s) /\
  Scheduler.actor_pool_used s' !! a = Some false /\
  Scheduler.state (Scheduler.actor_at a s') = Scheduler.ACTOR_STATE_FINISHED /\
  Scheduler.mailbox a s' = [] /\
  (forall m, m ∈ Scheduler.mailbox a s ->
     Scheduler.message_pool_used s' !! m <> Some true) /\
  (Scheduler.stack_base (Scheduler.actor_at a s) <> 0 ->
     Kfree (Scheduler.stack_base (Scheduler.actor_at a s))
       ∈ Scheduler.effects s') /\
  Scheduler.current_actor s' = Scheduler.current_actor s.
Proof.
  intros Hreach Hid Hget s'.
  pose proof (SchedulerShape.reachable_in_order s Hreach) as Hord.
  destruct (SchedulerLife.actor_get_in_pool id a s Hord Hget)
    as (Ha & Hlt & Hl & x0 & Hx0).
  destruct Hord as ((Hz1 & Hz2 & Hz3 & Hz4 & Hz5) & _).
  destruct (SchedulerQueue.terminate_live id a x0 s Hget Hx0)
    as (T1 & T2 & T3 & T4 & T5 & _ & T7 & T8); [congruence|].
  fold s' in T1, T2, T3, T4, T5, T7, T8.
  assert (Hin : (a < Z.to_nat Scheduler.MAX_ACTORS)%nat).
  { rewrite <- Hz1. apply (lookup_lt_Some _ _ _ Hl). }
  split.
  { unfold Scheduler.actor_get. rewrite T1, <- Ha.
    destruct (Scheduler.MAX_ACTORS <=? id); [reflexivity|].
    rewrite list_lookup_insert_eq by (rewrite Hz1; exact Hin). reflexivity. }
  split.
  { intros id' Hid' Hne. unfold Scheduler.actor_get. rewrite T1.
    destruct (Scheduler.MAX_ACTORS <=? id'); [reflexivity|].
    rewrite list_lookup_insert_ne; [reflexivity|]. intros Heq. apply Hne.
    apply Z2Nat.inj; assumption || (symmetry; exact Heq). }
  split.
  { rewrite T2, <- Ha. apply list_lookup_insert_eq. rewrite Hz3. exact Hin. }
  split; [exact T3|]. split; [exact T4|]. split; [exact T7|].
  split; [|exact T5].
  rewrite (SchedulerFacts.actor_at_lookup _ _ _ Hx0). exact T8.
Qed.

(** X21 at the termination of actor 1, which holds 63 messages. *)
Lemma actor_terminate_then_get_witness :
  let s := Examples.sched_nearly_full in
  let s' := Scheduler.actor_terminate 1 s in
  Scheduler.actor_get 1 s' = None /\
  (forall id', 0 <= id' -> id' <> 1 ->
     Scheduler.actor_get id' s' = Scheduler.actor_get id' s) /\
  Scheduler.actor_pool_used s' !! 1%nat = Some false /\
  Scheduler.state (Scheduler.actor_at 1 s') = Scheduler.ACTOR_STATE_FINISHED /\
  Scheduler.mailbox 1 s' = [] /\
  (forall m, m ∈ Scheduler.mailbox 1 s ->
     Scheduler.message_pool_used s' !! m <> Some true) /\
  (Scheduler.stack_base (Scheduler.actor_at 1 s) <> 0 ->
     Kfree (Scheduler.stack_base (Scheduler.actor_at 1 s))
       ∈ Scheduler.effects s') /\
  Scheduler.current_actor s' = Scheduler.current_actor s.
Proof.
  intros s. apply (actor_terminate_then_get s 1 1).
  - apply (SchedulerFacts.reachable_run_all Examples.sched_nearly_full_calls
             Scheduler.boot_state Scheduler.reachable_boot).
    vm_compute. repeat split; discriminate.
  - lia.
  - vm_compute. reflexivity.
Defined.

(** X22.  Terminating an actor that is not linked into the ready queue
    empties the queue.  [actor_terminate] removes the actor from the ready
    queue without checking that it is queued, and the removal of an actor
    without predecessor sets the head of the queue to the actor's successor;
    for an actor that was created and never started there is none, so the
    actors that were waiting in the queue are no longer reachable from
    it. *)
Theorem actor_terminate_unqueued_empties_ready_queue
  (s : Scheduler.scheduler_t) (id : Z) (a : nat) :
  Scheduler.reachable s ->
  Scheduler.actor_get id s = Some a ->
  SchedulerSpec.unlinked a s ->
  Scheduler.ready_queue (Scheduler.actor_terminate id s) = None /\
  Scheduler.scheduler_select_next_actor (Scheduler.actor_terminate id s) = None.
Proof.
  intros Hreach Hget Hun.
  pose proof (SchedulerShape.reachable_in_order s Hreach) as Hord.
  destruct (SchedulerLife.actor_get_in_pool id a s Hord Hget)
    as (_ & _ & _ & x0 & Hx0).
  destruct Hord as ((_ & _ & _ & Hz4 & Hz5) & _).
  destruct (SchedulerQueue.terminate_live id a x0 s Hget Hx0)
    as (_ & _ & _ & _ & _ & T6 & _); [congruence|].
  assert (Hq : Scheduler.ready_queue (Scheduler.actor_terminate id s) = None).
  { rewrite T6. apply SchedulerQueue.remove_unlinked. exact Hun. }
  split; [exact Hq|].
  unfold Scheduler.scheduler_select_next_actor. rewrite Hq. reflexivity.
Qed.

(** X22 at the termination of actor 3, created and not started while actors
    1 and 2 wait in the ready queue. *)
Lemma actor_terminate_unqueued_empties_ready_queue_witness :
  let s := Scheduler.run_all
             (Examples.sched_two_calls ++
              [Scheduler.CActorCreate 0x3000 0 Scheduler.ACTOR_PRIORITY_IDLE 0 0x400000])
             Scheduler.boot_state in
  Scheduler.ready_queue (Scheduler.actor_terminate 3 s) = None /\
  Scheduler.scheduler_select_next_actor (Scheduler.actor_terminate 3 s) = None.
Proof.
  intros s. apply (actor_terminate_unqueued_empties_ready_queue s 3 3).
  - apply (SchedulerFacts.reachable_run_all _ Scheduler.boot_state
             Scheduler.reachable_boot).
    vm_compute. repeat split; discriminate.
  - vm_compute. reflexivity.
  - vm_compute. split; reflexivity.
Defined.

(** X23.  [message_wait] on an empty mailbox empties the ready queue when
    the waiting actor has no links, as the current actor has after it was
    dispatched.  The wait removes the actor from the ready queue without
    checking that it is queued, which sets the head of the queue to the
    actor's successor, of which there is none; the scheduling pass that
    follows finds nothing to select, so the call returns no message, the
    waiting actor is still the current one, and the ready queue is empty
    whatever it held. *)
Theorem message_wait_empties_ready_queue
  (s : Scheduler.scheduler_t) (t : Z) (c : nat) :
  Scheduler.current_actor s = Some c ->
  Scheduler.mailbox c s = [] ->
  SchedulerSpec.unlinked c s ->
  let r := Scheduler.message_wait t s in
  fst r = None /\
  Scheduler.ready_queue (snd r) = None /\
  Scheduler.current_actor (snd r) = Some c.
Proof.
  intros Hc Hq Hun r. subst r. unfold Scheduler.message_wait.
  rewrite Hc, (SchedulerFacts.receive_empty c s Hc Hq). cbv zeta.
  set (s2 := Scheduler.on_actor c
               (fun a => Scheduler.set_state a Scheduler.ACTOR_STATE_BLOCKED) s).
  assert (Hun2 : SchedulerSpec.unlinked c s2).
  { destruct Hun as [Hn Hp]. unfold SchedulerSpec.unlinked, s2.
    rewrite (SchedulerLife.field_on_actor Scheduler.next) by (intros x; reflexivity).
    rewrite (SchedulerLife.field_on_actor Scheduler.prev) by (intros x; reflexivity).
    split; assumption. }
  pose proof (SchedulerQueue.remove_unlinked c s2 Hun2) as Hrq3.
  destruct (SchedulerFacts.remove_from_ready_queue_frame (Some c) s2)
    as (Fc & Fe & Fi & Fs).
  assert (Hst3 : Scheduler.state (Scheduler.actor_at c
                   (Scheduler.scheduler_remove_from_ready_queue (Some c) s2))
                 <> Scheduler.ACTOR_STATE_RUNNING).
  { rewrite SchedulerFacts.state_remove_from_ready_queue. unfold s2.
    rewrite SchedulerFacts.actor_at_on_actor_self.
    destruct (Scheduler.actor_pool s !! c); discriminate. }
  assert (Hq3 : Scheduler.mailbox c
                  (Scheduler.scheduler_remove_from_ready_queue (Some c) s2) = []).
  { rewrite <- Hq. apply SchedulerFacts.quiet_mailbox. unfold s2.
    eapply SchedulerFacts.quiet_trans;
      [|apply SchedulerFacts.quiet_remove_from_ready_queue].
    apply SchedulerFacts.quiet_on_actor. intros x. reflexivity. }
  set (s3 := Scheduler.scheduler_remove_from_ready_queue (Some c) s2) in *.
  assert (Hc3 : Scheduler.current_actor s3 = Some c) by (rewrite Fc; exact Hc).
  clearbody s3. clear Fc Fe Fi Fs Hun2. clearbody s2.
  assert (Hy : Scheduler.scheduler_yield s3 = s3 \/
               exists f, Scheduler.scheduler_yield s3 = Scheduler.on_statistics f s3).
  { unfold Scheduler.scheduler_yield.
    destruct (Scheduler.scheduler_initialized s3); cbn [negb]; [|left; reflexivity].
    cbv zeta. rewrite Hc3. apply Z.eqb_neq in Hst3. rewrite Hst3.
    unfold Scheduler.scheduler_schedule.
    destruct (Scheduler.scheduler_enabled s3); cbn [negb]; [|left; reflexivity].
    cbv zeta. unfold Scheduler.scheduler_select_next_actor. rewrite Hrq3, Hc3.
    cbn [Scheduler.ptr_eqb negb]. unfold Scheduler.scheduler_context_switch.
    rewrite Hc3. cbn [Scheduler.ptr_eqb]. cbv zeta. rewrite Hst3.
    right. eexists. reflexivity. }
  assert (H4 : Scheduler.current_actor (Scheduler.scheduler_yield s3) = Some c /\
               Scheduler.ready_queue (Scheduler.scheduler_yield s3) = None /\
               Scheduler.mailbox c (Scheduler.scheduler_yield s3) = []).
  { destruct Hy as [->|(f & ->)]; repeat split; assumption. }
  destruct H4 as (Hc4 & Hrq4 & Hq4).
  rewrite (SchedulerFacts.receive_empty c _ Hc4 Hq4). cbn [fst snd].
  repeat split; assumption.
Qed.

(** X23 at actor 2, dispatched by [scheduler_start] while actor 1 waits in
    the ready queue. *)
Lemma message_wait_empties_ready_queue_witness :
  let s := Scheduler.run_all (Examples.sched_two_calls ++ [Scheduler.CStart])
             Scheduler.boot_state in
  let r := Scheduler.message_wait 0 s in
  fst r = None /\
  Scheduler.ready_queue (snd r) = None /\
  Scheduler.current_actor (snd r) = Some 2%nat.
Proof.
  intros s. apply (message_wait_empties_ready_queue s 0 2).
  - vm_compute. reflexivity.
  - vm_compute. reflexivity.
  - vm_compute. split; reflexivity.
Defined.

(** ** Sending *)

Module SchedulerSend.
Import Scheduler SchedulerFacts SchedulerSpec.

Lemma add_message_room_eq a m s :
  queue_size (actor_at a s) < max_queue_size (actor_at a s) ->
  actor_add_message (Some a) (Some m) s =
  (true, on_actor a (fun act =>
           set_queue act (message_queue act ++ [m]) (u32 (queue_size act + 1))) s).
Proof.
  intros H. unfold actor_add_message.
  destruct (Z.leb_spec (max_queue_size (actor_at a s)) (queue_size (actor_at a s)));
    [lia | reflexivity].
Qed.

(** The last steps of a successful [message_send_async]: the counters, then
    the wake-up of a recipient that is blocked. *)
Lemma send_wake r x5 s5 :
  actor_pool s5 !! r = Some x5 ->
  let s6 := on_statistics (fun st =>
              set_traffic st (context_switches st)
                (u64 (stat_messages_sent st + 1)) (messages_delivered st)) s5 in
  let s7 := match current_actor s6 with
            | Some c => on_actor c (fun a =>
                          set_messages_sent (u64 (messages_sent a + 1)) a) s6
            | None => s6
            end in
  let s8 := if state (actor_at r s7) =? ACTOR_STATE_BLOCKED
            then scheduler_add_to_ready_queue (Some r)
                   (on_actor r (fun a => set_state a ACTOR_STATE_READY) s7)
            else s7 in
  state (actor_at r s8) =
    (if state x5 =? ACTOR_STATE_BLOCKED then ACTOR_STATE_READY else state x5) /\
  ready_queue s8 =
    (if state x5 =? ACTOR_STATE_BLOCKED then Some r else ready_queue s5) /\
  (state x5 = ACTOR_STATE_BLOCKED -> next (actor_at r s8) = ready_queue s5) /\
  current_actor s8 = current_actor s5 /\
  (forall j, j <> r -> state (actor_at j s8) = state (actor_at j s5)).
Proof.
  intros Hx5 s6 s7 s8.
  assert (H7 : (forall j, state (actor_at j s7) = state (actor_at j s5)) /\
               ready_queue s7 = ready_queue s5 /\
               current_actor s7 = current_actor s5 /\
               exists x7, actor_pool s7 !! r = Some x7 /\ state x7 = state x5).
  { assert (Hst : forall j, state (actor_at j s7) = state (actor_at j s5)).
    { intros j. unfold s7. destruct (current_actor s6) as [c|]; [|reflexivity].
      rewrite (SchedulerLife.field_on_actor state) by (intros x; reflexivity).
      reflexivity. }
    split; [exact Hst|].
    split; [unfold s7; destruct (current_actor s6); reflexivity|].
    split; [unfold s7; destruct (current_actor s6); reflexivity|].
    assert (Hlen : length (actor_pool s7) = length (actor_pool s5)).
    { unfold s7. destruct (current_actor s6) as [c|]; [|reflexivity].
      unfold on_actor. cbn [actor_pool set_actor_pool]. apply update_at_length. }
    destruct (lookup_lt_is_Some_2 (actor_pool s7) r) as [x7 Hx7].
    { rewrite Hlen. apply (lookup_lt_Some _ _ _ Hx5). }
    exists x7. split; [exact Hx7|].
    rewrite <- (actor_at_lookup _ _ _ Hx7), <- (actor_at_lookup _ _ _ Hx5). apply Hst. }
  clearbody s7. clear s6. destruct H7 as (Hst & Hrq & Hcur & x7 & Hx7 & Hx75).
  unfold s8. rewrite (actor_at_lookup _ _ _ Hx7), Hx75.
  destruct (Z.eqb_spec (state x5) ACTOR_STATE_BLOCKED) as [Hb|Hb].
  - pose (t := on_actor r (fun a => set_state a ACTOR_STATE_READY) s7).
    assert (Hxt : actor_pool t !! r = Some (set_state x7 ACTOR_STATE_READY)).
    { unfold t, on_actor. cbn [actor_pool set_actor_pool].
      exact (update_at_lookup_eq r (fun a => set_state a ACTOR_STATE_READY) _ x7 Hx7). }
    destruct (SchedulerLife.add_to_ready_queue_head r _ t Hxt eq_refl)
      as (Q1 & Q2 & Q3 & _ & _ & _ & _ & _ & Q5).
    fold t. split.
    { rewrite Q5, (actor_at_lookup _ _ _ Hxt). reflexivity. }
    split; [exact Q1|].
    split; [intros _; rewrite Q2; exact Hrq|].
    split; [rewrite Q3; exact Hcur|].
    intros j Hj. rewrite Q5. unfold t.
    rewrite actor_at_on_actor_ne by congruence. apply Hst.
  - split; [rewrite (actor_at_lookup _ _ _ Hx7); exact Hx75|].
    split; [exact Hrq|]. split; [intros Hc; contradiction|].
    split; [exact Hcur|]. intros j _. apply Hst.
Qed.

End SchedulerSend.

(** X24.  A send that is refused because the mailbox is full frees the copy
    of the payload twice.  In a reachable, initialised state, for a
    recipient whose mailbox is at its capacity, a payload of positive size
    and an allocator that provides the copy, [message_send_async] returns
    false after these calls, in this order: [kmalloc] of the payload size,
    the copy of the payload, [kfree] of the copy, and [kfree] of the same
    address again in [message_free]; the message slot is released and the
    mailbox is as before. *)
Theorem rejected_send_frees_payload_twice
  (s : Scheduler.scheduler_t) (recipient mtype : Z) (d : list Z) (size alloc : Z)
  (r m : nat) :
  Scheduler.reachable s ->
  Scheduler.scheduler_initialized s = true ->
  Scheduler.actor_get recipient s = Some r ->
  Scheduler.max_queue_size (Scheduler.actor_at r s)
    <= Scheduler.queue_size (Scheduler.actor_at r s) ->
  find_index negb (Scheduler.message_pool_used s) = Some m ->
  0 < size -> alloc <> 0 ->
  let res := Scheduler.message_send_async recipient mtype (Some d) size alloc s in
  fst res = false /\
  Scheduler.effects (snd res) =
    Kfree alloc :: Kfree alloc
      :: Store alloc (take (Z.to_nat size) (d ++ replicate (Z.to_nat size) 0))
      :: Kmalloc size alloc :: Scheduler.effects s /\
  Scheduler.message_pool_used (snd res) = Scheduler.message_pool_used s /\
  Scheduler.mailbox r (snd res) = Scheduler.mailbox r s.
Proof.
  intros Hreach Hi Hget Hfull Hm Hsize Halloc res.
  destruct (SchedulerShape.reachable_in_order s Hreach)
    as ((_ & _ & _ & Hz4 & Hz5) & _).
  pose proof (find_index_lt _ _ _ Hm) as Hlt.
  destruct (find_index_Some _ _ _ Hm) as (b & Hb & Hnb).
  destruct b; [discriminate Hnb|]. clear Hnb.
  assert (Hlt' : (m < length (Scheduler.message_pool s))%nat) by (rewrite Hz4, <- Hz5; exact Hlt).
  subst res. unfold Scheduler.message_send_async.
  rewrite Hi, Hget. cbn [negb]. unfold Scheduler.message_allocate. rewrite Hm.
  cbv zeta. rewrite (proj2 (Z.ltb_lt 0 size) Hsize), (proj2 (Z.eqb_neq alloc 0) Halloc).
  cbn [andb].
  match goal with
  | |- context [Scheduler.actor_add_message (Some r) (Some m) ?s4] =>
      rewrite (SchedulerFacts.add_message_full r m s4 Hfull);
      set (t4 := s4)
  end.
  assert (Hmsg : exists msg, Scheduler.message_pool t4 !! m = Some msg /\
                             Scheduler.payload msg = alloc).
  { eexists. split.
    - unfold t4.
      cbn [Scheduler.message_pool Scheduler.set_messages Scheduler.emit].
      apply list_lookup_insert_eq. exact Hlt'.
    - reflexivity. }
  destruct Hmsg as (msg & Hmsg & Hpay).
  assert (He4 : Scheduler.effects t4 =
                Store alloc (take (Z.to_nat size) (d ++ replicate (Z.to_nat size) 0))
                  :: Kmalloc size alloc :: Scheduler.effects s) by reflexivity.
  assert (Hu4 : Scheduler.message_pool_used t4
                = <[m:=true]> (Scheduler.message_pool_used s)) by reflexivity.
  assert (Hl4 : length (Scheduler.message_pool t4) = length (Scheduler.message_pool s)).
  { unfold t4. cbn [Scheduler.message_pool Scheduler.set_messages Scheduler.emit].
    apply length_insert. }
  assert (Hq4 : Scheduler.mailbox r t4 = Scheduler.mailbox r s) by reflexivity.
  clearbody t4.
  unfold Scheduler.message_free, Scheduler.message_at.
  rewrite Hmsg. cbn [default from_option]. unfold id.
  rewrite Hpay, (proj2 (Z.eqb_neq alloc 0) Halloc).
  cbn [Scheduler.message_pool Scheduler.emit]. rewrite Hmsg.
  cbn [default from_option]. unfold id.
  rewrite Hpay, (proj2 (Z.eqb_neq alloc 0) Halloc).
  cbn [Scheduler.message_pool Scheduler.emit].
  rewrite Hl4, (proj2 (Nat.ltb_lt _ _) Hlt').
  cbn [fst snd Scheduler.effects Scheduler.message_pool_used Scheduler.set_messages
       Scheduler.emit].
  split; [reflexivity|]. split; [rewrite He4; reflexivity|].
  split; [|exact Hq4].
  rewrite Hu4, list_insert_insert_eq. apply list_insert_id. exact Hb.
Qed.

(** X24 at a send of three bytes to actor 1, whose mailbox is full. *)
Lemma rejected_send_frees_payload_twice_witness :
  let s := Examples.sched_full in
  let res := Scheduler.message_send_async 1 Scheduler.MSG_TYPE_ASYNC
               (Some [1; 2; 3]) 3 0x500000 s in
  fst res = false /\
  Scheduler.effects (snd res) =
    Kfree 0x500000 :: Kfree 0x500000
      :: Store 0x500000 (take (Z.to_nat 3) ([1; 2; 3] ++ replicate (Z.to_nat 3) 0))
      :: Kmalloc 3 0x500000 :: Scheduler.effects s /\
  Scheduler.message_pool_used (snd res) = Scheduler.message_pool_used s /\
  Scheduler.mailbox 1 (snd res) = Scheduler.mailbox 1 s.
Proof.
  intros s.
  apply (rejected_send_frees_payload_twice s 1 Scheduler.MSG_TYPE_ASYNC [1; 2; 3] 3
           0x500000 1 64).
  - apply (SchedulerFacts.reachable_run_all Examples.sched_full_calls
             Scheduler.boot_state Scheduler.reachable_boot).
    vm_compute. repeat split; discriminate.
  - vm_compute. reflexivity.
  - vm_compute. reflexivity.
  - vm_compute. discriminate.
  - vm_compute. reflexivity.
  - lia.
  - discriminate.
Defined.

(** X25.  A successful send wakes a blocked recipient and no one else.  In a
    reachable state, when [message_send_async] returns true for a recipient
    in state Blocked, the recipient is in state Ready afterwards and at the
    head of the ready queue, in front of what was queued; a recipient in any
    other state keeps it and the ready queue is as before.  In both cases
    the current actor is not changed and no other actor changes its
    state. *)
Theorem send_wakes_blocked_recipient
  (s : Scheduler.scheduler_t) (recipient mtype : Z) (data : option (list Z))
  (size alloc : Z) (r : nat) :
  Scheduler.reachable s ->
  Scheduler.actor_get recipient s = Some r ->
  let res := Scheduler.message_send_async recipient mtype data size alloc s in
  let blocked :=
    Scheduler.state (Scheduler.actor_at r s) =? Scheduler.ACTOR_STATE_BLOCKED in
  fst res = true ->
  Scheduler.state (Scheduler.actor_at r (snd res)) =
    (if blocked then Scheduler.ACTOR_STATE_READY
     else Scheduler.state (Scheduler.actor_at r s)) /\
  Scheduler.ready_queue (snd res) =
    (if blocked then Some r else Scheduler.ready_queue s) /\
  (blocked = true ->
   Scheduler.next (Scheduler.actor_at r (snd res)) = Scheduler.ready_queue s) /\
  Scheduler.current_actor (snd res) = Scheduler.current_actor s /\
  (forall j, j <> r ->
     Scheduler.state (Scheduler.actor_at j (snd res)) =
     Scheduler.state (Scheduler.actor_at j s)).
Proof.
  intros Hreach Hget res blocked Hok.
  pose proof (SchedulerShape.reachable_in_order s Hreach) as Hord.
  destruct (SchedulerLife.actor_get_in_pool recipient r s Hord Hget)
    as (_ & _ & _ & x0 & Hx0).
  destruct (SchedulerFacts.send_async_cases recipient mtype data size alloc s)
    as [(Hf & _)|(_ & a & m & Hi & Hget' & Hm & Hroom & _)].
  { fold res in Hf. rewrite Hf in Hok. discriminate Hok. }
  assert (a = r) by congruence. subst a. clear Hget'.
  unfold blocked. rewrite (SchedulerFacts.actor_at_lookup _ _ _ Hx0).
  assert (Hgoal : forall s4,
            Scheduler.actor_pool s4 = Scheduler.actor_pool s ->
            Scheduler.ready_queue s4 = Scheduler.ready_queue s ->
            Scheduler.current_actor s4 = Scheduler.current_actor s ->
            let res := match Scheduler.actor_add_message (Some r) (Some m) s4 with
                       | (true, s5) =>
                           let s6 := Scheduler.on_statistics (fun st =>
                                       Scheduler.set_traffic st
                                         (Scheduler.context_switches st)
                                         (u64 (Scheduler.stat_messages_sent st + 1))
                                         (Scheduler.messages_delivered st)) s5 in
                           let s7 := match Scheduler.current_actor s6 with
                                     | Some c => Scheduler.on_actor c (fun a =>
                                         Scheduler.set_messages_sent
                                           (u64 (Scheduler.messages_sent a + 1)) a) s6
                                     | None => s6
                                     end in
                           let s8 := if Scheduler.state (Scheduler.actor_at r s7)
                                          =? Scheduler.ACTOR_STATE_BLOCKED
                                     then Scheduler.scheduler_add_to_ready_queue (Some r)
                                            (Scheduler.on_actor r (fun a =>
                                               Scheduler.set_state a
                                                 Scheduler.ACTOR_STATE_READY) s7)
                                     else s7 in
                           (true, s8)
                       | (false, s5) =>
                           let s6 := if Scheduler.payload (Scheduler.message_at m s5) =? 0
                                     then s5
                                     else Scheduler.emit s5
                                            (Kfree (Scheduler.payload
                                                      (Scheduler.message_at m s5))) in
                           (false, Scheduler.message_free (Some m) s6)
                       end in
            Scheduler.state (Scheduler.actor_at r (snd res)) =
              (if Scheduler.state x0 =? Scheduler.ACTOR_STATE_BLOCKED
               then Scheduler.ACTOR_STATE_READY else Scheduler.state x0) /\
            Scheduler.ready_queue (snd res) =
              (if Scheduler.state x0 =? Scheduler.ACTOR_STATE_BLOCKED
               then Some r else Scheduler.ready_queue s) /\
            (((Scheduler.state x0 =? Scheduler.ACTOR_STATE_BLOCKED) = true) ->
             Scheduler.next (Scheduler.actor_at r (snd res)) = Scheduler.ready_queue s) /\
            Scheduler.current_actor (snd res) = Scheduler.current_actor s /\
            (forall j, j <> r ->
               Scheduler.state (Scheduler.actor_at j (snd res)) =
               Scheduler.state (Scheduler.actor_at j s))).
  { intros s4 Hp4 Hq4 Hc4.
    assert (Hroom4 : Scheduler.queue_size (Scheduler.actor_at r s4) <
                     Scheduler.max_queue_size (Scheduler.actor_at r s4)).
    { unfold Scheduler.actor_at. rewrite Hp4. exact Hroom. }
    rewrite (SchedulerSend.add_message_room_eq r m s4 Hroom4).
    set (s5 := Scheduler.on_actor r (fun act =>
                 Scheduler.set_queue act (Scheduler.message_queue act ++ [m])
                   (u32 (Scheduler.queue_size act + 1))) s4).
    assert (Hx5 : Scheduler.actor_pool s5 !! r =
                  Some (Scheduler.set_queue x0 (Scheduler.message_queue x0 ++ [m])
                          (u32 (Scheduler.queue_size x0 + 1)))).
    { unfold s5, Scheduler.on_actor.
      cbn [Scheduler.actor_pool Scheduler.set_actor_pool]. rewrite Hp4.
      exact (update_at_lookup_eq r (fun act =>
               Scheduler.set_queue act (Scheduler.message_queue act ++ [m])
                 (u32 (Scheduler.queue_size act + 1))) _ x0 Hx0). }
    assert (H5 : (forall j, Scheduler.state (Scheduler.actor_at j s5) =
                            Scheduler.state (Scheduler.actor_at j s)) /\
                 Scheduler.ready_queue s5 = Scheduler.ready_queue s /\
                 Scheduler.current_actor s5 = Scheduler.current_actor s).
    { split; [|split; assumption].
      intros j. unfold s5.
      rewrite (SchedulerLife.field_on_actor Scheduler.state) by (intros x; reflexivity).
      unfold Scheduler.actor_at. rewrite Hp4. reflexivity. }
    clearbody s5. destruct H5 as (Hst5 & Hq5 & Hc5).
    intros res0. subst res0. cbv zeta. cbn [snd].
    destruct (SchedulerSend.send_wake r _ s5 Hx5) as (W1 & W2 & W3 & W4 & W5).
    cbv zeta in W1, W2, W3, W4, W5.
    change (Scheduler.state (Scheduler.set_queue x0 ?q ?n))
      with (Scheduler.state x0) in W1, W2, W3.
    split; [exact W1|]. split; [rewrite W2, Hq5; reflexivity|].
    split.
    { intros Hb. rewrite W3; [exact Hq5|]. apply Z.eqb_eq. exact Hb. }
    split; [rewrite W4; exact Hc5|].
    intros j Hj. rewrite (W5 j Hj). apply Hst5. }
  revert Hok. subst res. unfold Scheduler.message_send_async.
  rewrite Hi, Hget. cbn [negb]. unfold Scheduler.message_allocate. rewrite Hm.
  cbv zeta.
  destruct (match data with Some _ => 0 <? size | None => false end);
    cbn [andb]; [destruct (alloc =? 0); [cbn [fst]; discriminate|]|];
    intros _; apply Hgoal; reflexivity.
Qed.

(** X25 at a send to actor 2, blocked in [message_wait]. *)
Lemma send_wakes_blocked_recipient_witness :
  let s := Scheduler.run_all
             (Examples.sched_two_calls ++ [Scheduler.CStart; Scheduler.CWait 0])
             Scheduler.boot_state in
  let res := Scheduler.message_send_async 2 Scheduler.MSG_TYPE_ASYNC None 0 0 s in
  let blocked :=
    Scheduler.state (Scheduler.actor_at 2 s) =? Scheduler.ACTOR_STATE_BLOCKED in
  Scheduler.state (Scheduler.actor_at 2 (snd res)) =
    (if blocked then Scheduler.ACTOR_STATE_READY
     else Scheduler.state (Scheduler.actor_at 2 s)) /\
  Scheduler.ready_queue (snd res) =
    (if blocked then Some 2%nat else Scheduler.ready_queue s) /\
  (blocked = true ->
   Scheduler.next (Scheduler.actor_at 2 (snd res)) = Scheduler.ready_queue s) /\
  Scheduler.current_actor (snd res) = Scheduler.current_actor s /\
  (forall j, j <> 2%nat ->
     Scheduler.state (Scheduler.actor_at j (snd res)) =
     Scheduler.state (Scheduler.actor_at j s)).
Proof.
  intros s.
  apply (send_wakes_blocked_recipient s 2 Scheduler.MSG_TYPE_ASYNC None 0 0 2).
  - apply (SchedulerFacts.reachable_run_all _ Scheduler.boot_state
             Scheduler.reachable_boot).
    vm_compute. repeat split; discriminate.
  - vm_compute. reflexivity.
  - vm_compute. reflexivity.
Defined.

(** X26.  The time slice counter stays below the length of a time slice.  In
    every reachable state [current_timeslice] is below
    [SCHEDULER_TIMESLICE_MS].  A tick of [scheduler_timer_handler] in an
    initialised scheduler advances [tick_count] by one, modulo 2^32, and the
    time slice counter by one, back to 0 when it reaches the length of a
    time slice; before initialisation the handler changes nothing. *)
Theorem time_slice_counter_is_bounded (s : Scheduler.scheduler_t) :
  Scheduler.reachable s ->
  0 <= Scheduler.current_timeslice s < Scheduler.SCHEDULER_TIMESLICE_MS /\
  (if Scheduler.scheduler_initialized s
   then Scheduler.tick_count (Scheduler.scheduler_timer_handler s)
          = u32 (Scheduler.tick_count s + 1) /\
        Scheduler.current_timeslice (Scheduler.scheduler_timer_handler s)
          = (if Scheduler.current_timeslice s + 1 =? Scheduler.SCHEDULER_TIMESLICE_MS
             then 0 else Scheduler.current_timeslice s + 1)
   else Scheduler.scheduler_timer_handler s = s).
Proof.
  intros Hreach.
  destruct (SchedulerShape.reachable_in_order s Hreach) as (_ & Hs & _).
  split; [exact Hs|].
  destruct (SchedulerShape.timer_sizes s) as (_ & _ & _ & _ & _ & F & G).
  destruct (Scheduler.scheduler_initialized s); [|apply G; reflexivity].
  destruct (F eq_refl) as (F1 & F2). split; [exact F1|]. rewrite F2.
  unfold SchedulerSpec.slice_running, Scheduler.SCHEDULER_TIMESLICE_MS in *.
  unfold u32, wrap. rewrite Z.mod_small by lia.
  destruct (Z.leb_spec 10 (Scheduler.current_timeslice s + 1));
    destruct (Z.eqb_spec (Scheduler.current_timeslice s + 1) 10); lia || reflexivity.
Qed.

(** X26 after nine ticks of the timer. *)
Lemma time_slice_counter_is_bounded_witness :
  let s := Scheduler.run_all (Scheduler.CInit :: replicate 9 Scheduler.CTimerTick)
             Scheduler.boot_state in
  0 <= Scheduler.current_timeslice s < Scheduler.SCHEDULER_TIMESLICE_MS /\
  (if Scheduler.scheduler_initialized s
   then Scheduler.tick_count (Scheduler.scheduler_timer_handler s)
          = u32 (Scheduler.tick_count s + 1) /\
        Scheduler.current_timeslice (Scheduler.scheduler_timer_handler s)
          = (if Scheduler.current_timeslice s + 1 =? Scheduler.SCHEDULER_TIMESLICE_MS
             then 0 else Scheduler.current_timeslice s + 1)
   else Scheduler.scheduler_timer_handler s = s).
Proof.
  intros s. apply (time_slice_counter_is_bounded s).
  apply (SchedulerFacts.reachable_run_all _ Scheduler.boot_state
           Scheduler.reachable_boot).
  vm_compute. repeat split; discriminate.
Defined.

(** * The kernel heap *)

Module HeapFacts.
Import Heap HeapSpec.

(** [HEAP_ALIGN_UP] to 8 rounds up to the next multiple of 8. *)
Lemma align_up_8 size :
  0 <= size < 2 ^ 32 - 7 ->
  HEAP_ALIGN_UP size HEAP_ALIGNMENT = 8 * ((size + 7) / 8).
Proof.
  intros H. unfold HEAP_ALIGN_UP, HEAP_ALIGNMENT, u32, wrap.
  replace (size + 8 - 1) with (size + 7) by lia.
  rewrite (Z.mod_small (size + 7)) by lia.
  change (Z.lnot (8 - 1) mod 2 ^ 32) with (Z.land (Z.lnot (Z.ones 3)) (Z.ones 32)).
  rewrite (Z.land_comm (Z.lnot (Z.ones 3))), Z.land_assoc, Z.land_ones by lia.
  rewrite (Z.mod_small (size + 7)) by lia.
  rewrite <- Z.ldiff_land, Z.ldiff_ones_r by lia.
  rewrite Z.shiftl_mul_pow2, Z.shiftr_div_pow2 by lia.
  change (2 ^ 3) with 8. lia.
Qed.

Lemma align_up_bounds size :
  0 <= size < 2 ^ 32 - 7 ->
  size <= HEAP_ALIGN_UP size HEAP_ALIGNMENT < size + 8 /\
  HEAP_ALIGN_UP size HEAP_ALIGNMENT mod 8 = 0.
Proof.
  intros H. rewrite (align_up_8 size H).
  pose proof (Z.div_mod (size + 7) 8 ltac:(lia)) as Hd.
  pose proof (Z.mod_pos_bound (size + 7) 8 ltac:(lia)) as Hm.
  split; [lia|]. rewrite Z.mul_comm. apply Z.mod_mul. lia.
Qed.

(** [kmalloc] on a heap that has not been initialised: there is no position
    to allocate from. *)
Lemma kmalloc_uninitialized size s :
  heap_initialized s = false -> heap_current_pos s = 0 ->
  fst (kmalloc size s) = 0 /\
  heap_initialized (snd (kmalloc size s)) = false /\
  heap_current_pos (snd (kmalloc size s)) = 0.
Proof.
  intros Hi Hp. unfold kmalloc. rewrite Hi. cbn [negb orb]. cbv zeta.
  change (heap_current_pos (on_statistics ?f s)) with (heap_current_pos s).
  rewrite Hp. cbn [Z.eqb negb]. rewrite Bool.andb_false_r.
  cbn [fst snd]. repeat split. exact Hi. exact Hp.
Qed.

(** [kmalloc] on the initialised heap: a request of no byte or of more than
    [HEAP_MAX_BLOCK_SIZE] is counted and refused; any other request is cut
    from the heap at the current position, if it fits. *)
Lemma kmalloc_initialized size s :
  heap_initialized s = true -> heap_current_pos s <> 0 ->
  0 <= heap_current_pos s -> heap_current_pos s + HEAP_MAX_BLOCK_SIZE + 8 <= 2 ^ 32 ->
  0 <= size ->
  let aligned := 8 * ((size + 7) / 8) in
  kmalloc size s =
  if (size =? 0) || (HEAP_MAX_BLOCK_SIZE <? size)
  then (0, on_statistics (fun st =>
              set_counters st (u64 (total_allocations st + 1))
                (current_allocations st) (bytes_allocated st)
                (actor_memory_used st)) s)
  else if heap_current_pos s + aligned <=? end_address (kernel_heap s)
  then (heap_current_pos s,
        on_statistics (fun st =>
          set_counters st (u64 (total_allocations st + 1))
            (u64 (current_allocations st + 1))
            (u64 (bytes_allocated st + aligned))
            (update_at 0 (fun used => u64 (used + aligned))
               (actor_memory_used st)))
          (set_heap_current_pos s (heap_current_pos s + aligned)))
  else (0, s).
Proof.
  intros Hi Hp Hp0 Hroom Hsize aligned. unfold kmalloc. rewrite Hi. cbn [negb orb].
  destruct (Z.eqb_spec size 0) as [->|Hne]; cbn [orb].
  { cbv zeta. cbn [Z.ltb Z.compare andb]. reflexivity. }
  destruct (Z.ltb_spec HEAP_MAX_BLOCK_SIZE size) as [Hbig|Hsmall].
  { cbv zeta. unfold HEAP_MAX_BLOCK_SIZE in Hbig.
    destruct (Z.leb_spec size 4096) as [H1|H1]; [lia|].
    rewrite Bool.andb_false_r. cbn [andb]. reflexivity. }
  unfold HEAP_MAX_BLOCK_SIZE in *.
  assert (Ha : HEAP_ALIGN_UP size HEAP_ALIGNMENT = aligned) by (apply align_up_8; lia).
  assert (Hab : size <= aligned < size + 8).
  { rewrite <- Ha. apply align_up_bounds. lia. }
  cbv zeta. unfold slab_alloc. cbv zeta.
  assert (Hslab : (if size <=? default 0 (last SLAB_SIZES)
                   then if SLAB_SIZE_COUNT <=? heap_get_slab_index size then 0 else 0
                   else 0) = 0).
  { destruct (size <=? _); [destruct (_ <=? _)|]; reflexivity. }
  rewrite Hslab. cbn [Z.eqb negb]. rewrite Ha.
  rewrite (proj2 (Z.eqb_neq _ _) Hp). cbn [negb andb].
  unfold u32, wrap. rewrite Z.mod_small by lia. reflexivity.
Qed.

(** *** The layout is kept *)

Lemma laid_out_boot : laid_out boot_state.
Proof. reflexivity. Qed.

Lemma laid_out_init s : laid_out (heap_init s) /\ heap_initialized (heap_init s) = true.
Proof.
  unfold laid_out, heap_init, heap_create, KERNEL_HEAP_START, KERNEL_HEAP_END.
  cbn. repeat split; lia.
Qed.

Lemma laid_out_kmalloc size s :
  0 <= size -> laid_out s ->
  laid_out (snd (kmalloc size s)) /\
  heap_initialized (snd (kmalloc size s)) = heap_initialized s /\
  heap_current_pos s <= heap_current_pos (snd (kmalloc size s)).
Proof.
  intros Hsize Hl. unfold laid_out in *.
  destruct (heap_initialized s) eqn:Hi.
  - destruct Hl as (L1 & L2 & L3 & L4 & L5 & L6 & L7).
    unfold KERNEL_HEAP_START, KERNEL_HEAP_END, HEAP_ALIGNMENT in *.
    rewrite (kmalloc_initialized size s Hi) by (unfold HEAP_MAX_BLOCK_SIZE; lia).
    destruct ((size =? 0) || (HEAP_MAX_BLOCK_SIZE <? size)) eqn:Hc.
    + cbn [snd heap_initialized on_statistics set_heap]. rewrite Hi.
      cbn [kernel_heap heap_current_pos set_statistics start_address end_address
           total_size statistics set_counters bytes_allocated bytes_freed
           on_statistics set_heap].
      repeat split; assumption || reflexivity || lia.
    + apply Bool.orb_false_iff in Hc as [Hc1 Hc2].
      apply Z.eqb_neq in Hc1. apply Z.ltb_ge in Hc2.
      unfold HEAP_MAX_BLOCK_SIZE in Hc2.
      pose proof (Z.div_mod (size + 7) 8 ltac:(lia)) as Hd.
      pose proof (Z.mod_pos_bound (size + 7) 8 ltac:(lia)) as Hm.
      rewrite L2.
      destruct (Z.leb_spec (heap_current_pos s + 8 * ((size + 7) / 8)) 4194304)
        as [Hfit|Hfit].
      * cbn [snd heap_initialized on_statistics set_heap set_heap_current_pos].
        rewrite Hi.
        cbn [kernel_heap heap_current_pos set_statistics start_address end_address
             total_size statistics set_counters bytes_allocated bytes_freed
             on_statistics set_heap set_heap_current_pos].
        split; [|split; [reflexivity|lia]].
        split; [assumption|]. split; [assumption|]. split; [assumption|].
        split; [lia|]. split.
        { rewrite (Z.mul_comm 8), Z.mod_add by lia. exact L5. }
        split; [|assumption].
        rewrite L6. unfold u64, wrap. rewrite Z.mod_small by lia. lia.
      * cbn [snd]. rewrite Hi. repeat split; assumption || reflexivity || lia.
  - destruct (kmalloc_uninitialized size s Hi Hl) as (_ & K2 & K3).
    rewrite K2, K3, Hl. repeat split. lia.
Qed.

Lemma laid_out_kcalloc count size s :
  laid_out s ->
  laid_out (snd (kcalloc count size s)) /\
  heap_initialized (snd (kcalloc count size s)) = heap_initialized s /\
  heap_current_pos s <= heap_current_pos (snd (kcalloc count size s)).
Proof.
  intros Hl. unfold kcalloc. cbv zeta.
  pose proof (Z.mod_pos_bound (count * size) (2 ^ 32) ltac:(lia)) as Hm.
  destruct (laid_out_kmalloc (u32 (count * size)) s) as (K1 & K2 & K3);
    [unfold u32, wrap; lia | exact Hl |].
  destruct (kmalloc (u32 (count * size)) s) as [ptr s1]. cbn [snd] in K1, K2, K3.
  destruct (negb (ptr =? 0)); cbn [snd]; repeat split; assumption.
Qed.

Lemma laid_out_kfree ptr s :
  laid_out s ->
  laid_out (kfree ptr s) /\
  heap_initialized (kfree ptr s) = heap_initialized s /\
  heap_current_pos (kfree ptr s) = heap_current_pos s.
Proof.
  intros Hl. unfold kfree.
  destruct ((ptr =? 0) || negb (heap_initialized s)); [repeat split; exact Hl|].
  repeat split. exact Hl.
Qed.

Lemma laid_out_update_statistics s :
  laid_out s ->
  laid_out (heap_update_statistics s) /\
  heap_initialized (heap_update_statistics s) = heap_initialized s /\
  heap_current_pos (heap_update_statistics s) = heap_current_pos s.
Proof.
  intros Hl. unfold heap_update_statistics.
  destruct (heap_initialized s) eqn:Hi; cbn [negb];
    [|repeat split; [exact Hl | exact Hi]].
  cbv zeta.
  set (s1 := if _ <? _ then _ else s).
  assert (H1 : laid_out s1 /\ heap_initialized s1 = heap_initialized s /\
               heap_current_pos s1 = heap_current_pos s).
  { unfold s1. destruct (_ <? _); repeat split; exact Hl. }
  clearbody s1. destruct H1 as (A & B & C).
  destruct (0 <? total_size (kernel_heap s1));
    [|split; [exact A|split; [rewrite B; exact Hi | exact C]]].
  split; [exact A|]. split; [rewrite <- Hi; exact B | exact C].
Qed.

Lemma laid_out_run c s :
  well_typed c -> laid_out s -> laid_out (run c s).
Proof.
  intros Hc Hl. destruct c; cbn [run].
  - apply laid_out_init.
  - apply laid_out_kmalloc; [apply Hc | exact Hl].
  - apply laid_out_kcalloc. exact Hl.
  - apply laid_out_kfree. exact Hl.
  - apply laid_out_update_statistics. exact Hl.
  - unfold heap_get_statistics. destruct (negb (heap_initialized s)); cbn [snd];
      [exact Hl | apply laid_out_update_statistics; exact Hl].
Qed.

Lemma reachable_laid_out s : reachable s -> laid_out s.
Proof.
  induction 1 as [|s c _ IH Hc]; [apply laid_out_boot | apply laid_out_run; assumption].
Qed.

(** Without [heap_init] the position never moves back and an initialised
    heap stays initialised. *)
Lemma position_run c s :
  well_typed c -> c <> CHeapInit -> laid_out s ->
  heap_initialized (run c s) = heap_initialized s /\
  heap_current_pos s <= heap_current_pos (run c s).
Proof.
  intros Hc Hne Hl. destruct c; cbn [run]; try congruence.
  - destruct (laid_out_kmalloc size s) as (_ & A & B); [apply Hc | exact Hl |].
    split; assumption.
  - destruct (laid_out_kcalloc count size s Hl) as (_ & A & B). split; assumption.
  - destruct (laid_out_kfree ptr s Hl) as (_ & A & B). split; [exact A | lia].
  - destruct (laid_out_update_statistics s Hl) as (_ & A & B). split; [exact A | lia].
  - unfold heap_get_statistics. destruct (negb (heap_initialized s)); cbn [snd];
      [split; [reflexivity | lia]|].
    destruct (laid_out_update_statistics s Hl) as (_ & A & B). split; [exact A | lia].
Qed.

Lemma position_run_all tr s :
  well_typed_all tr -> no_init tr -> laid_out s ->
  laid_out (run_all tr s) /\
  heap_initialized (run_all tr s) = heap_initialized s /\
  heap_current_pos s <= heap_current_pos (run_all tr s).
Proof.
  revert s. induction tr as [|c tr IH]; intros s Ht Hn Hl; cbn [run_all].
  { repeat split; [exact Hl | lia]. }
  destruct Ht as [Hc Ht]. apply Forall_cons in Hn as [Hne Hn].
  destruct (position_run c s Hc Hne Hl) as (A & B).
  destruct (IH (run c s) Ht Hn (laid_out_run c s Hc Hl)) as (A' & B' & C').
  split; [exact A'|]. split; [congruence | lia].
Qed.

(** What [kmalloc] returns on a heap that is laid out. *)
Lemma kmalloc_result size s :
  laid_out s -> 0 <= size < 2 ^ 32 ->
  let r := kmalloc size s in
  let aligned := 8 * ((size + 7) / 8) in
  (fst r <> 0 <->
     heap_initialized s = true /\ 0 < size <= HEAP_MAX_BLOCK_SIZE /\
     heap_current_pos s + aligned <= KERNEL_HEAP_END) /\
  (fst r <> 0 ->
     fst r = heap_current_pos s /\
     KERNEL_HEAP_START <= fst r /\ fst r + size <= KERNEL_HEAP_END /\
     fst r mod 8 = 0 /\
     heap_initialized (snd r) = true /\
     start_address (kernel_heap (snd r)) = KERNEL_HEAP_START /\
     end_address (kernel_heap (snd r)) = KERNEL_HEAP_END /\
     heap_current_pos (snd r) = fst r + aligned).
Proof.
  intros Hl Hsize r aligned. subst r. unfold laid_out in Hl.
  destruct (heap_initialized s) eqn:Hi.
  2:{ destruct (kmalloc_uninitialized size s Hi Hl) as (K1 & _).
      rewrite K1. split; [split|]; intros H; try congruence.
      destruct H as (H & _). discriminate H. }
  destruct Hl as (L1 & L2 & L3 & L4 & L5 & L6 & L7).
  unfold KERNEL_HEAP_START, KERNEL_HEAP_END, HEAP_ALIGNMENT, HEAP_MAX_BLOCK_SIZE in *.
  rewrite (kmalloc_initialized size s Hi) by (unfold HEAP_MAX_BLOCK_SIZE; lia).
  fold aligned. unfold HEAP_MAX_BLOCK_SIZE. rewrite L2.
  pose proof (Z.div_mod (size + 7) 8 ltac:(lia)) as Hd.
  pose proof (Z.mod_pos_bound (size + 7) 8 ltac:(lia)) as Hm.
  destruct (Z.eqb_spec size 0) as [H0|H0]; cbn [orb].
  { cbn [fst]. split; [split|]; intros H; try congruence. lia. }
  destruct (Z.ltb_spec 1048576 size) as [Hb|Hb].
  { cbn [fst]. split; [split|]; intros H; try congruence. lia. }
  destruct (Z.leb_spec (heap_current_pos s + aligned) 4194304) as [Hf|Hf].
  2:{ cbn [fst]. split; [split|]; intros H; try congruence. lia. }
  cbn [fst snd]. split.
  { split; [intros _; repeat split; lia | intros _; lia]. }
  intros _. split; [reflexivity|]. split; [lia|]. split; [subst aligned; lia|].
  split; [exact L5|]. split; [exact Hi|]. split; [exact L1|]. split; [exact L2|].
  reflexivity.
Qed.

Lemma land_7 p : 0 <= p -> Z.land p 7 = p mod 8.
Proof. intros H. change 7 with (Z.ones 3). rewrite Z.land_ones by lia. reflexivity. Qed.

End HeapFacts.

(** X27.  What [kmalloc] returns is an aligned block inside the heap.  In a
    reachable state, for a 32-bit size, [kmalloc] returns a block exactly
    when the heap is initialised, the size is between 1 and
    [HEAP_MAX_BLOCK_SIZE], and the size rounded up to a multiple of 8 fits
    between the current position and the end of the heap.  The block starts
    at the current position, lies between [KERNEL_HEAP_START] and
    [KERNEL_HEAP_END] with all its bytes, is aligned to 8, passes
    [heap_validate_pointer], and the position moves behind it by the rounded
    size. *)
Theorem kmalloc_block_inside_heap (s : Heap.heap_state) (size : Z) :
  Heap.reachable s -> 0 <= size < 2 ^ 32 ->
  let r := Heap.kmalloc size s in
  let aligned := 8 * ((size + 7) / 8) in
  (fst r <> 0 <->
     Heap.heap_initialized s = true /\ 0 < size <= Heap.HEAP_MAX_BLOCK_SIZE /\
     Heap.heap_current_pos s + aligned <= Heap.KERNEL_HEAP_END) /\
  (fst r <> 0 ->
     fst r = Heap.heap_current_pos s /\
     Heap.KERNEL_HEAP_START <= fst r /\ fst r + size <= Heap.KERNEL_HEAP_END /\
     fst r mod 8 = 0 /\
     Heap.heap_validate_pointer (fst r) (snd r) = true /\
     Heap.heap_current_pos (snd r) = fst r + aligned).
Proof.
  intros Hreach Hsize r aligned.
  destruct (HeapFacts.kmalloc_result size s (HeapFacts.reachable_laid_out s Hreach) Hsize)
    as (K1 & K2).
  fold r aligned in K1, K2. split; [exact K1|].
  intros Hr. destruct (K2 Hr) as (B1 & B2 & B3 & B4 & B5 & B6 & B7 & B8).
  apply K1 in Hr as (_ & Hpos & _).
  repeat split; try assumption.
  unfold Heap.heap_validate_pointer, Heap.HEAP_IS_ALIGNED, Heap.HEAP_ALIGNMENT.
  rewrite B5, B6, B7. unfold Heap.KERNEL_HEAP_START, Heap.KERNEL_HEAP_END in *.
  destruct (Z.eqb_spec (fst r) 0) as [H0|H0]; [lia|]. cbn [negb orb].
  destruct (Z.ltb_spec (fst r) 2097152); [lia|].
  destruct (Z.leb_spec 4194304 (fst r)); [lia|]. cbn [orb].
  unfold u32, wrap. rewrite (Z.mod_small (fst r)) by lia.
  change (8 - 1) with 7. rewrite HeapFacts.land_7 by lia. rewrite B4. reflexivity.
Qed.

(** X27 at a request of 100 bytes right after [heap_init]. *)
Lemma kmalloc_block_inside_heap_witness :
  let s := Heap.heap_init Heap.boot_state in
  let r := Heap.kmalloc 100 s in
  let aligned := 8 * ((100 + 7) / 8) in
  (fst r <> 0 <->
     Heap.heap_initialized s = true /\ 0 < 100 <= Heap.HEAP_MAX_BLOCK_SIZE /\
     Heap.heap_current_pos s + aligned <= Heap.KERNEL_HEAP_END) /\
  (fst r <> 0 ->
     fst r = Heap.heap_current_pos s /\
     Heap.KERNEL_HEAP_START <= fst r /\ fst r + 100 <= Heap.KERNEL_HEAP_END /\
     fst r mod 8 = 0 /\
     Heap.heap_validate_pointer (fst r) (snd r) = true /\
     Heap.heap_current_pos (snd r) = fst r + aligned).
Proof.
  intros s. apply (kmalloc_block_inside_heap s 100).
  - apply (Heap.reachable_step Heap.boot_state Heap.CHeapInit Heap.reachable_boot I).
  - lia.
Defined.

(** X28.  No two blocks [kmalloc] hands out overlap, and memory passed to
    [kfree] is never handed out again.  In a reachable state, let [kmalloc]
    return a block, let any sequence of calls follow that does not contain
    [heap_init] (it may free the block), and let [kmalloc] return a second
    block: the second block starts behind the last byte of the first. *)
Theorem kmalloc_blocks_never_overlap
  (s : Heap.heap_state) (n1 n2 : Z) (tr : list Heap.call) :
  Heap.reachable s ->
  0 <= n1 < 2 ^ 32 -> 0 <= n2 < 2 ^ 32 ->
  Heap.well_typed_all tr -> HeapSpec.no_init tr ->
  let r1 := Heap.kmalloc n1 s in
  let r2 := Heap.kmalloc n2 (Heap.run_all tr (snd r1)) in
  fst r1 <> 0 -> fst r2 <> 0 ->
  fst r1 + n1 <= fst r2 /\ HeapSpec.disjoint (fst r1) n1 (fst r2) n2.
Proof.
  intros Hreach H1 H2 Ht Hn r1 r2 Hr1 Hr2.
  pose proof (HeapFacts.reachable_laid_out s Hreach) as Hl.
  destruct (HeapFacts.kmalloc_result n1 s Hl H1) as (_ & K).
  fold r1 in K. destruct (K Hr1) as (_ & _ & _ & _ & _ & _ & _ & Hpos1).
  destruct (HeapFacts.laid_out_kmalloc n1 s) as (Hl1 & _); [lia | exact Hl |].
  fold r1 in Hl1.
  destruct (HeapFacts.position_run_all tr (snd r1) Ht Hn Hl1) as (Hl2 & _ & Hmono).
  destruct (HeapFacts.kmalloc_result n2 _ Hl2 H2) as (_ & K').
  fold r2 in K'. destruct (K' Hr2) as (Hp2 & _).
  pose proof (Z.div_mod (n1 + 7) 8 ltac:(lia)) as Hd.
  pose proof (Z.mod_pos_bound (n1 + 7) 8 ltac:(lia)) as Hm.
  assert (Hle : fst r1 + n1 <= fst r2) by lia.
  split; [exact Hle | left; exact Hle].
Qed.

(** X28 at two requests with the [kfree] of the first block in between. *)
Lemma kmalloc_blocks_never_overlap_witness :
  let s := Heap.heap_init Heap.boot_state in
  let r1 := Heap.kmalloc 100 s in
  let r2 := Heap.kmalloc 100 (Heap.run_all [Heap.CKfree (fst r1)] (snd r1)) in
  fst r1 + 100 <= fst r2 /\ HeapSpec.disjoint (fst r1) 100 (fst r2) 100.
Proof.
  intros s r1.
  apply (kmalloc_blocks_never_overlap s 100 100 [Heap.CKfree (fst r1)]).
  - apply (Heap.reachable_step Heap.boot_state Heap.CHeapInit Heap.reachable_boot I).
  - lia.
  - lia.
  - vm_compute. repeat split; discriminate.
  - repeat constructor. discriminate.
  - vm_compute. discriminate.
  - vm_compute. discriminate.
Defined.

(** X29.  The accounting of the heap follows the position.  In a reachable,
    initialised state the bytes counted as allocated are the bytes between
    [KERNEL_HEAP_START] and the current position, and no byte is ever
    counted as freed.  [heap_update_statistics] therefore sets the
    fragmentation level to the percentage of the heap that has been handed
    out, between 0 and 100, and the peak usage to the larger of the old peak
    and the bytes allocated. *)
Theorem heap_accounting_follows_position (s : Heap.heap_state) :
  Heap.reachable s ->
  Heap.heap_initialized s = true ->
  let st := Heap.statistics (Heap.kernel_heap s) in
  let st' := Heap.statistics (Heap.kernel_heap (Heap.heap_update_statistics s)) in
  Heap.bytes_allocated st = Heap.heap_current_pos s - Heap.KERNEL_HEAP_START /\
  Heap.bytes_freed st = 0 /\
  Heap.fragmentation_level st' =
    Heap.bytes_allocated st * 100 / (Heap.KERNEL_HEAP_END - Heap.KERNEL_HEAP_START) /\
  0 <= Heap.fragmentation_level st' <= 100 /\
  Heap.peak_usage st' = Z.max (Heap.peak_usage st) (Heap.bytes_allocated st).
Proof.
  intros Hreach Hi st st'.
  pose proof (HeapFacts.reachable_laid_out s Hreach) as Hl.
  unfold HeapSpec.laid_out in Hl. rewrite Hi in Hl.
  destruct Hl as (L1 & L2 & L3 & L4 & L5 & L6 & L7).
  fold st in L6, L7.
  unfold Heap.KERNEL_HEAP_START, Heap.KERNEL_HEAP_END in *.
  split; [exact L6|]. split; [exact L7|].
  assert (Hu : u64 (Heap.bytes_allocated st - Heap.bytes_freed st)
               = Heap.bytes_allocated st).
  { rewrite L7. unfold u64, wrap. rewrite Z.mod_small by lia. lia. }
  subst st'. unfold Heap.heap_update_statistics. rewrite Hi. cbn [negb]. cbv zeta.
  fold st. rewrite Hu.
  set (s1 := if Heap.peak_usage st <? Heap.bytes_allocated st then _ else s).
  assert (H1 : Heap.total_size (Heap.kernel_heap s1) = 4194304 - 2097152 /\
               Heap.peak_usage (Heap.statistics (Heap.kernel_heap s1))
               = Z.max (Heap.peak_usage st) (Heap.bytes_allocated st)).
  { unfold s1. destruct (Z.ltb_spec (Heap.peak_usage st) (Heap.bytes_allocated st)).
    - split; [exact L3|]. cbn. lia.
    - split; [exact L3|]. fold st. lia. }
  clearbody s1. destruct H1 as (T1 & T2). rewrite T1.
  change (0 <? 4194304 - 2097152) with true.
  cbn [Heap.statistics Heap.kernel_heap Heap.on_statistics Heap.set_heap
       Heap.set_statistics Heap.set_usage Heap.fragmentation_level Heap.peak_usage].
  assert (Hq : 0 <= Heap.bytes_allocated st * 100 / (4194304 - 2097152) <= 100).
  { split; [apply Z.div_pos; lia|]. apply Z.div_le_upper_bound; lia. }
  assert (Hf : u32 (u64 (Heap.bytes_allocated st * 100) / (4194304 - 2097152))
               = Heap.bytes_allocated st * 100 / (4194304 - 2097152)).
  { unfold u32, u64, wrap. rewrite (Z.mod_small (_ * 100)) by lia.
    apply Z.mod_small. lia. }
  rewrite Hf. split; [reflexivity|]. split; [exact Hq | exact T2].
Qed.

(** X29 after two allocations. *)
Lemma heap_accounting_follows_position_witness :
  let s := Heap.run_all [Heap.CHeapInit; Heap.CKmalloc 100; Heap.CKmalloc 5000]
             Heap.boot_state in
  let st := Heap.statistics (Heap.kernel_heap s) in
  let st' := Heap.statistics (Heap.kernel_heap (Heap.heap_update_statistics s)) in
  Heap.bytes_allocated st = Heap.heap_current_pos s - Heap.KERNEL_HEAP_START /\
  Heap.bytes_freed st = 0 /\
  Heap.fragmentation_level st' =
    Heap.bytes_allocated st * 100 / (Heap.KERNEL_HEAP_END - Heap.KERNEL_HEAP_START) /\
  0 <= Heap.fragmentation_level st' <= 100 /\
  Heap.peak_usage st' = Z.max (Heap.peak_usage st) (Heap.bytes_allocated st).
Proof.
  intros s. apply (heap_accounting_follows_position s).
  - unfold s. cbn [Heap.run_all].
    apply Heap.reachable_step; [|cbn; lia].
    apply Heap.reachable_step; [|cbn; lia].
    apply (Heap.reachable_step Heap.boot_state Heap.CHeapInit Heap.reachable_boot I).
  - vm_compute. reflexivity.
Defined.

(** X30.  [kfree] gives no memory back and checks nothing.  In every state
    and for every pointer, [kmalloc] after the [kfree] returns what it would
    have returned without it, and the current position is the same.  On an
    initialised heap every pointer other than [NULL], whether it was
    allocated or not and whether it was freed before or not, is counted as a
    free, and the count of live allocations goes down by one modulo 2^64;
    otherwise the call changes nothing. *)
Theorem kfree_gives_no_memory_back (s : Heap.heap_state) (ptr size : Z) :
  let s' := Heap.kfree ptr s in
  fst (Heap.kmalloc size s') = fst (Heap.kmalloc size s) /\
  Heap.heap_current_pos s' = Heap.heap_current_pos s /\
  (if Heap.heap_initialized s && negb (ptr =? 0)
   then Heap.total_frees (Heap.statistics (Heap.kernel_heap s'))
          = u64 (Heap.total_frees (Heap.statistics (Heap.kernel_heap s)) + 1) /\
        Heap.current_allocations (Heap.statistics (Heap.kernel_heap s'))
          = u64 (Heap.current_allocations (Heap.statistics (Heap.kernel_heap s)) - 1)
   else s' = s).
Proof.
  intros s'. subst s'. unfold Heap.kfree.
  destruct (ptr =? 0); cbn [orb negb andb];
    [rewrite Bool.andb_false_r; repeat split|].
  destruct (Heap.heap_initialized s) eqn:Hi; cbn [negb andb]; [|repeat split].
  split; [|split; [reflexivity | split; reflexivity]].
  unfold Heap.kmalloc.
  cbn [Heap.heap_initialized Heap.heap_current_pos Heap.kernel_heap Heap.end_address
       Heap.on_statistics Heap.set_heap Heap.set_statistics Heap.set_heap_current_pos].
  rewrite Hi. cbn [negb orb].
  repeat match goal with
         | |- context [if ?b then _ else _] => destruct b
         end; reflexivity.
Qed.
